(* ===== verification/_CoqProject ===== *)
-Q . S2P
Prelude.v
Codec.v
Js.v
Externals.v
Effects.v
Samples.v
Browsers.v
Server.v
Discovery.v
Sequencer.v
Machine.v
Main.v
Script.v
Typing.v
Cost.v
Schedule.v
Served.v
Leaks.v
Console.v
Faults.v
Lifecycle.v
Hangs.v
Safety.v
Waits.v
Timing.v
Static.v
Cache.v
