(* ===== verification/Prelude.v ===== *)
(** * Verification of run-e2e-tests.js: the end-to-end test orchestrator

    The program under verification is [src/run-e2e-tests.js], a Node script
    that serves the [docs] directory over HTTP, asks selenium-assistant for
    the locally installed browsers, keeps the stable Chrome, opens a
    WebDriver session on each kept browser, and then, one driver after the
    other, discovers the [*.e2etest.js] suites under [elements/], loads
    them into a fresh Mocha instance, injects the driver and the server
    address into every top-level suite and runs Mocha.  At the end it kills
    the browser sessions, closes the server and turns the outcome into a
    process exit code.

    ** How the script is modelled

    The script is a shallow embedding: every function of the source is one
    Rocq definition with the source's name, and [async]/[await] code is
    written in a state-and-exception monad [Prog] ([Effects.v]) whose state
    records what the script can observe or change: the HTTP server, the
    store of live WebDriver sessions, the counter of driver handles and the
    chronological trace of effects (listen, driver acquisitions, directory
    reads, [require]s, Mocha runs, kills, console output, [process.exit]).
    A rejected promise and a thrown exception are the same thing to an
    [await], so both are the [Rejected] outcome of [Prog]; the value thrown
    is a JavaScript value ([Js.JsVal]), because the script distinguishes
    [undefined] from an [Error] with a [stack] (see [Main.v]).  A promise
    that is created and awaited later ([startServer], [fs.readdir],
    [killWebDriver]) is a [Promise] value: its outcome and the time at
    which it settles; [Promise_all] rejects with the reason of the member
    that settles first.

    The definitions are of three kinds, and the files keep them apart.
    The translations carry the names of the source and follow it line by
    line ([browserFilter], [buildMocha], [runTests], [main], ...; for the
    runs with faults, the pieces of [main] between two awaits:
    [Lifecycle.main_calls], [begin_teardown], [end_teardown], [handlers],
    and [Faults.discover]).  The collaborators ([Js.v], [Externals.v],
    [Effects.v], the runner of [Timing.v], the middleware of [Static.v], the
    faults of [Faults.v], the module cache of [Cache.v]) are not code of
    the repository: they are assumptions, written from the documented
    behaviour of the libraries,
    and the theorems hold of the script on those assumptions.  Everything
    else is specification: the closed forms ([built], [run_all], [verdict],
    [started], [tested], [torn_down], [finish], [transcript], [hangs],
    ...), the transition systems of [Machine.v] (the state machine of the
    specification) and [Lifecycle.v], invariants and relations.  They
    translate no line of the script; the theorems relate them to the
    translations.

    Everything the script does not decide itself is an oracle of the
    [World] record ([Effects.v]): which browsers are installed, what the
    file system holds, which port the OS assigns, when a promise settles,
    whether a driver can be obtained or killed, what a suite file declares
    when it is required, how many failures a Mocha run reports, and which
    libraries [require] finds.
    Theorems quantify over all worlds and all start states; those that
    describe one path of the script name the path by a hypothesis on the
    world and are instantiated on the closed worlds of [Samples.v], where
    the definitions evaluate by [vm_compute].

    The script itself needs no fuel: every loop of it is a traversal of a
    finite list ([map], [filter], [some], [forEach], [reduce]) and is
    modelled by structural recursion on that list, so every definition is
    total and every run of the model ends with an outcome.  [Prog] cannot
    say that the script is waiting; the runs in which an operation never
    completes are those of the transition system of [Lifecycle.v], which
    cuts the script at its awaits and is proved to have the runs of [Prog]
    when every operation completes.  Fuel is used by the two step
    functions only, and the bounds that make it enough are proved with
    them: [1 + 5 * length drivers] steps for the sequencer ([Machine.v]:
    four steps and a hand-over per driver, and the final step) and
    [8 + 5 * length (targets w)] for the whole script ([Lifecycle.v]: the
    imports, the calls of the startup, its await, the steps of the
    sequencer, the two halves of the teardown and the handlers).  Ports
    and timeouts are binary naturals ([N]); the only arithmetic on them is
    the sum of the durations of tests in [Timing.v], which is unbounded, so
    no width is involved.

    ** Files, in dependency order

    - [Prelude.v] (this file): the hint databases [e2e], the shared
      tactics, the substring search [str_includes] with its specification,
      the ordering predicates on event lists ([all_before]) and list lemmas
      used by several components.
    - [Codec.v]: printers with their parsers: the class [Codec] (a [show],
      a [read] and the law that reading what was shown gives it back), the
      class [Exact] (only what [show] prints is read), the decimal numerals
      and the combinators for a fixed text before or after a value and for
      a value printed twice.  The templates of the script are instances.
    - [Js.v]: the fragment of JavaScript the script relies on: values and
      truthiness, property access [.stack], [Array.prototype.includes],
      [some], [filter], and literal regular expressions ([regex_test], the
      unanchored search of [RegExp.prototype.test], proved equivalent to
      the substring search).
    - [Externals.v]: the data of the collaborators as the script sees them:
      the browser descriptor of selenium-assistant with its launch options,
      the WebDriver session, the Mocha instance with its files, root
      timeout and top-level suites with their contexts, and the file-system
      nodes.
    - [Effects.v]: [Event], [State], [World], the monad [Prog] with its laws,
      [try_catch], [Promise_all], the operations of the collaborators
      ([readdir], [listen], [server_close], [getSeleniumDriver],
      [setScriptTimeout], [killWebDriver], [loadFiles], [run], ...), the
      state invariant [state_ok], and the class [Frame R m] ("running [m]
      relates the state before to the state after by [R]") with the
      relations [trace_ext], [same_server], [same_sessions] and
      [preserving P], an instance for every operation and for every way of
      composing programs.  A component obtains its footprint and the
      preservation of the invariant from these instances alone.  Programs
      that behave alike from every state are equivalent ([≡]); [bind] and
      [try_catch] are [Proper] for it, so the monad laws rewrite inside
      programs.
    - [Samples.v]: closed worlds: the machine of the specification's
      scenarios and variations in which one collaborator misbehaves.
    - [Browsers.v]: [browserFilter], [unsandboxChrome] and the provisioning
      pipeline of [main] (lines 7-10, 42-50, 60-67).
    - [Server.v]: [startServer] and the address template (lines 12-19, 71).
    - [Discovery.v]: [buildMocha] (lines 21-40), and [built], the outcome
      and events of one discovery as a function of the world.
    - [Sequencer.v]: [runMocha] and [runTests] (lines 89-110), and
      [run_all], the sequential loop that the promise chain implements,
      with its outcome in closed form ([verdict]).
    - [Machine.v]: the sequencer as a transition system: the per-driver
      state machine of the specification and the chain over the drivers, as
      step relations labelled with events and as step functions
      ([run_machine], which needs [1 + 5 * length drivers] steps: four
      steps and a hand-over per driver, and the final step).
    - [Main.v]: [main] and the top-level promise chain (lines 52-87,
      112-120).
    - [Script.v]: the imports of lines 1-5 and the file as Node runs it:
      a library that is missing makes [require] throw at the top of the
      module, before anything else runs.
    - [Typing.v]: a small language of types for the values of [Js], the
      judgement [Typed ok err m] (every run of [m] is fulfilled within [ok]
      or rejected with a reason of type [err]) with one rule per construct
      of the monad, and its derivation for every function of the script.
    - [Cost.v]: events priced by their kind, the judgement
      [Costs price n ok m] (no run of [m] appends events worth more than
      [n]) with its rules, and the budget of every function of the script.
    - [Schedule.v]: machines that differ only in the latencies of their
      operations, the relation [Sim E R] between programs that run alike on
      such machines, for which the constructs of the monad are [Proper],
      and its derivation for every function of the script.
    - [Served.v]: the check [served] that replays a trace and accepts a
      Mocha run only while the server listens on the port the suites hold
      and the driver they hold is alive.
    - [Leaks.v]: what is left open at the end of a run: [clean] decides it
      from the world.
    - [Console.v]: the console of a run: the projection of the trace onto
      standard output and standard error ([console]), and what a run
      prints as a function of the machine ([transcript]).
    - [Faults.v]: the operations that may never complete.  [Faults] lists
      them: the ['listening'] event of the server, the listing of a
      directory ([fs.readdir], by path), the callback of [mocha.run], the
      promise of a [killWebDriver].  [Fate] is what an await finds (a
      promise that settles, or nothing ever) and [Fate_all] is
      [Promise.all] over promises that may stay pending: it settles as
      soon as a member rejects, and stays pending otherwise while a member
      does.  [discover] is [buildMocha] (lines 21-40) cut at its two
      awaits of listings, with [unread], the listings it waits for, and
      [issued], the reads it has started by then, in closed form.
    - [Lifecycle.v]: the script suspended at its awaits.  A configuration
      is a [Stage] (before the imports, at the await of line 58, in the
      [try] statement with the configuration of the sequencer, in a
      discovery that waits for listings, at the await of line 81, before
      the handlers of line 112, ended) and the state; a step ([life_step],
      computed by [life_next]) resumes the script and runs the programs of
      the component files up to the next await.  [rest] is what is left of
      the script in a stage, as a program of [Prog].
    - [Hangs.v]: the state at every await of [main] in closed form
      ([life_inv], an invariant of the steps), what is open while the
      script waits, and the configuration in which a run comes to rest for
      each of the four faults.
    - [Safety.v]: what holds at every configuration of a run, however the
      collaborators fail.  The classes [Footprint R] and [TestFootprint R]
      list what a relation on states must satisfy of the operations of the
      collaborators for every step of the script to be in it; the state
      invariant, the growth of the trace and [quiet_ext] (nothing but
      reads, [require]s and runs is appended) are instances.
    - [Waits.v]: [hangs h w s], the operation a run will wait for without
      end, computed from the oracles block by block as the script is
      written, without running the steps.
    - [Timing.v]: a Mocha run opened up: the tests of the suites, each
      calling back after some time or never, run one after the other under
      the timeout of their suite; [with_tests] is the machine whose failure
      counts are those of the tests.
    - [Static.v]: the request handler of the server (lines 14-16): the
      express application with its one middleware, and the class [Static]
      that states what the script relies on of [express.static], with a
      reference middleware as its instance.
    - [Cache.v]: the module cache of Node.  [buildMocha] and the reducer
      of [runTests] are translated once more over a [loadFiles] that
      evaluates a file at its first [require] only
      ([Cache.buildMocha_cached], [reducer_cached], [runTests_cached]); the
      set of modules loaded so far is passed from one discovery to the
      next.

    ** What the theorems show

    - Browsers: when the provisioning succeeds, the handles it returns are
      those of the installed stable Chromes, in the order of the
      installation list, and of no other browser (the comment of line 56
      speaks of all stable browsers); each has a session with [--no-sandbox]
      appended to the launch arguments and a script timeout of 60000 ms, and
      no other session is touched; browsers that are not the stable Chrome
      are returned unchanged by [unsandboxChrome]; the provisioning stops at
      the first driver that cannot be obtained.
    - Server: [startServer] never rejects; the port is read back from the
      address by the parser of the template (so addresses of different
      ports differ).
    - Discovery: the regular expression is a substring search for
      [.e2etest.js]; a directory contributes a suite iff one of its file
      names contains that text; registration keeps the listing order; the
      root timeout is set before the files are loaded, so every top-level
      suite inherits 60000 ms; the three ways discovery fails; discovery
      touches neither the server nor the sessions; reading the registered
      paths with the parser of the path template gives back the discovered
      units, in order.
    - Sequencer: the chain built by [reduce] refines the sequential loop
      [run_all]; drivers are processed in order, one discovery per driver
      reached, nothing happens after the first rejection, every run
      carries its driver and the server address; a run with failures
      rejects with [undefined]; the chain for a concatenated list is the
      two chains in sequence.
    - Machine: the transition system is deterministic, every step
      decreases a size, so every run is finite; its complete runs are
      exactly the runs of [runTests]; in every reachable configuration the
      drivers before the current one have finished successfully (the
      ordering guarantee of the specification).  The machine is the
      specification's: every operation it waits for completes.
    - Main: on every machine the process ends with the event loop drained
      (code 0), with [process.exit(1)], or, when [main] is rejected with
      [undefined] or [null], in an unhandled rejection; it ends with code
      0 exactly when every driver starts, [err] is empty at the end of the
      [try] statement and every kill succeeds.  When the collaborators
      throw only [Error] objects ([Effects.world_ok]) the exit code is 0
      exactly when every driver starts, discovery works, no run reports a
      failure and every driver is killed, and 1 in every other case;
      without that condition a suite file that throws a string ends the
      process with code 0 although no test has run.  The blocks of [main]
      happen in order and the server is never closed before a kill; the
      state invariant holds at the end of every run.  The theorems also
      establish where the script
      departs from its specification: after failing tests the [catch] block
      of [main] reads [.stack] of [undefined] and throws, so the teardown
      is skipped and the server and the browsers are left running; a
      failing discovery ends in exit code 1 without any message; a failing
      kill leaves the server open; a driver that cannot be started leaves
      the server and the earlier drivers open.

    - Script: a missing library ends the process with exit code 1 and
      the error of the first missing one, with no other effect; otherwise
      the script is the promise chain, with the exit code above.
    - Typing: when the collaborators throw only [Error] objects, [main]
      is fulfilled with [undefined] or a non-empty string and rejected only
      with an [Error], so the two handlers of the chain find the types they
      expect and the chain never ends in an unhandled rejection; a kill
      rejected with [undefined] shows the assumption is needed.
    - Cost: a run appends events worth at most [budget w price], for every
      price: with [n] target browsers and [u] entries in [elements/], [n]
      sessions opened, [n * (1 + u)] directories read, [n * u] files
      required, [n] Mocha runs, [n] kills, one listen, one close and at
      most one call of [process.exit].
    - Schedule: on two machines that differ only in latencies and whose
      kills reject with [Error] objects only, the script ends the same
      way, leaves the same server and sessions and causes the same events
      one by one, up to the text printed by [console.error]; which error is
      printed when several kills fail does depend on the latencies, and
      when a kill may be rejected with a value that is not an [Error], so
      does the way the process ends.
    - Served: in every run, Mocha runs only while the server listens, with
      suites that hold the address of its port and a driver whose session
      is open.
    - Leaks: at the end of the script the server is closed exactly when the
      run is clean, the session store of a clean run is the one it started
      with, and on every machine a run that ends without [process.exit]
      is clean.
    - Console: what a run prints from its start to its end is
      [transcript], for every machine; with collaborators that throw only
      [Error] objects, standard error stays empty exactly in the clean
      runs, so the one failure that leaves no message is a failing
      discovery; [Done.] is printed exactly in the runs at whose end the
      server is closed.
    - Lifecycle: the step function computes the step relation, which is
      deterministic; every step decreases a size, so every run comes to
      rest within the fuel, and at rest the process has ended or the script
      waits for one of the four operations; a step that does not stop in a
      discovery leaves [rest] unchanged, so without faults the runs that
      end are exactly the runs of [Script.script] (the awaits of the script
      are the binds of [Prog]), and with faults that can only delay (the
      server starts, the pending kills would have succeeded) a run that
      ends, ends as the script does.
    - Faults: [Fate_all] agrees with [Promise_all] when every member
      settles; a discovery either waits, having started exactly the reads
      of [issued], or is [buildMocha]; a listing that does not arrive is
      masked by a sibling that fails.
    - Hangs: whenever a run waits for ever, the server and the sessions are
      in a known state: waiting for the server every browser is open and
      nothing listens; waiting for a run the server listens and every
      session is open; waiting for the kills the server is never closed.
      A server that fails without a sign leaves the script at line 58 for
      ever, one that emits ['error'] ends the process with code 1 through
      the runtime, in both cases with every browser open; the script hangs
      at the first run that never calls back, after the runs before it; a
      listing that never arrives keeps the script in the discovery of the
      first driver, with the server listening, every browser open and
      nothing but directory reads done for the tests.
    - Safety: at every configuration of every run, whatever the faults,
      the state invariant holds and Mocha has run only while the server
      listened, with the address of its port and a live driver; with
      faults that can only delay, the trace at every configuration is a
      prefix of the trace of [Script.script]: a run that waits has done
      nothing the complete run does not do, in the same order.
    - Waits: the operation a configuration will wait for is the same
      before and after every step, and at rest it is the operation the
      script waits for; so every run comes to rest waiting for [hangs h w
      s], and the process ends iff [hangs] finds nothing to wait for.  In
      particular it ends when the server does not fail without a sign,
      the listings arrive, every run calls back and every kill settles.
    - Timing: on the assumption that Mocha runs the tests as its
      documentation says, with the timeout of line 37 every run of a Mocha
      the script built calls back, after at most 60 s per test; a test that
      fails, takes more than 60 s or never calls back is a failure; and,
      with collaborators that throw only [Error] objects, a server that
      starts, listings that arrive and kills that settle, the process ends,
      with code 0 exactly when every driver starts, every test of every
      suite is in time on every driver and every kill succeeds.
    - Static: in every run, with or without faults, a request to the
      address the suites hold is answered by the application while the
      tests run, and still while the script waits for a listing or for the
      kills.  What the application answers is an assumption about
      [express.static] (the class [Static]); the lemmas derive from it that
      nothing outside [docs] is served.
    - Cache: under the module cache the first discovery is that of
      [buildMocha]; every later one reads the directories again and
      registers the same files but evaluates none, so its Mocha has no
      suite.  With several drivers [runTests] settles as it does for the
      first driver alone, and every later run is the run of an empty
      Mocha: the suites are run on the first driver only, where the
      specification has them run on every driver.

    ** What is not modelled

    The internals of http, selenium-webdriver and the WebDriver protocol
    (they are oracles); the implementation of [express.static], of which
    only an interface is assumed, and the parsing of URLs, headers and
    bodies; the implementation of Mocha's runner, of which [Timing.v]
    assumes the documented behaviour (tests run one after the other, each
    under the timeout of its suite); the assertions of the test suites and
    the pages they load (a test is a duration and a verdict); Mocha's hooks, nested suites,
    retries and reporters; the script timeout of 60 s that line 65 sets on
    each driver (its value is recorded in the session, its expiry belongs
    to the WebDriver commands the suites send); the promise that
    [setScriptTimeout] returns, which the script drops; and the
    interleaving of the microtask queue beyond the settle order that
    [Promise_all] observes.  Of the operations that may never complete,
    four are faults of the model; a [getSeleniumDriver] that never returns,
    a suite file that never returns from [require] and a listing that
    neither arrives nor fails although the read is bound to fail are not:
    a read that the machine lets fail, fails ([Faults.stays_pending]), so
    that a discovery that does not wait is [buildMocha].

    Simplifications of the collaborators, which the theorems inherit.
    Node caches the modules it has loaded: a suite file is evaluated at the
    first [require] only, so with several target browsers the suites of the
    second Mocha instance are not declared again.  The main model follows
    the specification, which has the discovery re-executed for every
    driver and not cached: [Effects.loadFiles] evaluates the files at every
    call.  With one target browser, as on the sample machines of
    [Samples.v], the two agree; [Cache.v] models the cache and proves what
    changes with more than one.
    [getSeleniumDriver] fails only by throwing when it is called; a
    session that fails later is a matter of the suites.  [killWebDriver]
    closes the session and is recorded in the trace when it is called; its
    promise only reports the result.  A value thrown or given to [reject]
    is [undefined], [null], a string or an [Error] ([Js.JsVal]): a string
    stands for any value whose [stack] is [undefined], and the [stack] of
    an [Error] is a string ([Js.is_error]: a non-empty one, as that of
    every error created by [new Error]).  When the server emits ['error']
    the model takes the runtime to end the process with code 1 and the
    error on standard error, as Node does for an ['error'] event without a
    listener; whether the server fails, and how, is the oracle
    [Faults.listen_fault].

    Of the source, only the blank lines have no definition: every function
    and every top-level statement of the file is modelled, so what remains
    can only be refined inside the collaborators, whose code is not part of
    the repository. *)

From stdpp Require Import base tactics list strings.

(** The development's hint database: introduction lemmas of the shared
    predicates go here, so that [eauto with e2e] closes routine goals. *)
Create HintDb e2e discriminated.
Create Rewrite HintDb e2e.

(** ** Shared tactics *)

(** [by_parts f]: a class instance for the program [f] follows from the
    instances of the operations [f] is composed of. *)
Tactic Notation "by_parts" reference(f) := unfold f; apply _.
Tactic Notation "by_parts" reference(f) "and" reference(g) "and" reference(h) :=
  unfold f, g, h; apply _.

(** [evaluated]: close a goal on closed terms by evaluation, splitting
    conjunctions first. *)
Ltac evaluated := vm_compute; by split_and?.

(** ** Substring search *)

(** [str_includes needle hay]: does [needle] occur in [hay]?  The search
    tries every start position from left to right, as an unanchored
    regular-expression search does. *)
Fixpoint str_includes (needle hay : string) : bool :=
  String.prefix needle hay ||
  match hay with
  | EmptyString => false
  | String _ hay' => str_includes needle hay'
  end.

(** [occurs_before a b l]: some occurrence of [a] precedes some occurrence
    of [b] in [l]. *)
Definition occurs_before {A} (a b : A) (l : list A) : Prop :=
  ∃ l1 l2 l3, l = l1 ++ a :: l2 ++ b :: l3.

(** [all_before P Q l]: no element satisfying [Q] is followed by an element
    satisfying [P]; equivalently the [P]-part of [l] ends before the
    [Q]-part starts. *)
Fixpoint all_before {A} (P Q : A → bool) (l : list A) : bool :=
  match l with
  | [] => true
  | x :: l' => (negb (Q x) || forallb (λ y, negb (P y)) l') && all_before P Q l'
  end.

(** ** Lemmas on strings *)

Lemma prefix_app (n post : string) : String.prefix n (n +:+ post) = true.
Proof.
  induction n as [|a n IH]; simpl; [by destruct post|].
  by destruct (Ascii.ascii_dec a a).
Qed.

Lemma prefix_inv (n h : string) :
  String.prefix n h = true → ∃ post, h = n +:+ post.
Proof.
  revert h. induction n as [|a n IH]; intros [|b h]; simpl; eauto; [done|].
  destruct (Ascii.ascii_dec a b) as [->|]; [|done].
  intros [post ->]%IH. by exists post.
Qed.

Lemma prefix_iff (n h : string) :
  String.prefix n h = true ↔ ∃ post, h = n +:+ post.
Proof. split; [apply prefix_inv|]. intros [post ->]. apply prefix_app. Qed.

Lemma str_includes_nil n : str_includes n "" = String.prefix n "".
Proof. simpl. apply orb_false_r. Qed.

Lemma str_includes_cons n c h :
  str_includes n (String c h) = String.prefix n (String c h) || str_includes n h.
Proof. done. Qed.

Lemma str_includes_spec n h :
  str_includes n h = true ↔ ∃ pre post, h = pre +:+ n +:+ post.
Proof.
  split.
  - induction h as [|c h IH].
    + rewrite str_includes_nil. intros [post ->]%prefix_inv. by exists "", post.
    + rewrite str_includes_cons, orb_true_iff.
      intros [[post ->]%prefix_inv|(pre & post & ->)%IH].
      * by exists "", post.
      * by exists (String c pre), post.
  - intros (pre & post & ->). induction pre as [|c pre IH].
    + change ("" +:+ n +:+ post) with (n +:+ post).
      destruct (n +:+ post) eqn:E;
        rewrite ?str_includes_nil, ?str_includes_cons, <- E, prefix_app; done.
    + change (String c pre +:+ n +:+ post) with (String c (pre +:+ n +:+ post)).
      by rewrite str_includes_cons, IH, orb_true_r.
Qed.

Lemma string_app_nil_r (s : string) : s +:+ "" = s.
Proof. induction s as [|c s IH]; simpl; [done|]. unfold String.app in *. by rewrite IH. Qed.

Lemma string_app_assoc (s1 s2 s3 : string) : (s1 +:+ s2) +:+ s3 = s1 +:+ s2 +:+ s3.
Proof.
  induction s1 as [|c s1 IH]; [done|].
  change (String c (s1 +:+ s2) +:+ s3 = String c (s1 +:+ s2 +:+ s3)).
  change (String c ((s1 +:+ s2) +:+ s3) = String c (s1 +:+ s2 +:+ s3)).
  by rewrite IH.
Qed.

Lemma string_app_length (s1 s2 : string) :
  String.length (s1 +:+ s2) = String.length s1 + String.length s2.
Proof. induction s1 as [|c s1 IH]; [done|]. simpl. unfold String.app in *. by rewrite IH. Qed.

(** ** Lemmas on lists *)

Section list_facts.
Context {A B : Type}.
Implicit Types (l k : list A) (p q : A → bool).

Lemma existsb_elem_of p l : existsb p l = true ↔ ∃ x, x ∈ l ∧ p x = true.
Proof. rewrite existsb_exists. by setoid_rewrite list_elem_of_In. Qed.

Lemma forallb_elem_of p l : forallb p l = true ↔ ∀ x, x ∈ l → p x = true.
Proof. rewrite forallb_forall. by setoid_rewrite list_elem_of_In. Qed.

(** A list all of whose elements satisfy a decidable property, or the
    first element that does not. *)
Lemma first_failure (P : A → Prop) `{!∀ x, Decision (P x)} (l : list A) :
  Forall P l ∨ ∃ l1 x l2, l = l1 ++ x :: l2 ∧ Forall P l1 ∧ ¬ P x.
Proof.
  induction l as [|a l [IH|(l1 & x & l2 & -> & Hl1 & Hx)]].
  - by left.
  - destruct (decide (P a)) as [Ha|Ha]; [left; by constructor|].
    right. by exists [], a, l.
  - destruct (decide (P a)) as [Ha|Ha].
    + right. exists (a :: l1), x, l2. by repeat constructor.
    + right. by exists [], a, (l1 ++ x :: l2).
Qed.

(** Nothing passes a filter exactly when no element has the property. *)
Lemma filter_nil_Forall (P : A → Prop) `{!∀ x, Decision (P x)} (l : list A) :
  filter P l = [] ↔ Forall (λ x, ¬ P x) l.
Proof.
  induction l as [|a l IH]; [done|]. rewrite filter_cons, Forall_cons.
  destruct (decide (P a)); [|rewrite IH; tauto]. split; [done|by intros [? _]].
Qed.

Lemma filter_bool_elem_of p l x : x ∈ filter (λ y, Is_true (p y)) l ↔ p x = true ∧ x ∈ l.
Proof. rewrite list_elem_of_filter. by rewrite Is_true_true. Qed.

Lemma filter_bool_all p l :
  (∀ x, x ∈ l → p x = true) → filter (λ y, Is_true (p y)) l = l.
Proof.
  induction l as [|x l IH]; intros Hall; [done|].
  rewrite filter_cons_True by (apply Is_true_true, Hall; left).
  f_equal. apply IH. intros y Hy. apply Hall. by right.
Qed.

Lemma filter_bool_idemp p l :
  filter (λ y, Is_true (p y)) (filter (λ y, Is_true (p y)) l) = filter (λ y, Is_true (p y)) l.
Proof. apply filter_bool_all. by intros x [? _]%filter_bool_elem_of. Qed.

Lemma occurs_before_app_l (a b : A) l k : occurs_before a b l → occurs_before a b (l ++ k).
Proof.
  intros (l1 & l2 & l3 & ->). exists l1, l2, (l3 ++ k).
  by rewrite <- !app_assoc, <- !app_comm_cons, <- app_assoc.
Qed.

Lemma occurs_before_app_r (a b : A) l k : occurs_before a b k → occurs_before a b (l ++ k).
Proof. intros (l1 & l2 & l3 & ->). exists (l ++ l1), l2, l3. by rewrite <- app_assoc. Qed.

Lemma occurs_before_split (a b : A) l k : a ∈ l → b ∈ k → occurs_before a b (l ++ k).
Proof.
  intros (l1 & l2 & ->)%list_elem_of_split (k1 & k2 & ->)%list_elem_of_split.
  exists l1, (l2 ++ k1), k2. by rewrite <- !app_assoc.
Qed.

Lemma all_before_app p q l k :
  all_before p q (l ++ k) =
  all_before p q l && all_before p q k
  && (negb (existsb q l) || forallb (λ y, negb (p y)) k).
Proof.
  induction l as [|x l IH]; simpl.
  - by rewrite andb_true_r.
  - rewrite IH, forallb_app. destruct (q x), (forallb _ l), (all_before p q l),
      (all_before p q k), (existsb q l), (forallb _ k); done.
Qed.

Lemma all_before_no_q p q l : existsb q l = false → all_before p q l = true.
Proof.
  induction l as [|x l IH]; simpl; [done|].
  intros [-> ?]%orb_false_iff. simpl. auto.
Qed.

Lemma all_before_no_p p q l : forallb (λ y, negb (p y)) l = true → all_before p q l = true.
Proof.
  induction l as [|x l IH]; simpl; [done|].
  intros [_ Hl]%andb_true_iff. rewrite Hl, orb_true_r. simpl. auto.
Qed.

End list_facts.

#[export] Hint Resolve occurs_before_app_l occurs_before_app_r occurs_before_split : e2e.
#[export] Hint Rewrite @all_before_app @forallb_app @existsb_app : e2e.
