(* ===== verification/Codec.v ===== *)
(** * Codec: printers and the parsers that read them back

    The script builds three kinds of text from data: the address of the
    server from its port (line 71), the directory of a unit and the path of
    its suite file from the unit's name (lines 26 and 36).  Whoever is
    handed such a text (a browser, [fs.readdir], [require]) has to find
    the data in it again.  [Codec] is the interface for that: a printer, a
    parser and the law that the parser inverts the printer.  This file has
    the class, the decimal codec of natural numbers, and the combinators
    that put a fixed text before or after a printed value; the components
    instantiate it on their templates. *)

From Stdlib Require Import Ascii.
From stdpp Require Import base tactics list strings numbers pretty.
From S2P Require Import Prelude.

(** ** Definitions *)

Class Codec (A : Type) := {
  show : A → string;
  read : string → option A;
  read_show : ∀ x, read (show x) = Some x;
}.
Global Hint Mode Codec ! : typeclass_instances.
Arguments show {A _} x : simpl never.
Arguments read {A _} s : simpl never.

(** A codec is exact when its parser accepts nothing but what the printer
    prints. *)
Class Exact (A : Type) `{Codec A} :=
  read_exact : ∀ (s : string) (x : A), read s = Some x → show x = s.
Global Hint Mode Exact ! - : typeclass_instances.

(** The first [n] characters of a string, and the rest. *)
Fixpoint string_take (n : nat) (s : string) : string :=
  match n, s with
  | S n', String c s' => String c (string_take n' s')
  | _, _ => ""
  end.

Fixpoint string_drop (n : nat) (s : string) : string :=
  match n, s with
  | S n', String _ s' => string_drop n' s'
  | _, _ => s
  end.

(** [s] without the text [p] at its start or at its end, when it is
    there. *)
Definition strip_prefix (p s : string) : option string :=
  if String.prefix p s then Some (string_drop (String.length p) s) else None.

Definition strip_suffix (p s : string) : option string :=
  let n := String.length s - String.length p in
  if bool_decide (String.length p ≤ String.length s ∧ string_drop n s = p)
  then Some (string_take n s) else None.

(** A text of the form [x sep x], read by its length. *)
Definition read_twice (sep s : string) : option string :=
  let x := string_take ((String.length s - String.length sep) / 2) s in
  if bool_decide (s = x +:+ sep +:+ x) then Some x else None.

(** The value of a decimal digit. *)
Definition digit_of (c : ascii) : option N :=
  let n := N_of_ascii c in
  if bool_decide (48 ≤ n ≤ 57)%N then Some (n - 48)%N else None.

(** The number a string of decimal digits denotes, after the digits that
    gave [acc]. *)
Fixpoint read_digits (s : string) (acc : N) : option N :=
  match s with
  | "" => Some acc
  | String c s' => d ← digit_of c; read_digits s' (10 * acc + d)%N
  end.

Definition read_N (s : string) : option N :=
  if bool_decide (s = "") then None else read_digits s 0.

(** ** Strings *)

Lemma string_take_app (a b : string) : string_take (String.length a) (a +:+ b) = a.
Proof. induction a as [|c a IH]; simpl; [by destruct b|by rewrite IH]. Qed.

Lemma string_drop_app (a b : string) : string_drop (String.length a) (a +:+ b) = b.
Proof. by induction a. Qed.

Lemma string_take_drop n (s : string) : string_take n s +:+ string_drop n s = s.
Proof.
  revert s. induction n as [|n IH]; intros [|c s]; try done.
  cbn [string_take string_drop]. change (String c ?a +:+ ?b) with (String c (a +:+ b)).
  by rewrite IH.
Qed.

Lemma strip_prefix_app (p s : string) : strip_prefix p (p +:+ s) = Some s.
Proof. unfold strip_prefix. by rewrite prefix_app, string_drop_app. Qed.

Lemma strip_prefix_Some (p s t : string) : strip_prefix p s = Some t → s = p +:+ t.
Proof.
  unfold strip_prefix. destruct (String.prefix p s) eqn:E; [|done].
  intros [= <-]. apply prefix_iff in E as [post ->]. by rewrite string_drop_app.
Qed.

Lemma strip_suffix_app (s p : string) : strip_suffix p (s +:+ p) = Some s.
Proof.
  unfold strip_suffix. rewrite string_app_length.
  replace (String.length s + String.length p - String.length p) with (String.length s) by lia.
  rewrite string_drop_app, string_take_app, bool_decide_eq_true_2; [done|]. split; [lia|done].
Qed.

Lemma strip_suffix_Some (p s t : string) : strip_suffix p s = Some t → s = t +:+ p.
Proof.
  unfold strip_suffix. set (n := _ - _). case_bool_decide as H; [|done].
  destruct H as [_ H]. intros [= <-]. rewrite <- (string_take_drop n s) at 1. by rewrite H.
Qed.

Lemma read_twice_app (sep x : string) : read_twice sep (x +:+ sep +:+ x) = Some x.
Proof.
  unfold read_twice. rewrite !string_app_length.
  replace (_ + (_ + _) - _) with (String.length x * 2) by lia.
  rewrite Nat.div_mul by done.
  by rewrite string_take_app, bool_decide_eq_true_2.
Qed.

Lemma read_twice_Some (sep s x : string) : read_twice sep s = Some x → s = x +:+ sep +:+ x.
Proof. unfold read_twice. case_bool_decide as H; [|done]. by intros [= <-]. Qed.

(** ** Decimal numbers *)

Lemma digit_of_pretty (x : N) : (x < 10)%N → digit_of (pretty_N_char x) = Some x.
Proof.
  intros Hx. rewrite <- (N2Nat.id x). assert (N.to_nat x < 10) as Hn by lia.
  revert Hn. generalize (N.to_nat x). clear. intros n Hn.
  do 10 (destruct n as [|n]; [done|]). lia.
Qed.

(** The digits [pretty_N_go] puts before [s] are read back as [x]. *)
Lemma read_digits_pretty_go (x : N) (s : string) :
  read_digits (pretty_N_go x s) 0 = read_digits s x.
Proof.
  revert s. induction (N.lt_wf_0 x) as [x _ IH]; intros s.
  destruct (decide (x = 0)%N) as [->|Hx]; [done|].
  rewrite pretty_N_go_step, IH by (lia || apply N.div_lt; lia). simpl.
  rewrite digit_of_pretty by by apply N.mod_lt. simpl.
  f_equal. rewrite (N.div_mod' x 10) at 3. lia.
Qed.

Lemma pretty_N_go_length_ge (x : N) (s : string) :
  String.length s ≤ String.length (pretty_N_go x s).
Proof.
  revert s. induction (N.lt_wf_0 x) as [x _ IH]; intros s.
  destruct (decide (x = 0)%N) as [->|Hx]; [done|].
  rewrite pretty_N_go_step by lia. etrans; [|apply IH, N.div_lt; lia].
  simpl. lia.
Qed.

(** A number below [10 ^ k] has at most [k] digits. *)
Lemma pretty_N_go_length_le (k : nat) (x : N) (s : string) :
  (x < 10 ^ N.of_nat k)%N →
  String.length (pretty_N_go x s) ≤ String.length s + k.
Proof.
  revert x s. induction k as [|k IH]; intros x s Hx.
  { change (10 ^ N.of_nat 0)%N with 1%N in Hx. assert (x = 0%N) as -> by lia.
    rewrite pretty_N_go_0. lia. }
  destruct (decide (x = 0)%N) as [->|Hx0]; [rewrite pretty_N_go_0; lia|].
  rewrite pretty_N_go_step by lia. etrans; [apply IH|simpl; lia].
  rewrite Nat2N.inj_succ, N.pow_succ_r' in Hx. apply N.Div0.div_lt_upper_bound; lia.
Qed.

Lemma pretty_N_nonempty (x : N) : pretty x ≠ "".
Proof.
  unfold pretty, pretty_N. case_decide as Hx; [done|].
  rewrite pretty_N_go_step by lia.
  pose proof (pretty_N_go_length_ge (x `div` 10) (String (pretty_N_char (x `mod` 10)) "")) as H.
  intros E. rewrite E in H. simpl in H. lia.
Qed.

Lemma pretty_N_length (k : nat) (x : N) :
  0 < k → (x < 10 ^ N.of_nat k)%N → 1 ≤ String.length (pretty x) ≤ k.
Proof.
  intros Hk Hx. split.
  - pose proof (pretty_N_nonempty x). destruct (pretty x); simpl; [done|lia].
  - unfold pretty, pretty_N. case_decide; [simpl; lia|].
    by apply (pretty_N_go_length_le k x "").
Qed.

Lemma read_N_pretty (x : N) : read_N (pretty x) = Some x.
Proof.
  unfold read_N. rewrite bool_decide_eq_false_2 by apply pretty_N_nonempty.
  unfold pretty, pretty_N. case_decide as Hx; [by subst|].
  by rewrite read_digits_pretty_go.
Qed.

(** ** Codecs *)

(** The printer of a codec is injective. *)
#[export] Instance show_inj `{Codec A} : Inj (=) (=) (show (A:=A)).
Proof.
  intros x y E. assert (read (show x) = read (A:=A) (show y)) as E' by by rewrite E.
  rewrite !read_show in E'. by simplify_eq.
Qed.

(** Natural numbers in decimal. *)
#[export] Program Instance codec_N : Codec N := {|
  show := pretty; read := read_N; read_show := read_N_pretty |}.

(** Strings as they are. *)
#[export] Program Instance codec_string : Codec string := {|
  show := id; read := Some |}.
Next Obligation. done. Qed.

Section combinators.
Context `{Codec A}.

(** A fixed text before the value. *)
Program Definition codec_after (p : string) : Codec A := {|
  show x := p +:+ show x;
  read s := strip_prefix p s ≫= read |}.
Next Obligation. intros p x. cbn. rewrite strip_prefix_app. apply read_show. Qed.

(** A fixed text after the value. *)
Program Definition codec_before (p : string) : Codec A := {|
  show x := show x +:+ p;
  read s := strip_suffix p s ≫= read |}.
Next Obligation. intros p x. cbn. rewrite strip_suffix_app. apply read_show. Qed.

(** The codec of a type that is a view of [A]. *)
Program Definition codec_view {B} (to : B → A) (from : A → B)
    (Hview : ∀ b, from (to b) = b) : Codec B := {|
  show b := show (to b);
  read s := from <$> read s |}.
Next Obligation. intros B to from Hview b. cbn. by rewrite read_show; cbn; rewrite Hview. Qed.
End combinators.

(** A name, a separator and the name again. *)
Program Definition codec_twice (sep : string) : Codec string := {|
  show x := x +:+ sep +:+ x;
  read s := read_twice sep s |}.
Next Obligation. intros sep x. apply read_twice_app. Qed.

Lemma codec_after_unfold `{Codec A} (p s : string) (x : A) :
  show (Codec:=codec_after p) x = p +:+ show x
  ∧ read (Codec:=codec_after p) s = strip_prefix p s ≫= read (A:=A).
Proof. done. Qed.

Lemma codec_before_unfold `{Codec A} (p s : string) (x : A) :
  show (Codec:=codec_before p) x = show x +:+ p
  ∧ read (Codec:=codec_before p) s = strip_suffix p s ≫= read (A:=A).
Proof. done. Qed.

Lemma codec_twice_unfold (sep s x : string) :
  show (Codec:=codec_twice sep) x = x +:+ sep +:+ x
  ∧ read (Codec:=codec_twice sep) s = read_twice sep s.
Proof. done. Qed.

(** ** Exact codecs *)

#[export] Instance exact_string : Exact string.
Proof. by intros s x [= ->]. Qed.

Lemma exact_after `{Exact A} (p : string) : @Exact A (codec_after p).
Proof.
  intros s x. destruct (codec_after_unfold p s x) as [-> ->].
  destruct (strip_prefix p s) as [t|] eqn:E; [|done]. cbn.
  intros ->%read_exact. by apply strip_prefix_Some in E.
Qed.

Lemma exact_before `{Exact A} (p : string) : @Exact A (codec_before p).
Proof.
  intros s x. destruct (codec_before_unfold p s x) as [-> ->].
  destruct (strip_suffix p s) as [t|] eqn:E; [|done]. cbn.
  intros ->%read_exact. by apply strip_suffix_Some in E.
Qed.

Lemma exact_twice (sep : string) : @Exact string (codec_twice sep).
Proof.
  intros s x. destruct (codec_twice_unfold sep s x) as [-> ->].
  by intros ->%read_twice_Some.
Qed.

(** For an exact codec, reading and printing are inverse both ways. *)
Lemma read_Some_iff `{Exact A} (s : string) (x : A) : read s = Some x ↔ s = show x.
Proof. split; [by intros <-%read_exact|intros ->; apply read_show]. Qed.

(** Lists of printed values are read back element by element. *)
Lemma mapM_read_show `{Codec A} (l : list A) : mapM read (show <$> l) = Some l.
Proof. apply mapM_fmap_Some, read_show. Qed.

Lemma mapM_read_iff `{Exact A} (l : list string) (k : list A) :
  mapM read l = Some k ↔ l = show <$> k.
Proof.
  split; [|intros ->; apply mapM_read_show].
  intros Hl. symmetry. apply (mapM_fmap_Some_inv read show l k Hl).
  intros s x. apply read_exact.
Qed.

Lemma read_N_0 : read (A:=N) "0" = Some 0%N ∧ read (A:=N) "41735" = Some 41735%N
  ∧ read (A:=N) "" = None ∧ read (A:=N) "4a" = None.
Proof. evaluated. Qed.
