(* ===== verification/Js.v ===== *)
(** * Js: the fragment of JavaScript the script relies on

    Values that can be thrown, returned by [main] or tested by [if (err)];
    the outcome of an awaited promise; the array methods [includes], [some]
    and [filter]; and regular-expression literals made of pattern characters,
    escaped characters and [.], with the unanchored search performed by
    [RegExp.prototype.test]. *)

From Stdlib Require Import Ascii.
From stdpp Require Import base tactics list strings.
From S2P Require Import Prelude.

(** ** Values *)

(** The values the script handles dynamically: [undefined] (the value of
    [reject()] and of a function without [return]), [null] (the initial
    [err]), strings ([e.stack]) and [Error] objects, of which only the
    [stack] property is ever read. *)
Inductive JsVal :=
  | VUndefined
  | VNull
  | VStr (s : string)
  | VError (stack : string).

#[export] Instance JsVal_eq_dec : EqDecision JsVal.
Proof. solve_decision. Defined.

(** The outcome of awaiting a promise (or of running a block that may
    throw): it is fulfilled with a value or rejected with a reason. *)
Inductive Result (A : Type) :=
  | Fulfilled (a : A)
  | Rejected (e : JsVal).
Arguments Fulfilled {A} a.
Arguments Rejected {A} e.

#[export] Instance Result_eq_dec `{EqDecision A} : EqDecision (Result A).
Proof. solve_decision. Defined.

Definition is_fulfilled {A} (r : Result A) : bool :=
  match r with Fulfilled _ => true | Rejected _ => false end.

(** [ToBoolean]: [undefined], [null] and the empty string are falsy. *)
Definition truthy (v : JsVal) : bool :=
  match v with
  | VUndefined | VNull => false
  | VStr s => negb (bool_decide (s = ""))
  | VError _ => true
  end.

(** [!!name] on a string. *)
Definition str_truthy (s : string) : bool := truthy (VStr s).

(** The [TypeError] raised by a property access on [undefined] or [null]. *)
Definition type_error (prop obj : string) : JsVal :=
  VError ("TypeError: Cannot read property '" +:+ prop +:+ "' of " +:+ obj).

(** [v.stack]: throws on [undefined] and [null], is [undefined] on a
    string (strings have no such property), and is the stack of an
    [Error]. *)
Definition get_stack (v : JsVal) : Result JsVal :=
  match v with
  | VUndefined => Rejected (type_error "stack" "undefined")
  | VNull => Rejected (type_error "stack" "null")
  | VStr _ => Fulfilled VUndefined
  | VError st => Fulfilled (VStr st)
  end.

(** Values that are [Error] objects with a non-empty stack, as every error
    created by [new Error] in Node is. *)
Definition is_error (v : JsVal) : bool :=
  match v with VError st => negb (bool_decide (st = "")) | _ => false end.

(** ** Arrays *)

(** [arr.includes(x)] on an array of strings (SameValueZero is string
    equality there). *)
Definition Array_includes `{EqDecision A} (arr : list A) (x : A) : bool :=
  bool_decide (x ∈ arr).

(** [arr.some(p)]. *)
Definition Array_some {A} (p : A → bool) (arr : list A) : bool := existsb p arr.

(** [arr.filter(p)]. *)
Definition Array_filter {A} (p : A → bool) (arr : list A) : list A :=
  filter (λ x, Is_true (p x)) arr.

(** ** Regular expressions *)

(** One atom of a pattern: a character that matches itself, or [.]. *)
Inductive Atom :=
  | Lit (c : ascii)
  | AnyChar.

#[export] Instance Atom_eq_dec : EqDecision Atom.
Proof. solve_decision. Defined.

Definition Regex := list Atom.

(** The text between the slashes of a literal, read left to right: a
    backslash makes the next character literal, an unescaped [.] is the
    wildcard, any other character stands for itself.  Classes, groups and
    quantifiers are outside the fragment. *)
Fixpoint regex_parse (src : string) : Regex :=
  match src with
  | EmptyString => []
  | String "\"%char (String c rest) => Lit c :: regex_parse rest
  | String "."%char rest => AnyChar :: regex_parse rest
  | String c rest => Lit c :: regex_parse rest
  end.

(** [.] matches any character but a line terminator. *)
Definition is_line_terminator (c : ascii) : bool :=
  bool_decide (c = "010"%char) || bool_decide (c = "013"%char).

Definition atom_matches (a : Atom) (c : ascii) : bool :=
  match a with
  | Lit c' => bool_decide (c' = c)
  | AnyChar => negb (is_line_terminator c)
  end.

(** Match the whole pattern at the start of [s]. *)
Fixpoint match_here (re : Regex) (s : string) : bool :=
  match re, s with
  | [], _ => true
  | _ :: _, EmptyString => false
  | a :: re', String c s' => atom_matches a c && match_here re' s'
  end.

(** [re.test(s)] for a pattern without the [g] or [y] flag: try every start
    position from the left. *)
Fixpoint regex_test (re : Regex) (s : string) : bool :=
  match_here re s ||
  match s with
  | EmptyString => false
  | String _ s' => regex_test re s'
  end.

(** The pattern that matches exactly the characters of [s]. *)
Definition regex_of_string (s : string) : Regex :=
  Lit <$> String.list_ascii_of_string s.

(** ** Lemmas *)

Lemma truthy_VStr s : truthy (VStr s) = true ↔ s ≠ "".
Proof. simpl. rewrite negb_true_iff, bool_decide_eq_false. done. Qed.

Lemma str_truthy_true s : str_truthy s = true ↔ s ≠ "".
Proof. apply truthy_VStr. Qed.

Lemma str_truthy_false s : str_truthy s = false ↔ s = "".
Proof. unfold str_truthy. simpl. rewrite negb_false_iff, bool_decide_eq_true. done. Qed.

Lemma is_error_truthy v : is_error v = true → truthy v = true.
Proof. by destruct v. Qed.

Lemma is_error_inv v : is_error v = true ↔ ∃ st, v = VError st ∧ st ≠ "".
Proof.
  destruct v as [| |s|st]; simpl; try (split; [done | by intros (? & [=] & _)]).
  rewrite negb_true_iff, bool_decide_eq_false.
  split; [eauto | by intros (? & [= ->] & ?)].
Qed.

Lemma get_stack_error v :
  is_error v = true → ∃ st, get_stack v = Fulfilled (VStr st) ∧ st ≠ "".
Proof. intros (st & -> & ?)%is_error_inv. by exists st. Qed.

Lemma get_stack_rejected v e :
  get_stack v = Rejected e → (v = VUndefined ∨ v = VNull) ∧ is_error e = true.
Proof. destruct v; simpl; intros; simplify_eq; split; auto. Qed.

Lemma type_error_is_error prop obj : is_error (type_error prop obj) = true.
Proof. done. Qed.

Lemma Array_includes_spec `{EqDecision A} (arr : list A) x :
  Array_includes arr x = true ↔ x ∈ arr.
Proof. apply bool_decide_eq_true. Qed.

Lemma Array_some_spec {A} (p : A → bool) arr :
  Array_some p arr = true ↔ ∃ x, x ∈ arr ∧ p x = true.
Proof. apply existsb_elem_of. Qed.

Lemma Array_some_false {A} (p : A → bool) arr :
  Array_some p arr = false ↔ ∀ x, x ∈ arr → p x = false.
Proof.
  rewrite <- not_true_iff_false, Array_some_spec. split.
  - intros Hn x Hx. apply not_true_iff_false. intros Hp. apply Hn. eauto.
  - intros Hall (x & Hx & Hp). rewrite (Hall x Hx) in Hp. done.
Qed.

Lemma Array_filter_spec {A} (p : A → bool) arr x :
  x ∈ Array_filter p arr ↔ p x = true ∧ x ∈ arr.
Proof. apply filter_bool_elem_of. Qed.

Lemma Array_filter_sublist {A} (p : A → bool) arr :
  Array_filter p arr `sublist_of` arr.
Proof. apply sublist_filter. Qed.

Lemma Array_filter_app {A} (p : A → bool) l k :
  Array_filter p (l ++ k) = Array_filter p l ++ Array_filter p k.
Proof. apply filter_app. Qed.

Lemma Array_filter_cons {A} (p : A → bool) x l :
  Array_filter p (x :: l) = if p x then x :: Array_filter p l else Array_filter p l.
Proof.
  unfold Array_filter. destruct (p x) eqn:E.
  - rewrite filter_cons_True; [done|]. by rewrite E.
  - rewrite filter_cons_False; [done|]. rewrite E. by intros [].
Qed.

Lemma match_here_literal s h :
  match_here (regex_of_string s) h = String.prefix s h.
Proof.
  revert h. induction s as [|a s IH]; intros [|b h]; try done.
  change (regex_of_string (String a s)) with (Lit a :: regex_of_string s).
  simpl. rewrite IH. destruct (Ascii.ascii_dec a b); [by rewrite bool_decide_eq_true_2|].
  by rewrite bool_decide_eq_false_2.
Qed.

Lemma regex_test_literal s h :
  regex_test (regex_of_string s) h = str_includes s h.
Proof.
  induction h as [|c h IH]; simpl; rewrite match_here_literal; [done|].
  rewrite IH. by destruct s.
Qed.

(** A literal pattern is found in [h] exactly when its text is a substring
    of [h]. *)
Lemma regex_test_literal_spec s h :
  regex_test (regex_of_string s) h = true ↔ ∃ pre post, h = pre +:+ s +:+ post.
Proof. rewrite regex_test_literal. apply str_includes_spec. Qed.

Lemma regex_test_nil h : regex_test [] h = true.
Proof. by destruct h. Qed.

#[export] Hint Resolve is_error_truthy type_error_is_error : e2e.
