(* ===== verification/Externals.v ===== *)
(** * Externals: the data of the collaborators

    The script owns no data structure of its own: it passes around objects
    of selenium-assistant (browser descriptors and their launch options),
    selenium-webdriver (driver handles), Mocha (the runner, its root suite,
    the top-level suites and their contexts) and lists of file names.  This
    file gives each of them the shape the script observes, with projections
    named after the accessors the script calls. *)

From stdpp Require Import base tactics list strings numbers.
From S2P Require Import Prelude Js.

(** ** selenium-assistant: browser descriptors *)

(** The object returned by [browser.getSeleniumOptions()]: the script only
    ever appends command-line arguments to it. *)
Record SeleniumOptions := mkOptions {
  arguments : list string;
}.

Record Browser := mkBrowser {
  getId : string;
  getReleaseName : string;
  getSeleniumOptions : SeleniumOptions;
}.

#[export] Instance SeleniumOptions_eq_dec : EqDecision SeleniumOptions.
Proof. solve_decision. Defined.
#[export] Instance Browser_eq_dec : EqDecision Browser.
Proof. solve_decision. Defined.

(** [options.addArguments(arg)]: the argument is appended. *)
Definition addArguments (arg : string) (o : SeleniumOptions) : SeleniumOptions :=
  {| arguments := arguments o ++ [arg] |}.

(** The browser whose options object has been mutated by [f]; identity and
    release are untouched. *)
Definition with_options (f : SeleniumOptions → SeleniumOptions) (b : Browser) : Browser :=
  {| getId := getId b; getReleaseName := getReleaseName b;
     getSeleniumOptions := f (getSeleniumOptions b) |}.

(** ** selenium-webdriver: driver handles and sessions *)

(** A driver handle is a reference: the script stores it in suite contexts
    and hands it back to [killWebDriver].  The session it refers to lives in
    the session store of the state ([Effects.State]). *)
Definition Driver := nat.

Record Session := mkSession {
  ses_browser : Browser;
  ses_scriptTimeout : option N;
}.

#[export] Instance Session_eq_dec : EqDecision Session.
Proof. solve_decision. Defined.

Definition set_scriptTimeout (ms : N) (s : Session) : Session :=
  {| ses_browser := ses_browser s; ses_scriptTimeout := Some ms |}.

(** ** Mocha: runner, suites, contexts *)

(** The context object of a suite: the two fields the script assigns. *)
Record Ctx := mkCtx {
  ctx_driver : option Driver;
  ctx_address : option string;
}.

(** A top-level suite: its title, the timeout it inherited from the root
    suite when [describe] created it, and its context. *)
Record Suite := mkSuite {
  suite_title : string;
  suite_timeout : N;
  suite_ctx : Ctx;
}.

(** A Mocha instance: the registered files, the root suite's timeout and
    the root suite's children ([mocha.suite.suites]). *)
Record Mocha := mkMocha {
  mocha_files : list string;
  mocha_timeout : N;
  mocha_suites : list Suite;
}.

#[export] Instance Ctx_eq_dec : EqDecision Ctx.
Proof. solve_decision. Defined.
#[export] Instance Suite_eq_dec : EqDecision Suite.
Proof. solve_decision. Defined.
#[export] Instance Mocha_eq_dec : EqDecision Mocha.
Proof. solve_decision. Defined.

(** Mocha's documented default timeout, in milliseconds. *)
Definition mocha_default_timeout : N := 2000.

Definition empty_ctx : Ctx := {| ctx_driver := None; ctx_address := None |}.

(** [new Mocha()]: no file, the default timeout, an empty root suite. *)
Definition new_Mocha : Mocha :=
  {| mocha_files := []; mocha_timeout := mocha_default_timeout; mocha_suites := [] |}.

(** [mocha.addFile(file)]: the file is pushed on [mocha.files]. *)
Definition addFile (file : string) (m : Mocha) : Mocha :=
  {| mocha_files := mocha_files m ++ [file]; mocha_timeout := mocha_timeout m;
     mocha_suites := mocha_suites m |}.

(** [mocha.suite.timeout(ms)]: sets the root suite's timeout; suites that
    already exist keep theirs. *)
Definition set_timeout (ms : N) (m : Mocha) : Mocha :=
  {| mocha_files := mocha_files m; mocha_timeout := ms; mocha_suites := mocha_suites m |}.

(** [describe(title, ...)] at the top level of a required file: a child of
    the root suite is created, inheriting the root's current timeout, with
    a context that has no field of its own yet. *)
Definition describe (title : string) (m : Mocha) : Mocha :=
  {| mocha_files := mocha_files m; mocha_timeout := mocha_timeout m;
     mocha_suites := mocha_suites m ++
       [ {| suite_title := title; suite_timeout := mocha_timeout m; suite_ctx := empty_ctx |} ] |}.

(** The suites a required file declares, in order. *)
Definition describe_all (titles : list string) (m : Mocha) : Mocha :=
  foldl (λ m title, describe title m) m titles.

(** [s.ctx.driver = driver; s.ctx.address = address]. *)
Definition set_ctx (driver : Driver) (address : string) (s : Suite) : Suite :=
  {| suite_title := suite_title s; suite_timeout := suite_timeout s;
     suite_ctx := {| ctx_driver := Some driver; ctx_address := Some address |} |}.

(** A mutation applied to every element of [mocha.suite.suites]. *)
Definition with_suites (f : Suite → Suite) (m : Mocha) : Mocha :=
  {| mocha_files := mocha_files m; mocha_timeout := mocha_timeout m;
     mocha_suites := f <$> mocha_suites m |}.

(** ** File system *)

(** What a path names: a regular file, or a directory with its entries in
    the order [readdir] reports them. *)
Inductive FsNode :=
  | FsFile
  | FsDir (entries : list string).

#[export] Instance FsNode_eq_dec : EqDecision FsNode.
Proof. solve_decision. Defined.

(** ** Lemmas *)

Lemma addArguments_arguments arg o : arguments (addArguments arg o) = arguments o ++ [arg].
Proof. done. Qed.

Lemma with_options_id b : with_options id b = b.
Proof. by destruct b. Qed.

Lemma addFile_files file m : mocha_files (addFile file m) = mocha_files m ++ [file].
Proof. done. Qed.

Lemma foldl_addFile_files {A} (f : A → string) (l : list A) m :
  mocha_files (foldl (λ m x, addFile (f x) m) m l) = mocha_files m ++ (f <$> l).
Proof.
  revert m. induction l as [|x l IH]; intros m; simpl.
  - by rewrite app_nil_r.
  - by rewrite IH, addFile_files, <- app_assoc.
Qed.

Lemma foldl_addFile_timeout {A} (f : A → string) (l : list A) m :
  mocha_timeout (foldl (λ m x, addFile (f x) m) m l) = mocha_timeout m.
Proof. revert m. induction l as [|x l IH]; intros m; simpl; [done|]. by rewrite IH. Qed.

Lemma foldl_addFile_suites {A} (f : A → string) (l : list A) m :
  mocha_suites (foldl (λ m x, addFile (f x) m) m l) = mocha_suites m.
Proof. revert m. induction l as [|x l IH]; intros m; simpl; [done|]. by rewrite IH. Qed.

Lemma describe_all_files titles m : mocha_files (describe_all titles m) = mocha_files m.
Proof.
  unfold describe_all. revert m.
  induction titles as [|t ts IH]; intros m; simpl; [done|]. by rewrite IH.
Qed.

Lemma describe_all_timeout titles m : mocha_timeout (describe_all titles m) = mocha_timeout m.
Proof.
  unfold describe_all. revert m.
  induction titles as [|t ts IH]; intros m; simpl; [done|]. by rewrite IH.
Qed.

Lemma describe_all_suites titles m :
  mocha_suites (describe_all titles m) =
  mocha_suites m ++
    ((λ t, {| suite_title := t; suite_timeout := mocha_timeout m; suite_ctx := empty_ctx |})
       <$> titles).
Proof.
  unfold describe_all. revert m.
  induction titles as [|t ts IH]; intros m; simpl.
  - by rewrite app_nil_r.
  - rewrite IH. simpl. by rewrite <- app_assoc.
Qed.

Lemma with_suites_suites f m : mocha_suites (with_suites f m) = f <$> mocha_suites m.
Proof. done. Qed.

#[export] Hint Rewrite addFile_files @foldl_addFile_files @foldl_addFile_timeout
  @foldl_addFile_suites describe_all_files describe_all_timeout describe_all_suites
  with_suites_suites addArguments_arguments : e2e.
