(* ===== verification/Effects.v ===== *)
(** * Effects: state, world, and the monad of the script

    [State] is what the script can change: the HTTP server, the store of
    live WebDriver sessions and the trace of effects.  [World] holds the
    oracles for everything decided outside the script.  [Prog A] is the
    type of a piece of script that runs to a fulfilled value or a rejection
    and may change the state; [await], [try]/[catch] and [Promise.all]
    are combinators on it.  The effectful operations of the collaborators
    come last, each emitting the event that records it. *)

From stdpp Require Import base tactics list strings numbers gmap.
From S2P Require Import Prelude Js Externals.

(** ** Events *)

(** One observable effect.  The trace lists them in the order they happen. *)
Inductive Event :=
  | EvListen (port : N)                      (* the server started listening *)
  | EvServerClose                            (* [server.close()] *)
  | EvGetDriver (b : Browser) (d : Driver)   (* [b.getSeleniumDriver()] gave [d] *)
  | EvSetScriptTimeout (d : Driver) (ms : N) (* [setScriptTimeout(ms)] on [d] *)
  | EvReaddir (path : string)                (* [fs.readdir(path)] was issued *)
  | EvRequire (file : string)                (* [loadFiles] required [file] *)
  | EvRun (m : Mocha) (failures : nat)       (* [mocha.run] completed *)
  | EvKill (d : Driver) (ok : bool)          (* [killWebDriver(d)] was issued *)
  | EvLog (msg : string)                     (* [console.log] *)
  | EvError (v : JsVal)                      (* [console.error] *)
  | EvExit (code : nat).                     (* [process.exit] *)

#[export] Instance Event_eq_dec : EqDecision Event.
Proof. solve_decision. Defined.

(** ** State *)

Inductive ServerState :=
  | SrvNotStarted
  | SrvListening (port : N)
  | SrvClosed.

#[export] Instance ServerState_eq_dec : EqDecision ServerState.
Proof. solve_decision. Defined.

Record State := mkState {
  st_server : ServerState;
  st_sessions : gmap nat Session;   (* live sessions, by driver handle *)
  st_next : nat;                    (* the next fresh driver handle *)
  st_trace : list Event;            (* chronological *)
}.

Definition init_state : State :=
  {| st_server := SrvNotStarted; st_sessions := ∅; st_next := 0; st_trace := [] |}.

Definition set_server (v : ServerState) (s : State) : State :=
  {| st_server := v; st_sessions := st_sessions s; st_next := st_next s;
     st_trace := st_trace s |}.

Definition set_sessions (f : gmap nat Session → gmap nat Session) (s : State) : State :=
  {| st_server := st_server s; st_sessions := f (st_sessions s); st_next := st_next s;
     st_trace := st_trace s |}.

Definition set_next (n : nat) (s : State) : State :=
  {| st_server := st_server s; st_sessions := st_sessions s; st_next := n;
     st_trace := st_trace s |}.

Definition add_event (ev : Event) (s : State) : State :=
  {| st_server := st_server s; st_sessions := st_sessions s; st_next := st_next s;
     st_trace := st_trace s ++ [ev] |}.

Definition add_events (evs : list Event) (s : State) : State :=
  {| st_server := st_server s; st_sessions := st_sessions s; st_next := st_next s;
     st_trace := st_trace s ++ evs |}.

(** ** World *)

(** The oracles.  [w_latency] orders the settlements of operations that
    run concurrently: it is keyed by the event that issued the operation. *)
Record World := mkWorld {
  w_browsers : list Browser;              (* [seleniumAssistant.getLocalBrowsers()] *)
  w_port : N;                             (* the port the OS assigns *)
  w_fs : gmap string FsNode;              (* what each path names *)
  w_latency : Event → nat;
  w_driver_error : Browser → option JsVal;   (* [getSeleniumDriver] throws *)
  w_module : string → Result (list string);  (* [require(file)]: its top-level suites *)
  w_failures : Mocha → nat;                  (* the failure count of a run *)
  w_kill_error : Driver → option JsVal;      (* [killWebDriver] rejects *)
  w_installed : string → bool;               (* [require(name)] finds the library *)
}.

(** ** Promises and programs *)

(** A promise that has been created: when it settles and how. *)
Record Promise (A : Type) := mkPromise {
  settles_at : nat;
  outcome : Result A;
}.
Arguments mkPromise {A} _ _.
Arguments settles_at {A} _.
Arguments outcome {A} _.

Definition Prog (A : Type) : Type := State → Result A * State.

#[export] Instance Prog_ret : MRet Prog := λ A a s, (Fulfilled a, s).

#[export] Instance Prog_bind : MBind Prog := λ A B f m s,
  match m s with
  | (Fulfilled a, s') => f a s'
  | (Rejected e, s') => (Rejected e, s')
  end.

#[export] Instance Prog_fmap : FMap Prog := λ A B f m s,
  match m s with
  | (Fulfilled a, s') => (Fulfilled (f a), s')
  | (Rejected e, s') => (Rejected e, s')
  end.

(** [throw e], or a promise rejected with [e] that is awaited at once. *)
Definition throw {A} (e : JsVal) : Prog A := λ s, (Rejected e, s).

(** An outcome computed without touching the state. *)
Definition liftR {A} (r : Result A) : Prog A := λ s, (r, s).

(** [try { m } catch (e) { h e }]. *)
Definition try_catch {A} (m : Prog A) (h : JsVal → Prog A) : Prog A := λ s,
  match m s with
  | (Fulfilled a, s') => (Fulfilled a, s')
  | (Rejected e, s') => h e s'
  end.

(** [await p]. *)
Definition await {A} (p : Promise A) : Prog A := liftR (outcome p).

Definition emit (ev : Event) : Prog unit := λ s, (Fulfilled tt, add_event ev s).

(** A left fold whose step is a program; it stops at the first rejection. *)
Fixpoint foldM {A B} (f : B → A → Prog B) (b : B) (l : list A) : Prog B :=
  match l with
  | [] => mret b
  | x :: l' => b' ← f b x; foldM f b' l'
  end.

(** [p.then(f)] for a pure [f], and the promise of an [async] function whose
    body awaits [p] and then returns without further effects. *)
Definition Promise_then {A B} (f : A → B) (p : Promise A) : Promise B :=
  {| settles_at := settles_at p;
     outcome := match outcome p with Fulfilled a => Fulfilled (f a) | Rejected e => Rejected e end |}.

(** The rejections among [ps], each with its settle time, in list order. *)
Definition rejections {A} (ps : list (Promise A)) : list (nat * JsVal) :=
  omap (λ p, match outcome p with
             | Rejected e => Some (settles_at p, e)
             | Fulfilled _ => None
             end) ps.

(** The values of the fulfilled promises among [ps], in list order. *)
Definition fulfilled_values {A} (ps : list (Promise A)) : list A :=
  omap (λ p, match outcome p with
             | Fulfilled a => Some a
             | Rejected _ => None
             end) ps.

(** The entry that settles first; on a tie the earlier one in the list. *)
Fixpoint earliest (best : nat * JsVal) (l : list (nat * JsVal)) : nat * JsVal :=
  match l with
  | [] => best
  | x :: l' => earliest (if bool_decide (x.1 < best.1) then x else best) l'
  end.

(** [Promise.all(ps)]: rejected with the reason of the first promise to
    reject, otherwise fulfilled with all the values in order once the last
    promise has settled. *)
Definition Promise_all {A} (ps : list (Promise A)) : Promise (list A) :=
  match rejections ps with
  | [] => {| settles_at := max_list (settles_at <$> ps);
             outcome := Fulfilled (fulfilled_values ps) |}
  | r :: rs => {| settles_at := (earliest r rs).1; outcome := Rejected (earliest r rs).2 |}
  end.

(** ** Footprints *)

(** [Frame R m]: every run of [m] takes a state to an [R]-related one.
    With [R] a preorder this composes along [bind], so the footprint of a
    function follows from the footprints of the operations it calls. *)
Class Frame {A} (R : relation State) (m : Prog A) : Prop :=
  frame : ∀ s, R s (m s).2.
Global Hint Mode Frame + + ! : typeclass_instances.

(** The trace only grows. *)
Definition trace_ext : relation State := λ s s', st_trace s `prefix_of` st_trace s'.
(** The server is left alone. *)
Definition same_server : relation State := λ s s', st_server s = st_server s'.
(** The session store and the handle counter are left alone. *)
Definition same_sessions : relation State := λ s s',
  st_sessions s = st_sessions s' ∧ st_next s = st_next s'.
(** [P] is preserved. *)
Definition preserving (P : State → Prop) : relation State := λ s s', P s → P s'.

(** ** The collaborators' operations *)

(** [console.log(msg)] and [console.error(v)]. *)
Definition console_log (msg : string) : Prog unit := emit (EvLog msg).
Definition console_error (v : JsVal) : Prog unit := emit (EvError v).

(** The error with which [fs.readdir] rejects. *)
Definition fs_error (code path : string) : JsVal :=
  VError ("Error: " +:+ code +:+ ", scandir '" +:+ path +:+ "'").

(** What [fs.readdir(path)] settles to: the entries of a directory, or a
    rejection when the path names a file or nothing. *)
Definition readdir_result (w : World) (path : string) : Result (list string) :=
  match w_fs w !! path with
  | Some (FsDir entries) => Fulfilled entries
  | Some FsFile => Rejected (fs_error "ENOTDIR: not a directory" path)
  | None => Rejected (fs_error "ENOENT: no such file or directory" path)
  end.

(** [fs.readdir(path)]: the read is issued now and its promise returned. *)
Definition readdir (w : World) (path : string) : Prog (Promise (list string)) :=
  emit (EvReaddir path);;
  mret {| settles_at := w_latency w (EvReaddir path); outcome := readdir_result w path |}.

(** [http.createServer(app).listen()]: the OS picks the port. *)
Definition listen (w : World) : Prog N := λ s,
  (Fulfilled (w_port w), add_event (EvListen (w_port w)) (set_server (SrvListening (w_port w)) s)).

(** [server.close()]. *)
Definition server_close : Prog unit := λ s,
  (Fulfilled tt, add_event EvServerClose (set_server SrvClosed s)).

(** [b.getSeleniumDriver()]: throws, or opens a session under a fresh
    handle.  A driver that is returned and fails later is not modelled:
    the script never looks at a driver again before it kills it. *)
Definition getSeleniumDriver (w : World) (b : Browser) : Prog Driver := λ s,
  match w_driver_error w b with
  | Some e => (Rejected e, s)
  | None =>
      let d := st_next s in
      (Fulfilled d,
       add_event (EvGetDriver b d)
         (set_next (S d)
            (set_sessions (insert d {| ses_browser := b; ses_scriptTimeout := None |}) s)))
  end.

(** [driver.manage().timeouts().setScriptTimeout(ms)]. *)
Definition setScriptTimeout (d : Driver) (ms : N) : Prog unit := λ s,
  (Fulfilled tt,
   add_event (EvSetScriptTimeout d ms) (set_sessions (alter (set_scriptTimeout ms) d) s)).

(** [seleniumAssistant.killWebDriver(driver)]: the kill is issued now; when
    it succeeds the session is gone.  The session is removed when the
    call is made, not when the promise settles: the script does nothing
    with a session between the two. *)
Definition killWebDriver (w : World) (d : Driver) : Prog (Promise unit) := λ s,
  match w_kill_error w d with
  | Some e =>
      (Fulfilled {| settles_at := w_latency w (EvKill d false); outcome := Rejected e |},
       add_event (EvKill d false) s)
  | None =>
      (Fulfilled {| settles_at := w_latency w (EvKill d true); outcome := Fulfilled tt |},
       add_event (EvKill d true) (set_sessions (delete d) s))
  end.

(** One iteration of [loadFiles]: [require(file)] runs the file, whose
    top-level [describe] calls add suites to the root suite. *)
Definition require_file (w : World) (m : Mocha) (file : string) : Prog Mocha :=
  emit (EvRequire file);;
  titles ← liftR (w_module w file);
  mret (describe_all titles m).

(** [mocha.loadFiles(cb)]: the registered files are required in order; an
    exception of [require] propagates.  Every call evaluates the files, as
    the specification has it (the discovery is re-executed for every
    driver and not cached); the module cache of Node, which evaluates a
    file at the first [require] only, is modelled beside it in [Cache.v]. *)
Definition loadFiles (w : World) (m : Mocha) : Prog Mocha :=
  foldM (require_file w) m (mocha_files m).

(** [mocha.run(cb)]: [cb] receives the number of failures. *)
Definition run (w : World) (m : Mocha) : Prog nat :=
  emit (EvRun m (w_failures w m));;
  mret (w_failures w m).

(** ** The state a trace describes *)

(** The server state after the events of a trace. *)
Definition server_after (ev : Event) (v : ServerState) : ServerState :=
  match ev with
  | EvListen p => SrvListening p
  | EvServerClose => SrvClosed
  | _ => v
  end.

Definition server_of_trace (t : list Event) : ServerState :=
  foldl (λ v ev, server_after ev v) SrvNotStarted t.

(** The handles opened and not successfully killed by a trace. *)
Definition live_after (ev : Event) (live : gset nat) : gset nat :=
  match ev with
  | EvGetDriver _ d => {[d]} ∪ live
  | EvKill d true => live ∖ {[d]}
  | _ => live
  end.

Definition live_of_trace (t : list Event) : gset nat :=
  foldl (λ live ev, live_after ev live) ∅ t.

(** State invariant: handles are below the counter, and the server and
    the session store are the ones the trace describes. *)
Record state_ok (s : State) : Prop := {
  ok_fresh : ∀ d, d ∈ dom (st_sessions s) → d < st_next s;
  ok_server : st_server s = server_of_trace (st_trace s);
  ok_live : dom (st_sessions s) = live_of_trace (st_trace s);
}.

(** The oracles only throw [Error] objects. *)
Record world_ok (w : World) : Prop := {
  ok_driver_error : ∀ b e, w_driver_error w b = Some e → is_error e = true;
  ok_module : ∀ f e, w_module w f = Rejected e → is_error e = true;
  ok_kill_error : ∀ d e, w_kill_error w d = Some e → is_error e = true;
}.

(** An event that changes neither the server nor the set of live handles. *)
Class Neutral (ev : Event) : Prop := {
  neutral_server : ∀ v, server_after ev v = v;
  neutral_live : ∀ live, live_after ev live = live;
}.
Global Hint Mode Neutral ! : typeclass_instances.

(** ** Running programs: equations and monad laws *)

Section run.
Context {A B : Type}.
Implicit Types (m : Prog A) (f : A → Prog B) (s : State).

Lemma run_ret (a : A) s : (mret a : Prog A) s = (Fulfilled a, s).
Proof. done. Qed.

Lemma run_bind m f s :
  (m ≫= f) s =
  match m s with
  | (Fulfilled a, s') => f a s'
  | (Rejected e, s') => (Rejected e, s')
  end.
Proof. done. Qed.

Lemma run_bind_fulfilled m f s a s' : m s = (Fulfilled a, s') → (m ≫= f) s = f a s'.
Proof. intros E. by rewrite run_bind, E. Qed.

Lemma run_bind_rejected m f s e s' :
  m s = (Rejected e, s') → (m ≫= f) s = (Rejected e, s').
Proof. intros E. by rewrite run_bind, E. Qed.

Lemma run_fmap (h : A → B) m s :
  (h <$> m) s =
  match m s with
  | (Fulfilled a, s') => (Fulfilled (h a), s')
  | (Rejected e, s') => (Rejected e, s')
  end.
Proof. done. Qed.

Lemma bind_ret_l (a : A) f s : (mret a ≫= f) s = f a s.
Proof. done. Qed.

Lemma fmap_bind (h : A → B) m s : (h <$> m) s = (m ≫= λ a, mret (h a)) s.
Proof. done. Qed.

Lemma run_throw (e : JsVal) s : (throw e : Prog A) s = (Rejected e, s).
Proof. done. Qed.

Lemma run_liftR (r : Result A) s : liftR r s = (r, s).
Proof. done. Qed.

Lemma run_await (p : Promise A) s : await p s = (outcome p, s).
Proof. done. Qed.

Lemma bind_throw (e : JsVal) f s : (throw e ≫= f) s = (Rejected e, s).
Proof. done. Qed.

Lemma run_try_catch m (h : JsVal → Prog A) s :
  try_catch m h s =
  match m s with
  | (Fulfilled a, s') => (Fulfilled a, s')
  | (Rejected e, s') => h e s'
  end.
Proof. done. Qed.

Lemma try_catch_fulfilled m (h : JsVal → Prog A) s a s' :
  m s = (Fulfilled a, s') → try_catch m h s = (Fulfilled a, s').
Proof. intros E. by rewrite run_try_catch, E. Qed.

Lemma try_catch_rejected m (h : JsVal → Prog A) s e s' :
  m s = (Rejected e, s') → try_catch m h s = h e s'.
Proof. intros E. by rewrite run_try_catch, E. Qed.

End run.

Lemma bind_ret_r {A} (m : Prog A) s : (m ≫= mret) s = m s.
Proof. rewrite run_bind. by destruct (m s) as [[]]. Qed.

Lemma bind_assoc {A B C} (m : Prog A) (f : A → Prog B) (g : B → Prog C) s :
  ((m ≫= f) ≫= g) s = (m ≫= λ a, f a ≫= g) s.
Proof. rewrite !run_bind. by destruct (m s) as [[]]. Qed.

(** ** Programs that do the same *)

(** Two programs are equivalent when, from every state, they have the same
    outcome and leave the same state.  [bind] and [try_catch] respect the
    equivalence, so equivalent programs can be rewritten inside a larger
    one. *)
#[export] Instance Prog_equiv {A} : Equiv (Prog A) := λ m1 m2, ∀ s, m1 s = m2 s.

#[export] Instance Prog_equivalence {A} : Equivalence (≡@{Prog A}).
Proof.
  split; [by intros m s|by intros m1 m2 H s|].
  intros m1 m2 m3 H1 H2 s. by rewrite H1.
Qed.

#[export] Instance bind_proper {A B} :
  Proper (pointwise_relation A (≡) ==> (≡) ==> (≡)) (mbind (M:=Prog) (A:=A) (B:=B)).
Proof.
  intros f g Hfg m1 m2 Hm s. rewrite !run_bind, Hm.
  destruct (m2 s) as [[a|e] s']; [apply Hfg|done].
Qed.

#[export] Instance try_catch_proper {A} :
  Proper ((≡) ==> pointwise_relation JsVal (≡) ==> (≡)) (try_catch (A:=A)).
Proof.
  intros m1 m2 Hm h1 h2 Hh s. rewrite !run_try_catch, Hm.
  destruct (m2 s) as [[a|e] s']; [done|apply Hh].
Qed.

Lemma bind_ret_l_equiv {A B} (a : A) (f : A → Prog B) : mret a ≫= f ≡ f a.
Proof. by intros s. Qed.

Lemma bind_ret_r_equiv {A} (m : Prog A) : m ≫= mret ≡ m.
Proof. intros s. apply bind_ret_r. Qed.

Lemma bind_assoc_equiv {A B C} (m : Prog A) (f : A → Prog B) (g : B → Prog C) :
  (m ≫= f) ≫= g ≡ m ≫= λ a, f a ≫= g.
Proof. intros s. apply bind_assoc. Qed.

Lemma bind_throw_equiv {A B} (e : JsVal) (f : A → Prog B) : throw e ≫= f ≡ throw e.
Proof. by intros s. Qed.

Lemma try_catch_ret_equiv {A} (a : A) (h : JsVal → Prog A) : try_catch (mret a) h ≡ mret a.
Proof. by intros s. Qed.

Lemma try_catch_throw_equiv {A} (e : JsVal) (h : JsVal → Prog A) :
  try_catch (throw e) h ≡ h e.
Proof. by intros s. Qed.

Lemma run_emit ev s : emit ev s = (Fulfilled tt, add_event ev s).
Proof. done. Qed.

Lemma run_foldM_nil {A B} (f : B → A → Prog B) b s : foldM f b [] s = (Fulfilled b, s).
Proof. done. Qed.

Lemma run_foldM_cons {A B} (f : B → A → Prog B) b x l s :
  foldM f b (x :: l) s = (f b x ≫= λ b', foldM f b' l) s.
Proof. done. Qed.

Lemma run_mapM_nil {A B} (f : A → Prog B) s : mapM f [] s = (Fulfilled [], s).
Proof. done. Qed.

Lemma run_mapM_cons {A B} (f : A → Prog B) x l s :
  mapM f (x :: l) s = (y ← f x; k ← mapM f l; mret (y :: k)) s.
Proof. done. Qed.

(** A [mapM] that is fulfilled has one result per element. *)
Lemma mapM_length {A B} (f : A → Prog B) l s ys s' :
  mapM f l s = (Fulfilled ys, s') → length ys = length l.
Proof.
  revert s ys s'. induction l as [|x l IH]; intros s ys s'.
  { rewrite run_mapM_nil. by intros [= <- _]. }
  rewrite run_mapM_cons, run_bind. destruct (f x s) as [[y|e] s1]; [|done].
  rewrite run_bind. destruct (mapM f l s1) as [[k|e] s2] eqn:E; [|done].
  rewrite run_ret. intros [= <- _]. simpl. f_equal. by eapply IH.
Qed.

#[export] Hint Rewrite @run_ret @run_throw @run_liftR @run_await @run_emit
  @run_foldM_nil @run_mapM_nil : e2e.

(** ** State accessors *)

Lemma add_event_trace ev s : st_trace (add_event ev s) = st_trace s ++ [ev].
Proof. done. Qed.
Lemma add_event_server ev s : st_server (add_event ev s) = st_server s.
Proof. done. Qed.
Lemma add_event_sessions ev s : st_sessions (add_event ev s) = st_sessions s.
Proof. done. Qed.
Lemma add_event_next ev s : st_next (add_event ev s) = st_next s.
Proof. done. Qed.

Lemma server_of_trace_snoc t ev :
  server_of_trace (t ++ [ev]) = server_after ev (server_of_trace t).
Proof. unfold server_of_trace. by rewrite foldl_snoc. Qed.

Lemma live_of_trace_snoc t ev :
  live_of_trace (t ++ [ev]) = live_after ev (live_of_trace t).
Proof. unfold live_of_trace. by rewrite foldl_snoc. Qed.

Lemma add_event_add_events ev s : add_event ev s = add_events [ev] s.
Proof. done. Qed.

Lemma add_events_nil s : add_events [] s = s.
Proof. destruct s. unfold add_events. simpl. by rewrite app_nil_r. Qed.

Lemma add_events_app evs1 evs2 s :
  add_events evs2 (add_events evs1 s) = add_events (evs1 ++ evs2) s.
Proof. unfold add_events. simpl. by rewrite app_assoc. Qed.

Lemma add_events_trace evs s : st_trace (add_events evs s) = st_trace s ++ evs.
Proof. done. Qed.
Lemma add_events_server evs s : st_server (add_events evs s) = st_server s.
Proof. done. Qed.
Lemma add_events_sessions evs s : st_sessions (add_events evs s) = st_sessions s.
Proof. done. Qed.
Lemma add_events_next evs s : st_next (add_events evs s) = st_next s.
Proof. done. Qed.

#[export] Hint Rewrite add_event_trace add_event_server add_event_sessions add_event_next
  add_events_trace add_events_server add_events_sessions add_events_next
  server_of_trace_snoc live_of_trace_snoc : e2e.

(** ** Footprints compose *)

#[export] Instance trace_ext_po : PreOrder trace_ext.
Proof. split; [intros s|intros s1 s2 s3]; unfold trace_ext; [done|by etrans]. Qed.

#[export] Instance same_server_po : PreOrder same_server.
Proof. split; [intros s|intros s1 s2 s3]; unfold same_server; [done|congruence]. Qed.

#[export] Instance same_sessions_po : PreOrder same_sessions.
Proof.
  split; [intros s|intros s1 s2 s3]; unfold same_sessions; [done|].
  intros [] []; split; congruence.
Qed.

#[export] Instance preserving_po P : PreOrder (preserving P).
Proof. split; [intros s|intros s1 s2 s3]; unfold preserving; auto. Qed.

Section frame.
Context (R : relation State) `{!PreOrder R}.

#[export] Instance frame_ret {A} (a : A) : Frame R (mret a).
Proof. by intros s. Qed.

#[export] Instance frame_throw {A} e : Frame R (@throw A e).
Proof. by intros s. Qed.

#[export] Instance frame_liftR {A} (r : Result A) : Frame R (liftR r).
Proof. by intros s. Qed.

#[export] Instance frame_await {A} (p : Promise A) : Frame R (await p).
Proof. by intros s. Qed.

#[export] Instance frame_bind {A B} (m : Prog A) (f : A → Prog B) :
  Frame R m → (∀ a, Frame R (f a)) → Frame R (m ≫= f).
Proof.
  intros Hm Hf s. rewrite run_bind. specialize (Hm s).
  destruct (m s) as [[a|e] s']; simpl in *; [|done]. etrans; [done|apply Hf].
Qed.

#[export] Instance frame_fmap {A B} (h : A → B) (m : Prog A) :
  Frame R m → Frame R (h <$> m).
Proof.
  intros Hm s. rewrite run_fmap. specialize (Hm s). by destruct (m s) as [[a|e] s'].
Qed.

#[export] Instance frame_try_catch {A} (m : Prog A) h :
  Frame R m → (∀ e, Frame R (h e)) → Frame R (try_catch m h).
Proof.
  intros Hm Hh s. rewrite run_try_catch. specialize (Hm s).
  destruct (m s) as [[a|e] s']; simpl in *; [done|]. etrans; [done|apply Hh].
Qed.

#[export] Instance frame_foldM {A B} (f : B → A → Prog B) b l :
  (∀ b x, Frame R (f b x)) → Frame R (foldM f b l).
Proof. intros Hf. revert b. induction l; intros b; simpl; apply _. Qed.

#[export] Instance frame_mapM {A B} (f : A → Prog B) l :
  (∀ x, Frame R (f x)) → Frame R (mapM f l).
Proof. intros Hf. induction l; simpl; apply _. Qed.

#[export] Instance frame_pair {A B C} (f : A → B → Prog C) (x : A * B) :
  (∀ a b, Frame R (f a b)) → Frame R (let '(a, b) := x in f a b).
Proof. by destruct x. Qed.

#[export] Instance frame_if {A} (b : bool) (m1 m2 : Prog A) :
  Frame R m1 → Frame R m2 → Frame R (if b then m1 else m2).
Proof. by destruct b. Qed.

End frame.

(** The frame of a run, in the form proofs use it. *)
Lemma frame_run {A} (R : relation State) (m : Prog A) `{!Frame R m} s r s' :
  m s = (r, s') → R s s'.
Proof. intros E. pose proof (frame (R:=R) (m:=m) s) as H. by rewrite E in H. Qed.

(** ** Footprints of the operations *)

#[export] Instance emit_trace_ext ev : Frame trace_ext (emit ev).
Proof. intros s. by apply prefix_app_r. Qed.
#[export] Instance emit_same_server ev : Frame same_server (emit ev).
Proof. by intros s. Qed.
#[export] Instance emit_same_sessions ev : Frame same_sessions (emit ev).
Proof. by intros s. Qed.

#[export] Instance console_log_frame R `{!Frame R (emit (EvLog msg))} :
  Frame R (console_log msg).
Proof. done. Qed.
#[export] Instance console_error_frame R `{!Frame R (emit (EvError v))} :
  Frame R (console_error v).
Proof. done. Qed.

#[export] Instance readdir_frame R `{!PreOrder R, !Frame R (emit (EvReaddir path))} w :
  Frame R (readdir w path).
Proof. by_parts readdir. Qed.

#[export] Instance require_file_frame R `{!PreOrder R, !Frame R (emit (EvRequire file))} w m :
  Frame R (require_file w m file).
Proof. by_parts require_file. Qed.

#[export] Instance loadFiles_frame R `{!PreOrder R, !∀ file, Frame R (emit (EvRequire file))} w m :
  Frame R (loadFiles w m).
Proof. by_parts loadFiles. Qed.

#[export] Instance run_frame R `{!PreOrder R, !∀ c, Frame R (emit (EvRun m c))} w :
  Frame R (run w m).
Proof. by_parts run. Qed.

#[export] Instance listen_trace_ext w : Frame trace_ext (listen w).
Proof. intros s. by apply prefix_app_r. Qed.
#[export] Instance listen_same_sessions w : Frame same_sessions (listen w).
Proof. by intros s. Qed.

#[export] Instance server_close_trace_ext : Frame trace_ext server_close.
Proof. intros s. by apply prefix_app_r. Qed.
#[export] Instance server_close_same_sessions : Frame same_sessions server_close.
Proof. by intros s. Qed.

#[export] Instance getSeleniumDriver_trace_ext w b : Frame trace_ext (getSeleniumDriver w b).
Proof.
  intros s. unfold getSeleniumDriver. destruct (w_driver_error w b); [done|].
  by apply prefix_app_r.
Qed.
#[export] Instance getSeleniumDriver_same_server w b : Frame same_server (getSeleniumDriver w b).
Proof. intros s. unfold getSeleniumDriver. by destruct (w_driver_error w b). Qed.

#[export] Instance setScriptTimeout_trace_ext d ms : Frame trace_ext (setScriptTimeout d ms).
Proof. intros s. by apply prefix_app_r. Qed.
#[export] Instance setScriptTimeout_same_server d ms : Frame same_server (setScriptTimeout d ms).
Proof. by intros s. Qed.

#[export] Instance killWebDriver_trace_ext w d : Frame trace_ext (killWebDriver w d).
Proof.
  intros s. unfold killWebDriver. destruct (w_kill_error w d); by apply prefix_app_r.
Qed.
#[export] Instance killWebDriver_same_server w d : Frame same_server (killWebDriver w d).
Proof. intros s. unfold killWebDriver. by destruct (w_kill_error w d). Qed.

(** ** [Promise.all] *)

Section promise_all.
Context {A : Type}.
Implicit Types (p : Promise A) (ps : list (Promise A)).

Lemma rejections_cons p ps :
  rejections (p :: ps) =
  match outcome p with
  | Rejected e => (settles_at p, e) :: rejections ps
  | Fulfilled _ => rejections ps
  end.
Proof. unfold rejections. simpl. by destruct (outcome p). Qed.

Lemma fulfilled_values_cons p ps :
  fulfilled_values (p :: ps) =
  match outcome p with
  | Fulfilled a => a :: fulfilled_values ps
  | Rejected _ => fulfilled_values ps
  end.
Proof. unfold fulfilled_values. simpl. by destruct (outcome p). Qed.

Lemma elem_of_rejections ps t e :
  (t, e) ∈ rejections ps ↔ ∃ p, p ∈ ps ∧ settles_at p = t ∧ outcome p = Rejected e.
Proof.
  unfold rejections. rewrite list_elem_of_omap. split.
  - intros (p & Hp & Ho). exists p. destruct (outcome p); by simplify_eq.
  - intros (p & Hp & <- & Ho). exists p. by rewrite Ho.
Qed.

Lemma rejections_nil ps :
  rejections ps = [] ↔ Forall (λ p, is_fulfilled (outcome p) = true) ps.
Proof.
  induction ps as [|p ps IH]; [done|]. rewrite rejections_cons, Forall_cons, <- IH.
  destruct (outcome p); simpl; [tauto|]. split; [done|by intros [? _]].
Qed.

Lemma fulfilled_values_all ps :
  rejections ps = [] → Forall2 (λ p a, outcome p = Fulfilled a) ps (fulfilled_values ps).
Proof.
  induction ps as [|p ps IH]; [constructor|].
  rewrite rejections_cons, fulfilled_values_cons.
  destruct (outcome p) eqn:E; [|done]. intros ?. constructor; auto.
Qed.

Lemma earliest_elem best l : earliest best l ∈ best :: l.
Proof.
  revert best. induction l as [|x l IH]; intros best; simpl; [left|].
  specialize (IH (if bool_decide (x.1 < best.1) then x else best)).
  case_bool_decide; [by right|].
  apply elem_of_cons in IH as [->|?]; [left|do 2 right]; done.
Qed.

Lemma earliest_le_best best l : (earliest best l).1 ≤ best.1.
Proof.
  revert best. induction l as [|x l IH]; intros best; simpl; [done|].
  specialize (IH (if bool_decide (x.1 < best.1) then x else best)).
  case_bool_decide; lia.
Qed.

Lemma earliest_min best l x : x ∈ best :: l → (earliest best l).1 ≤ x.1.
Proof.
  revert best. induction l as [|y l IH]; intros best.
  - intros ->%list_elem_of_singleton. done.
  - simpl. intros [->|[->|Hx]%elem_of_cons]%elem_of_cons.
    + etrans; [apply earliest_le_best|]. case_bool_decide; simpl; lia.
    + etrans; [apply earliest_le_best|]. case_bool_decide; simpl; lia.
    + apply IH. by right.
Qed.

(** [Promise.all] is fulfilled exactly when every promise is, with the
    values in the order of the promises. *)
Lemma Promise_all_fulfilled ps vs :
  outcome (Promise_all ps) = Fulfilled vs ↔ Forall2 (λ p a, outcome p = Fulfilled a) ps vs.
Proof.
  unfold Promise_all. split.
  - destruct (rejections ps) eqn:E; simpl; [|done].
    intros [= <-]. by apply fulfilled_values_all.
  - intros HF. assert (rejections ps = []) as E.
    { apply rejections_nil. induction HF as [|p a ps vs Hp _ IH]; constructor; auto.
      by rewrite Hp. }
    rewrite E. simpl. f_equal.
    induction HF as [|p a ps vs Hp _ IH]; [done|].
    rewrite rejections_cons, Hp in E. rewrite fulfilled_values_cons, Hp. f_equal. auto.
Qed.

(** When [Promise.all] is rejected, its reason is the reason of one of the
    promises, and no rejected promise settled before that one. *)
Lemma Promise_all_rejected ps e :
  outcome (Promise_all ps) = Rejected e →
  ∃ p, p ∈ ps ∧ outcome p = Rejected e ∧
       ∀ q e', q ∈ ps → outcome q = Rejected e' → settles_at p ≤ settles_at q.
Proof.
  unfold Promise_all. destruct (rejections ps) as [|r rs] eqn:E; simpl; [done|].
  intros [= <-].
  pose proof (earliest_elem r rs) as Hin. rewrite <- E in Hin.
  destruct (earliest r rs) as [t e] eqn:Ee.
  apply elem_of_rejections in Hin as (p & Hp & Ht & Ho).
  exists p. split_and!; [done..|]. intros q e' Hq Hoq.
  assert ((settles_at q, e') ∈ r :: rs) as Hq'.
  { rewrite <- E. apply elem_of_rejections. eauto. }
  apply earliest_min in Hq'. rewrite Ee in Hq'. simpl in *. lia.
Qed.

Lemma Promise_all_is_fulfilled ps :
  is_fulfilled (outcome (Promise_all ps)) = true
  ↔ Forall (λ p, is_fulfilled (outcome p) = true) ps.
Proof.
  rewrite <- rejections_nil. unfold Promise_all.
  by destruct (rejections ps) eqn:E.
Qed.

Lemma Promise_all_nil : outcome (Promise_all (A:=A) []) = Fulfilled [].
Proof. done. Qed.

End promise_all.

Lemma Promise_then_outcome {A B} (f : A → B) (p : Promise A) :
  outcome (Promise_then f p) =
  match outcome p with Fulfilled a => Fulfilled (f a) | Rejected e => Rejected e end.
Proof. done. Qed.

Lemma Promise_then_is_fulfilled {A B} (f : A → B) (p : Promise A) :
  is_fulfilled (outcome (Promise_then f p)) = is_fulfilled (outcome p).
Proof. simpl. by destruct (outcome p). Qed.

(** ** The state invariant is preserved *)

#[export] Instance neutral_readdir p : Neutral (EvReaddir p).
Proof. by split. Qed.
#[export] Instance neutral_require f : Neutral (EvRequire f).
Proof. by split. Qed.
#[export] Instance neutral_run m c : Neutral (EvRun m c).
Proof. by split. Qed.
#[export] Instance neutral_log msg : Neutral (EvLog msg).
Proof. by split. Qed.
#[export] Instance neutral_error v : Neutral (EvError v).
Proof. by split. Qed.
#[export] Instance neutral_exit c : Neutral (EvExit c).
Proof. by split. Qed.
#[export] Instance neutral_set_timeout d ms : Neutral (EvSetScriptTimeout d ms).
Proof. by split. Qed.
#[export] Instance neutral_kill_failed d : Neutral (EvKill d false).
Proof. by split. Qed.

Lemma init_state_ok : state_ok init_state.
Proof. split; simpl; [|done..]. intros d. by rewrite dom_empty_L, elem_of_empty. Qed.

Lemma state_ok_add_neutral ev `{!Neutral ev} s : state_ok s → state_ok (add_event ev s).
Proof.
  intros [Hf Hs Hl]. split; autorewrite with e2e;
    rewrite ?neutral_server, ?neutral_live; done.
Qed.

#[export] Instance emit_state_ok ev `{!Neutral ev} : Frame (preserving state_ok) (emit ev).
Proof. intros s ?. by apply state_ok_add_neutral. Qed.

#[export] Instance listen_state_ok w : Frame (preserving state_ok) (listen w).
Proof. intros s [Hf Hs Hl]. split; simpl; autorewrite with e2e; done. Qed.

#[export] Instance server_close_state_ok : Frame (preserving state_ok) server_close.
Proof. intros s [Hf Hs Hl]. split; simpl; autorewrite with e2e; done. Qed.

#[export] Instance getSeleniumDriver_state_ok w b :
  Frame (preserving state_ok) (getSeleniumDriver w b).
Proof.
  intros s [Hf Hs Hl]. unfold getSeleniumDriver.
  destruct (w_driver_error w b); [done|]. split; simpl; autorewrite with e2e; simpl.
  - intros d. rewrite dom_insert_L, elem_of_union, elem_of_singleton.
    intros [->|?%Hf]; lia.
  - done.
  - by rewrite dom_insert_L, Hl.
Qed.

#[export] Instance setScriptTimeout_state_ok d ms :
  Frame (preserving state_ok) (setScriptTimeout d ms).
Proof.
  intros s [Hf Hs Hl]. split; simpl; autorewrite with e2e; simpl;
    rewrite ?dom_alter_L; done.
Qed.

#[export] Instance killWebDriver_state_ok w d :
  Frame (preserving state_ok) (killWebDriver w d).
Proof.
  intros s Hok. unfold killWebDriver. destruct (w_kill_error w d).
  - by apply state_ok_add_neutral.
  - destruct Hok as [Hf Hs Hl]. split; simpl; autorewrite with e2e; simpl.
    + intros d'. rewrite dom_delete_L, elem_of_difference. intros [?%Hf _]. done.
    + done.
    + by rewrite dom_delete_L, Hl.
Qed.

(** ** What the operations return *)

Lemma run_readdir w path s :
  readdir w path s =
  (Fulfilled {| settles_at := w_latency w (EvReaddir path);
                outcome := readdir_result w path |},
   add_event (EvReaddir path) s).
Proof. done. Qed.

Lemma run_run w m s :
  run w m s = (Fulfilled (w_failures w m), add_event (EvRun m (w_failures w m)) s).
Proof. done. Qed.

Lemma run_require_file w m file s :
  require_file w m file s =
  (match w_module w file with
   | Fulfilled titles => Fulfilled (describe_all titles m)
   | Rejected e => Rejected e
   end, add_event (EvRequire file) s).
Proof. unfold require_file. rewrite run_bind, run_emit, run_bind, run_liftR. by destruct (w_module w file). Qed.

Lemma readdir_result_fulfilled w path entries :
  readdir_result w path = Fulfilled entries ↔ w_fs w !! path = Some (FsDir entries).
Proof.
  unfold readdir_result. destruct (w_fs w !! path) as [[]|]; split; intros; by simplify_eq.
Qed.

Lemma readdir_result_rejected w path e :
  readdir_result w path = Rejected e → is_error e = true.
Proof.
  unfold readdir_result. destruct (w_fs w !! path) as [[]|]; intros; by simplify_eq.
Qed.

#[export] Hint Rewrite run_readdir run_run run_require_file : e2e.
#[export] Hint Resolve init_state_ok readdir_result_rejected : e2e.
