(* ===== verification/Samples.v ===== *)
(** * Samples: concrete worlds

    Closed worlds on which the definitions evaluate: the machine of the
    specification's scenarios (two units, one of them with a suite file; a
    stable Chrome among other browsers) and variations of it in which one
    collaborator misbehaves.  The witnesses and examples of the component
    files instantiate their theorems here. *)

From stdpp Require Import base tactics list strings numbers gmap.
From S2P Require Import Prelude Js Externals Effects.

(** ** Browsers *)

Definition chrome_stable : Browser :=
  {| getId := "chrome"; getReleaseName := "stable";
     getSeleniumOptions := {| arguments := ["--headless"] |} |}.

Definition chrome_beta : Browser :=
  {| getId := "chrome"; getReleaseName := "beta";
     getSeleniumOptions := {| arguments := [] |} |}.

Definition firefox_stable : Browser :=
  {| getId := "firefox"; getReleaseName := "stable";
     getSeleniumOptions := {| arguments := [] |} |}.

(** ** File systems *)

(** [unit-a] has a suite file, [unit-b] has none. *)
Definition fs_two_units : gmap string FsNode :=
  {[ "elements" := FsDir ["unit-a"; "unit-b"];
     "elements/unit-a/" := FsDir ["unit-a.js"; "unit-a.e2etest.js"];
     "elements/unit-b/" := FsDir ["unit-b.js"] ]}.

(** A regular file sits beside the unit directories. *)
Definition fs_stray_file : gmap string FsNode :=
  {[ "elements" := FsDir ["unit-a"; "README.md"];
     "elements/unit-a/" := FsDir ["unit-a.e2etest.js"];
     "elements/README.md/" := FsFile ]}.

(** The suite file of [unit-c] is named after another unit. *)
Definition fs_misnamed : gmap string FsNode :=
  {[ "elements" := FsDir ["unit-c"];
     "elements/unit-c/" := FsDir ["other.e2etest.js"] ]}.

(** ** Modules *)

(** [require] finds the suite file of [unit-a], which declares one suite;
    any other path is not a module. *)
Definition modules_unit_a (file : string) : Result (list string) :=
  if bool_decide (file = "./elements/unit-a/unit-a.e2etest")
  then Fulfilled ["unit-a"]
  else Rejected (VError ("Error: Cannot find module '" +:+ file +:+ "'")).

(** The suite file of [unit-a] throws a string while it is loaded. *)
Definition modules_throw_string (file : string) : Result (list string) :=
  if bool_decide (file = "./elements/unit-a/unit-a.e2etest")
  then Rejected (VStr "unit-a is not set up")
  else modules_unit_a file.

(** ** Worlds *)

(** Everything works and every test passes. *)
Definition world_green : World :=
  {| w_browsers := [firefox_stable; chrome_stable; chrome_beta];
     w_port := 41735;
     w_fs := fs_two_units;
     w_latency := λ _, 1;
     w_driver_error := λ _, None;
     w_module := modules_unit_a;
     w_failures := λ _, 0;
     w_kill_error := λ _, None;
     w_installed := λ _, true |}.

(** Two tests fail in every run. *)
Definition world_red : World :=
  {| w_browsers := w_browsers world_green; w_port := w_port world_green;
     w_fs := w_fs world_green; w_latency := w_latency world_green;
     w_driver_error := w_driver_error world_green; w_module := w_module world_green;
     w_failures := λ _, 2;
     w_kill_error := w_kill_error world_green;
     w_installed := w_installed world_green |}.

(** No target browser is installed. *)
Definition world_no_browser : World :=
  {| w_browsers := [firefox_stable; chrome_beta]; w_port := w_port world_green;
     w_fs := w_fs world_green; w_latency := w_latency world_green;
     w_driver_error := w_driver_error world_green; w_module := w_module world_green;
     w_failures := w_failures world_green;
     w_kill_error := w_kill_error world_green;
     w_installed := w_installed world_green |}.

(** The [elements] directory does not exist. *)
Definition world_no_elements : World :=
  {| w_browsers := w_browsers world_green; w_port := w_port world_green;
     w_fs := ∅; w_latency := w_latency world_green;
     w_driver_error := w_driver_error world_green; w_module := w_module world_green;
     w_failures := w_failures world_green;
     w_kill_error := w_kill_error world_green;
     w_installed := w_installed world_green |}.

(** [elements/] holds a regular file. *)
Definition world_stray_file : World :=
  {| w_browsers := w_browsers world_green; w_port := w_port world_green;
     w_fs := fs_stray_file; w_latency := w_latency world_green;
     w_driver_error := w_driver_error world_green; w_module := w_module world_green;
     w_failures := w_failures world_green;
     w_kill_error := w_kill_error world_green;
     w_installed := w_installed world_green |}.

(** A unit whose only suite file carries another unit's name. *)
Definition world_misnamed : World :=
  {| w_browsers := w_browsers world_green; w_port := w_port world_green;
     w_fs := fs_misnamed; w_latency := w_latency world_green;
     w_driver_error := w_driver_error world_green; w_module := w_module world_green;
     w_failures := w_failures world_green;
     w_kill_error := w_kill_error world_green;
     w_installed := w_installed world_green |}.

(** The Chrome driver cannot be started. *)
Definition world_no_driver : World :=
  {| w_browsers := w_browsers world_green; w_port := w_port world_green;
     w_fs := w_fs world_green; w_latency := w_latency world_green;
     w_driver_error := λ _, Some (VError "Error: chromedriver not found");
     w_module := w_module world_green;
     w_failures := w_failures world_green;
     w_kill_error := w_kill_error world_green;
     w_installed := w_installed world_green |}.

(** Two stable Chromes are installed; the first run has failures. *)
Definition world_two_chromes : World :=
  {| w_browsers := [chrome_stable; chrome_stable]; w_port := w_port world_green;
     w_fs := w_fs world_green; w_latency := w_latency world_green;
     w_driver_error := w_driver_error world_green; w_module := w_module world_green;
     w_failures := λ m,
       if existsb (λ su, bool_decide (ctx_driver (suite_ctx su) = Some 0)) (mocha_suites m)
       then 1 else 0;
     w_kill_error := w_kill_error world_green;
     w_installed := w_installed world_green |}.

(** The suite file of [unit-a] throws a value that is not an [Error]. *)
Definition world_throws_string : World :=
  {| w_browsers := w_browsers world_green; w_port := w_port world_green;
     w_fs := w_fs world_green; w_latency := w_latency world_green;
     w_driver_error := w_driver_error world_green; w_module := modules_throw_string;
     w_failures := w_failures world_green;
     w_kill_error := w_kill_error world_green;
     w_installed := w_installed world_green |}.

(** Every test passes, but the driver process cannot be killed. *)
Definition world_stuck_driver : World :=
  {| w_browsers := w_browsers world_green; w_port := w_port world_green;
     w_fs := w_fs world_green; w_latency := w_latency world_green;
     w_driver_error := w_driver_error world_green; w_module := w_module world_green;
     w_failures := w_failures world_green;
     w_kill_error := λ _, Some (VError "Error: kill ESRCH");
     w_installed := w_installed world_green |}.

(** ** Facts *)

Lemma world_green_ok : world_ok world_green.
Proof.
  split; simpl; try done.
  intros f e. unfold modules_unit_a. case_bool_decide; [done|]. by intros [= <-].
Qed.

Lemma world_red_ok : world_ok world_red.
Proof. split; simpl; try done. apply world_green_ok. Qed.

Lemma world_no_driver_ok : world_ok world_no_driver.
Proof.
  split; simpl; try done; [by intros b e [= <-]|]. apply world_green_ok.
Qed.

Lemma world_no_browser_ok : world_ok world_no_browser.
Proof. split; simpl; try done. apply world_green_ok. Qed.

Lemma world_no_elements_ok : world_ok world_no_elements.
Proof. split; simpl; try done. apply world_green_ok. Qed.

Lemma world_two_chromes_ok : world_ok world_two_chromes.
Proof. split; simpl; try done. apply world_green_ok. Qed.

Lemma world_stuck_driver_ok : world_ok world_stuck_driver.
Proof.
  split; simpl; try done; [apply world_green_ok|]. by intros d e [= <-].
Qed.

#[export] Hint Resolve world_green_ok world_red_ok world_no_driver_ok world_no_browser_ok
  world_no_elements_ok world_two_chromes_ok world_stuck_driver_ok : e2e.
