(* ===== verification/Browsers.v ===== *)
(** * Browsers: the browser provisioner

    [browserFilter] (lines 7-10), [unsandboxChrome] (lines 42-50) and the
    expression of [main] that turns the installed browsers into driver
    handles (lines 60-67): filter, unsandbox, then for each browser obtain
    its driver and set the script timeout. *)

From stdpp Require Import base tactics list strings numbers gmap.
From S2P Require Import Prelude Js Externals Effects Samples.

(** ** Definitions *)

(** [browserFilter(browser)]: the release is stable and the id is in the
    allow-list [['chrome']]. *)
Definition browserFilter (browser : Browser) : bool :=
  bool_decide (getReleaseName browser = "stable")
  && Array_includes ["chrome"] (getId browser).

(** [unsandboxChrome(browser)]: a browser that is not the stable Chrome is
    returned as it is; otherwise [--no-sandbox] is added to its launch
    options and the same browser is returned. *)
Definition unsandboxChrome (browser : Browser) : Browser :=
  let isChrome :=
    bool_decide (getReleaseName browser = "stable")
    && Array_includes ["chrome"] (getId browser) in
  if negb isChrome then browser
  else with_options (addArguments "--no-sandbox") browser.

(** The arrow function of lines 63-67: obtain the driver, set its script
    timeout to 60000 ms, return it. *)
Definition openDriver (w : World) (b : Browser) : Prog Driver :=
  driver ← getSeleniumDriver w b;
  setScriptTimeout driver 60000;;
  mret driver.

(** The browsers that survive [.filter(browserFilter).map(unsandboxChrome)]. *)
Definition targets (w : World) : list Browser :=
  unsandboxChrome <$> Array_filter browserFilter (w_browsers w).

(** Lines 60-67: the drivers of the target browsers, opened in order.  The
    [map] is synchronous, so an exception of [getSeleniumDriver] stops it. *)
Definition provision (w : World) : Prog (list Driver) :=
  mapM (openDriver w) (targets w).

(** The session [openDriver] leaves behind for browser [b]. *)
Definition opened_session (b : Browser) : Session :=
  {| ses_browser := b; ses_scriptTimeout := Some 60000%N |}.

(** The events of one successful [openDriver]. *)
Definition open_events (b : Browser) (d : Driver) : list Event :=
  [EvGetDriver b d; EvSetScriptTimeout d 60000].

(** The state after opening the drivers of [bs] one after the other, when
    none of them throws. *)
Fixpoint opened (bs : list Browser) (s : State) : State :=
  match bs with
  | [] => s
  | b :: bs' =>
      opened bs'
        {| st_server := st_server s;
           st_sessions := <[st_next s := opened_session b]> (st_sessions s);
           st_next := S (st_next s);
           st_trace := st_trace s ++ open_events b (st_next s) |}
  end.

(** ** [browserFilter] and [unsandboxChrome] *)

Lemma browserFilter_true b :
  browserFilter b = true ↔ getReleaseName b = "stable" ∧ getId b = "chrome".
Proof.
  unfold browserFilter.
  rewrite andb_true_iff, bool_decide_eq_true, Array_includes_spec, list_elem_of_singleton.
  done.
Qed.

Lemma unsandboxChrome_unfold b :
  unsandboxChrome b =
  if browserFilter b then with_options (addArguments "--no-sandbox") b else b.
Proof. unfold unsandboxChrome, browserFilter. by destruct (_ && _). Qed.

Lemma unsandboxChrome_id b : getId (unsandboxChrome b) = getId b.
Proof. rewrite unsandboxChrome_unfold. by destruct (browserFilter b). Qed.

Lemma unsandboxChrome_release b : getReleaseName (unsandboxChrome b) = getReleaseName b.
Proof. rewrite unsandboxChrome_unfold. by destruct (browserFilter b). Qed.

Lemma browserFilter_unsandboxChrome b : browserFilter (unsandboxChrome b) = browserFilter b.
Proof. unfold browserFilter. by rewrite unsandboxChrome_id, unsandboxChrome_release. Qed.

Lemma elem_of_targets w b' :
  b' ∈ targets w ↔ ∃ b, b ∈ w_browsers w ∧ browserFilter b = true ∧ b' = unsandboxChrome b.
Proof.
  unfold targets. rewrite list_elem_of_fmap. setoid_rewrite Array_filter_spec.
  split; [intros (b & -> & ? & ?)|intros (b & ? & ? & ->)]; eauto.
Qed.

(** A browser is kept by the filter exactly when its release name is
    ['stable'] and its id is in the allow-list, whose only entry is
    ['chrome']. *)
Lemma browserFilter_spec b :
  browserFilter b = true ↔ getReleaseName b = "stable" ∧ getId b ∈ ["chrome"].
Proof. rewrite browserFilter_true, list_elem_of_singleton. done. Qed.

(** The target browsers are the installed stable Chromes, in the order of
    the installation list, each with [--no-sandbox] appended to its launch
    arguments. *)
Lemma targets_stable_chromes w :
  targets w =
  with_options (addArguments "--no-sandbox")
  <$> filter (λ b, getReleaseName b = "stable" ∧ getId b = "chrome") (w_browsers w).
Proof.
  unfold targets, Array_filter.
  rewrite (list_filter_iff _ (λ b, getReleaseName b = "stable" ∧ getId b = "chrome"))
    by (intros b; by rewrite Is_true_true, browserFilter_true).
  apply Forall_fmap_ext_1, Forall_forall. intros b [Hb _]%list_elem_of_filter.
  rewrite unsandboxChrome_unfold. by apply browserFilter_true in Hb as ->.
Qed.

(** On the stable Chrome [unsandboxChrome] appends [--no-sandbox] to the
    launch arguments and changes nothing else; any other browser is
    returned unchanged. *)
Lemma unsandboxChrome_spec b :
  unsandboxChrome b =
  if bool_decide (getReleaseName b = "stable" ∧ getId b = "chrome")
  then {| getId := getId b; getReleaseName := getReleaseName b;
          getSeleniumOptions :=
            {| arguments := arguments (getSeleniumOptions b) ++ ["--no-sandbox"] |} |}
  else b.
Proof.
  rewrite unsandboxChrome_unfold. destruct (browserFilter b) eqn:E.
  - apply browserFilter_true in E. by rewrite bool_decide_eq_true_2.
  - rewrite bool_decide_eq_false_2; [done|]. rewrite <- browserFilter_true. congruence.
Qed.

(** Every browser handed to [getSeleniumDriver] is a stable Chrome whose
    launch arguments end with [--no-sandbox]. *)
Lemma targets_unsandboxed w b :
  b ∈ targets w →
  browserFilter b = true ∧
  ∃ args, arguments (getSeleniumOptions b) = args ++ ["--no-sandbox"].
Proof.
  intros (b0 & _ & Hf & ->)%elem_of_targets. split.
  - by rewrite browserFilter_unsandboxChrome.
  - rewrite unsandboxChrome_unfold, Hf. simpl. eauto.
Qed.

(** [unsandboxChrome] is not idempotent: a second call appends the flag
    again.  The script calls it once per browser. *)
Lemma unsandboxChrome_twice b :
  browserFilter b = true →
  arguments (getSeleniumOptions (unsandboxChrome (unsandboxChrome b))) =
  arguments (getSeleniumOptions b) ++ ["--no-sandbox"; "--no-sandbox"].
Proof.
  intros Hf. rewrite (unsandboxChrome_unfold (unsandboxChrome b)).
  rewrite browserFilter_unsandboxChrome, Hf, unsandboxChrome_unfold, Hf. simpl.
  by rewrite <- app_assoc.
Qed.

(** ** [openDriver] and [provision] *)

#[export] Instance openDriver_trace_ext w b : Frame trace_ext (openDriver w b).
Proof. by_parts openDriver. Qed.
#[export] Instance openDriver_same_server w b : Frame same_server (openDriver w b).
Proof. by_parts openDriver. Qed.
#[export] Instance openDriver_state_ok w b : Frame (preserving state_ok) (openDriver w b).
Proof. by_parts openDriver. Qed.

#[export] Instance provision_trace_ext w : Frame trace_ext (provision w).
Proof. by_parts provision. Qed.
#[export] Instance provision_same_server w : Frame same_server (provision w).
Proof. by_parts provision. Qed.
#[export] Instance provision_state_ok w : Frame (preserving state_ok) (provision w).
Proof. by_parts provision. Qed.

Lemma run_openDriver w b s :
  openDriver w b s =
  match w_driver_error w b with
  | Some e => (Rejected e, s)
  | None =>
      (Fulfilled (st_next s),
       {| st_server := st_server s;
          st_sessions := <[st_next s := opened_session b]> (st_sessions s);
          st_next := S (st_next s);
          st_trace := st_trace s ++ open_events b (st_next s) |})
  end.
Proof.
  unfold openDriver. rewrite run_bind. unfold getSeleniumDriver.
  destruct (w_driver_error w b); [done|].
  unfold mbind, Prog_bind, setScriptTimeout, add_event, set_sessions, set_next. simpl.
  rewrite alter_insert_eq, <- app_assoc. done.
Qed.

Lemma run_mapM_openDriver_ok w bs s :
  Forall (λ b, w_driver_error w b = None) bs →
  mapM (openDriver w) bs s = (Fulfilled (seq (st_next s) (length bs)), opened bs s).
Proof.
  intros Hall. revert s. induction Hall as [|b bs Hb _ IH]; intros s; [done|].
  rewrite run_mapM_cons, run_bind, run_openDriver, Hb.
  rewrite run_bind, IH. done.
Qed.

Lemma run_mapM_openDriver_err w bs1 b bs2 e s :
  Forall (λ b, w_driver_error w b = None) bs1 →
  w_driver_error w b = Some e →
  mapM (openDriver w) (bs1 ++ b :: bs2) s = (Rejected e, opened bs1 s).
Proof.
  intros Hall He. revert s. induction Hall as [|b1 bs1 Hb _ IH]; intros s.
  - rewrite app_nil_l, run_mapM_cons, run_bind, run_openDriver, He. done.
  - rewrite <- app_comm_cons, run_mapM_cons, run_bind, run_openDriver, Hb, run_bind, IH.
    done.
Qed.

Lemma opened_server bs s : st_server (opened bs s) = st_server s.
Proof. revert s. induction bs as [|b bs IH]; intros s; simpl; [done|]. by rewrite IH. Qed.

Lemma opened_next bs s : st_next (opened bs s) = st_next s + length bs.
Proof.
  revert s. induction bs as [|b bs IH]; intros s; simpl; [lia|]. rewrite IH. simpl. lia.
Qed.

Lemma opened_trace bs s :
  st_trace (opened bs s) =
  st_trace s ++ mjoin (zip_with open_events bs (seq (st_next s) (length bs))).
Proof.
  revert s. induction bs as [|b bs IH]; intros s; simpl.
  - by rewrite app_nil_r.
  - rewrite IH. simpl. by rewrite <- !app_assoc.
Qed.

Lemma opened_sessions_old bs s d :
  d < st_next s → st_sessions (opened bs s) !! d = st_sessions s !! d.
Proof.
  revert s. induction bs as [|b bs IH]; intros s Hd; simpl; [done|].
  rewrite IH by (simpl; lia). simpl. rewrite lookup_insert_ne by lia. done.
Qed.

Lemma opened_sessions_new bs s i b :
  bs !! i = Some b →
  st_sessions (opened bs s) !! (st_next s + i) = Some (opened_session b).
Proof.
  revert s i. induction bs as [|b0 bs IH]; intros s i Hi; [done|].
  destruct i as [|i]; simpl in *.
  - simplify_eq. rewrite opened_sessions_old by (simpl; lia). simpl.
    rewrite Nat.add_0_r. apply lookup_insert_eq.
  - replace (st_next s + S i) with (S (st_next s) + i) by lia. by apply (IH (mkState _ _ _ _)).
Qed.

Lemma opened_sessions_other bs s d :
  d ∉ seq (st_next s) (length bs) → st_sessions (opened bs s) !! d = st_sessions s !! d.
Proof.
  revert s. induction bs as [|b bs IH]; intros s Hd; simpl in *; [done|].
  apply not_elem_of_cons in Hd as [Hd1 Hd2]. rewrite IH by done. simpl.
  by rewrite lookup_insert_ne.
Qed.

(** The sessions of the handles [provision] returns, in order. *)
Lemma opened_sessions_seq bs s :
  (λ d, st_sessions (opened bs s) !! d) <$> seq (st_next s) (length bs)
  = (λ b, Some (opened_session b)) <$> bs.
Proof.
  revert s. induction bs as [|b bs IH]; intros s; [done|]. simpl. f_equal.
  - rewrite opened_sessions_old by (simpl; lia). apply lookup_insert_eq.
  - exact (IH _).
Qed.

(** [provision] is fulfilled only when every target browser gives its
    driver, and then it has opened them all. *)
Lemma provision_fulfilled w s ds s' :
  provision w s = (Fulfilled ds, s') →
  ds = seq (st_next s) (length (targets w)) ∧ s' = opened (targets w) s.
Proof.
  unfold provision.
  destruct (first_failure (λ b, w_driver_error w b = None) (targets w))
    as [Hall|(bs1 & b & bs2 & -> & Hall & Hb)].
  - rewrite run_mapM_openDriver_ok by done. by intros [= <- <-].
  - destruct (w_driver_error w b) as [e|] eqn:He; [|done].
    by rewrite (run_mapM_openDriver_err w bs1 b bs2 e).
Qed.

(** When no driver acquisition throws, [provision] returns one fresh
    handle per target browser, in order, and each handle's session belongs
    to its browser and has the script timeout set to 60000 ms. *)
Lemma provision_ok w s :
  Forall (λ b, w_driver_error w b = None) (targets w) →
  ∃ s', provision w s = (Fulfilled (seq (st_next s) (length (targets w))), s') ∧
    st_server s' = st_server s ∧
    ∀ i b, targets w !! i = Some b →
      st_sessions s' !! (st_next s + i) =
        Some {| ses_browser := b; ses_scriptTimeout := Some 60000%N |}.
Proof.
  intros Hall. exists (opened (targets w) s). unfold provision.
  rewrite run_mapM_openDriver_ok by done. split_and!; [done|apply opened_server|].
  intros i b Hi. by apply opened_sessions_new.
Qed.

(** When the driver of some target browser cannot be obtained,
    [provision] rejects with the error of the first such browser, and the
    sessions opened for the browsers before it stay open. *)
Lemma provision_error w s bs1 b bs2 e :
  targets w = bs1 ++ b :: bs2 →
  Forall (λ b, w_driver_error w b = None) bs1 →
  w_driver_error w b = Some e →
  ∃ s', provision w s = (Rejected e, s') ∧
    ∀ i b', bs1 !! i = Some b' → is_Some (st_sessions s' !! (st_next s + i)).
Proof.
  intros Ht Hall He. exists (opened bs1 s). unfold provision.
  rewrite Ht, (run_mapM_openDriver_err w bs1 b bs2 e) by done. split; [done|].
  intros i b' Hi. rewrite (opened_sessions_new _ _ _ b') by done. eauto.
Qed.

#[export] Hint Rewrite opened_server opened_next opened_trace : e2e.

(** C9: which browsers are opened.  When [provision] is fulfilled, the
    handles it returns are, in the order of the installation list, those of
    the installed browsers whose release is stable and whose id is
    ['chrome'], and of no other: each handle has a session that belongs to
    its browser with [--no-sandbox] appended to the launch arguments and
    whose script timeout is 60000 ms; no other session is opened, changed
    or closed.  A stable browser that is not Chrome is not opened, whatever
    the comment of line 56 says. *)
Theorem provision_stable_chromes w s ds s' :
  provision w s = (Fulfilled ds, s') →
  (λ d, st_sessions s' !! d) <$> ds
  = (λ b, Some {| ses_browser := with_options (addArguments "--no-sandbox") b;
                  ses_scriptTimeout := Some 60000%N |})
    <$> filter (λ b, getReleaseName b = "stable" ∧ getId b = "chrome") (w_browsers w)
  ∧ ∀ d, d ∉ ds → st_sessions s' !! d = st_sessions s !! d.
Proof.
  intros [-> ->]%provision_fulfilled. split; [|apply opened_sessions_other].
  by rewrite opened_sessions_seq, targets_stable_chromes, <- list_fmap_compose.
Qed.

(** ** Witnesses on the sample worlds *)

Lemma provision_stable_chromes_witness :
  (λ d, st_sessions (opened (targets world_green) init_state) !! d) <$> [0]
  = (λ b, Some {| ses_browser := with_options (addArguments "--no-sandbox") b;
                  ses_scriptTimeout := Some 60000%N |})
    <$> filter (λ b, getReleaseName b = "stable" ∧ getId b = "chrome")
          (w_browsers world_green)
  ∧ ∀ d, d ∉ [0] →
      st_sessions (opened (targets world_green) init_state) !! d = st_sessions init_state !! d.
Proof. by apply (provision_stable_chromes world_green init_state). Defined.

(** The stable Firefox and the beta Chrome of the sample machine get no
    session: the one session is that of the stable Chrome. *)
Example provision_world_green :
  (map_to_list (st_sessions (provision world_green init_state).2)).*2
  = [ {| ses_browser :=
           {| getId := "chrome"; getReleaseName := "stable";
              getSeleniumOptions := {| arguments := ["--headless"; "--no-sandbox"] |} |};
         ses_scriptTimeout := Some 60000%N |} ].
Proof. by vm_compute. Qed.

Lemma targets_unsandboxed_witness :
  browserFilter (unsandboxChrome chrome_stable) = true ∧
  ∃ args, arguments (getSeleniumOptions (unsandboxChrome chrome_stable))
          = args ++ ["--no-sandbox"].
Proof.
  apply (targets_unsandboxed world_green). vm_compute. left.
Defined.

Lemma provision_ok_witness :
  ∃ s', provision world_green init_state = (Fulfilled [0], s') ∧
    st_server s' = SrvNotStarted ∧
    ∀ i b, targets world_green !! i = Some b →
      st_sessions s' !! (0 + i) =
        Some {| ses_browser := b; ses_scriptTimeout := Some 60000%N |}.
Proof.
  apply (provision_ok world_green init_state). apply Forall_forall. done.
Defined.

Lemma provision_error_witness :
  ∃ s', provision world_no_driver init_state
        = (Rejected (VError "Error: chromedriver not found"), s') ∧
    ∀ i b', @nil Browser !! i = Some b' → is_Some (st_sessions s' !! (0 + i)).
Proof.
  apply (provision_error world_no_driver init_state [] (unsandboxChrome chrome_stable) []);
    [by vm_compute|constructor|done].
Defined.

(** The sample machine has three browsers; only the stable Chrome is
    provisioned, with the flag appended to its arguments. *)
Example targets_world_green :
  targets world_green =
  [ {| getId := "chrome"; getReleaseName := "stable";
       getSeleniumOptions := {| arguments := ["--headless"; "--no-sandbox"] |} |} ].
Proof. evaluated. Qed.
