(* ===== verification/Server.v ===== *)
(** * Server: the server launcher

    [startServer] (lines 12-19) and the address the tests are given
    (line 71).  The express application and its static middleware are not
    observable by the script; what is modelled is that a server starts
    listening on the port the OS assigns and that the promise resolves with
    it once the ['listening'] event fires. *)

From stdpp Require Import base tactics list strings numbers gmap pretty.
From S2P Require Import Prelude Codec Js Externals Effects Samples.

(** ** Definitions *)

(** The server handle: [server.address().port] is all the script reads. *)
Record Server := mkServer {
  address_port : N;
}.

(** [startServer()]: create the server, call [listen()] with no port, and
    return the promise that the ['listening'] handler resolves with the
    server.  The promise has no [reject] path. *)
Definition startServer (w : World) : Prog (Promise Server) :=
  port ← listen w;
  mret {| settles_at := w_latency w (EvListen port);
          outcome := Fulfilled {| address_port := port |} |}.

(** Line 71: [`http://localhost:${server.address().port}`]. *)
Definition address_of (server : Server) : string :=
  "http://localhost:" +:+ pretty (address_port server).

(** The address read back: the fixed text, then the port in decimal. *)
Definition codec_Server : Codec Server :=
  codec_view (H:=codec_after (A:=N) "http://localhost:") address_port mkServer
    (λ server, match server with mkServer _ => eq_refl end).

#[export] Existing Instance codec_Server.

(** ** Theorems *)

#[export] Instance startServer_trace_ext w : Frame trace_ext (startServer w).
Proof. by_parts startServer. Qed.
#[export] Instance startServer_same_sessions w : Frame same_sessions (startServer w).
Proof. by_parts startServer. Qed.
#[export] Instance startServer_state_ok w : Frame (preserving state_ok) (startServer w).
Proof. by_parts startServer. Qed.

Lemma run_startServer w s :
  startServer w s =
  (Fulfilled {| settles_at := w_latency w (EvListen (w_port w));
                outcome := Fulfilled {| address_port := w_port w |} |},
   add_event (EvListen (w_port w)) (set_server (SrvListening (w_port w)) s)).
Proof. done. Qed.

(** [startServer] never rejects: it returns a promise fulfilled with a
    server bound to the OS-assigned port, and afterwards the server is
    listening on that port; sessions are untouched and one [EvListen] event
    is appended. *)
Lemma startServer_spec w s :
  ∃ p, startServer w s =
         (Fulfilled p,
          {| st_server := SrvListening (w_port w); st_sessions := st_sessions s;
             st_next := st_next s; st_trace := st_trace s ++ [EvListen (w_port w)] |})
       ∧ outcome p = Fulfilled {| address_port := w_port w |}.
Proof. eexists. split; [apply run_startServer|done]. Qed.

Lemma address_of_prefix server : String.prefix "http://localhost:" (address_of server) = true.
Proof. apply prefix_app. Qed.

(** The address is [http://localhost:] followed by the decimal port, and
    servers on different ports have different addresses. *)
Lemma address_of_inj server1 server2 :
  address_of server1 = address_of server2 ↔ server1 = server2.
Proof.
  split; [|by intros ->]. unfold address_of. intros H%(inj (String.app _)).
  apply (inj pretty) in H. destruct server1, server2; simpl in *. by subst.
Qed.

#[export] Hint Rewrite run_startServer : e2e.

(** ** The address read back *)

Lemma show_Server server : show server = address_of server.
Proof. done. Qed.

(** C34: the address determines the server: a client that strips
    [http://localhost:] from the address and reads the rest as a decimal
    number finds the port the server listens on. *)
Theorem address_roundtrip server : read (address_of server) = Some server.
Proof. rewrite <- show_Server. apply read_show. Qed.

(** A port is a 16-bit number, so the address has between 18 and 22
    characters: the 17 of the fixed text and one to five digits. *)
Lemma address_length server :
  (address_port server < 65536)%N → 18 ≤ String.length (address_of server) ≤ 22.
Proof.
  intros Hp. unfold address_of. rewrite string_app_length.
  assert (address_port server < 10 ^ N.of_nat 5)%N as H5 by (simpl; lia).
  pose proof (pretty_N_length 5 (address_port server)) as H. simpl in *. lia.
Qed.

Lemma address_length_witness :
  18 ≤ String.length (address_of {| address_port := 41735 |}) ≤ 22.
Proof. apply (address_length {| address_port := 41735 |}). by vm_compute. Defined.

(** Addresses that are not of the server's form are not read. *)
Example read_address :
  read "http://localhost:41735" = Some {| address_port := 41735 |}
  ∧ read (A:=Server) "https://localhost:41735" = None
  ∧ read (A:=Server) "http://localhost:" = None
  ∧ read (A:=Server) "http://localhost:41735/" = None.
Proof. evaluated. Qed.
