(* ===== verification/Discovery.v ===== *)
(** * Discovery: suite discovery

    [buildMocha] (lines 21-40): list [elements/], list every entry of it
    concurrently, keep the entries one of whose files matches
    [/\.e2etest\.js/], register [./elements/<name>/<name>.e2etest] for each
    of them on a fresh Mocha, set the root suite's timeout to 60000 ms and
    load the files. *)

From stdpp Require Import base tactics list strings numbers gmap.
From S2P Require Import Prelude Codec Js Externals Effects Samples.

(** ** Definitions *)

(** The literal [/\.e2etest\.js/] of line 27. *)
Definition e2etest_re : Regex := regex_parse "\.e2etest\.js".

(** [`elements/${element}/`] (line 26). *)
Definition element_dir (element : string) : string :=
  "elements/" +:+ element +:+ "/".

(** [files.some(f => /\.e2etest\.js/.test(f))] (line 27). *)
Definition has_e2etest (files : list string) : bool :=
  Array_some (regex_test e2etest_re) files.

(** What the [async] arrow function of lines 25-31 returns once the
    listing is known: the element, or the empty string. *)
Definition probe_name (element : string) (files : list string) : string :=
  if has_e2etest files then element else "".

(** The arrow function of lines 25-31: the read is issued at once; the
    promise of the function settles when the read does. *)
Definition probe (w : World) (element : string) : Prog (Promise string) :=
  files ← readdir w (element_dir element);
  mret (Promise_then (probe_name element) files).

(** [`./elements/${name}/${name}.e2etest`] (line 36). *)
Definition suite_file (name : string) : string :=
  "./elements/" +:+ name +:+ "/" +:+ name +:+ ".e2etest".

(** The two templates as codecs of the unit's name: a fixed text before
    and after the name, and for the suite file the name twice. *)
Definition element_dir_codec : Codec string :=
  codec_after (H:=codec_before "/") "elements/".

Definition suite_file_codec : Codec string :=
  codec_after (H:=codec_before (H:=codec_twice "/") ".e2etest") "./elements/".

(** Lines 33-36: [filteredElements.filter(name => !!name).forEach(name =>
    mocha.addFile(...))]. *)
Definition register (filteredElements : list string) (mocha : Mocha) : Mocha :=
  foldl (λ mocha name, addFile (suite_file name) mocha) mocha
        (Array_filter str_truthy filteredElements).

(** [buildMocha()]. *)
Definition buildMocha (w : World) : Prog Mocha :=
  let mocha := new_Mocha in
  listing ← readdir w "elements";
  elements ← await listing;
  probes ← mapM (probe w) elements;
  filteredElements ← await (Promise_all probes);
  let mocha := register filteredElements mocha in
  let mocha := set_timeout 60000 mocha in
  loadFiles w mocha.

(** ** Specification *)

(** The promise [probe] returns for an element. *)
Definition probe_promise (w : World) (element : string) : Promise string :=
  Promise_then (probe_name element)
    {| settles_at := w_latency w (EvReaddir (element_dir element));
       outcome := readdir_result w (element_dir element) |}.

(** A unit has a suite when its directory can be listed and one of its
    file names contains [.e2etest.js]. *)
Definition unit_has_suite (w : World) (element : string) : bool :=
  match readdir_result w (element_dir element) with
  | Fulfilled files => has_e2etest files
  | Rejected _ => false
  end.

(** The units that contribute a suite, in listing order. *)
Definition discovered (w : World) (elements : list string) : list string :=
  Array_filter (λ element, str_truthy element && unit_has_suite w element) elements.

(** The directory reads of one discovery. *)
Definition discovery_reads (elements : list string) : list Event :=
  EvReaddir "elements" :: (EvReaddir ∘ element_dir <$> elements).

(** The state after the files of [m] that load have been required: the
    events, and the Mocha with the suites they declare. *)
Fixpoint loaded (w : World) (m : Mocha) (files : list string) : Result Mocha * list Event :=
  match files with
  | [] => (Fulfilled m, [])
  | file :: files' =>
      match w_module w file with
      | Fulfilled titles =>
          let '(r, evs) := loaded w (describe_all titles m) files' in
          (r, EvRequire file :: evs)
      | Rejected e => (Rejected e, [EvRequire file])
      end
  end.

(** The Mocha [buildMocha] loads, for a given list of probe results. *)
Definition registered (filteredElements : list string) : Mocha :=
  set_timeout 60000 (register filteredElements new_Mocha).

(** What one discovery does, as a function of the world alone: its outcome
    and the events it appends. *)
Definition built (w : World) : Result Mocha * list Event :=
  match readdir_result w "elements" with
  | Rejected e => (Rejected e, [EvReaddir "elements"])
  | Fulfilled elements =>
      match outcome (Promise_all (probe_promise w <$> elements)) with
      | Rejected e => (Rejected e, discovery_reads elements)
      | Fulfilled names =>
          let m := registered names in
          ((loaded w m (mocha_files m)).1,
           discovery_reads elements ++ (loaded w m (mocha_files m)).2)
      end
  end.

(** The Mocha that discovery builds on the sample machine: one file, one
    suite. *)
Definition mocha_green : Mocha :=
  {| mocha_files := ["./elements/unit-a/unit-a.e2etest"];
     mocha_timeout := 60000;
     mocha_suites :=
       [ {| suite_title := "unit-a"; suite_timeout := 60000; suite_ctx := empty_ctx |} ] |}.

(** ** The regular expression *)

Lemma e2etest_re_literal : e2etest_re = regex_of_string ".e2etest.js".
Proof. done. Qed.

(** The pattern [/\.e2etest\.js/] matches a file name exactly when the
    name contains the text [.e2etest.js] somewhere: the dots are literal and
    the search is not anchored at either end. *)
Lemma e2etest_re_spec f :
  regex_test e2etest_re f = true ↔ ∃ pre post, f = pre +:+ ".e2etest.js" +:+ post.
Proof. rewrite e2etest_re_literal. apply regex_test_literal_spec. Qed.

Lemma has_e2etest_spec files :
  has_e2etest files = true ↔
  ∃ f pre post, f ∈ files ∧ f = pre +:+ ".e2etest.js" +:+ post.
Proof.
  unfold has_e2etest. rewrite Array_some_spec, e2etest_re_literal.
  setoid_rewrite regex_test_literal_spec.
  split; [intros (f & ? & pre & post & ?)|intros (f & pre & post & ? & ?)]; eauto 6.
Qed.

(** The pattern is unanchored: a name that merely contains the token
    matches, whatever its extension. *)
Example e2etest_re_unanchored :
  regex_test e2etest_re "notes.e2etest.json" = true ∧
  regex_test e2etest_re "old.e2etest.js.bak" = true ∧
  regex_test e2etest_re "unit-a.e2etest.js" = true ∧
  regex_test e2etest_re "unit-a-e2etest-js" = false.
Proof. evaluated. Qed.

(** ** Paths *)

Lemma suite_file_length name :
  String.length (suite_file name) = 20 + 2 * String.length name.
Proof. unfold suite_file. rewrite !string_app_length. simpl. lia. Qed.

Lemma show_element_dir element : show (Codec:=element_dir_codec) element = element_dir element.
Proof. done. Qed.

Lemma show_suite_file name : show (Codec:=suite_file_codec) name = suite_file name.
Proof.
  change (show (Codec:=suite_file_codec) name)
    with ("./elements/" +:+ ((name +:+ "/" +:+ name) +:+ ".e2etest")).
  unfold suite_file. by rewrite !string_app_assoc.
Qed.

#[export] Instance element_dir_exact : @Exact string element_dir_codec.
Proof. apply @exact_after, @exact_before, exact_string. Qed.

#[export] Instance suite_file_exact : @Exact string suite_file_codec.
Proof. apply @exact_after, @exact_before, exact_twice. Qed.

(** A path is read as a unit's name exactly when it is the path the
    template gives for that name. *)
Lemma read_suite_file s name :
  read (Codec:=suite_file_codec) s = Some name ↔ s = suite_file name.
Proof. rewrite <- show_suite_file. apply read_Some_iff. Qed.

Lemma read_element_dir s element :
  read (Codec:=element_dir_codec) s = Some element ↔ s = element_dir element.
Proof. rewrite <- show_element_dir. apply read_Some_iff. Qed.

#[export] Instance suite_file_inj : Inj (=) (=) suite_file.
Proof.
  intros n1 n2 H. rewrite <- !show_suite_file in H.
  by apply (inj (show (Codec:=suite_file_codec))) in H.
Qed.

#[export] Instance element_dir_inj : Inj (=) (=) element_dir.
Proof.
  intros n1 n2 H. rewrite <- !show_element_dir in H.
  by apply (inj (show (Codec:=element_dir_codec))) in H.
Qed.

(** ** Registration *)

Lemma register_files names m :
  mocha_files (register names m) =
  mocha_files m ++ (suite_file <$> Array_filter str_truthy names).
Proof. unfold register. by rewrite foldl_addFile_files. Qed.

Lemma registered_files names :
  mocha_files (registered names) = suite_file <$> Array_filter str_truthy names.
Proof. unfold registered. simpl. by rewrite register_files. Qed.

Lemma registered_timeout names : mocha_timeout (registered names) = 60000%N.
Proof. done. Qed.

Lemma registered_suites names : mocha_suites (registered names) = [].
Proof. unfold registered, register. simpl. by rewrite foldl_addFile_suites. Qed.

#[export] Hint Rewrite register_files registered_files registered_timeout
  registered_suites : e2e.

(** ** Running the pieces *)

Lemma run_probe w element s :
  probe w element s =
  (Fulfilled (probe_promise w element), add_event (EvReaddir (element_dir element)) s).
Proof. done. Qed.

Lemma run_probes w elements s :
  mapM (probe w) elements s =
  (Fulfilled (probe_promise w <$> elements),
   add_events (EvReaddir ∘ element_dir <$> elements) s).
Proof.
  revert s. induction elements as [|el els IH]; intros s.
  - by rewrite run_mapM_nil, add_events_nil.
  - rewrite run_mapM_cons, run_bind, run_probe, run_bind, IH.
    by rewrite add_event_add_events, add_events_app.
Qed.

Lemma run_loadFiles_foldM w m files s :
  foldM (require_file w) m files s =
  ((loaded w m files).1, add_events (loaded w m files).2 s).
Proof.
  revert m s. induction files as [|file files IH]; intros m s.
  - by rewrite run_foldM_nil, add_events_nil.
  - rewrite run_foldM_cons, run_bind, run_require_file. simpl.
    destruct (w_module w file) as [titles|e]; [|done].
    rewrite IH, add_event_add_events, add_events_app.
    by destruct (loaded w (describe_all titles m) files).
Qed.

Lemma run_loadFiles w m s :
  loadFiles w m s =
  ((loaded w m (mocha_files m)).1, add_events (loaded w m (mocha_files m)).2 s).
Proof. apply run_loadFiles_foldM. Qed.

(** [buildMocha] implements [built]: its outcome does not depend on the
    state it starts from, and it only appends events. *)
Lemma run_buildMocha_built w s :
  buildMocha w s = ((built w).1, add_events (built w).2 s).
Proof.
  unfold buildMocha, built. rewrite run_bind, run_readdir, run_bind, run_await. simpl.
  destruct (readdir_result w "elements") as [elements|e]; [|done].
  rewrite run_bind, run_probes, run_bind, run_await.
  rewrite add_event_add_events, add_events_app. simpl.
  destruct (outcome (Promise_all _)) as [names|e]; [|done].
  by rewrite run_loadFiles, add_events_app.
Qed.

(** [buildMocha], stage by stage. *)
Lemma run_buildMocha w s :
  buildMocha w s =
  match readdir_result w "elements" with
  | Rejected e => (Rejected e, add_events [EvReaddir "elements"] s)
  | Fulfilled elements =>
      match outcome (Promise_all (probe_promise w <$> elements)) with
      | Rejected e => (Rejected e, add_events (discovery_reads elements) s)
      | Fulfilled names =>
          let m := registered names in
          ((loaded w m (mocha_files m)).1,
           add_events (discovery_reads elements ++ (loaded w m (mocha_files m)).2) s)
      end
  end.
Proof.
  rewrite run_buildMocha_built. unfold built.
  destruct (readdir_result w "elements") as [elements|e]; [|done].
  by destruct (outcome (Promise_all _)) as [names|e].
Qed.

(** ** The probes *)

Lemma probe_promise_outcome w element :
  outcome (probe_promise w element) =
  match readdir_result w (element_dir element) with
  | Fulfilled files => Fulfilled (probe_name element files)
  | Rejected e => Rejected e
  end.
Proof. done. Qed.

Lemma probe_name_truthy element files :
  str_truthy (probe_name element files) = str_truthy element && has_e2etest files.
Proof. unfold probe_name. destruct (has_e2etest files); [by rewrite andb_true_r|]. by rewrite andb_false_r. Qed.

(** When every probe is fulfilled, the names that survive [filter(name =>
    !!name)] are the discovered units, in listing order. *)
Lemma probes_fulfilled w elements names :
  Forall2 (λ p a, outcome p = Fulfilled a) (probe_promise w <$> elements) names →
  Array_filter str_truthy names = discovered w elements.
Proof.
  unfold discovered. rewrite Forall2_fmap_l. induction 1 as [|el name els names Hel _ IH]; [done|].
  rewrite !Array_filter_cons, IH.
  change (outcome (probe_promise w el) = Fulfilled name) in Hel.
  rewrite probe_promise_outcome in Hel.
  unfold unit_has_suite. destruct (readdir_result w (element_dir el)) as [files|]; [|done].
  simplify_eq. rewrite probe_name_truthy. destruct (_ && _) eqn:E; [|done].
  unfold probe_name. by apply andb_true_iff in E as [_ ->].
Qed.

Lemma probes_rejected w elements e :
  outcome (Promise_all (probe_promise w <$> elements)) = Rejected e →
  ∃ element, element ∈ elements ∧ readdir_result w (element_dir element) = Rejected e.
Proof.
  intros (p & (el & -> & Hel)%list_elem_of_fmap & Ho & _)%Promise_all_rejected.
  exists el. split; [done|]. rewrite probe_promise_outcome in Ho.
  by case_match; simplify_eq.
Qed.

Lemma probes_all_listed w elements names :
  outcome (Promise_all (probe_promise w <$> elements)) = Fulfilled names →
  ∀ element, element ∈ elements →
    ∃ files, readdir_result w (element_dir element) = Fulfilled files.
Proof.
  intros HF%Promise_all_fulfilled el Hel. rewrite Forall2_fmap_l in HF.
  apply list_elem_of_lookup in Hel as [i Hi].
  destruct (Forall2_lookup_l _ _ _ _ _ HF Hi) as (name & _ & Hn).
  change (outcome (probe_promise w el) = Fulfilled name) in Hn.
  rewrite probe_promise_outcome in Hn. case_match; [eauto|done].
Qed.

(** ** Loading *)

Lemma describe_all_app ts1 ts2 m :
  describe_all (ts1 ++ ts2) m = describe_all ts2 (describe_all ts1 m).
Proof. unfold describe_all. by rewrite foldl_app. Qed.

(** When every file loads, every file has been required in order and the
    Mocha holds the suites the files declare. *)
Lemma loaded_fulfilled w m files m' :
  (loaded w m files).1 = Fulfilled m' →
  ∃ titles, Forall2 (λ f ts, w_module w f = Fulfilled ts) files titles ∧
    m' = describe_all (concat titles) m ∧
    (loaded w m files).2 = EvRequire <$> files.
Proof.
  revert m. induction files as [|file files IH]; intros m; simpl.
  - intros [= <-]. exists []. by split_and!; [constructor|..].
  - destruct (w_module w file) as [ts|e] eqn:E; [|done].
    destruct (loaded w (describe_all ts m) files) as [r evs] eqn:El. simpl.
    intros ->. destruct (IH (describe_all ts m)) as (titles & HF & -> & Hev).
    { by rewrite El. }
    exists (ts :: titles). split_and!; [by constructor| |].
    + simpl. by rewrite describe_all_app.
    + rewrite El in Hev. simpl in *. by rewrite Hev.
Qed.

Lemma loaded_rejected w m files e :
  (loaded w m files).1 = Rejected e →
  ∃ file, file ∈ files ∧ w_module w file = Rejected e.
Proof.
  revert m. induction files as [|file files IH]; intros m; simpl; [done|].
  destruct (w_module w file) as [ts|e'] eqn:E.
  - destruct (loaded w (describe_all ts m) files) as [r evs] eqn:El. simpl.
    intros ->. destruct (IH (describe_all ts m)) as (f & ? & ?); [by rewrite El|].
    exists f. split; [by right|done].
  - simpl. intros [= ->]. exists file. split; [left|done].
Qed.

Lemma loaded_events w m files :
  ∃ n, (loaded w m files).2 = EvRequire <$> take n files.
Proof.
  revert m. induction files as [|file files IH]; intros m; simpl.
  - by exists 0.
  - destruct (w_module w file) as [ts|e'].
    + destruct (IH (describe_all ts m)) as [n Hn].
      destruct (loaded w (describe_all ts m) files) as [r evs]. simpl in *.
      exists (S n). simpl. by rewrite Hn.
    + by exists 1.
Qed.

(** ** Footprint *)

#[export] Instance probe_frame R `{!PreOrder R, !∀ p, Frame R (emit (EvReaddir p))} w el :
  Frame R (probe w el).
Proof. by_parts probe. Qed.

#[export] Instance buildMocha_frame R
  `{!PreOrder R, !∀ p, Frame R (emit (EvReaddir p)), !∀ f, Frame R (emit (EvRequire f))} w :
  Frame R (buildMocha w).
Proof. by_parts buildMocha. Qed.

(** Discovery touches neither the server nor the sessions, and it keeps
    the state invariant. *)
Lemma buildMocha_footprint w s :
  st_server (buildMocha w s).2 = st_server s ∧
  st_sessions (buildMocha w s).2 = st_sessions s ∧
  st_next (buildMocha w s).2 = st_next s ∧
  (state_ok s → state_ok (buildMocha w s).2).
Proof.
  pose proof (frame (R:=same_server) (m:=buildMocha w) s).
  pose proof (frame (R:=same_sessions) (m:=buildMocha w) s) as [? ?].
  pose proof (frame (R:=preserving state_ok) (m:=buildMocha w) s).
  by split_and!.
Qed.

(** ** What is registered *)

(** The stages a fulfilled discovery went through. *)
Lemma buildMocha_fulfilled w s m s' :
  buildMocha w s = (Fulfilled m, s') →
  ∃ elements names,
    readdir_result w "elements" = Fulfilled elements ∧
    outcome (Promise_all (probe_promise w <$> elements)) = Fulfilled names ∧
    (loaded w (registered names) (mocha_files (registered names))).1 = Fulfilled m ∧
    s' = add_events (discovery_reads elements ++ (EvRequire <$> mocha_files m)) s.
Proof.
  rewrite run_buildMocha.
  destruct (readdir_result w "elements") as [elements|]; [|done].
  destruct (outcome (Promise_all _)) as [names|] eqn:Hp; [|done]. simpl.
  intros [= Hl <-]. exists elements, names. split_and!; [done..|].
  destruct (loaded_fulfilled _ _ _ _ Hl) as (titles & _ & -> & ->).
  by rewrite describe_all_files.
Qed.

Lemma registered_discovered w elements names m :
  outcome (Promise_all (probe_promise w <$> elements)) = Fulfilled names →
  (loaded w (registered names) (mocha_files (registered names))).1 = Fulfilled m →
  mocha_files m = suite_file <$> discovered w elements.
Proof.
  intros Hp Hl. destruct (loaded_fulfilled _ _ _ _ Hl) as (titles & _ & -> & _).
  rewrite describe_all_files, registered_files. f_equal.
  by apply probes_fulfilled, Promise_all_fulfilled.
Qed.

(** When discovery succeeds, the files registered with Mocha are the
    suite files of the discovered units: the entries of [elements/] with a
    non-empty name one of whose files matches the pattern, in listing
    order, each under the path [./elements/<name>/<name>.e2etest]. *)
Lemma buildMocha_files w s m s' :
  buildMocha w s = (Fulfilled m, s') →
  ∃ elements, w_fs w !! "elements" = Some (FsDir elements) ∧
    mocha_files m = suite_file <$> discovered w elements.
Proof.
  intros (elements & names & He & Hp & Hl & _)%buildMocha_fulfilled.
  exists elements. split; [by apply readdir_result_fulfilled|].
  by apply (registered_discovered w elements names).
Qed.

(** C33: the registered files determine the discovered units.  Reading each
    registered path with the parser of the suite-file template gives back
    the units that contributed a suite, in listing order: no registered
    path is ambiguous and no two units share one. *)
Theorem buildMocha_units_read_back w s m s' :
  buildMocha w s = (Fulfilled m, s') →
  ∃ elements, w_fs w !! "elements" = Some (FsDir elements) ∧
    mapM (read (Codec:=suite_file_codec)) (mocha_files m) = Some (discovered w elements).
Proof.
  intros (elements & names & He%readdir_result_fulfilled & Hp & Hl & _)%buildMocha_fulfilled.
  exists elements. split; [done|]. rewrite (registered_discovered w elements names m Hp Hl).
  apply mapM_fmap_Some. intros name. by apply read_suite_file.
Qed.

Lemma elem_of_discovered w elements element :
  element ∈ discovered w elements ↔
  element ∈ elements ∧ element ≠ "" ∧
  ∃ files, w_fs w !! element_dir element = Some (FsDir files) ∧ has_e2etest files = true.
Proof.
  unfold discovered. rewrite Array_filter_spec, andb_true_iff, str_truthy_true.
  unfold unit_has_suite. split.
  - intros [[? Hs] ?]. split_and!; [done..|].
    destruct (readdir_result _ _) as [files|] eqn:E; [|done].
    exists files. by rewrite <- readdir_result_fulfilled.
  - intros (? & ? & files & Hf%readdir_result_fulfilled & ?). by rewrite Hf.
Qed.

(** C4: when the discovery is fulfilled, a unit directory contributes a
    registered suite exactly when it is listed in [elements/], its name is
    not empty and at least one file in it has a name containing
    [.e2etest.js]; a directory without such a file contributes nothing. *)
Theorem unit_contributes_iff w s m s' element :
  buildMocha w s = (Fulfilled m, s') →
  suite_file element ∈ mocha_files m ↔
  ∃ elements files,
    w_fs w !! "elements" = Some (FsDir elements) ∧ element ∈ elements ∧ element ≠ "" ∧
    w_fs w !! element_dir element = Some (FsDir files) ∧
    ∃ f pre post, f ∈ files ∧ f = pre +:+ ".e2etest.js" +:+ post.
Proof.
  intros (elements & names & He%readdir_result_fulfilled & Hp & Hl & _)%buildMocha_fulfilled.
  rewrite (registered_discovered w elements names m Hp Hl).
  rewrite (list_elem_of_fmap_inj suite_file), elem_of_discovered. split.
  - intros (? & ? & files & ? & ?%has_e2etest_spec). eauto 10.
  - intros (els & files & Hels & ? & ? & ? & ?%has_e2etest_spec).
    rewrite He in Hels. simplify_eq. eauto 10.
Qed.

(** After a successful discovery the root suite's timeout is 60000 ms,
    and every top-level suite was created after the timeout was set: it
    inherited 60000 ms, and its context carries no driver or address yet. *)
Lemma buildMocha_suites w s m s' :
  buildMocha w s = (Fulfilled m, s') →
  mocha_timeout m = 60000%N ∧
  Forall (λ su, suite_timeout su = 60000%N ∧ suite_ctx su = empty_ctx) (mocha_suites m).
Proof.
  intros (elements & names & _ & _ & Hl & _)%buildMocha_fulfilled.
  destruct (loaded_fulfilled _ _ _ _ Hl) as (titles & _ & -> & _).
  rewrite describe_all_timeout, describe_all_suites, registered_suites, registered_timeout.
  split; [done|]. simpl. apply Forall_fmap, Forall_true. done.
Qed.

(** The effects of a successful discovery are, in this order, the read
    of [elements/], one read per entry in listing order, and one [require]
    per registered file in registration order. *)
Lemma buildMocha_trace w s m s' :
  buildMocha w s = (Fulfilled m, s') →
  ∃ elements, w_fs w !! "elements" = Some (FsDir elements) ∧
    st_trace s' =
      st_trace s ++ EvReaddir "elements" :: (EvReaddir ∘ element_dir <$> elements)
                 ++ (EvRequire <$> mocha_files m).
Proof.
  intros (elements & names & He%readdir_result_fulfilled & _ & _ & ->)%buildMocha_fulfilled.
  exists elements. split; [done|]. by rewrite add_events_trace.
Qed.

(** ** Failures *)

Lemma built_rejected w e :
  (built w).1 = Rejected e →
  readdir_result w "elements" = Rejected e
  ∨ (∃ elements element, w_fs w !! "elements" = Some (FsDir elements) ∧
       element ∈ elements ∧ readdir_result w (element_dir element) = Rejected e)
  ∨ (∃ elements element, w_fs w !! "elements" = Some (FsDir elements) ∧
       element ∈ discovered w elements ∧ w_module w (suite_file element) = Rejected e).
Proof.
  unfold built.
  destruct (readdir_result w "elements") as [elements|] eqn:He; [|by intros [= ->]; left].
  apply readdir_result_fulfilled in He.
  destruct (outcome (Promise_all _)) as [names|] eqn:Hp; cbv zeta; cbn [fst]; intros Hl; right.
  - apply loaded_rejected in Hl as (file & Hf & Hm). right.
    rewrite registered_files, (probes_fulfilled w elements) in Hf
      by by apply Promise_all_fulfilled.
    apply list_elem_of_fmap in Hf as (el & -> & Hel). eauto.
  - simplify_eq. left. apply probes_rejected in Hp as (el & ? & ?). eauto.
Qed.

Lemma built_rejected_is_error w e :
  world_ok w → (built w).1 = Rejected e → is_error e = true.
Proof.
  intros Hw [H|[(? & ? & _ & _ & H)|(? & ? & _ & _ & H)]]%built_rejected;
    eauto using readdir_result_rejected, ok_module.
Qed.

(** Discovery fails exactly in three ways: [elements/] cannot be listed,
    an entry of it cannot be listed (it is a file, or has vanished), or a
    registered file throws when it is required.  In each case the reason is
    the underlying error. *)
Lemma buildMocha_rejected w s e s' :
  buildMocha w s = (Rejected e, s') →
  readdir_result w "elements" = Rejected e
  ∨ (∃ elements element, w_fs w !! "elements" = Some (FsDir elements) ∧
       element ∈ elements ∧ readdir_result w (element_dir element) = Rejected e)
  ∨ (∃ elements element, w_fs w !! "elements" = Some (FsDir elements) ∧
       element ∈ discovered w elements ∧ w_module w (suite_file element) = Rejected e).
Proof. rewrite run_buildMocha_built. intros [= H _]. by apply built_rejected. Qed.

Lemma buildMocha_rejected_is_error w s e s' :
  world_ok w → buildMocha w s = (Rejected e, s') → is_error e = true.
Proof.
  rewrite run_buildMocha_built. intros Hw [= H _]. by apply (built_rejected_is_error w).
Qed.

(** C39: a regular file (or a dangling entry) among the entries of
    [elements/] makes the whole discovery fail: nothing is registered and no
    file is required. *)
Theorem buildMocha_stray_entry w s elements element :
  w_fs w !! "elements" = Some (FsDir elements) →
  element ∈ elements →
  (∀ files, w_fs w !! element_dir element ≠ Some (FsDir files)) →
  ∃ e, buildMocha w s = (Rejected e, add_events (discovery_reads elements) s) ∧
       is_error e = true.
Proof.
  intros He%readdir_result_fulfilled Hel Hnodir. rewrite run_buildMocha, He.
  destruct (outcome (Promise_all _)) as [names|e] eqn:Hp.
  - destruct (probes_all_listed _ _ _ Hp element Hel) as [files Hf].
    apply readdir_result_fulfilled in Hf. by destruct (Hnodir files).
  - exists e. split; [done|]. apply probes_rejected in Hp as (el & _ & Hr).
    by eapply readdir_result_rejected.
Qed.

#[export] Hint Resolve buildMocha_rejected_is_error : e2e.

(** ** The sample machine *)

(** Two units, [unit-a] with a suite file and [unit-b] without: exactly one
    file is registered, and the three directories are read once each. *)
Example buildMocha_world_green :
  buildMocha world_green init_state =
  (Fulfilled mocha_green,
   add_events [EvReaddir "elements"; EvReaddir "elements/unit-a/";
               EvReaddir "elements/unit-b/";
               EvRequire "./elements/unit-a/unit-a.e2etest"] init_state).
Proof. evaluated. Qed.

(** A unit whose only matching file is named after another unit is
    discovered, but the file registered for it does not exist. *)
Example buildMocha_world_misnamed :
  (buildMocha world_misnamed init_state).1 =
  Rejected (VError "Error: Cannot find module './elements/unit-c/unit-c.e2etest'").
Proof. evaluated. Qed.

Lemma buildMocha_files_witness :
  ∃ elements, w_fs world_green !! "elements" = Some (FsDir elements) ∧
    mocha_files mocha_green = suite_file <$> discovered world_green elements.
Proof.
  apply (buildMocha_files world_green init_state mocha_green
           (buildMocha world_green init_state).2).
  by vm_compute.
Defined.

Lemma buildMocha_units_read_back_witness :
  ∃ elements, w_fs world_green !! "elements" = Some (FsDir elements) ∧
    mapM (read (Codec:=suite_file_codec)) (mocha_files mocha_green)
    = Some (discovered world_green elements).
Proof.
  apply (buildMocha_units_read_back world_green init_state mocha_green
           (buildMocha world_green init_state).2).
  by vm_compute.
Defined.

Lemma unit_contributes_iff_witness :
  suite_file "unit-a" ∈ mocha_files mocha_green ↔
  ∃ elements files,
    w_fs world_green !! "elements" = Some (FsDir elements) ∧
    "unit-a" ∈ elements ∧ "unit-a" ≠ "" ∧
    w_fs world_green !! element_dir "unit-a" = Some (FsDir files) ∧
    ∃ f pre post, f ∈ files ∧ f = pre +:+ ".e2etest.js" +:+ post.
Proof.
  apply (unit_contributes_iff world_green init_state mocha_green
           (buildMocha world_green init_state).2).
  by vm_compute.
Defined.

Lemma buildMocha_suites_witness :
  mocha_timeout mocha_green = 60000%N ∧
  Forall (λ su, suite_timeout su = 60000%N ∧ suite_ctx su = empty_ctx)
         (mocha_suites mocha_green).
Proof.
  apply (buildMocha_suites world_green init_state mocha_green
           (buildMocha world_green init_state).2).
  by vm_compute.
Defined.

Lemma buildMocha_trace_witness :
  ∃ elements, w_fs world_green !! "elements" = Some (FsDir elements) ∧
    st_trace (buildMocha world_green init_state).2 =
      st_trace init_state ++ EvReaddir "elements" :: (EvReaddir ∘ element_dir <$> elements)
                 ++ (EvRequire <$> mocha_files mocha_green).
Proof.
  apply (buildMocha_trace world_green init_state mocha_green). by vm_compute.
Defined.

Lemma buildMocha_rejected_witness :
  let e := VError "Error: ENOENT: no such file or directory, scandir 'elements'" in
  readdir_result world_no_elements "elements" = Rejected e
  ∨ (∃ elements element, w_fs world_no_elements !! "elements" = Some (FsDir elements) ∧
       element ∈ elements ∧
       readdir_result world_no_elements (element_dir element) = Rejected e)
  ∨ (∃ elements element, w_fs world_no_elements !! "elements" = Some (FsDir elements) ∧
       element ∈ discovered world_no_elements elements ∧
       w_module world_no_elements (suite_file element) = Rejected e).
Proof.
  apply (buildMocha_rejected world_no_elements init_state _
           (buildMocha world_no_elements init_state).2).
  by vm_compute.
Defined.

Lemma buildMocha_stray_entry_witness :
  ∃ e, buildMocha world_stray_file init_state =
         (Rejected e, add_events (discovery_reads ["unit-a"; "README.md"]) init_state) ∧
       is_error e = true.
Proof.
  apply (buildMocha_stray_entry world_stray_file init_state _ "README.md").
  - by vm_compute.
  - by right; left.
  - intros files. by vm_compute.
Defined.
