(* ===== verification/Sequencer.v ===== *)
(** * Sequencer: the execution sequencer

    [runMocha] (lines 89-94) and [runTests] (lines 96-110).  [runTests]
    folds the drivers into a chain of promises: the step for a driver
    awaits the chain built so far, rebuilds the Mocha, injects the driver
    and the address into every top-level suite's context and runs it.
    The file states what that chain does as a plain sequential loop
    ([run_all]) and proves that the fold implements it. *)

From stdpp Require Import base tactics list strings numbers gmap.
From S2P Require Import Prelude Js Externals Effects Samples Discovery.

(** ** Definitions *)

(** [runMocha(mocha)]: the promise is resolved (with [undefined]) when the
    run reports no failure and rejected, with no reason, otherwise. *)
Definition runMocha (w : World) (mocha : Mocha) : Prog unit :=
  code ← run w mocha;
  if bool_decide (code = 0) then mret tt else throw VUndefined.

(** Lines 102-105: the [forEach] over [mocha.suite.suites]. *)
Definition inject (driver : Driver) (address : string) (mocha : Mocha) : Mocha :=
  with_suites (set_ctx driver address) mocha.

(** The reducer of lines 99-107. *)
Definition reducer (w : World) (address : string)
    (chain : Prog unit) (driver : Driver) : Prog unit :=
  chain;;
  mocha ← buildMocha w;
  let mocha := inject driver address mocha in
  runMocha w mocha ≫= λ _, mret tt.

(** [runTests(address, drivers)]: [drivers.reduce(reducer,
    Promise.resolve())]. *)
Definition runTests (w : World) (address : string) (drivers : list Driver) : Prog unit :=
  foldl (reducer w address) (mret tt) drivers.

(** ** Specification *)

(** What the run for one driver does, as a function of the world: discover,
    inject, run; the outcome and the events. *)
Definition run_one (w : World) (address : string) (driver : Driver)
    : Result unit * list Event :=
  match (built w).1 with
  | Rejected e => (Rejected e, (built w).2)
  | Fulfilled m =>
      let m' := inject driver address m in
      let code := w_failures w m' in
      (if bool_decide (code = 0) then Fulfilled tt else Rejected VUndefined,
       (built w).2 ++ [EvRun m' code])
  end.

(** The sequential loop: one driver after the other, stopping at the first
    rejection. *)
Fixpoint run_all (w : World) (address : string) (drivers : list Driver)
    : Result unit * list Event :=
  match drivers with
  | [] => (Fulfilled tt, [])
  | driver :: drivers' =>
      match run_one w address driver with
      | (Fulfilled _, evs) =>
          let '(r, evs') := run_all w address drivers' in (r, evs ++ evs')
      | (Rejected e, evs) => (Rejected e, evs)
      end
  end.

(** The loop on drivers that all succeed, followed by one more driver. *)
Definition run_one_after (w : World) (address : string) (ds : list Driver) (d : Driver)
    : Result unit * list Event :=
  ((run_one w address d).1,
   mjoin ((λ d, (run_one w address d).2) <$> ds) ++ (run_one w address d).2).

(** The body of the reducer after [await chain]. *)
Definition step (w : World) (address : string) (driver : Driver) : Prog unit :=
  mocha ← buildMocha w;
  runMocha w (inject driver address mocha) ≫= λ _, mret tt.

(** The drivers whose step is reached: all of them, or those up to and
    including the first whose run is rejected. *)
Fixpoint reached (w : World) (address : string) (drivers : list Driver) : list Driver :=
  match drivers with
  | [] => []
  | driver :: drivers' =>
      driver ::
        (if is_fulfilled (run_one w address driver).1
         then reached w address drivers' else [])
  end.

(** The event is the run of a Mocha all of whose suites carry [driver] and
    [address]. *)
Definition is_run_of (driver : Driver) (address : string) (ev : Event) : Prop :=
  match ev with
  | EvRun m _ =>
      Forall (λ su, suite_ctx su = {| ctx_driver := Some driver; ctx_address := Some address |})
             (mocha_suites m)
  | _ => False
  end.

Definition is_run (ev : Event) : bool :=
  match ev with EvRun _ _ => true | _ => false end.

Definition is_discovery (ev : Event) : bool :=
  match ev with EvReaddir _ | EvRequire _ => true | _ => false end.

(** The number of times [elements/] itself is read in a list of events:
    once per discovery. *)
Definition root_reads (evs : list Event) : nat :=
  length (filter (λ ev, ev = EvReaddir "elements") evs).

(** The outcome of the loop in closed form: with no driver it succeeds; a
    failing discovery fails it with the discovery's reason; otherwise it
    succeeds when every driver's run reports no failure and is rejected
    with no reason when one does. *)
Definition verdict (w : World) (address : string) (drivers : list Driver) : Result unit :=
  match drivers, (built w).1 with
  | [], _ => Fulfilled tt
  | _ :: _, Rejected e => Rejected e
  | _ :: _, Fulfilled m =>
      if forallb (λ d, bool_decide (w_failures w (inject d address m) = 0)) drivers
      then Fulfilled tt else Rejected VUndefined
  end.

(** ** [runMocha] *)

Lemma run_runMocha w m s :
  runMocha w m s =
  (if bool_decide (w_failures w m = 0) then Fulfilled tt else Rejected VUndefined,
   add_event (EvRun m (w_failures w m)) s).
Proof. unfold runMocha. rewrite run_bind, run_run. by case_bool_decide. Qed.

(** [runMocha] turns the failure count into a verdict and nothing
    else: zero fulfils the promise, any other count rejects it, and the
    rejection carries no reason at all ([undefined], not an [Error]). *)
Lemma runMocha_spec w m s :
  (runMocha w m s).1 =
    (if bool_decide (w_failures w m = 0) then Fulfilled tt else Rejected VUndefined)
  ∧ (runMocha w m s).2 = add_event (EvRun m (w_failures w m)) s.
Proof. by rewrite run_runMocha. Qed.

#[export] Instance runMocha_frame R `{!PreOrder R, !∀ c, Frame R (emit (EvRun m c))} w :
  Frame R (runMocha w m).
Proof. by_parts runMocha. Qed.

(** ** One step *)

Lemma run_step_spec w address driver s :
  step w address driver s =
  ((run_one w address driver).1, add_events (run_one w address driver).2 s).
Proof.
  unfold step, run_one. rewrite run_bind, run_buildMocha_built.
  destruct (built w).1 as [m|e]; [|done].
  rewrite run_bind, run_runMocha, add_event_add_events, add_events_app.
  by case_bool_decide.
Qed.

Lemma reducer_step w address chain driver s :
  reducer w address chain driver s = (chain;; step w address driver) s.
Proof. done. Qed.

(** ** The fold is the loop *)

Lemma bind_ext {A B} (m : Prog A) (f g : A → Prog B) s :
  (∀ a s', f a s' = g a s') → (m ≫= f) s = (m ≫= g) s.
Proof. intros H. rewrite !run_bind. by destruct (m s) as [[]]. Qed.

Lemma bind_ret_tt (m : Prog unit) s : (m;; mret tt) s = m s.
Proof. rewrite run_bind. by destruct (m s) as [[[]|] ?]. Qed.

Lemma reducer_ret w address driver s :
  reducer w address (mret tt) driver s = step w address driver s.
Proof. done. Qed.

Lemma foldl_reducer_chain w address chain drivers s :
  foldl (reducer w address) chain drivers s =
  (chain;; foldl (reducer w address) (mret tt) drivers) s.
Proof.
  revert chain s. induction drivers as [|d ds IH]; intros chain s.
  - by rewrite bind_ret_tt.
  - cbn [foldl]. rewrite IH.
    rewrite (bind_ext chain _
               (λ _, step w address d;; foldl (reducer w address) (mret tt) ds)).
    + unfold reducer. by rewrite bind_assoc.
    + intros [] s'. rewrite IH. by apply bind_ext.
Qed.

Lemma runTests_nil w address s : runTests w address [] s = (Fulfilled tt, s).
Proof. done. Qed.

Lemma runTests_cons w address driver drivers s :
  runTests w address (driver :: drivers) s =
  (step w address driver;; runTests w address drivers) s.
Proof.
  unfold runTests. cbn [foldl]. by rewrite foldl_reducer_chain.
Qed.

Lemma run_runTests w address drivers s :
  runTests w address drivers s =
  ((run_all w address drivers).1, add_events (run_all w address drivers).2 s).
Proof.
  revert s. induction drivers as [|d ds IH]; intros s.
  - by rewrite runTests_nil, add_events_nil.
  - rewrite runTests_cons, run_bind, run_step_spec. simpl.
    destruct (run_one w address d) as [[[]|e] evs]; [|done]. simpl.
    rewrite IH, add_events_app. by destruct (run_all w address ds).
Qed.

(** C3: the chain of promises built by [reduce] is the sequential loop: for
    every world and start state, [runTests] has the outcome of [run_all] and
    appends exactly its events, leaving the rest of the state alone. *)
Theorem runTests_refines_run_all w address drivers s :
  runTests w address drivers s =
  ((run_all w address drivers).1,
   {| st_server := st_server s; st_sessions := st_sessions s; st_next := st_next s;
      st_trace := st_trace s ++ (run_all w address drivers).2 |}).
Proof. apply run_runTests. Qed.

(** ** The loop *)

Lemma run_all_cons w address d ds :
  run_all w address (d :: ds) =
  if is_fulfilled (run_one w address d).1
  then ((run_all w address ds).1, (run_one w address d).2 ++ (run_all w address ds).2)
  else run_one w address d.
Proof.
  simpl. destruct (run_one w address d) as [[[]|e] evs]; simpl; [|done].
  by destruct (run_all w address ds).
Qed.

Lemma run_all_events w address drivers :
  (run_all w address drivers).2 =
  mjoin ((λ d, (run_one w address d).2) <$> reached w address drivers).
Proof.
  induction drivers as [|d ds IH]; [done|]. rewrite run_all_cons. cbn [reached fmap list_fmap mjoin list_join].
  destruct (is_fulfilled _); simpl; [by rewrite IH|by rewrite app_nil_r].
Qed.

Lemma run_all_outcome w address drivers :
  (run_all w address drivers).1 =
  from_option (λ d, (run_one w address d).1) (Fulfilled tt) (last (reached w address drivers)).
Proof.
  induction drivers as [|d ds IH]; [done|]. rewrite run_all_cons. cbn [reached].
  destruct (is_fulfilled _) eqn:E; [|done]. simpl. rewrite IH.
  destruct (reached w address ds) as [|d' ds'] eqn:Er; simpl; [|done].
  by destruct (run_one w address d) as [[[]|] ?].
Qed.

Lemma run_all_first_rejected w address ds1 d ds2 :
  Forall (λ d, is_fulfilled (run_one w address d).1 = true) ds1 →
  is_fulfilled (run_one w address d).1 = false →
  run_all w address (ds1 ++ d :: ds2) = run_one_after w address ds1 d.
Proof.
  intros Hall Hd. induction Hall as [|d1 ds1 Hd1 _ IH].
  - rewrite app_nil_l, run_all_cons, Hd. unfold run_one_after. simpl.
    by destruct (run_one w address d).
  - rewrite <- app_comm_cons, run_all_cons, Hd1, IH. unfold run_one_after. simpl.
    by rewrite app_assoc.
Qed.

Lemma reached_prefix w address drivers : reached w address drivers `prefix_of` drivers.
Proof.
  induction drivers as [|d ds IH]; [done|]. simpl. apply prefix_cons.
  destruct (is_fulfilled _); [done|apply prefix_nil].
Qed.

Lemma reached_all w address drivers :
  Forall (λ d, is_fulfilled (run_one w address d).1 = true) drivers →
  reached w address drivers = drivers.
Proof. induction 1 as [|d ds Hd _ IH]; [done|]. simpl. by rewrite Hd, IH. Qed.

Lemma reached_first_rejected w address ds1 d ds2 :
  Forall (λ d, is_fulfilled (run_one w address d).1 = true) ds1 →
  is_fulfilled (run_one w address d).1 = false →
  reached w address (ds1 ++ d :: ds2) = ds1 ++ [d].
Proof.
  intros Hall Hd. induction Hall as [|d1 ds1 Hd1 _ IH]; simpl; [by rewrite Hd|].
  by rewrite Hd1, IH.
Qed.

(** The outcome of [runTests] is the outcome of the last driver it
    reaches, which is the first driver whose discovery or run is rejected if
    there is one; with no driver at all it succeeds at once. *)
Theorem runTests_outcome w address drivers s :
  (runTests w address drivers s).1 =
  from_option (λ d, (run_one w address d).1) (Fulfilled tt) (last (reached w address drivers)).
Proof. rewrite run_runTests. apply run_all_outcome. Qed.

(** C10: drivers are processed strictly one after the other, in enumeration
    order: the events of [runTests] are the events of the first reached
    driver, then those of the second, and so on, each block being one
    discovery followed by at most one run. *)
Theorem runTests_sequential w address drivers s :
  st_trace (runTests w address drivers s).2 =
  st_trace s ++ mjoin ((λ d, (run_one w address d).2) <$> reached w address drivers)
  ∧ reached w address drivers `prefix_of` drivers.
Proof.
  rewrite run_runTests. cbn [snd]. rewrite add_events_trace, run_all_events. split; [done|].
  apply reached_prefix.
Qed.

(** A rejection stops the sequence: when the run for a driver is
    rejected, [runTests] does exactly what it does on the drivers up to and
    including that one; the drivers after it cause no effect at all. *)
Lemma runTests_fail_fast w address ds1 d ds2 s :
  Forall (λ d, is_fulfilled (run_one w address d).1 = true) ds1 →
  is_fulfilled (run_one w address d).1 = false →
  runTests w address (ds1 ++ d :: ds2) s = runTests w address (ds1 ++ [d]) s.
Proof.
  intros Hall Hd. rewrite !run_runTests.
  by rewrite (run_all_first_rejected _ _ ds1 d ds2), (run_all_first_rejected _ _ ds1 d []).
Qed.

(** ** What each run sees *)

Lemma inject_suites driver address m :
  Forall (λ su, suite_ctx su = {| ctx_driver := Some driver; ctx_address := Some address |})
         (mocha_suites (inject driver address m)).
Proof. unfold inject. rewrite with_suites_suites. by apply Forall_fmap, Forall_true. Qed.

Lemma inject_files driver address m :
  mocha_files (inject driver address m) = mocha_files m.
Proof. done. Qed.

Lemma inject_titles driver address m :
  suite_title <$> mocha_suites (inject driver address m) = suite_title <$> mocha_suites m.
Proof.
  unfold inject. rewrite with_suites_suites, <- list_fmap_compose. done.
Qed.

Lemma built_discovery w : forallb is_discovery (built w).2 = true.
Proof.
  unfold built. destruct (readdir_result w "elements") as [elements|]; [|done].
  assert (forallb is_discovery (discovery_reads elements) = true) as Hr.
  { simpl. apply forallb_elem_of. by intros ev (el & -> & _)%list_elem_of_fmap. }
  destruct (outcome (Promise_all _)) as [names|]; [|done]. cbv zeta. cbn [snd].
  rewrite forallb_app. apply andb_true_iff. split; [done|].
  destruct (loaded_events w (registered names) (mocha_files (registered names))) as [n ->].
  apply forallb_elem_of. by intros ev (f & -> & _)%list_elem_of_fmap.
Qed.

Lemma run_one_runs w address driver :
  Forall (λ ev, is_run ev = true → is_run_of driver address ev) (run_one w address driver).2.
Proof.
  unfold run_one. pose proof (built_discovery w) as Hd.
  assert (Forall (λ ev, is_run ev = true → is_run_of driver address ev) (built w).2) as Hb.
  { apply Forall_forall. intros ev Hev. rewrite forallb_elem_of in Hd.
    specialize (Hd ev Hev). by destruct ev. }
  destruct (built w).1 as [m|e]; [|done]. simpl. apply Forall_app. split; [done|].
  constructor; [|done]. intros _. apply inject_suites.
Qed.

(** Every Mocha run [runTests] performs belongs to one of the drivers
    it reached, and carries that driver and the server address in the
    context of every top-level suite. *)
Lemma runTests_injected w address drivers s m c :
  EvRun m c ∈ drop (length (st_trace s)) (st_trace (runTests w address drivers s).2) →
  ∃ driver, driver ∈ reached w address drivers ∧
    Forall (λ su, suite_ctx su = {| ctx_driver := Some driver; ctx_address := Some address |})
           (mocha_suites m).
Proof.
  rewrite run_runTests. cbn [snd]. rewrite add_events_trace, drop_app_length, run_all_events.
  intros (evs & Hev & (d & -> & Hd)%list_elem_of_fmap)%list_elem_of_join.
  exists d. split; [done|]. pose proof (run_one_runs w address d) as Hr.
  rewrite Forall_forall in Hr. by apply (Hr _ Hev).
Qed.

(** ** One discovery per driver *)

Lemma root_reads_app evs1 evs2 : root_reads (evs1 ++ evs2) = root_reads evs1 + root_reads evs2.
Proof. unfold root_reads. by rewrite filter_app, length_app. Qed.

Lemma root_reads_none evs :
  Forall (λ ev, ev ≠ EvReaddir "elements") evs → root_reads evs = 0.
Proof.
  unfold root_reads. induction 1 as [|ev evs Hev _ IH]; [done|].
  by rewrite filter_cons_False.
Qed.

Lemma element_dir_not_root element : element_dir element ≠ "elements".
Proof.
  intros H%(f_equal String.length). unfold element_dir in H.
  rewrite !string_app_length in H. simpl in H. lia.
Qed.

Lemma built_root_reads w : root_reads (built w).2 = 1.
Proof.
  unfold built. destruct (readdir_result w "elements") as [elements|]; [|done].
  assert (root_reads (discovery_reads elements) = 1) as Hr.
  { unfold discovery_reads. change (?x :: ?l) with ([x] ++ l).
    rewrite root_reads_app, (root_reads_none (_ <$> _)); [by vm_compute|].
    apply Forall_fmap, Forall_true. intros el H. simplify_eq/=. }
  destruct (outcome (Promise_all _)) as [names|]; [|done]. cbv zeta. cbn [snd].
  rewrite root_reads_app, Hr.
  destruct (loaded_events w (registered names) (mocha_files (registered names))) as [n ->].
  rewrite root_reads_none; [done|]. apply Forall_fmap, Forall_true. by intros f [=].
Qed.

Lemma run_one_root_reads w address driver : root_reads (run_one w address driver).2 = 1.
Proof.
  unfold run_one. destruct (built w).1; [|apply built_root_reads]. cbv zeta. cbn [snd].
  rewrite root_reads_app, built_root_reads. done.
Qed.

Lemma root_reads_blocks w address ds :
  root_reads (mjoin ((λ d, (run_one w address d).2) <$> ds)) = length ds.
Proof.
  induction ds as [|d ds IH]; [done|]. rewrite fmap_cons.
  change (mjoin (?x :: ?l)) with (x ++ mjoin l).
  by rewrite root_reads_app, run_one_root_reads, IH.
Qed.

(** Discovery is re-executed once for every driver that is reached and
    never for a driver that is not: the number of reads of [elements/] made
    by [runTests] is the number of reached drivers. *)
Lemma runTests_discoveries w address drivers s :
  root_reads (drop (length (st_trace s)) (st_trace (runTests w address drivers s).2))
  = length (reached w address drivers).
Proof.
  rewrite run_runTests. cbn [snd]. rewrite add_events_trace, drop_app_length, run_all_events.
  apply root_reads_blocks.
Qed.

(** ** The verdict *)

Lemma run_all_verdict w address drivers : (run_all w address drivers).1 = verdict w address drivers.
Proof.
  unfold verdict. induction drivers as [|d ds IH]; [done|].
  rewrite run_all_cons. unfold run_one. destruct (built w).1 as [m|e]; [|done].
  cbv zeta. cbn [fst forallb]. case_bool_decide; cbn [is_fulfilled andb]; [|done].
  cbn [fst]. rewrite IH. by destruct ds.
Qed.

Lemma verdict_rejected w address drivers e :
  world_ok w → verdict w address drivers = Rejected e → e = VUndefined ∨ is_error e = true.
Proof.
  intros Hw. unfold verdict. destruct drivers as [|d ds]; [done|].
  destruct (built w).1 as [m|e'] eqn:Hb.
  - case_match; intros; simplify_eq. by left.
  - intros [= ->]. right. by apply (built_rejected_is_error w).
Qed.

(** C7: [runTests] succeeds when there is no driver; with at least one
    driver it fails with the reason of the discovery when the discovery
    fails, and otherwise it succeeds exactly when every driver's run reports
    zero failures; a run with failures rejects it with [undefined], never
    with an [Error]. *)
Theorem runTests_verdict w address drivers s :
  (runTests w address drivers s).1 = verdict w address drivers.
Proof. rewrite run_runTests. apply run_all_verdict. Qed.

(** ** The sample machines *)

Lemma runTests_fail_fast_witness :
  runTests world_two_chromes "http://localhost:41735" ([] ++ 0 :: [1]) init_state
  = runTests world_two_chromes "http://localhost:41735" ([] ++ [0]) init_state.
Proof. apply (runTests_fail_fast world_two_chromes); [by constructor|by vm_compute]. Defined.

Lemma runTests_injected_witness :
  ∃ driver, driver ∈ reached world_green "http://localhost:41735" [0] ∧
    Forall (λ su, suite_ctx su =
                  {| ctx_driver := Some driver; ctx_address := Some "http://localhost:41735" |})
           (mocha_suites (inject 0 "http://localhost:41735" mocha_green)).
Proof.
  apply (runTests_injected world_green "http://localhost:41735" [0] init_state _ 0).
  vm_compute. do 4 right. left.
Defined.

(** On the machine with two stable Chromes whose first run fails, the
    second driver is never reached. *)
Example runTests_world_two_chromes :
  reached world_two_chromes "http://localhost:41735" [0; 1] = [0]
  ∧ verdict world_two_chromes "http://localhost:41735" [0; 1] = Rejected VUndefined.
Proof. evaluated. Qed.

(** ** The chain composes *)

Lemma runTests_cons_equiv w address driver drivers :
  runTests w address (driver :: drivers)
  ≡ (step w address driver;; runTests w address drivers).
Proof. intros s. apply runTests_cons. Qed.

(** The chain for a concatenation of driver lists is the chain for the
    first list followed, if it succeeds, by the chain for the second:
    cutting the list of drivers anywhere and running the two parts in
    sequence is the same program. *)
Lemma runTests_app w address drivers1 drivers2 :
  runTests w address (drivers1 ++ drivers2)
  ≡ (runTests w address drivers1;; runTests w address drivers2).
Proof.
  induction drivers1 as [|d ds IH].
  - change (runTests w address []) with (mret tt : Prog unit).
    by rewrite bind_ret_l_equiv.
  - rewrite <- app_comm_cons, !runTests_cons_equiv, bind_assoc_equiv.
    by setoid_rewrite IH.
Qed.

(** ** Footprint *)

#[export] Instance step_frame R
  `{!PreOrder R, !∀ p, Frame R (emit (EvReaddir p)), !∀ f, Frame R (emit (EvRequire f)),
    !∀ m c, Frame R (emit (EvRun m c))} w address driver :
  Frame R (step w address driver).
Proof. by_parts step. Qed.

#[export] Instance runTests_frame R
  `{!PreOrder R, !∀ p, Frame R (emit (EvReaddir p)), !∀ f, Frame R (emit (EvRequire f)),
    !∀ m c, Frame R (emit (EvRun m c))} w address drivers :
  Frame R (runTests w address drivers).
Proof.
  induction drivers as [|d ds IH]; intros s.
  - by rewrite runTests_nil.
  - rewrite runTests_cons.
    apply (frame (R:=R) (m:=step w address d;; runTests w address ds)).
Qed.
