(* ===== verification/Machine.v ===== *)
(** * Machine: the sequencer as a transition system

    The specification describes the run for one driver as a state machine
    (not started, discovering, running, finished with success or failure)
    and the sequencer as those machines run one after the other.  The
    machine is the specification's, not a translation of lines of the
    script, and every operation it waits for completes: the runs in which
    one does not are those of [Lifecycle.v].  This
    file states that system as step relations, gives the function that
    computes the next step, and proves that its complete runs from the
    initial configuration are exactly the run of [runTests]: same outcome,
    same events.  The invariant of the reachable configurations is the
    ordering guarantee of the specification: a driver is only started once
    every driver before it has finished successfully. *)

From stdpp Require Import base tactics list strings numbers gmap.
From S2P Require Import Prelude Js Externals Effects Samples Discovery Sequencer.

(** ** Definitions *)

(** The phase of the run for one driver. *)
Inductive Phase :=
  | NotStarted
  | Discovering
  | Running (mocha : Mocha)
  | Finished (r : Result unit).

#[export] Instance Phase_eq_dec : EqDecision Phase.
Proof. solve_decision. Defined.

(** One step of the run for [driver], with the events it causes: the body
    of the reducer (lines 101-106) cut at its two [await]s. *)
Inductive driver_step (w : World) (address : string) (driver : Driver)
    : Phase → list Event → Phase → Prop :=
  | step_begin :
      driver_step w address driver NotStarted [] Discovering
  | step_discovered m :
      (built w).1 = Fulfilled m →
      driver_step w address driver Discovering (built w).2 (Running (inject driver address m))
  | step_discovery_failed e :
      (built w).1 = Rejected e →
      driver_step w address driver Discovering (built w).2 (Finished (Rejected e))
  | step_passed m :
      w_failures w m = 0 →
      driver_step w address driver (Running m) [EvRun m 0] (Finished (Fulfilled tt))
  | step_failed m :
      w_failures w m ≠ 0 →
      driver_step w address driver (Running m) [EvRun m (w_failures w m)]
        (Finished (Rejected VUndefined)).

(** The same step as a function. *)
Definition driver_next (w : World) (address : string) (driver : Driver) (p : Phase)
    : option (list Event * Phase) :=
  match p with
  | NotStarted => Some ([], Discovering)
  | Discovering =>
      Some ((built w).2,
            match (built w).1 with
            | Fulfilled m => Running (inject driver address m)
            | Rejected e => Finished (Rejected e)
            end)
  | Running m =>
      Some ([EvRun m (w_failures w m)],
            Finished (if bool_decide (w_failures w m = 0)
                      then Fulfilled tt else Rejected VUndefined))
  | Finished _ => None
  end.

(** A configuration of the sequencer: between two drivers, busy with one,
    or settled (the promise of [runTests] has its outcome). *)
Inductive Config :=
  | Idle (pending : list Driver)
  | Busy (driver : Driver) (p : Phase) (pending : list Driver)
  | Settled (r : Result unit).

#[export] Instance Config_eq_dec : EqDecision Config.
Proof. solve_decision. Defined.

(** One step of the sequencer: the chain of lines 97-109. *)
Inductive seq_step (w : World) (address : string) : Config → list Event → Config → Prop :=
  | seq_start d ds :
      seq_step w address (Idle (d :: ds)) [] (Busy d NotStarted ds)
  | seq_work d p evs p' ds :
      driver_step w address d p evs p' →
      seq_step w address (Busy d p ds) evs (Busy d p' ds)
  | seq_continue d ds :
      seq_step w address (Busy d (Finished (Fulfilled tt)) ds) [] (Idle ds)
  | seq_abort d e ds :
      seq_step w address (Busy d (Finished (Rejected e)) ds) [] (Settled (Rejected e))
  | seq_finish :
      seq_step w address (Idle []) [] (Settled (Fulfilled tt)).

Definition seq_next (w : World) (address : string) (c : Config)
    : option (list Event * Config) :=
  match c with
  | Idle [] => Some ([], Settled (Fulfilled tt))
  | Idle (d :: ds) => Some ([], Busy d NotStarted ds)
  | Busy d (Finished (Fulfilled _)) ds => Some ([], Idle ds)
  | Busy d (Finished (Rejected e)) ds => Some ([], Settled (Rejected e))
  | Busy d p ds =>
      '(evs, p') ← driver_next w address d p; Some (evs, Busy d p' ds)
  | Settled _ => None
  end.

(** The configurations reached from [c0], with the events on the way. *)
Inductive reaches (w : World) (address : string) (c0 : Config)
    : list Event → Config → Prop :=
  | reaches_start : reaches w address c0 [] c0
  | reaches_step evs c evs' c' :
      reaches w address c0 evs c →
      seq_step w address c evs' c' →
      reaches w address c0 (evs ++ evs') c'.

(** A bound on the number of steps left. *)
Definition phase_size (p : Phase) : nat :=
  match p with NotStarted => 4 | Discovering => 3 | Running _ => 2 | Finished _ => 1 end.

Definition size (c : Config) : nat :=
  match c with
  | Idle ds => 1 + 5 * length ds
  | Busy _ p ds => phase_size p + 1 + 5 * length ds
  | Settled _ => 0
  end.

(** The machine run for at most [fuel] steps. *)
Fixpoint run_machine (w : World) (address : string) (fuel : nat) (c : Config)
    : list Event * Config :=
  match fuel with
  | 0 => ([], c)
  | S fuel' =>
      match seq_next w address c with
      | None => ([], c)
      | Some (evs, c') =>
          let '(evs', c'') := run_machine w address fuel' c' in (evs ++ evs', c'')
      end
  end.

(** What the run for [driver] has done when it is in phase [p]: the events
    so far, and where the phase comes from. *)
Definition phase_events (w : World) (address : string) (driver : Driver) (p : Phase)
    : list Event :=
  match p with
  | NotStarted | Discovering => []
  | Running _ => (built w).2
  | Finished _ => (run_one w address driver).2
  end.

Definition phase_ok (w : World) (address : string) (driver : Driver) (p : Phase) : Prop :=
  match p with
  | NotStarted | Discovering => True
  | Running m => ∃ m0, (built w).1 = Fulfilled m0 ∧ m = inject driver address m0
  | Finished r => r = (run_one w address driver).1
  end.

(** The events of the complete, successful runs for [drivers]. *)
Definition blocks (w : World) (address : string) (drivers : list Driver) : list Event :=
  mjoin ((λ d, (run_one w address d).2) <$> drivers).

(** The invariant of the configurations reached from [Idle drivers] with
    events [evs]. *)
Definition seq_inv (w : World) (address : string) (drivers : list Driver)
    (evs : list Event) (c : Config) : Prop :=
  match c with
  | Idle ds =>
      ∃ finished, drivers = finished ++ ds
        ∧ Forall (λ d, is_fulfilled (run_one w address d).1 = true) finished
        ∧ evs = blocks w address finished
  | Busy d p ds =>
      ∃ finished, drivers = finished ++ d :: ds
        ∧ Forall (λ d, is_fulfilled (run_one w address d).1 = true) finished
        ∧ evs = blocks w address finished ++ phase_events w address d p
        ∧ phase_ok w address d p
  | Settled r => (r, evs) = run_all w address drivers
  end.

(** ** The step functions compute the step relations *)

Lemma driver_next_spec w address driver p evs p' :
  driver_step w address driver p evs p' ↔ driver_next w address driver p = Some (evs, p').
Proof.
  split.
  - destruct 1 as [|m Hm|e He|m Hm|m Hm]; simpl; rewrite ?Hm, ?He; try done.
    by rewrite bool_decide_eq_false_2.
  - destruct p as [| |m|r]; simpl; intros; simplify_eq; try constructor.
    + destruct (built w).1 eqn:E; by constructor.
    + case_bool_decide as Hc; [rewrite Hc|]; by constructor.
Qed.

Lemma seq_next_spec w address c evs c' :
  seq_step w address c evs c' ↔ seq_next w address c = Some (evs, c').
Proof.
  split.
  - destruct 1 as [d ds|d p evs p' ds Hp|d ds|d e ds|]; try done.
    apply driver_next_spec in Hp. destruct p as [| |m|r]; simpl in *; by simplify_eq.
  - destruct c as [[|d ds]|d p ds|r]; simpl; intros; simplify_eq; try constructor.
    destruct p as [| |m|[[]|e]]; simpl in *; simplify_eq; try constructor;
      by apply driver_next_spec.
Qed.

(** Only a settled configuration has no next step. *)
Lemma seq_next_none w address c : seq_next w address c = None → ∃ r, c = Settled r.
Proof. destruct c as [[|]|d [| | |[|]] ds|r]; simpl; intros; simplify_eq; eauto. Qed.

Lemma seq_next_size w address c evs c' :
  seq_next w address c = Some (evs, c') → size c' < size c.
Proof.
  destruct c as [[|d ds]|d p ds|r]; simpl; intros; simplify_eq; simpl; try lia.
  destruct p as [| |m|[[]|e]]; simpl in *; simplify_eq; simpl; try lia.
  destruct (built w).1; simpl; lia.
Qed.

(** ** Runs compose *)

Lemma reaches_trans w address c0 evs1 c1 evs2 c2 :
  reaches w address c0 evs1 c1 → reaches w address c1 evs2 c2 →
  reaches w address c0 (evs1 ++ evs2) c2.
Proof.
  intros H1. induction 1 as [|evs c evs' c' _ IH Hs]; [by rewrite app_nil_r|].
  rewrite app_assoc. by eapply reaches_step.
Qed.

Lemma reaches_one w address c evs c' : seq_step w address c evs c' → reaches w address c evs c'.
Proof. intros Hs. apply (reaches_step w address c [] c evs c'); [constructor|done]. Qed.

Lemma reaches_cons w address c evs c' evs' c'' :
  seq_step w address c evs c' → reaches w address c' evs' c'' →
  reaches w address c (evs ++ evs') c''.
Proof. intros Hs. by apply reaches_trans, reaches_one. Qed.

(** ** The run for one driver *)

Lemma blocks_snoc w address ds d :
  blocks w address (ds ++ [d]) = blocks w address ds ++ (run_one w address d).2.
Proof. unfold blocks. rewrite fmap_app, join_app. simpl. by rewrite app_nil_r. Qed.

Lemma run_all_fulfilled w address ds :
  Forall (λ d, is_fulfilled (run_one w address d).1 = true) ds →
  run_all w address ds = (Fulfilled tt, blocks w address ds).
Proof.
  induction 1 as [|d ds Hd _ IH]; [done|]. by rewrite run_all_cons, Hd, IH.
Qed.

Lemma run_all_rejected w address ds1 d ds2 :
  Forall (λ d, is_fulfilled (run_one w address d).1 = true) ds1 →
  is_fulfilled (run_one w address d).1 = false →
  run_all w address (ds1 ++ d :: ds2)
  = ((run_one w address d).1, blocks w address ds1 ++ (run_one w address d).2).
Proof. intros. by rewrite run_all_first_rejected. Qed.

(** A step of the run for a driver keeps the phase consistent with
    [run_one] and extends the events of the phase. *)
Lemma driver_step_phase w address d p evs p' :
  driver_step w address d p evs p' →
  phase_ok w address d p →
  phase_ok w address d p' ∧ phase_events w address d p' = phase_events w address d p ++ evs.
Proof.
  destruct 1 as [|m Hm|e He|m Hm|m Hm]; simpl; unfold run_one;
    [done|eauto|by rewrite He|..];
    intros (m0 & -> & ->); cbv zeta; cbn [fst snd]; rewrite ?Hm; [done|].
  by rewrite bool_decide_eq_false_2.
Qed.

(** From [NotStarted] the run for a driver reaches [Finished] with the
    outcome and the events of [run_one]. *)
Lemma driver_run w address d ds :
  reaches w address (Busy d NotStarted ds) (run_one w address d).2
    (Busy d (Finished (run_one w address d).1) ds).
Proof.
  apply (reaches_cons _ _ _ [] (Busy d Discovering ds)); [by repeat constructor|].
  unfold run_one. destruct (built w).1 as [m|e] eqn:Hb; cbv zeta; cbn [fst snd].
  - apply (reaches_cons _ _ _ _ (Busy d (Running (inject d address m)) ds));
      [by repeat constructor|].
    apply reaches_one, seq_work, driver_next_spec. simpl. by case_bool_decide.
  - by apply reaches_one, seq_work, step_discovery_failed.
Qed.

(** ** The invariant *)

Lemma seq_inv_step w address drivers evs c evs' c' :
  seq_inv w address drivers evs c →
  seq_step w address c evs' c' →
  seq_inv w address drivers (evs ++ evs') c'.
Proof.
  intros Hinv Hstep. destruct Hstep as [d ds|d p evs' p' ds Hp|d ds|d e ds|]; simpl in *.
  - destruct Hinv as (fin & -> & Hfin & ->). exists fin. by rewrite !app_nil_r.
  - destruct Hinv as (fin & -> & Hfin & -> & Hok).
    destruct (driver_step_phase _ _ _ _ _ _ Hp Hok) as [Hok' ->].
    exists fin. by rewrite app_assoc.
  - destruct Hinv as (fin & -> & Hfin & -> & Hok). exists (fin ++ [d]).
    rewrite <- app_assoc, app_nil_r, blocks_snoc, Forall_app, Forall_singleton, <- Hok.
    done.
  - destruct Hinv as (fin & -> & Hfin & -> & Hok).
    rewrite app_nil_r, run_all_rejected, <- Hok by (done || by rewrite <- Hok). done.
  - destruct Hinv as (fin & -> & Hfin & ->).
    by rewrite !app_nil_r, run_all_fulfilled.
Qed.

Lemma reaches_inv w address drivers evs c :
  reaches w address (Idle drivers) evs c → seq_inv w address drivers evs c.
Proof.
  induction 1 as [|evs c evs' c' _ IH Hs]; [|by eapply seq_inv_step].
  exists []. by split_and!.
Qed.

(** ** Complete runs *)

Lemma idle_run w address ds :
  reaches w address (Idle ds) (run_all w address ds).2 (Settled (run_all w address ds).1).
Proof.
  induction ds as [|d ds IH]; [apply reaches_one, seq_finish|].
  apply (reaches_cons _ _ _ [] (Busy d NotStarted ds)); [constructor|].
  rewrite run_all_cons. pose proof (driver_run w address d ds) as Hd.
  destruct (run_one w address d) as [[[]|e] evs] eqn:Hr; cbn [is_fulfilled fst snd] in *.
  - eapply reaches_trans; [done|]. by apply (reaches_cons _ _ _ [] (Idle ds)); [constructor|].
  - rewrite <- (app_nil_r evs). eapply reaches_trans; [done|]. apply reaches_one, seq_abort.
Qed.

Lemma complete_run w address drivers evs r :
  reaches w address (Idle drivers) evs (Settled r) ↔ (r, evs) = run_all w address drivers.
Proof.
  split; [apply reaches_inv|].
  intros H. pose proof (idle_run w address drivers) as Hrun. by rewrite <- H in Hrun.
Qed.

(** ** Termination *)

Lemma run_machine_reaches w address fuel c :
  reaches w address c (run_machine w address fuel c).1 (run_machine w address fuel c).2.
Proof.
  revert c. induction fuel as [|fuel IH]; intros c; simpl; [constructor|].
  destruct (seq_next w address c) as [[evs c']|] eqn:Hn; [|constructor].
  specialize (IH c'). destruct (run_machine w address fuel c') as [evs' c''].
  eapply reaches_cons; [by apply seq_next_spec|done].
Qed.

Lemma run_machine_settles w address fuel c :
  size c ≤ fuel → ∃ r, (run_machine w address fuel c).2 = Settled r.
Proof.
  revert c. induction fuel as [|fuel IH]; intros c Hc; simpl.
  - destruct c as [ds|d [] ds|r]; simpl in *; try lia. by exists r.
  - destruct (seq_next w address c) as [[evs c']|] eqn:Hn.
    + apply seq_next_size in Hn as Hlt. destruct (IH c') as [r Hr]; [lia|].
      destruct (run_machine w address fuel c'). by exists r.
    + by apply seq_next_none in Hn.
Qed.

(** ** Progress *)

(** A configuration that is not settled has a step. *)
Lemma seq_progress w address c :
  (∃ r, c = Settled r) ∨ ∃ evs c', seq_step w address c evs c'.
Proof.
  destruct (seq_next w address c) as [[evs c']|] eqn:Hn.
  - right. exists evs, c'. by apply seq_next_spec.
  - left. by eapply seq_next_none.
Qed.

(** ** The machine and the script *)

(** C11: the complete runs of the transition system from the initial
    configuration are the run of [runTests]: the machine can settle with
    outcome [r] after the events [evs] exactly when [runTests] has outcome
    [r] and appends [evs] to the trace. *)
Theorem machine_refines_runTests w address drivers s evs r :
  reaches w address (Idle drivers) evs (Settled r)
  ↔ runTests w address drivers s = (r, add_events evs s).
Proof.
  rewrite complete_run, run_runTests. split; [by intros <-|].
  intros [= Hr Hs%app_inv_head]. rewrite <- Hr, <- Hs. by destruct (run_all w address drivers).
Qed.

(** The sequencer is deterministic: a configuration has at most one
    next step, events included. *)
Lemma seq_step_deterministic w address c evs1 c1 evs2 c2 :
  seq_step w address c evs1 c1 → seq_step w address c evs2 c2 → evs1 = evs2 ∧ c1 = c2.
Proof. rewrite !seq_next_spec. intros H1 H2. rewrite H1 in H2. by simplify_eq. Qed.

(** The sequencer always settles, and the step function computes what
    [runTests] does: run from the initial configuration for
    [1 + 5 * length drivers] steps, the machine is settled with the outcome
    of the sequential loop and has produced exactly its events. *)
Lemma run_machine_settled w address drivers :
  run_machine w address (1 + 5 * length drivers) (Idle drivers)
  = ((run_all w address drivers).2, Settled (run_all w address drivers).1).
Proof.
  pose proof (run_machine_reaches w address (1 + 5 * length drivers) (Idle drivers)) as Hr.
  destruct (run_machine_settles w address (1 + 5 * length drivers) (Idle drivers)) as [r Hs];
    [done|].
  rewrite Hs in Hr. apply complete_run in Hr.
  rewrite (surjective_pairing (run_machine _ _ _ _)), Hs, <- Hr. done.
Qed.

(** The ordering guarantee.  Whenever the sequencer is busy with a
    driver, every driver before it in the list has finished successfully
    and the events so far are their complete runs followed by what the
    current driver has done in its phase; the drivers after it have caused
    nothing. *)
Lemma machine_ordering w address drivers evs d p ds :
  reaches w address (Idle drivers) evs (Busy d p ds) →
  ∃ finished, drivers = finished ++ d :: ds
    ∧ Forall (λ d, (run_one w address d).1 = Fulfilled tt) finished
    ∧ evs = blocks w address finished ++ phase_events w address d p.
Proof.
  intros (fin & -> & Hfin & -> & _)%reaches_inv. exists fin. split_and!; [done| |done].
  eapply Forall_impl; [done|]. intros d'. simpl.
  by destruct (run_one w address d').1 as [[]|].
Qed.

(** A Mocha that is running belongs to the current driver: it is the
    Mocha discovery built, with the driver and the address in the context
    of every top-level suite. *)
Lemma machine_running_injected w address drivers evs d m ds :
  reaches w address (Idle drivers) evs (Busy d (Running m) ds) →
  (∃ m0, (built w).1 = Fulfilled m0 ∧ m = inject d address m0)
  ∧ Forall (λ su, suite_ctx su = {| ctx_driver := Some d; ctx_address := Some address |})
      (mocha_suites m).
Proof.
  intros (fin & _ & _ & _ & m0 & Hb & ->)%reaches_inv. split; [by exists m0|].
  apply inject_suites.
Qed.

(** ** The sample machines *)

Lemma machine_refines_runTests_witness :
  reaches world_red "http://localhost:41735" (Idle [0])
    (run_all world_red "http://localhost:41735" [0]).2 (Settled (Rejected VUndefined))
  ↔ runTests world_red "http://localhost:41735" [0] init_state
    = (Rejected VUndefined,
       add_events (run_all world_red "http://localhost:41735" [0]).2 init_state).
Proof. apply (machine_refines_runTests world_red "http://localhost:41735" [0] init_state). Defined.

Lemma seq_step_deterministic_witness :
  @nil Event = [] ∧ Busy 0 NotStarted [1] = Busy 0 NotStarted [1].
Proof.
  apply (seq_step_deterministic world_green "http://localhost:41735" (Idle [0; 1]));
    constructor.
Defined.

Lemma machine_ordering_witness :
  ∃ finished, [0; 1] = finished ++ 1 :: []
    ∧ Forall (λ d, (run_one world_green "http://localhost:41735" d).1 = Fulfilled tt) finished
    ∧ (run_one world_green "http://localhost:41735" 0).2
      = blocks world_green "http://localhost:41735" finished
        ++ phase_events world_green "http://localhost:41735" 1 NotStarted.
Proof.
  apply (machine_ordering world_green "http://localhost:41735" [0; 1]).
  pose proof (run_machine_reaches world_green "http://localhost:41735" 6 (Idle [0; 1])) as H.
  exact H.
Defined.

Lemma machine_running_injected_witness :
  (∃ m0, (built world_green).1 = Fulfilled m0
         ∧ inject 0 "http://localhost:41735" mocha_green = inject 0 "http://localhost:41735" m0)
  ∧ Forall (λ su, suite_ctx su =
                  {| ctx_driver := Some 0; ctx_address := Some "http://localhost:41735" |})
      (mocha_suites (inject 0 "http://localhost:41735" mocha_green)).
Proof.
  apply (machine_running_injected world_green "http://localhost:41735" [0]
           (built world_green).2 0 _ []).
  exact (run_machine_reaches world_green "http://localhost:41735" 3 (Idle [0])).
Defined.

(** On the machine with two stable Chromes whose first run fails, the
    sequencer settles after the first driver. *)
Example run_machine_world_two_chromes :
  (run_machine world_two_chromes "http://localhost:41735" 11 (Idle [0; 1])).2
  = Settled (Rejected VUndefined)
  ∧ root_reads (run_machine world_two_chromes "http://localhost:41735" 11 (Idle [0; 1])).1 = 1.
Proof. evaluated. Qed.
