(* ===== verification/Main.v ===== *)
(** * Main: the run as a whole

    [main] (lines 52-87) and the promise chain at the bottom of the script
    (lines 112-120).  [main] is written as the source writes it, in three
    blocks: start the server and open the drivers, run the tests inside
    [try]/[catch], tear everything down.  The theorems say which of the
    blocks run, in which order, what is left open at the end and which exit
    code the process ends with. *)

From stdpp Require Import base tactics list strings numbers gmap.
From S2P Require Import Prelude Js Externals Effects Samples.
From S2P Require Import Browsers Server Discovery Sequencer.

(** ** Definitions *)

(** Lines 57-68: [const [server, ...drivers] = await Promise.all([...])].
    The array literal is evaluated first, left to right: [startServer()] is
    called, then the drivers are opened; only then is the aggregate awaited,
    and the server promise is its only pending member. *)
Definition startup (w : World) : Prog (Server * list Driver) :=
  server_p ← startServer w;
  drivers ← provision w;
  server ← await server_p;
  mret (server, drivers).

(** Lines 73-78: [err] after the [try] statement: [undefined] when the
    tests pass, [e.stack] when [runTests] is rejected with [e].  Reading
    [e.stack] happens inside the [catch] block, outside the [try]. *)
Definition attempt (w : World) (address : string) (drivers : list Driver) : Prog JsVal :=
  try_catch (runTests w address drivers;; mret VUndefined)
            (λ e, liftR (get_stack e)).

(** Lines 80-85: kill every driver, close the server. *)
Definition teardown (w : World) (drivers : list Driver) : Prog unit :=
  console_log "Killing all browser instances...";;
  kills ← mapM (killWebDriver w) drivers;
  await (Promise_all kills);;
  server_close;;
  console_log "Done.".

(** [main()]. *)
Definition main (w : World) : Prog JsVal :=
  '(server, drivers) ← startup w;
  let address := address_of server in
  err ← attempt w address drivers;
  teardown w drivers;;
  mret err.

(** How the process ends: with a code before the event loop has drained
    ([process.exit(code)] was called, or an exception was uncaught), or the
    script ran to its end and the process exits with code 0 once nothing
    keeps the event loop alive. *)
Inductive ProcessEnd :=
  | Exit (code : nat)
  | Drained.

#[export] Instance ProcessEnd_eq_dec : EqDecision ProcessEnd.
Proof. solve_decision. Defined.

Definition exit_code (p : ProcessEnd) : nat :=
  match p with Exit code => code | Drained => 0 end.

(** [process.exit(code)]: nothing after it runs. *)
Definition process_exit (code : nat) : Prog ProcessEnd :=
  emit (EvExit code);; mret (Exit code).

(** Lines 113-116: the [then] handler. *)
Definition on_fulfilled (err : JsVal) : Prog ProcessEnd :=
  if truthy err then process_exit 1
  else console_log "e2e tests done.";; mret Drained.

(** Lines 117-120: the [catch] handler. *)
Definition on_rejected (err : JsVal) : Prog ProcessEnd :=
  stack ← liftR (get_stack err);
  console_error stack;;
  process_exit 1.

(** Lines 112-120: [main().then(on_fulfilled).catch(on_rejected)].  A
    rejection of the whole chain is an unhandled rejection. *)
Definition toplevel (w : World) : Prog ProcessEnd :=
  try_catch (main w ≫= on_fulfilled) on_rejected.

(** ** Specification *)

(** The state once the server listens. *)
Definition listening (w : World) (s : State) : State :=
  add_event (EvListen (w_port w)) (set_server (SrvListening (w_port w)) s).

(** The promise [killWebDriver] returns for a driver and the state it
    leaves. *)
Definition kill_promise (w : World) (d : Driver) : Promise unit :=
  match w_kill_error w d with
  | Some e => {| settles_at := w_latency w (EvKill d false); outcome := Rejected e |}
  | None => {| settles_at := w_latency w (EvKill d true); outcome := Fulfilled tt |}
  end.

Definition kill_state (w : World) (s : State) (d : Driver) : State :=
  match w_kill_error w d with
  | Some _ => add_event (EvKill d false) s
  | None => add_event (EvKill d true) (set_sessions (delete d) s)
  end.

(** The state after [killWebDriver] has been called on each of [drivers] in
    order. *)
Definition killed (w : World) (drivers : list Driver) (s : State) : State :=
  foldl (kill_state w) s drivers.

(** The state at the end of a teardown in which every kill succeeded. *)
Definition torn_down (w : World) (drivers : list Driver) (s : State) : State :=
  add_event (EvLog "Done.")
    (add_event EvServerClose
       (set_server SrvClosed
          (killed w drivers (add_event (EvLog "Killing all browser instances...") s)))).

(** The state in which [main] enters the [try] statement when the startup
    succeeds, and the drivers it holds. *)
Definition started (w : World) (s : State) : State := opened (targets w) (listening w s).

Definition started_drivers (w : World) (s : State) : list Driver :=
  seq (st_next s) (length (targets w)).

(** The address the tests are given. *)
Definition address (w : World) : string := address_of {| address_port := w_port w |}.

(** The value [err] holds after the [try] statement, or the exception that
    escapes its [catch] block. *)
Definition err_after (r : Result unit) : Result JsVal :=
  match r with
  | Fulfilled _ => Fulfilled VUndefined
  | Rejected e => get_stack e
  end.

(** The session store without the sessions of [drivers]. *)
Definition delete_all (drivers : list Driver) (m : gmap nat Session) : gmap nat Session :=
  foldl (λ m d, delete d m) m drivers.

(** No driver acquisition throws. *)
Definition drivers_ok (w : World) : Prop :=
  Forall (λ b, w_driver_error w b = None) (targets w).

(** Lines 60-67: the exception of the first browser whose driver cannot be
    obtained. *)
Definition startup_error (w : World) : option JsVal :=
  head (omap (w_driver_error w) (targets w)).

(** [err] holds nothing at the end of the [try] statement: the tests have
    passed, or [runTests] was rejected with a value whose [stack] is absent
    or empty. *)
Definition err_empty (w : World) (s : State) : Prop :=
  ∃ err, err_after (verdict w (address w) (started_drivers w s)) = Fulfilled err
         ∧ truthy err = false.

Definition is_kill (ev : Event) : bool :=
  match ev with EvKill _ _ => true | _ => false end.

Definition is_close (ev : Event) : bool :=
  match ev with EvServerClose => true | _ => false end.

(** An event of the teardown block. *)
Definition is_teardown (ev : Event) : bool :=
  match ev with
  | EvKill _ _ | EvServerClose => true
  | EvLog msg => bool_decide (msg = "Killing all browser instances...")
                 || bool_decide (msg = "Done.")
  | _ => false
  end.

(** The events up to the end of the [try] statement never belong to the
    teardown. *)
Definition before_teardown (ev : Event) : bool :=
  match ev with
  | EvListen _ | EvGetDriver _ _ | EvSetScriptTimeout _ _
  | EvReaddir _ | EvRequire _ | EvRun _ _ => true
  | _ => false
  end.

(** Every kill succeeds. *)
Definition kills_ok (w : World) (drivers : list Driver) : Prop :=
  Forall (λ d, w_kill_error w d = None) drivers.

(** The kill events of a teardown, in order. *)
Definition kill_events (w : World) (drivers : list Driver) : list Event :=
  (λ d, EvKill d (bool_decide (w_kill_error w d = None))) <$> drivers.

(** The events of a teardown that stops after the kills or goes on to
    close the server. *)
Definition teardown_events (w : World) (drivers : list Driver) (closed : bool) : list Event :=
  EvLog "Killing all browser instances..."
    :: kill_events w drivers ++ (if closed then [EvServerClose; EvLog "Done."] else []).

(** The state at the end of the [try] statement when the startup
    succeeds. *)
Definition tested (w : World) (s : State) : State :=
  add_events (run_all w (address w) (started_drivers w s)).2 (started w s).

#[export] Instance drivers_ok_dec w : Decision (drivers_ok w).
Proof. unfold drivers_ok. apply _. Defined.

#[export] Instance kills_ok_dec w drivers : Decision (kills_ok w drivers).
Proof. unfold kills_ok. apply _. Defined.

(** What the two handlers of the chain at the bottom of the script make of
    the way [main] settles: the end of the process and the events. *)
Definition finish (r : Result JsVal) : Result ProcessEnd * list Event :=
  match r with
  | Fulfilled err =>
      if truthy err then (Fulfilled (Exit 1), [EvExit 1])
      else (Fulfilled Drained, [EvLog "e2e tests done."])
  | Rejected e =>
      match get_stack e with
      | Fulfilled stack => (Fulfilled (Exit 1), [EvError stack; EvExit 1])
      | Rejected e' => (Rejected e', [])
      end
  end.

(** A green run: every driver starts, the discovery works and no run
    reports a failure, and every driver is killed. *)
Definition green (w : World) (s : State) : bool :=
  bool_decide (drivers_ok w)
  && is_fulfilled (verdict w (address w) (started_drivers w s))
  && bool_decide (kills_ok w (started_drivers w s)).

(** ** Running the blocks *)

#[export] Instance startup_trace_ext w : Frame trace_ext (startup w).
Proof. by_parts startup. Qed.
#[export] Instance startup_state_ok w : Frame (preserving state_ok) (startup w).
Proof. by_parts startup. Qed.

#[export] Instance attempt_frame R
  `{!PreOrder R, !∀ p, Frame R (emit (EvReaddir p)), !∀ f, Frame R (emit (EvRequire f)),
    !∀ m c, Frame R (emit (EvRun m c))} w address drivers :
  Frame R (attempt w address drivers).
Proof. by_parts attempt. Qed.

#[export] Instance teardown_trace_ext w drivers : Frame trace_ext (teardown w drivers).
Proof. by_parts teardown. Qed.
#[export] Instance teardown_state_ok w drivers :
  Frame (preserving state_ok) (teardown w drivers).
Proof. by_parts teardown. Qed.

#[export] Instance main_trace_ext w : Frame trace_ext (main w).
Proof. by_parts main. Qed.
#[export] Instance main_state_ok w : Frame (preserving state_ok) (main w).
Proof. by_parts main. Qed.

#[export] Instance process_exit_frame R `{!PreOrder R, !Frame R (emit (EvExit code))} :
  Frame R (process_exit code).
Proof. by_parts process_exit. Qed.

#[export] Instance toplevel_trace_ext w : Frame trace_ext (toplevel w).
Proof. by_parts toplevel and on_fulfilled and on_rejected. Qed.
#[export] Instance toplevel_state_ok w : Frame (preserving state_ok) (toplevel w).
Proof. by_parts toplevel and on_fulfilled and on_rejected. Qed.

(** The state invariant holds at the end of every run of the script:
    whatever the collaborators do, the server state and the set of live
    sessions are those the trace of effects describes, and every live
    handle is below the handle counter. *)
Lemma toplevel_state_ok_init w : state_ok (toplevel w init_state).2.
Proof. apply (frame (R:=preserving state_ok) (m:=toplevel w)), init_state_ok. Qed.

(** ** The blocks, one by one *)

Lemma run_startup_ok w s :
  drivers_ok w →
  startup w s = (Fulfilled ({| address_port := w_port w |}, started_drivers w s), started w s).
Proof.
  intros Hok. unfold startup, provision. rewrite run_bind, run_startServer, run_bind.
  rewrite run_mapM_openDriver_ok by done. done.
Qed.

Lemma run_startup_err w s bs1 b bs2 e :
  targets w = bs1 ++ b :: bs2 →
  Forall (λ b, w_driver_error w b = None) bs1 →
  w_driver_error w b = Some e →
  startup w s = (Rejected e, opened bs1 (listening w s)).
Proof.
  intros Ht Hall He. unfold startup, provision.
  rewrite run_bind, run_startServer, run_bind, Ht.
  by rewrite (run_mapM_openDriver_err w bs1 b bs2 e).
Qed.

Lemma run_attempt w addr drivers s :
  attempt w addr drivers s =
  (match (run_all w addr drivers).1 with
   | Fulfilled _ => Fulfilled VUndefined
   | Rejected e => get_stack e
   end, add_events (run_all w addr drivers).2 s).
Proof.
  unfold attempt. rewrite run_try_catch, run_bind, run_runTests.
  by destruct (run_all w addr drivers).1.
Qed.

Lemma run_killWebDriver w d s :
  killWebDriver w d s = (Fulfilled (kill_promise w d), kill_state w s d).
Proof. unfold killWebDriver, kill_promise, kill_state. by destruct (w_kill_error w d). Qed.

Lemma run_kills w drivers s :
  mapM (killWebDriver w) drivers s = (Fulfilled (kill_promise w <$> drivers), killed w drivers s).
Proof.
  revert s. induction drivers as [|d ds IH]; intros s; [done|].
  by rewrite run_mapM_cons, run_bind, run_killWebDriver, run_bind, IH.
Qed.

Lemma kill_promises_ok w drivers :
  kills_ok w drivers →
  outcome (Promise_all (kill_promise w <$> drivers)) = Fulfilled (const tt <$> drivers).
Proof.
  intros Hok. apply Promise_all_fulfilled. rewrite Forall2_fmap.
  apply Forall_Forall2_diag. eapply Forall_impl; [done|].
  intros d Hd. unfold kill_promise. by rewrite Hd.
Qed.

Lemma kill_promises_rejected w drivers e :
  outcome (Promise_all (kill_promise w <$> drivers)) = Rejected e →
  ∃ d, d ∈ drivers ∧ w_kill_error w d = Some e.
Proof.
  intros (p & (d & -> & Hd)%list_elem_of_fmap & Ho & _)%Promise_all_rejected.
  exists d. split; [done|]. unfold kill_promise in Ho.
  destruct (w_kill_error w d); by simplify_eq/=.
Qed.

(** The kills are all fulfilled only when every kill succeeds. *)
Lemma kill_promises_fulfilled w drivers vs :
  outcome (Promise_all (kill_promise w <$> drivers)) = Fulfilled vs → kills_ok w drivers.
Proof.
  intros E. pose proof (proj1 (Promise_all_is_fulfilled (kill_promise w <$> drivers))) as H.
  rewrite E in H. specialize (H eq_refl). rewrite Forall_fmap in H.
  eapply Forall_impl; [done|]. intros d. unfold kill_promise. simpl.
  by destruct (w_kill_error w d).
Qed.

Lemma run_teardown w drivers s :
  teardown w drivers s =
  match outcome (Promise_all (kill_promise w <$> drivers)) with
  | Fulfilled _ => (Fulfilled tt, torn_down w drivers s)
  | Rejected e =>
      (Rejected e, killed w drivers (add_event (EvLog "Killing all browser instances...") s))
  end.
Proof.
  unfold teardown. rewrite run_bind. unfold console_log at 1. rewrite run_emit.
  rewrite run_bind, run_kills, run_bind, run_await.
  by destruct (outcome (Promise_all _)).
Qed.

(** [main], once the startup has succeeded. *)
Lemma run_main_started w s :
  drivers_ok w →
  main w s =
  (err ← attempt w (address w) (started_drivers w s);
   teardown w (started_drivers w s);; mret err) (started w s).
Proof. intros Hok. unfold main. by rewrite run_bind, run_startup_ok. Qed.

Lemma run_main w s :
  drivers_ok w →
  main w s =
  let ds := started_drivers w s in
  let s2 := add_events (run_all w (address w) ds).2 (started w s) in
  match err_after (run_all w (address w) ds).1 with
  | Rejected e' => (Rejected e', s2)
  | Fulfilled err =>
      match outcome (Promise_all (kill_promise w <$> ds)) with
      | Fulfilled _ => (Fulfilled err, torn_down w ds s2)
      | Rejected e =>
          (Rejected e, killed w ds (add_event (EvLog "Killing all browser instances...") s2))
      end
  end.
Proof.
  intros Hok. rewrite run_main_started by done. cbv zeta.
  rewrite run_bind, run_attempt. fold (err_after (run_all w (address w) (started_drivers w s)).1).
  destruct (err_after _) as [err|e']; [|done].
  rewrite run_bind, run_teardown. by destruct (outcome (Promise_all _)).
Qed.

(** ** The state after the kills *)

Lemma killed_server w ds s : st_server (killed w ds s) = st_server s.
Proof.
  unfold killed. revert s. induction ds as [|d ds IH]; intros s; [done|]. simpl.
  rewrite IH. unfold kill_state. by destruct (w_kill_error w d).
Qed.

Lemma killed_trace_ok w ds s :
  kills_ok w ds → st_trace (killed w ds s) = st_trace s ++ ((λ d, EvKill d true) <$> ds).
Proof.
  unfold killed. intros Hok. revert s.
  induction Hok as [|d ds Hd _ IH]; intros s; simpl; [by rewrite app_nil_r|].
  rewrite IH. unfold kill_state. rewrite Hd. simpl. by rewrite <- app_assoc.
Qed.

Lemma lookup_delete_all ds (m : gmap nat Session) d :
  delete_all ds m !! d = if decide (d ∈ ds) then None else m !! d.
Proof.
  unfold delete_all. revert m. induction ds as [|d' ds IH]; intros m; simpl; [done|].
  rewrite IH. destruct (decide (d ∈ ds)) as [?|Hn].
  - by rewrite decide_True by by right.
  - destruct (decide (d' = d)) as [->|Hne].
    + by rewrite decide_True, lookup_delete_eq by left.
    + rewrite decide_False, lookup_delete_ne; [done..|].
      intros [?|?]%elem_of_cons; by simplify_eq.
Qed.

Lemma killed_sessions_ok w ds s :
  kills_ok w ds → st_sessions (killed w ds s) = delete_all ds (st_sessions s).
Proof.
  unfold killed, delete_all. intros Hok. revert s.
  induction Hok as [|d ds Hd _ IH]; intros s; simpl; [done|].
  rewrite IH. unfold kill_state. by rewrite Hd.
Qed.

Lemma killed_next w ds s : st_next (killed w ds s) = st_next s.
Proof.
  unfold killed. revert s. induction ds as [|d ds IH]; intros s; [done|]. simpl.
  rewrite IH. unfold kill_state. by destruct (w_kill_error w d).
Qed.

Lemma started_server w s : st_server (started w s) = SrvListening (w_port w).
Proof. unfold started. by rewrite opened_server. Qed.

Lemma started_sessions w s i b :
  targets w !! i = Some b →
  st_sessions (started w s) !! (st_next s + i) = Some (opened_session b).
Proof. intros Hi. unfold started. by rewrite (opened_sessions_new _ (listening w s) i b). Qed.

Lemma started_trace w s :
  st_trace (started w s) =
  st_trace s ++ EvListen (w_port w)
    :: mjoin (zip_with open_events (targets w) (started_drivers w s)).
Proof. unfold started. rewrite opened_trace. simpl. by rewrite <- app_assoc. Qed.

#[export] Hint Rewrite killed_server killed_next started_server : e2e.

(** ** Events of the first two blocks *)

Lemma before_teardown_not_teardown ev : before_teardown ev = true → is_teardown ev = false.
Proof. by destruct ev. Qed.

Lemma run_one_before_teardown w addr d :
  Forall (λ ev, before_teardown ev = true) (run_one w addr d).2.
Proof.
  assert (Forall (λ ev, before_teardown ev = true) (built w).2) as Hb.
  { apply Forall_forall. intros ev Hev. pose proof (built_discovery w) as Hd.
    rewrite forallb_elem_of in Hd. specialize (Hd ev Hev). by destruct ev. }
  unfold run_one. destruct (built w).1; [|done]. cbv zeta. cbn [snd].
  apply Forall_app. split; [done|]. by constructor.
Qed.

Lemma run_all_before_teardown w addr ds :
  Forall (λ ev, before_teardown ev = true) (run_all w addr ds).2.
Proof.
  rewrite run_all_events. apply Forall_forall.
  intros ev (evs & Hev & (d & -> & _)%list_elem_of_fmap)%list_elem_of_join.
  pose proof (run_one_before_teardown w addr d) as H. rewrite Forall_forall in H. auto.
Qed.

Lemma opened_before_teardown bs s :
  Forall (λ ev, before_teardown ev = true) (drop (length (st_trace s)) (st_trace (opened bs s))).
Proof.
  rewrite opened_trace, drop_app_length. apply Forall_forall.
  intros ev (evs & Hev & Hevs)%list_elem_of_join.
  apply list_elem_of_lookup in Hevs as [i Hi].
  apply lookup_zip_with_Some in Hi as (b & d & -> & _ & _).
  by apply list_elem_of_In in Hev as [<-|[<-|[]]].
Qed.

Lemma started_before_teardown w s :
  Forall (λ ev, before_teardown ev = true) (drop (length (st_trace s)) (st_trace (started w s))).
Proof.
  rewrite started_trace, drop_app_length. constructor; [done|].
  pose proof (opened_before_teardown (targets w) (listening w s)) as H.
  by rewrite opened_trace, drop_app_length in H.
Qed.

(** ** How [main] settles *)

Lemma run_main_startup_err w s bs1 b bs2 e :
  targets w = bs1 ++ b :: bs2 →
  Forall (λ b, w_driver_error w b = None) bs1 →
  w_driver_error w b = Some e →
  main w s = (Rejected e, opened bs1 (listening w s)).
Proof.
  intros Ht Hall He. unfold main. by rewrite run_bind, (run_startup_err w s bs1 b bs2 e).
Qed.

Lemma kills_outcome w ds :
  world_ok w →
  (kills_ok w ds ∧ outcome (Promise_all (kill_promise w <$> ds)) = Fulfilled (const tt <$> ds))
  ∨ (¬ kills_ok w ds ∧
     ∃ e, is_error e = true ∧ outcome (Promise_all (kill_promise w <$> ds)) = Rejected e).
Proof.
  intros Hw. destruct (decide (kills_ok w ds)) as [Hok|Hno].
  { left. eauto using kill_promises_ok. }
  right. split; [done|]. destruct (outcome (Promise_all _)) as [l|e] eqn:Ho.
  - destruct Hno. apply (f_equal is_fulfilled), Promise_all_is_fulfilled, Forall_fmap in Ho.
    eapply Forall_impl; [done|].
    intros d. unfold kill_promise. simpl. by destruct (w_kill_error w d).
  - exists e. split; [|done]. apply kill_promises_rejected in Ho as (d & _ & Hd).
    by apply (ok_kill_error w Hw d).
Qed.

Lemma err_after_verdict w addr ds :
  world_ok w →
  (is_fulfilled (verdict w addr ds) = true
   ∧ err_after (verdict w addr ds) = Fulfilled VUndefined)
  ∨ (is_fulfilled (verdict w addr ds) = false
     ∧ ((∃ st, st ≠ "" ∧ err_after (verdict w addr ds) = Fulfilled (VStr st))
        ∨ (verdict w addr ds = Rejected VUndefined
           ∧ err_after (verdict w addr ds) = Rejected (type_error "stack" "undefined")))).
Proof.
  intros Hw. destruct (verdict w addr ds) as [[]|e] eqn:Hv; [by left|right].
  split; [done|].
  apply (verdict_rejected _ _ _ _ Hw) in Hv as [->|(st & -> & ?)%is_error_inv]; [by right|].
  left. by exists st.
Qed.

Lemma run_toplevel w s :
  toplevel w s = ((finish (main w s).1).1, add_events (finish (main w s).1).2 (main w s).2).
Proof.
  unfold toplevel. rewrite run_try_catch, run_bind.
  destruct (main w s) as [[err|e] s']; cbn [fst snd finish].
  - unfold on_fulfilled, process_exit, console_log.
    destruct (truthy err); by rewrite run_bind, run_emit, run_ret.
  - unfold on_rejected, process_exit, console_error. rewrite run_bind, run_liftR.
    destruct (get_stack e) as [st|e']; cbn [fst snd]; [|by rewrite add_events_nil].
    rewrite run_bind, run_emit, run_bind, run_emit, run_ret.
    by rewrite !add_event_add_events, add_events_app.
Qed.

(** ** The state at the end of the [try] statement *)

Lemma tested_server w s : st_server (tested w s) = SrvListening (w_port w).
Proof. unfold tested. by rewrite add_events_server, started_server. Qed.

Lemma tested_sessions w s i b :
  targets w !! i = Some b →
  st_sessions (tested w s) !! (st_next s + i) = Some (opened_session b).
Proof. unfold tested. rewrite add_events_sessions. apply started_sessions. Qed.

Lemma tested_before_teardown w s :
  Forall (λ ev, before_teardown ev = true) (drop (length (st_trace s)) (st_trace (tested w s))).
Proof.
  unfold tested. rewrite add_events_trace, started_trace, <- app_assoc, drop_app_length.
  pose proof (started_before_teardown w s) as H.
  rewrite started_trace, drop_app_length in H.
  apply Forall_app. split; [done|]. apply run_all_before_teardown.
Qed.

Lemma no_teardown evs :
  Forall (λ ev, before_teardown ev = true) evs → Forall (λ ev, is_teardown ev = false) evs.
Proof. intros H. eapply Forall_impl; [done|]. apply before_teardown_not_teardown. Qed.

Lemma run_main_tested w s :
  drivers_ok w →
  main w s =
  match err_after (verdict w (address w) (started_drivers w s)) with
  | Rejected e' => (Rejected e', tested w s)
  | Fulfilled err =>
      match outcome (Promise_all (kill_promise w <$> started_drivers w s)) with
      | Fulfilled _ => (Fulfilled err, torn_down w (started_drivers w s) (tested w s))
      | Rejected e =>
          (Rejected e,
           killed w (started_drivers w s)
             (add_event (EvLog "Killing all browser instances...") (tested w s)))
      end
  end.
Proof. intros Hok. rewrite run_main by done. cbv zeta. by rewrite run_all_verdict. Qed.

Lemma torn_down_server w ds s : st_server (torn_down w ds s) = SrvClosed.
Proof. done. Qed.

Lemma torn_down_sessions w ds s d :
  kills_ok w ds → d ∈ ds → st_sessions (torn_down w ds s) !! d = None.
Proof.
  intros Hok Hd. unfold torn_down. rewrite !add_event_sessions. cbn [st_sessions set_server].
  rewrite killed_sessions_ok, lookup_delete_all by done. by rewrite decide_True.
Qed.

Lemma torn_down_trace w ds s :
  kills_ok w ds →
  st_trace (torn_down w ds s) =
  st_trace s ++ EvLog "Killing all browser instances..." :: ((λ d, EvKill d true) <$> ds)
    ++ [EvServerClose; EvLog "Done."].
Proof.
  intros Hok. unfold torn_down. rewrite !add_event_trace. cbn [st_trace set_server].
  rewrite killed_trace_ok, add_event_trace by done. by rewrite <- !app_assoc.
Qed.

(** ** How the process ends *)

Lemma finish_error e : is_error e = true → (finish (Rejected e)).1 = Fulfilled (Exit 1).
Proof. by intros (st & -> & _)%is_error_inv. Qed.

Lemma finish_stack st : st ≠ "" → (finish (Fulfilled (VStr st))).1 = Fulfilled (Exit 1).
Proof. intros Hst. unfold finish. by rewrite (proj2 (truthy_VStr st) Hst). Qed.

Lemma main_startup_failure w s :
  world_ok w → ¬ drivers_ok w → ∃ e, is_error e = true ∧ (main w s).1 = Rejected e.
Proof.
  intros Hw Hno.
  destruct (first_failure (λ b, w_driver_error w b = None) (targets w))
    as [Hok|(bs1 & b & bs2 & Ht & H1 & Hb)]; [done|].
  destruct (w_driver_error w b) as [e|] eqn:He; [|done].
  exists e. split; [by apply (ok_driver_error w Hw b)|].
  by rewrite (run_main_startup_err w s bs1 b bs2 e).
Qed.

(** Once the drivers are open, [main] is fulfilled with [undefined] when
    the tests pass and the kills succeed; otherwise it is fulfilled with a
    non-empty stack or rejected with an [Error]. *)
Lemma main_settles_started w s :
  world_ok w → drivers_ok w →
  if is_fulfilled (verdict w (address w) (started_drivers w s))
     && bool_decide (kills_ok w (started_drivers w s))
  then (main w s).1 = Fulfilled VUndefined
  else (∃ st, st ≠ "" ∧ (main w s).1 = Fulfilled (VStr st))
       ∨ (∃ e, is_error e = true ∧ (main w s).1 = Rejected e).
Proof.
  intros Hw Hok. rewrite run_main_tested by done.
  destruct (kills_outcome w (started_drivers w s) Hw) as [[Hk ->]|(Hk & e & He & ->)];
    [rewrite bool_decide_eq_true_2 by done|rewrite bool_decide_eq_false_2 by done];
    destruct (err_after_verdict w (address w) (started_drivers w s) Hw)
      as [[-> ->]|[-> [(st & ? & ->)|[_ ->]]]]; cbn [andb fst]; eauto using type_error_is_error.
Qed.

(** ** How [main] settles on every machine *)

Lemma startup_error_None w : startup_error w = None ↔ drivers_ok w.
Proof.
  unfold startup_error, drivers_ok. induction (targets w) as [|b bs IH]; simpl; [done|].
  rewrite Forall_cons. destruct (w_driver_error w b); simpl; [|tauto].
  split; [done|by intros []].
Qed.

Lemma startup_error_Some w e :
  startup_error w = Some e →
  ∃ bs1 b bs2, targets w = bs1 ++ b :: bs2
    ∧ Forall (λ b, w_driver_error w b = None) bs1 ∧ w_driver_error w b = Some e.
Proof.
  unfold startup_error. induction (targets w) as [|b bs IH]; simpl; [done|].
  destruct (w_driver_error w b) as [e'|] eqn:Hb; simpl.
  - intros [= ->]. by exists [], b, bs.
  - intros (bs1 & b' & bs2 & -> & H1 & Hb')%IH. exists (b :: bs1), b', bs2.
    split_and!; [done|by constructor|done].
Qed.

(** [err] is empty when [runTests] is fulfilled, when it is rejected with
    a value that has no [stack], and when the [stack] is the empty
    string. *)
Lemma err_empty_cases w s :
  err_empty w s ↔
  match verdict w (address w) (started_drivers w s) with
  | Fulfilled _ | Rejected (VStr _) => True
  | Rejected (VError st) => st = ""
  | Rejected _ => False
  end.
Proof.
  unfold err_empty. destruct (verdict _ _ _) as [[]|[| |t|st]]; simpl.
  - split; [done|]. by exists VUndefined.
  - split; [by intros (? & ? & _)|done].
  - split; [by intros (? & ? & _)|done].
  - split; [done|]. by exists VUndefined.
  - split; [by intros (? & [= <-] & ?%negb_false_iff%bool_decide_eq_true)|].
    intros ->. by exists (VStr "").
Qed.

(** The outcome of [main], whatever the collaborators throw. *)
Lemma main_outcome w s :
  (main w s).1 =
  match startup_error w with
  | Some e => Rejected e
  | None =>
      match err_after (verdict w (address w) (started_drivers w s)) with
      | Rejected e => Rejected e
      | Fulfilled err =>
          match outcome (Promise_all (kill_promise w <$> started_drivers w s)) with
          | Fulfilled _ => Fulfilled err
          | Rejected e => Rejected e
          end
      end
  end.
Proof.
  destruct (startup_error w) as [e|] eqn:He.
  - apply startup_error_Some in He as (bs1 & b & bs2 & Ht & H1 & Hb).
    by rewrite (run_main_startup_err w s bs1 b bs2 e).
  - apply startup_error_None in He. rewrite run_main_tested by done.
    destruct (err_after _); [|done]. by destruct (outcome _).
Qed.

(** [main] returns an empty [err] exactly when every driver starts, [err]
    is empty at the end of the [try] statement and every kill succeeds. *)
Lemma main_returns_nothing w s :
  (∃ err, (main w s).1 = Fulfilled err ∧ truthy err = false)
  ↔ drivers_ok w ∧ err_empty w s ∧ kills_ok w (started_drivers w s).
Proof.
  rewrite main_outcome, <- startup_error_None. unfold err_empty.
  destruct (startup_error w); [split; [by intros (? & ? & _)|by intros []]|].
  destruct (err_after _) as [err|e]; [|split; [by intros (? & ? & _)|by intros (_ & (? & ? & _) & _)]].
  destruct (outcome _) as [vs|e] eqn:Hk.
  - apply kill_promises_fulfilled in Hk. split; [|by intros (_ & ? & _)].
    intros (err' & [= <-] & ?). eauto.
  - split; [by intros (? & ? & _)|]. intros (_ & _ & Hok). by rewrite kill_promises_ok in Hk.
Qed.

(** The two handlers: the event loop drains exactly after an empty [err];
    [process.exit(1)] is called otherwise, unless reading the [stack] of
    the reason throws. *)
Lemma finish_drained r :
  (finish r).1 = Fulfilled Drained ↔ ∃ err, r = Fulfilled err ∧ truthy err = false.
Proof.
  destruct r as [err|e]; cbn [finish].
  - destruct (truthy err) eqn:Ht; cbn [fst].
    + split; [done|]. intros (err' & [= <-] & ?). congruence.
    + split; [eauto|done].
  - destruct (get_stack e); cbn [fst]; (split; [done|by intros (? & ? & _)]).
Qed.

Lemma finish_cases r :
  (finish r).1 = Fulfilled Drained ∨ (finish r).1 = Fulfilled (Exit 1)
  ∨ ∃ v e, r = Rejected v ∧ get_stack v = Rejected e ∧ (finish r).1 = Rejected e.
Proof.
  destruct r as [err|v]; cbn [finish].
  - destruct (truthy err); auto.
  - destruct (get_stack v) as [st|e] eqn:Hv; [auto|]. right. right. by exists v, e.
Qed.

(** ** The run as a whole *)

Lemma toplevel_end w s :
  world_ok w → (toplevel w s).1 = Fulfilled (if green w s then Drained else Exit 1).
Proof.
  intros Hw. rewrite run_toplevel. cbn [fst]. unfold green.
  destruct (decide (drivers_ok w)) as [Hok|Hno].
  - rewrite bool_decide_eq_true_2, andb_true_l by done.
    pose proof (main_settles_started w s Hw Hok) as H.
    destruct (_ && _); [by rewrite H|].
    destruct H as [(st & ? & ->)|(e & ? & ->)]; auto using finish_stack, finish_error.
  - rewrite bool_decide_eq_false_2 by done.
    destruct (main_startup_failure w s Hw Hno) as (e & ? & ->). by apply finish_error.
Qed.

(** The event loop drains exactly when every driver starts, [err] is empty
    at the end of the [try] statement and every kill succeeds. *)
Lemma toplevel_drained w s :
  (toplevel w s).1 = Fulfilled Drained
  ↔ drivers_ok w ∧ err_empty w s ∧ kills_ok w (started_drivers w s).
Proof. rewrite run_toplevel. cbn [fst]. by rewrite finish_drained, main_returns_nothing. Qed.

(** C1: the exit code.  On every machine, whatever the collaborators
    throw, the process ends in one of three ways.  The event loop drains,
    with exit code 0, exactly when every driver starts, [err] is empty at
    the end of the [try] statement (the tests have passed, or [runTests]
    was rejected with a value that has no [stack] or an empty one:
    [err_empty_cases]) and every kill succeeds.  Otherwise
    [process.exit(1)] is called, unless [main] is rejected with [undefined]
    or [null]: then the [catch] handler of the last lines throws on
    [err.stack] and the chain ends in an unhandled rejection.  When the collaborators throw only [Error]
    objects the third case does not arise and [err] is empty only after
    tests that pass: the process ends with code 0 exactly in the green
    runs and with code 1 in every other. *)
Theorem toplevel_exit_code w s :
  ((toplevel w s).1 = Fulfilled Drained
   ↔ drivers_ok w ∧ err_empty w s ∧ kills_ok w (started_drivers w s))
  ∧ ((toplevel w s).1 = Fulfilled Drained ∨ (toplevel w s).1 = Fulfilled (Exit 1)
     ∨ ∃ v e, (main w s).1 = Rejected v ∧ get_stack v = Rejected e
              ∧ (toplevel w s).1 = Rejected e)
  ∧ (world_ok w →
     ∃ p, (toplevel w s).1 = Fulfilled p
       ∧ exit_code p = (if green w s then 0 else 1)
       ∧ (p = Drained ↔ green w s = true)).
Proof.
  split_and!.
  - apply toplevel_drained.
  - rewrite run_toplevel. cbn [fst]. apply finish_cases.
  - intros Hw. eexists. split; [by apply toplevel_end|]. by destruct (green w s).
Qed.

(** C2: a run with failing tests never reaches the teardown.  [runMocha]
    rejects with no reason, so the [catch] block of [main] reads [.stack]
    of [undefined] and throws: [main] is rejected with that [TypeError] at
    the end of the [try] statement, with the server still listening, every
    session still open and no kill, close or teardown message among the
    events. *)
Theorem main_test_failure w s :
  drivers_ok w →
  verdict w (address w) (started_drivers w s) = Rejected VUndefined →
  main w s = (Rejected (type_error "stack" "undefined"), tested w s)
  ∧ st_server (tested w s) = SrvListening (w_port w)
  ∧ (∀ i b, targets w !! i = Some b →
       st_sessions (tested w s) !! (st_next s + i) = Some (opened_session b))
  ∧ Forall (λ ev, is_teardown ev = false) (drop (length (st_trace s)) (st_trace (tested w s))).
Proof.
  intros Hok Hv. rewrite run_main_tested, Hv by done.
  split_and!; [done|apply tested_server|apply tested_sessions|].
  apply no_teardown, tested_before_teardown.
Qed.

(** What the user sees of a run with failing tests: the only error
    printed is the [TypeError] of the [catch] block, and the exit code is
    1. *)
Lemma toplevel_test_failure w s :
  drivers_ok w →
  verdict w (address w) (started_drivers w s) = Rejected VUndefined →
  toplevel w s =
  (Fulfilled (Exit 1),
   add_events [EvError (VStr "TypeError: Cannot read property 'stack' of undefined"); EvExit 1]
     (tested w s)).
Proof. intros Hok Hv. by rewrite run_toplevel, run_main_tested, Hv. Qed.

(** C5: when the tests pass, or the discovery fails with an [Error], and
    every kill succeeds, [main] tears everything down: it is fulfilled with
    the value of [err], the server is closed, no session of a started
    driver is left, and the last events are the message, one kill per
    driver in order, the close and the final message. *)
Theorem main_teardown w s err :
  drivers_ok w →
  err_after (verdict w (address w) (started_drivers w s)) = Fulfilled err →
  kills_ok w (started_drivers w s) →
  ∃ s', main w s = (Fulfilled err, s')
    ∧ st_server s' = SrvClosed
    ∧ (∀ d, d ∈ started_drivers w s → st_sessions s' !! d = None)
    ∧ st_trace s' =
        st_trace (tested w s) ++ EvLog "Killing all browser instances..."
          :: ((λ d, EvKill d true) <$> started_drivers w s) ++ [EvServerClose; EvLog "Done."].
Proof.
  intros Hok Herr Hk. rewrite run_main_tested, Herr, kill_promises_ok by done.
  eexists. split_and!; [done|apply torn_down_server|..].
  - intros d. by apply torn_down_sessions.
  - by apply torn_down_trace.
Qed.

(** A failing discovery is reported by the exit code only.  [main]
    catches the [Error], keeps its stack in [err], tears down and returns
    it; the [then] handler exits with 1 without printing it. *)
Lemma toplevel_discovery_error w s e st :
  drivers_ok w →
  verdict w (address w) (started_drivers w s) = Rejected (VError st) →
  st ≠ "" →
  kills_ok w (started_drivers w s) →
  toplevel w s =
  (Fulfilled (Exit 1), add_event (EvExit 1) (torn_down w (started_drivers w s) (tested w s)))
  ∧ EvError e ∉ drop (length (st_trace s))
      (st_trace (torn_down w (started_drivers w s) (tested w s))).
Proof.
  intros Hok Hv Hst Hk. split.
  - rewrite run_toplevel, run_main_tested, Hv, kill_promises_ok by done.
    cbn [err_after get_stack fst snd finish]. by rewrite (proj2 (truthy_VStr st) Hst).
  - rewrite torn_down_trace, drop_app_le by (done || (unfold tested;
      rewrite add_events_trace, started_trace, !length_app; lia)).
    pose proof (tested_before_teardown w s) as Ht. rewrite Forall_forall in Ht.
    intros [H%Ht|H]%elem_of_app; [done|].
    apply elem_of_cons in H as [?|[(d & ? & _)%list_elem_of_fmap|H]%elem_of_app]; try done.
    by apply list_elem_of_In in H as [?|[?|[]]].
Qed.

Lemma killed_trace w ds s : st_trace (killed w ds s) = st_trace s ++ kill_events w ds.
Proof.
  unfold killed, kill_events. revert s.
  induction ds as [|d ds IH]; intros s; simpl; [by rewrite app_nil_r|].
  rewrite IH. unfold kill_state. destruct (w_kill_error w d); simpl; by rewrite <- app_assoc.
Qed.

(** C37: a driver that cannot be started leaves everything open.  The
    server has been started and the drivers before the failing one have
    been opened when the exception escapes [main]; the browsers after it
    are never opened and nothing is torn down. *)
Theorem main_startup_error w s bs1 b bs2 e :
  targets w = bs1 ++ b :: bs2 →
  Forall (λ b, w_driver_error w b = None) bs1 →
  w_driver_error w b = Some e →
  main w s = (Rejected e, opened bs1 (listening w s))
  ∧ st_server (opened bs1 (listening w s)) = SrvListening (w_port w)
  ∧ (∀ i b', bs1 !! i = Some b' →
       st_sessions (opened bs1 (listening w s)) !! (st_next s + i) = Some (opened_session b'))
  ∧ Forall (λ ev, is_teardown ev = false)
      (drop (length (st_trace s)) (st_trace (opened bs1 (listening w s)))).
Proof.
  intros Ht Hall He. rewrite (run_main_startup_err w s bs1 b bs2 e) by done.
  split_and!; [done|by rewrite opened_server|..].
  - intros i b'. apply (opened_sessions_new bs1 (listening w s)).
  - pose proof (opened_before_teardown bs1 (listening w s)) as H.
    rewrite opened_trace, drop_app_length in H. rewrite opened_trace.
    cbn [listening st_trace add_event set_server].
    rewrite <- app_assoc, drop_app_length. constructor; [done|]. by apply no_teardown.
Qed.

(** C38: a kill that fails leaves the server open.  When every driver has
    started, the [try] statement has completed and the promise of some
    [killWebDriver] is rejected, [main] is rejected with the reason of one
    of the rejected kills after every driver has been asked to stop, and
    [server.close()] is not called: the server is still listening. *)
Theorem main_kill_error w s err :
  drivers_ok w →
  err_after (verdict w (address w) (started_drivers w s)) = Fulfilled err →
  ¬ kills_ok w (started_drivers w s) →
  ∃ e d s', main w s = (Rejected e, s')
    ∧ d ∈ started_drivers w s ∧ w_kill_error w d = Some e
    ∧ st_server s' = SrvListening (w_port w)
    ∧ st_trace s' =
        st_trace (tested w s) ++ EvLog "Killing all browser instances..."
          :: kill_events w (started_drivers w s).
Proof.
  intros Hok Herr Hk. rewrite run_main_tested, Herr by done.
  destruct (outcome (Promise_all _)) as [vs|e] eqn:Ho.
  { by apply kill_promises_fulfilled in Ho. }
  apply kill_promises_rejected in Ho as (d & Hd & He).
  eexists e, d, _. split_and!; [done..| |].
  - by rewrite killed_server, add_event_server, tested_server.
  - by rewrite killed_trace, add_event_trace, <- app_assoc.
Qed.

(** With no target browser installed the server is still started and
    closed, nothing is discovered or run, and the process ends with exit
    code 0. *)
Lemma toplevel_no_browser w s :
  targets w = [] →
  ∃ s', toplevel w s = (Fulfilled Drained, s')
    ∧ st_server s' = SrvClosed
    ∧ st_sessions s' = st_sessions s
    ∧ st_trace s' =
        st_trace s ++ [EvListen (w_port w); EvLog "Killing all browser instances...";
                       EvServerClose; EvLog "Done."; EvLog "e2e tests done."].
Proof.
  intros Ht. assert (drivers_ok w) as Hok by (unfold drivers_ok; by rewrite Ht).
  rewrite run_toplevel, run_main_tested by done.
  unfold tested, started, started_drivers. rewrite Ht. cbn.
  eexists. split_and!; [done..|].
  rewrite add_events_trace, torn_down_trace, add_events_trace by constructor.
  simpl. by rewrite <- !app_assoc.
Qed.

(** ** The order of the blocks *)

Lemma torn_down_events w ds s :
  st_trace (torn_down w ds s) = st_trace s ++ teardown_events w ds true.
Proof.
  unfold torn_down, teardown_events. rewrite !add_event_trace. cbn [st_trace set_server].
  rewrite killed_trace, add_event_trace. by rewrite <- !app_assoc.
Qed.

Lemma before_teardown_existsb (q : Event → bool) evs :
  (∀ ev, before_teardown ev = true → q ev = false) →
  Forall (λ ev, before_teardown ev = true) evs → existsb q evs = false.
Proof.
  intros Hq Hevs. apply not_true_is_false. rewrite existsb_elem_of.
  rewrite Forall_forall in Hevs. intros (ev & Hev%Hevs%Hq & Hqev). congruence.
Qed.

Lemma teardown_events_late w ds closed :
  forallb (λ ev, negb (before_teardown ev)) (teardown_events w ds closed) = true.
Proof.
  apply forallb_elem_of. intros ev. unfold teardown_events, kill_events.
  intros [->|[(d & -> & _)%list_elem_of_fmap|H]%elem_of_app]%elem_of_cons; [done..|].
  destruct closed; [|by apply elem_of_nil in H].
  by apply list_elem_of_In in H as [<-|[<-|[]]].
Qed.

Lemma teardown_events_close_last w ds closed :
  all_before is_kill is_close (teardown_events w ds closed) = true.
Proof.
  unfold teardown_events. cbn [all_before is_close negb orb andb].
  rewrite all_before_app, andb_true_iff, andb_true_iff. split_and!.
  - apply all_before_no_q, not_true_is_false. rewrite existsb_elem_of.
    by intros (ev & (d & -> & _)%list_elem_of_fmap & ?).
  - by destruct closed.
  - apply orb_true_iff. right. by destruct closed.
Qed.

(** The events of [main] are events of the first two blocks, followed by
    nothing or by the events of a teardown. *)
Lemma main_trace_shape w s :
  ∃ evs td, drop (length (st_trace s)) (st_trace (main w s).2) = evs ++ td
    ∧ Forall (λ ev, before_teardown ev = true) evs
    ∧ (td = [] ∨ ∃ closed, td = teardown_events w (started_drivers w s) closed).
Proof.
  destruct (first_failure (λ b, w_driver_error w b = None) (targets w))
    as [Hok|(bs1 & b & bs2 & Ht & H1 & Hb)].
  - exists (drop (length (st_trace s)) (st_trace (tested w s))).
    pose proof (tested_before_teardown w s) as Hevs.
    assert (length (st_trace s) ≤ length (st_trace (tested w s))) as Hle.
    { unfold tested. rewrite add_events_trace, started_trace, !length_app. lia. }
    rewrite run_main_tested by done.
    destruct (err_after _); [destruct (outcome _)|]; cbn [snd].
    + exists (teardown_events w (started_drivers w s) true).
      rewrite torn_down_events, drop_app_le by done. eauto 6.
    + exists (teardown_events w (started_drivers w s) false).
      rewrite killed_trace, add_event_trace, <- app_assoc, drop_app_le by done.
      split_and!; [|done|right; by exists false].
      unfold teardown_events. by rewrite app_nil_r.
    + exists []. rewrite app_nil_r. eauto.
  - destruct (w_driver_error w b) as [e|] eqn:He; [|done].
    rewrite (run_main_startup_err w s bs1 b bs2 e) by done. cbn [snd].
    eexists _, []. rewrite app_nil_r. split_and!; [done| |by left].
    pose proof (opened_before_teardown bs1 (listening w s)) as H.
    rewrite opened_trace, drop_app_length in H. rewrite opened_trace.
    cbn [listening st_trace add_event set_server].
    rewrite <- app_assoc, drop_app_length. by constructor.
Qed.

(** C6: the order of the blocks, in every run.  Among the events of
    [main], no event of the teardown (message, kill, close) is followed by
    an event of the startup or of the tests, and the close of the server is
    never followed by a kill: the server outlives every driver. *)
Theorem main_teardown_order w s :
  all_before before_teardown is_teardown
    (drop (length (st_trace s)) (st_trace (main w s).2)) = true
  ∧ all_before is_kill is_close
      (drop (length (st_trace s)) (st_trace (main w s).2)) = true.
Proof.
  destruct (main_trace_shape w s) as (evs & td & -> & Hevs & Htd).
  assert (forallb (λ ev, negb (before_teardown ev)) td = true
          ∧ all_before is_kill is_close td = true) as [Hlate Hclose]
    by (destruct Htd as [->|[closed ->]];
        auto using teardown_events_late, teardown_events_close_last).
  assert (existsb is_teardown evs = false ∧ existsb is_close evs = false) as [Htd' Hcl']
    by (split; apply before_teardown_existsb; (done || by intros [])).
  rewrite !all_before_app, Hclose, Hlate, Htd', Hcl'.
  by rewrite (all_before_no_p _ _ td), !(all_before_no_q _ _ evs).
Qed.

(** ** The sample machines *)

Lemma toplevel_exit_code_witness :
  ((toplevel world_red init_state).1 = Fulfilled Drained
   ↔ drivers_ok world_red ∧ err_empty world_red init_state
     ∧ kills_ok world_red (started_drivers world_red init_state))
  ∧ ((toplevel world_red init_state).1 = Fulfilled Drained
     ∨ (toplevel world_red init_state).1 = Fulfilled (Exit 1)
     ∨ ∃ v e, (main world_red init_state).1 = Rejected v ∧ get_stack v = Rejected e
              ∧ (toplevel world_red init_state).1 = Rejected e)
  ∧ ∃ p, (toplevel world_red init_state).1 = Fulfilled p
      ∧ exit_code p = (if green world_red init_state then 0 else 1)
      ∧ (p = Drained ↔ green world_red init_state = true).
Proof.
  destruct (toplevel_exit_code world_red init_state) as (H1 & H2 & H3).
  split_and!; [exact H1|exact H2|exact (H3 world_red_ok)].
Defined.

(** A suite file that throws a string: no test has run, yet [err] is
    [undefined] after the [catch] block, and the process ends with
    code 0. *)
Example exit_code_after_thrown_string :
  green world_throws_string init_state = false
  ∧ (runTests world_throws_string (address world_throws_string) [0]
       (startup world_throws_string init_state).2).1
    = Rejected (VStr "unit-a is not set up")
  ∧ (toplevel world_throws_string init_state).1 = Fulfilled Drained.
Proof. by vm_compute. Qed.

Lemma main_test_failure_witness :
  main world_red init_state
  = (Rejected (type_error "stack" "undefined"), tested world_red init_state)
  ∧ st_server (tested world_red init_state) = SrvListening (w_port world_red)
  ∧ (∀ i b, targets world_red !! i = Some b →
       st_sessions (tested world_red init_state) !! (st_next init_state + i)
       = Some (opened_session b))
  ∧ Forall (λ ev, is_teardown ev = false)
      (drop (length (st_trace init_state)) (st_trace (tested world_red init_state))).
Proof. apply (main_test_failure world_red init_state); [by repeat constructor|by vm_compute]. Defined.

Lemma toplevel_test_failure_witness :
  toplevel world_red init_state =
  (Fulfilled (Exit 1),
   add_events [EvError (VStr "TypeError: Cannot read property 'stack' of undefined"); EvExit 1]
     (tested world_red init_state)).
Proof.
  apply (toplevel_test_failure world_red init_state); [by repeat constructor|by vm_compute].
Defined.

Lemma main_teardown_witness :
  ∃ s', main world_green init_state = (Fulfilled VUndefined, s')
    ∧ st_server s' = SrvClosed
    ∧ (∀ d, d ∈ started_drivers world_green init_state → st_sessions s' !! d = None)
    ∧ st_trace s' =
        st_trace (tested world_green init_state) ++ EvLog "Killing all browser instances..."
          :: ((λ d, EvKill d true) <$> started_drivers world_green init_state)
          ++ [EvServerClose; EvLog "Done."].
Proof.
  apply (main_teardown world_green init_state VUndefined);
    [by repeat constructor|by vm_compute|by repeat constructor].
Defined.

Lemma toplevel_discovery_error_witness :
  toplevel world_no_elements init_state =
  (Fulfilled (Exit 1),
   add_event (EvExit 1)
     (torn_down world_no_elements (started_drivers world_no_elements init_state)
        (tested world_no_elements init_state)))
  ∧ EvError (VStr "Error: ENOENT: no such file or directory, scandir 'elements'")
    ∉ drop (length (st_trace init_state))
        (st_trace (torn_down world_no_elements (started_drivers world_no_elements init_state)
                     (tested world_no_elements init_state))).
Proof.
  apply (toplevel_discovery_error world_no_elements init_state _
           "Error: ENOENT: no such file or directory, scandir 'elements'");
    [by repeat constructor|by vm_compute|done|by repeat constructor].
Defined.

Lemma main_startup_error_witness :
  main world_no_driver init_state
  = (Rejected (VError "Error: chromedriver not found"),
     opened [] (listening world_no_driver init_state))
  ∧ st_server (opened [] (listening world_no_driver init_state))
    = SrvListening (w_port world_no_driver)
  ∧ (∀ i b', @nil Browser !! i = Some b' →
       st_sessions (opened [] (listening world_no_driver init_state)) !! (st_next init_state + i)
       = Some (opened_session b'))
  ∧ Forall (λ ev, is_teardown ev = false)
      (drop (length (st_trace init_state))
         (st_trace (opened [] (listening world_no_driver init_state)))).
Proof.
  apply (main_startup_error world_no_driver init_state []
           (unsandboxChrome chrome_stable) []); [by vm_compute|by constructor|done].
Defined.

Lemma main_kill_error_witness :
  ∃ e d s', main world_stuck_driver init_state = (Rejected e, s')
    ∧ d ∈ started_drivers world_stuck_driver init_state
    ∧ w_kill_error world_stuck_driver d = Some e
    ∧ st_server s' = SrvListening (w_port world_stuck_driver)
    ∧ st_trace s' =
        st_trace (tested world_stuck_driver init_state)
          ++ EvLog "Killing all browser instances..."
          :: kill_events world_stuck_driver (started_drivers world_stuck_driver init_state).
Proof.
  apply (main_kill_error world_stuck_driver init_state VUndefined);
    [by repeat constructor|by vm_compute|].
  by intros [[=] _]%Forall_cons.
Defined.

Lemma toplevel_no_browser_witness :
  ∃ s', toplevel world_no_browser init_state = (Fulfilled Drained, s')
    ∧ st_server s' = SrvClosed
    ∧ st_sessions s' = st_sessions init_state
    ∧ st_trace s' =
        st_trace init_state
          ++ [EvListen (w_port world_no_browser); EvLog "Killing all browser instances...";
              EvServerClose; EvLog "Done."; EvLog "e2e tests done."].
Proof. apply (toplevel_no_browser world_no_browser init_state). by vm_compute. Defined.

(** The four ways the script ends on the sample machines. *)
Example toplevel_samples :
  (toplevel world_green init_state).1 = Fulfilled Drained
  ∧ (toplevel world_red init_state).1 = Fulfilled (Exit 1)
  ∧ (toplevel world_no_elements init_state).1 = Fulfilled (Exit 1)
  ∧ (toplevel world_no_driver init_state).1 = Fulfilled (Exit 1)
  ∧ (toplevel world_stuck_driver init_state).1 = Fulfilled (Exit 1)
  ∧ (toplevel world_no_browser init_state).1 = Fulfilled Drained.
Proof. evaluated. Qed.

(** On the machine whose tests fail, the script ends with the server
    listening and the Chrome session open. *)
Example toplevel_world_red_leak :
  st_server (toplevel world_red init_state).2 = SrvListening 41735
  ∧ st_sessions (toplevel world_red init_state).2 !! 0
    = Some (opened_session (unsandboxChrome chrome_stable))
  ∧ st_server (toplevel world_green init_state).2 = SrvClosed
  ∧ st_sessions (toplevel world_green init_state).2 !! 0 = None.
Proof. evaluated. Qed.
