(* ===== verification/Script.v ===== *)
(** * Script: the file as Node runs it

    Before the promise chain of the last lines can start, the five
    [require] calls of lines 1-5 bind the libraries.  A [require] that does
    not find its module throws, synchronously and outside any function: the
    exception is uncaught, the runtime prints it and ends the process with
    exit code 1, and nothing of the script has run.  This file models the
    imports and the script as a whole, and extends the account of the exit
    code to it. *)

From stdpp Require Import base tactics list strings numbers gmap.
From S2P Require Import Prelude Js Externals Effects Samples Browsers Server Discovery.
From S2P Require Import Sequencer Main.

(** ** Definitions *)

(** The error [require] throws for a module that is not installed. *)
Definition module_not_found (name : string) : JsVal :=
  VError ("Error: Cannot find module '" +:+ name +:+ "'").

(** [require(name)] of a library: the binding it returns is the
    collaborator of the same name in [Externals] and [Effects]. *)
Definition require_lib (w : World) (name : string) : Prog unit :=
  if w_installed w name then mret tt else throw (module_not_found name).

(** Lines 1-5. *)
Definition imports (w : World) : Prog unit :=
  require_lib w "http";;
  require_lib w "mz/fs";;
  require_lib w "express";;
  require_lib w "selenium-assistant";;
  require_lib w "mocha".

(** The module specifiers of lines 1-5, in order. *)
Definition libraries : list string :=
  ["http"; "mz/fs"; "express"; "selenium-assistant"; "mocha"].

(** An exception that reaches the top of the module: the runtime prints it
    and the process ends with code 1. *)
Definition uncaught (e : JsVal) : Prog ProcessEnd :=
  console_error e;; mret (Exit 1).

(** The whole file: the imports, then the chain of lines 112-120 (the
    function declarations in between have no effect of their own). *)
Definition script (w : World) : Prog ProcessEnd :=
  missing ← try_catch (imports w;; mret None) (λ e, mret (Some e));
  match missing with
  | None => toplevel w
  | Some e => uncaught e
  end.

(** The first library that is not installed. *)
Definition first_missing (w : World) : option string :=
  list_find (λ name, w_installed w name = false) libraries ≫= λ x, Some x.2.

(** The sample machine without Mocha. *)
Definition world_no_mocha : World :=
  {| w_browsers := w_browsers world_green; w_port := w_port world_green;
     w_fs := w_fs world_green; w_latency := w_latency world_green;
     w_driver_error := w_driver_error world_green; w_module := w_module world_green;
     w_failures := w_failures world_green; w_kill_error := w_kill_error world_green;
     w_installed := λ name, bool_decide (name ≠ "mocha") |}.

(** ** Footprints *)

#[export] Instance require_lib_frame R `{!PreOrder R} w name : Frame R (require_lib w name).
Proof. by_parts require_lib. Qed.

#[export] Instance imports_frame R `{!PreOrder R} w : Frame R (imports w).
Proof. by_parts imports. Qed.

(** ** The imports *)

Lemma run_require_lib w name s :
  require_lib w name s
  = (if w_installed w name then Fulfilled tt else Rejected (module_not_found name), s).
Proof. unfold require_lib. by destruct (w_installed w name). Qed.

(** The imports have no effect; they throw for the first library that is
    missing. *)
Lemma run_imports w s :
  imports w s
  = (from_option (λ name, Rejected (module_not_found name)) (Fulfilled tt) (first_missing w), s).
Proof.
  unfold imports, first_missing, libraries, require_lib. simpl.
  destruct (w_installed w "http"); [|done].
  destruct (w_installed w "mz/fs"); [|done].
  destruct (w_installed w "express"); [|done].
  destruct (w_installed w "selenium-assistant"); [|done].
  by destruct (w_installed w "mocha").
Qed.

Lemma first_missing_None w :
  first_missing w = None ↔ Forall (λ name, w_installed w name = true) libraries.
Proof.
  unfold first_missing. destruct (list_find _ _) as [[i name]|] eqn:E; simpl.
  - split; [done|]. intros Hall. apply list_find_Some in E as (Hi%list_elem_of_lookup_2 & Hn & _).
    rewrite Forall_forall in Hall. specialize (Hall name Hi). congruence.
  - split; [|done]. intros _. apply list_find_None in E.
    eapply Forall_impl; [done|]. intros name. simpl. by destruct (w_installed w name).
Qed.

Lemma first_missing_Some w name :
  first_missing w = Some name → name ∈ libraries ∧ w_installed w name = false.
Proof.
  unfold first_missing. destruct (list_find _ _) as [[i x]|] eqn:E; simpl; [|done].
  intros [= ->]. apply list_find_Some in E as (Hi%list_elem_of_lookup_2 & Hn & _). done.
Qed.

(** ** The script *)

Lemma run_script w s :
  script w s =
  match first_missing w with
  | None => toplevel w s
  | Some name => (Fulfilled (Exit 1), add_event (EvError (module_not_found name)) s)
  end.
Proof.
  unfold script. rewrite run_bind, run_try_catch, run_bind, run_imports.
  by destruct (first_missing w).
Qed.

(** C35: the exit code of the script.  With collaborators that throw only
    [Error] objects the script always ends, in one of three ways: a library
    of lines 1-5 is missing, and the process ends with code 1 after printing
    the error of the first missing one, without having started the server
    or anything else; or every library is found and the run is green, and
    the process ends with code 0 when the event loop drains; or
    [process.exit(1)] is called. *)
Theorem script_exit_code w s :
  world_ok w →
  match first_missing w with
  | Some name =>
      script w s = (Fulfilled (Exit 1), add_event (EvError (module_not_found name)) s)
      ∧ name ∈ libraries ∧ st_server (script w s).2 = st_server s
  | None =>
      script w s = toplevel w s
      ∧ (script w s).1 = Fulfilled (if green w s then Drained else Exit 1)
  end.
Proof.
  intros Hw. rewrite run_script. destruct (first_missing w) as [name|] eqn:E.
  - split_and!; [done| |done]. by apply first_missing_Some in E as [? _].
  - split; [done|]. by apply toplevel_end.
Qed.

(** ** The sample machines *)

Lemma script_exit_code_witness :
  script world_no_mocha init_state
  = (Fulfilled (Exit 1), add_event (EvError (module_not_found "mocha")) init_state)
  ∧ "mocha" ∈ libraries ∧ st_server (script world_no_mocha init_state).2 = SrvNotStarted.
Proof.
  assert (world_ok world_no_mocha) as Hw by (split; apply world_green_ok).
  exact (script_exit_code world_no_mocha init_state Hw).
Defined.

Example script_world_green :
  script world_green init_state = toplevel world_green init_state
  ∧ (script world_green init_state).1 = Fulfilled Drained.
Proof. evaluated. Qed.
