(* ===== verification/Typing.v ===== *)
(** * Typing: what the programs of the script settle with

    JavaScript gives the script no static types, and two of its lines
    depend on the dynamic type of a value: [err = e.stack] (line 77) throws
    unless [e] is an object, and [if (err)] (line 113) tests truthiness.
    This file gives the values of [Js] a small language of types, the
    programs of [Effects] a judgement [Typed ok err m] (every run of [m] is
    fulfilled with a value in [ok] or rejected with a reason of type
    [err]), the rules of the judgement for the constructs of the monad, and
    the derivations for every operation and function of the script, up to
    [main] and the top-level chain. *)

From stdpp Require Import base tactics list strings gmap.
From S2P Require Import Prelude Js Externals Effects Samples Browsers Server Discovery.
From S2P Require Import Sequencer Main.

(** ** Types *)

(** The types that tell the values of [JsVal] apart as the script does:
    [TText] is a string that is not empty (the truthy strings), [TError] an
    [Error] object with a stack, [TNever] the type of no value. *)
Inductive JsType :=
  | TUndefined
  | TNull
  | TString
  | TText
  | TError
  | TNever
  | TUnion (t1 t2 : JsType).

#[export] Instance JsType_eq_dec : EqDecision JsType.
Proof. solve_decision. Defined.

Fixpoint has_type (t : JsType) (v : JsVal) : bool :=
  match t with
  | TUndefined => bool_decide (v = VUndefined)
  | TNull => bool_decide (v = VNull)
  | TString => match v with VStr _ => true | _ => false end
  | TText => match v with VStr s => negb (bool_decide (s = "")) | _ => false end
  | TError => is_error v
  | TNever => false
  | TUnion t1 t2 => has_type t1 v || has_type t2 v
  end.

(** [t1] is a subtype of [t2]. *)
Definition subtype (t1 t2 : JsType) : Prop := ∀ v, has_type t1 v → has_type t2 v.

(** What [main] returns: [undefined], or the stack of an error. *)
Definition TErr : JsType := TUnion TUndefined TText.

(** What [runTests] is rejected with: the reasonless rejection of
    [runMocha], or an error of discovery. *)
Definition TReason : JsType := TUnion TUndefined TError.

(** An outcome fulfilled within [ok] or rejected within [err]. *)
Definition settles {A} (ok : A → Prop) (err : JsType) (r : Result A) : Prop :=
  match r with Fulfilled a => ok a | Rejected e => has_type err e end.

(** A promise that settles so. *)
Definition promises {A} (ok : A → Prop) (err : JsType) (p : Promise A) : Prop :=
  settles ok err (outcome p).

(** The judgement: from every state, [m] settles within [ok] and [err]. *)
Definition Typed {A} (ok : A → Prop) (err : JsType) (m : Prog A) : Prop :=
  ∀ s, settles ok err (m s).1.

(** Any value at all. *)
Definition any {A} : A → Prop := λ _, True.

(** A Mocha instance as [buildMocha] returns it: the root suite has the
    timeout of line 37, and every suite was created after that line and has
    not been given a driver yet. *)
Definition fresh_suite (s : Suite) : Prop :=
  suite_timeout s = 60000%N ∧ suite_ctx s = empty_ctx.

Definition fresh_mocha (m : Mocha) : Prop :=
  mocha_timeout m = 60000%N ∧ Forall fresh_suite (mocha_suites m).

(** How the process may end. *)
Definition ends_well (p : ProcessEnd) : Prop := p = Drained ∨ p = Exit 1.

(** A machine on which the kill of a driver is rejected with no reason,
    as [runMocha] rejects: the one collaborator of the sample machine that
    does not throw an [Error]. *)
Definition world_odd_kill : World :=
  {| w_browsers := w_browsers world_green; w_port := w_port world_green;
     w_fs := w_fs world_green; w_latency := w_latency world_green;
     w_driver_error := w_driver_error world_green; w_module := w_module world_green;
     w_failures := w_failures world_green;
     w_kill_error := λ _, Some VUndefined;
     w_installed := w_installed world_green |}.

Create HintDb typing discriminated.

(** ** Values *)

Lemma subtype_refl t : subtype t t.
Proof. by intros v. Qed.

Lemma subtype_trans t1 t2 t3 : subtype t1 t2 → subtype t2 t3 → subtype t1 t3.
Proof. intros H1 H2 v ?. by apply H2, H1. Qed.

Lemma subtype_never t : subtype TNever t.
Proof. by intros v. Qed.

Lemma subtype_union_l t1 t2 : subtype t1 (TUnion t1 t2).
Proof. intros v H. apply orb_True. by left. Qed.

Lemma subtype_union_r t1 t2 : subtype t2 (TUnion t1 t2).
Proof. intros v H. apply orb_True. by right. Qed.

Lemma subtype_union_lub t1 t2 t : subtype t1 t → subtype t2 t → subtype (TUnion t1 t2) t.
Proof. intros H1 H2 v [?|?]%orb_True; auto. Qed.

Lemma subtype_text_string : subtype TText TString.
Proof. by intros []. Qed.

#[export] Instance subtype_preorder : PreOrder subtype.
Proof. split; [exact subtype_refl | exact subtype_trans]. Qed.

#[export] Hint Resolve subtype_refl subtype_never subtype_union_l subtype_union_r : typing.

(** The two uses the script makes of a dynamic type: [if (err)] on what
    [main] returned, and [e.stack] on what [runTests] was rejected with. *)
Lemma truthy_TErr v : has_type TErr v → truthy v = negb (bool_decide (v = VUndefined)).
Proof. destruct v as [| |st|]; simpl; try done. by destruct (bool_decide (st = "")). Qed.

Lemma has_type_TErr v :
  has_type TErr v ↔ v = VUndefined ∨ ∃ stack, v = VStr stack ∧ stack ≠ "".
Proof.
  split.
  - destruct v as [| |st|st]; simpl; try done; [by left|].
    rewrite negb_True, bool_decide_spec. right. by exists st.
  - intros [->|(st & -> & H)]; simpl; [done|]. by rewrite negb_True, bool_decide_spec.
Qed.

Lemma has_type_TError e : has_type TError e ↔ ∃ stack, e = VError stack ∧ stack ≠ "".
Proof.
  split.
  - destruct e as [| |st|st]; simpl; try done.
    rewrite negb_True, bool_decide_spec. by exists st.
  - intros (st & -> & H). simpl. by rewrite negb_True, bool_decide_spec.
Qed.

Lemma get_stack_TReason e : has_type TReason e → settles (has_type TErr) TError (get_stack e).
Proof. by destruct e. Qed.

Lemma get_stack_TError e : has_type TError e → settles (has_type TText) TNever (get_stack e).
Proof. by destruct e. Qed.

(** ** The rules of the judgement *)

Section rules.
Context {A B : Type}.
Implicit Types (ok : A → Prop) (err : JsType) (m : Prog A).

Lemma typed_ret ok err (a : A) : ok a → Typed ok err (mret a).
Proof. by intros H s. Qed.

Lemma typed_throw ok err e : has_type err e → Typed ok err (throw e).
Proof. by intros H s. Qed.

Lemma typed_liftR ok err r : settles ok err r → Typed ok err (liftR r).
Proof. by intros H s. Qed.

Lemma typed_await ok err (p : Promise A) : promises ok err p → Typed ok err (await p).
Proof. by intros H s. Qed.

Lemma typed_bind ok (ok' : B → Prop) err m (f : A → Prog B) :
  Typed ok err m → (∀ a, ok a → Typed ok' err (f a)) → Typed ok' err (m ≫= f).
Proof.
  intros Hm Hf s. rewrite run_bind. specialize (Hm s).
  destruct (m s) as [[a|e] s']; simpl in *; [by apply Hf|done].
Qed.

Lemma typed_try_catch ok err err' m h :
  Typed ok err m → (∀ e, has_type err e → Typed ok err' (h e)) →
  Typed ok err' (try_catch m h).
Proof.
  intros Hm Hh s. rewrite run_try_catch. specialize (Hm s).
  destruct (m s) as [[a|e] s']; simpl in *; [done|by apply Hh].
Qed.

(** Subsumption. *)
Lemma typed_weaken ok ok' err err' m :
  Typed ok err m → (∀ a, ok a → ok' a) → subtype err err' → Typed ok' err' m.
Proof.
  intros Hm Hok Herr s. specialize (Hm s). destruct (m s) as [[a|e] s']; simpl in *; auto.
Qed.

Lemma typed_if ok err (b : bool) m1 m2 :
  (b = true → Typed ok err m1) → (b = false → Typed ok err m2) →
  Typed ok err (if b then m1 else m2).
Proof. destruct b; auto. Qed.

(** [drivers.reduce(step, first)] over programs. *)
Lemma typed_foldl ok err (f : Prog A → B → Prog A) m l :
  Typed ok err m → (∀ m x, Typed ok err m → Typed ok err (f m x)) →
  Typed ok err (foldl f m l).
Proof. intros Hm Hf. revert m Hm. induction l; simpl; auto. Qed.

End rules.

Lemma typed_mapM {A B} (ok : B → Prop) err (f : A → Prog B) l :
  (∀ x, Typed ok err (f x)) → Typed (Forall ok) err (mapM f l).
Proof.
  intros Hf. induction l as [|x l IH]; simpl; [apply typed_ret; constructor|].
  eapply typed_bind; [apply Hf|]. intros b Hb.
  eapply typed_bind; [apply IH|]. intros bs Hbs. apply typed_ret. by constructor.
Qed.

Lemma typed_foldM {A B} (inv : B → Prop) err (f : B → A → Prog B) b l :
  inv b → (∀ b x, inv b → Typed inv err (f b x)) → Typed inv err (foldM f b l).
Proof.
  intros Hb Hf. revert b Hb. induction l as [|x l IH]; intros b Hb; simpl.
  - by apply typed_ret.
  - eapply typed_bind; [by apply Hf|]. intros b' Hb'. by apply IH.
Qed.

(** The judgement read on one run. *)
Lemma typed_run {A} (ok : A → Prop) err (m : Prog A) s r s' :
  Typed ok err m → m s = (r, s') → settles ok err r.
Proof. intros H E. specialize (H s). by rewrite E in H. Qed.

(** ** Promises *)

Lemma promises_then {A B} (ok : B → Prop) err (f : A → B) (p : Promise A) :
  promises (λ a, ok (f a)) err p → promises ok err (Promise_then f p).
Proof. unfold promises, Promise_then. simpl. by destruct (outcome p). Qed.

Lemma promises_all {A} (ok : A → Prop) err (ps : list (Promise A)) :
  Forall (promises ok err) ps → promises (Forall ok) err (Promise_all ps).
Proof.
  intros Hps. unfold promises. destruct (outcome (Promise_all ps)) as [vs|e] eqn:E.
  - apply Promise_all_fulfilled in E. simpl.
    induction E as [|p a ps vs Hp _ IH]; [done|].
    apply Forall_cons in Hps as [Hp' Hps]. unfold promises in Hp'. rewrite Hp in Hp'.
    constructor; auto.
  - apply Promise_all_rejected in E as (p & Hin & Hp & _).
    rewrite Forall_forall in Hps. specialize (Hps p Hin). unfold promises in Hps.
    by rewrite Hp in Hps.
Qed.

#[export] Hint Resolve typed_ret typed_throw typed_liftR typed_await typed_mapM
  promises_then promises_all : typing.

(** One statement of a sequence: type it with the hints, then go on under
    what it returned. *)
Ltac typed_seq := eapply typed_bind; [solve [eauto with typing]|intros ? ?].

(** ** The operations of the collaborators *)

Section derivations.
Context (w : World) (Hw : world_ok w).
Implicit Types (err : JsType) (d : Driver) (m : Mocha).

Lemma emit_typed err ev : Typed any err (emit ev).
Proof. by intros s. Qed.

Lemma console_log_typed err msg : Typed any err (console_log msg).
Proof. apply emit_typed. Qed.

Lemma console_error_typed err v : Typed any err (console_error v).
Proof. apply emit_typed. Qed.

Lemma readdir_typed err path : Typed (promises any TError) err (readdir w path).
Proof.
  intros s. unfold readdir, readdir_result, promises. simpl. by repeat case_match.
Qed.

Lemma listen_typed err : Typed (λ port, port = w_port w) err (listen w).
Proof. by intros s. Qed.

Lemma server_close_typed err : Typed any err server_close.
Proof. by intros s. Qed.

Lemma getSeleniumDriver_typed b : Typed any TError (getSeleniumDriver w b).
Proof.
  intros s. unfold getSeleniumDriver.
  destruct (w_driver_error w b) as [e|] eqn:E; simpl; [|done].
  by rewrite (ok_driver_error w Hw b e E).
Qed.

Lemma setScriptTimeout_typed err d ms : Typed any err (setScriptTimeout d ms).
Proof. by intros s. Qed.

Lemma killWebDriver_typed err d : Typed (promises any TError) err (killWebDriver w d).
Proof.
  intros s. unfold killWebDriver, promises.
  destruct (w_kill_error w d) as [e|] eqn:E; simpl; [|done].
  by rewrite (ok_kill_error w Hw d e E).
Qed.

Lemma run_typed err m : Typed (λ code, code = w_failures w m) err (run w m).
Proof. by intros s. Qed.

Lemma describe_all_fresh titles m : fresh_mocha m → fresh_mocha (describe_all titles m).
Proof.
  unfold describe_all. revert m. induction titles as [|t titles IH]; intros m Hm; [done|].
  apply IH. destruct Hm as [Ht Hs]. split; [done|]. simpl.
  apply Forall_app. split; [done|]. by repeat constructor.
Qed.

Lemma require_file_typed m file :
  fresh_mocha m → Typed fresh_mocha TError (require_file w m file).
Proof.
  intros Hm s. unfold require_file. rewrite run_bind. simpl. unfold liftR.
  destruct (w_module w file) as [titles|e] eqn:E; simpl.
  - by apply describe_all_fresh.
  - by rewrite (ok_module w Hw file e E).
Qed.

Lemma loadFiles_typed m : fresh_mocha m → Typed fresh_mocha TError (loadFiles w m).
Proof. intros Hm. apply typed_foldM; [done|]. intros. by apply require_file_typed. Qed.

Hint Resolve emit_typed console_log_typed console_error_typed readdir_typed listen_typed
  server_close_typed getSeleniumDriver_typed setScriptTimeout_typed killWebDriver_typed
  run_typed loadFiles_typed : typing.

(** ** The functions of the script *)

Lemma startServer_typed err :
  Typed (promises (λ server, address_port server = w_port w) TNever) err (startServer w).
Proof. unfold startServer. typed_seq. subst. by apply typed_ret. Qed.

Lemma openDriver_typed b : Typed any TError (openDriver w b).
Proof. unfold openDriver. do 2 typed_seq. by apply typed_ret. Qed.

Lemma provision_typed : Typed any TError (provision w).
Proof.
  eapply typed_weaken; [apply typed_mapM, openDriver_typed|done|done].
Qed.

Lemma probe_typed err element : Typed (promises any TError) err (probe w element).
Proof. unfold probe. typed_seq. apply typed_ret. by apply promises_then. Qed.

Lemma register_fresh names : fresh_mocha (set_timeout 60000 (register names new_Mocha)).
Proof.
  split; [done|]. simpl. unfold register.
  generalize (Array_filter str_truthy names). intros l.
  assert (∀ m, mocha_suites m = [] →
    mocha_suites (foldl (λ mocha name, addFile (suite_file name) mocha) m l) = []) as H.
  { induction l as [|x l IH]; intros m Hm; simpl; [done|]. by apply IH. }
  by rewrite H.
Qed.

Lemma buildMocha_typed : Typed fresh_mocha TError (buildMocha w).
Proof.
  unfold buildMocha. typed_seq. typed_seq.
  eapply typed_bind; [apply typed_mapM, probe_typed|]. intros probes Hprobes.
  typed_seq. apply loadFiles_typed, register_fresh.
Qed.

Lemma runMocha_typed m : Typed any TUndefined (runMocha w m).
Proof.
  unfold runMocha. typed_seq. apply typed_if; intros _; [by apply typed_ret|by apply typed_throw].
Qed.

Lemma reducer_typed address chain d :
  Typed any TReason chain → Typed any TReason (reducer w address chain d).
Proof.
  intros Hchain. unfold reducer. typed_seq.
  eapply typed_bind.
  { eapply typed_weaken; [apply buildMocha_typed|done|apply subtype_union_r]. }
  intros mocha _. eapply typed_bind.
  { eapply typed_weaken; [apply runMocha_typed|done|apply subtype_union_l]. }
  intros. by apply typed_ret.
Qed.

Lemma runTests_typed address drivers : Typed any TReason (runTests w address drivers).
Proof.
  apply typed_foldl; [by apply typed_ret|]. intros. by apply reducer_typed.
Qed.

Lemma startup_typed : Typed (λ x, address_port x.1 = w_port w) TError (startup w).
Proof.
  unfold startup. eapply typed_bind; [apply (startServer_typed TError)|].
  intros server_p Hp. eapply typed_bind; [apply provision_typed|]. intros drivers _.
  eapply typed_bind.
  { apply typed_await. unfold promises in *. destruct (outcome server_p); [exact Hp|done]. }
  intros server Hs. by apply typed_ret.
Qed.

Lemma attempt_typed address drivers : Typed (has_type TErr) TError (attempt w address drivers).
Proof.
  unfold attempt. eapply typed_try_catch.
  - eapply typed_bind; [apply runTests_typed|]. intros. by apply typed_ret.
  - intros e He. by apply typed_liftR, get_stack_TReason.
Qed.

Lemma teardown_typed drivers : Typed any TError (teardown w drivers).
Proof.
  unfold teardown. typed_seq.
  eapply typed_bind; [apply typed_mapM, killWebDriver_typed|]. intros kills Hkills.
  do 2 typed_seq. apply console_log_typed.
Qed.

Lemma main_settles : Typed (has_type TErr) TError (main w).
Proof.
  unfold main. eapply typed_bind; [apply startup_typed|]. intros [server drivers] _.
  eapply typed_bind; [apply attempt_typed|]. intros err Herr.
  eapply typed_bind; [apply teardown_typed|]. intros. by apply typed_ret.
Qed.

(** The [then] handler cannot throw, whatever it is given. *)
Lemma on_fulfilled_typed err v : Typed ends_well err (on_fulfilled v).
Proof.
  unfold on_fulfilled, process_exit.
  apply typed_if; intros _; typed_seq; apply typed_ret; unfold ends_well; auto.
Qed.

Lemma on_rejected_typed e : has_type TError e → Typed ends_well TNever (on_rejected e).
Proof.
  intros He. unfold on_rejected, process_exit.
  eapply typed_bind; [by apply typed_liftR, get_stack_TError|]. intros stack _.
  do 2 typed_seq. apply typed_ret. by right.
Qed.

(** C29: with collaborators that throw only [Error] objects, a run of
    [main] is fulfilled with a value of type [TErr], that is with
    [undefined] or with a non-empty string (the stack of what the tests
    were rejected with), and is rejected only with a value of type
    [TError], an [Error] object that has a stack, whatever the state it
    starts from: the
    value that reaches [if (err)] and the reason that reaches [err.stack] on
    the last lines have the types those lines expect. *)
Theorem main_typed s r s' :
  main w s = (r, s') →
  match r with
  | Fulfilled err =>
      has_type TErr err ∧ (err = VUndefined ∨ ∃ stack, err = VStr stack ∧ stack ≠ "")
  | Rejected e => has_type TError e ∧ ∃ stack, e = VError stack ∧ stack ≠ ""
  end.
Proof.
  intros E. pose proof (typed_run _ _ _ _ _ _ main_settles E) as H.
  destruct r; simpl in H; (split; [done|]);
    [by apply has_type_TErr|by apply has_type_TError].
Qed.

(** C36: the top-level chain never ends in an unhandled rejection: with
    collaborators that throw only [Error] objects, every reason that reaches
    the [catch] handler has a [stack], so the handler itself cannot throw,
    and the process ends either by draining (exit code 0) or by
    [process.exit(1)]. *)
Theorem toplevel_typed : Typed ends_well TNever (toplevel w).
Proof.
  unfold toplevel. eapply typed_try_catch; [|apply on_rejected_typed].
  eapply typed_bind; [apply main_settles|]. intros. apply on_fulfilled_typed.
Qed.

End derivations.

Lemma main_typed_witness :
  match (main world_red init_state).1 with
  | Fulfilled err =>
      has_type TErr err ∧ (err = VUndefined ∨ ∃ stack, err = VStr stack ∧ stack ≠ "")
  | Rejected e => has_type TError e ∧ ∃ stack, e = VError stack ∧ stack ≠ ""
  end.
Proof.
  exact (main_typed world_red world_red_ok init_state _ _ (surjective_pairing _)).
Defined.

Lemma toplevel_typed_witness : Typed ends_well TNever (toplevel world_red).
Proof. exact (toplevel_typed world_red world_red_ok). Defined.

(** The failing run of the sample world ends in the [TypeError] of line 77,
    which is an [Error], so the [catch] handler prints its stack. *)
Example main_red_rejects :
  (main world_red init_state).1
  = Rejected (type_error "stack" "undefined").
Proof. by vm_compute. Qed.

(** The assumption on the collaborators is needed: when a kill is rejected
    with [undefined], the [catch] handler of the last lines throws on
    [err.stack], and the script ends in an unhandled rejection. *)
Example toplevel_unhandled_rejection :
  (toplevel world_odd_kill init_state).1 = Rejected (type_error "stack" "undefined")
  ∧ ¬ world_ok world_odd_kill.
Proof.
  split; [by vm_compute|]. intros [_ _ Hk]. by specialize (Hk 0 VUndefined eq_refl).
Qed.
