(* ===== verification/Cost.v ===== *)
(** * Cost: how many effects a run of the script can cause

    Every effect of the script is an event of the trace, so a bound on the
    events a program appends is a bound on what it does to the machine:
    browser sessions opened, directories read, files required, Mocha runs,
    kills.  Events are priced by their kind; [Costs price n ok m] says that
    no run of [m] appends events worth more than [n], and that the value it
    is fulfilled with is in [ok].  The rules of the judgement follow the
    constructs of the monad; the derivations follow the script, from the
    operations of the collaborators up to the top-level chain, whose budget
    is a polynomial in the number of target browsers and of entries of
    [elements/]. *)

From stdpp Require Import base tactics list strings numbers gmap.
From S2P Require Import Prelude Js Externals Effects Samples Browsers Server Discovery.
From S2P Require Import Sequencer Main Typing.

(** ** Prices and budgets *)

(** The kinds of events. *)
Inductive Kind :=
  | KListen | KClose | KOpen | KTimeout | KRead | KRequire | KRun | KKill
  | KLog | KError | KExit.

#[export] Instance Kind_eq_dec : EqDecision Kind.
Proof. solve_decision. Defined.

Definition kind_of (ev : Event) : Kind :=
  match ev with
  | EvListen _ => KListen
  | EvServerClose => KClose
  | EvGetDriver _ _ => KOpen
  | EvSetScriptTimeout _ _ => KTimeout
  | EvReaddir _ => KRead
  | EvRequire _ => KRequire
  | EvRun _ _ => KRun
  | EvKill _ _ => KKill
  | EvLog _ => KLog
  | EvError _ => KError
  | EvExit _ => KExit
  end.

Definition Price : Type := Kind → nat.

(** The price that counts the events of one kind. *)
Definition only (k : Kind) : Price := λ k', if decide (k' = k) then 1 else 0.

(** The price that counts every event. *)
Definition each : Price := λ _, 1.

Definition weight (price : Price) (evs : list Event) : nat :=
  sum_list_with (λ ev, price (kind_of ev)) evs.

(** The outcome, when it is a value, is in [ok]. *)
Definition returns {A} (ok : A → Prop) (r : Result A) : Prop :=
  match r with Fulfilled a => ok a | Rejected _ => True end.

(** The judgement. *)
Definition Costs {A} (price : Price) (n : nat) (ok : A → Prop) (m : Prog A) : Prop :=
  ∀ s, weight price (st_trace (m s).2) ≤ weight price (st_trace s) + n
       ∧ returns ok (m s).1.

(** The entries of [elements/], when it is a directory. *)
Definition units (w : World) : list string :=
  match readdir_result w "elements" with
  | Fulfilled entries => entries
  | Rejected _ => []
  end.

(** One discovery: the read of [elements/], one read and at most one
    [require] per entry. *)
Definition discovery_budget (w : World) (price : Price) : nat :=
  price KRead + length (units w) * (price KRead + price KRequire).

(** One iteration of the sequencer. *)
Definition run_budget (w : World) (price : Price) : nat :=
  discovery_budget w price + price KRun.

Definition startup_budget (w : World) (price : Price) : nat :=
  price KListen + length (targets w) * (price KOpen + price KTimeout).

Definition teardown_budget (w : World) (price : Price) : nat :=
  price KLog + length (targets w) * price KKill + (price KClose + price KLog).

Definition main_budget (w : World) (price : Price) : nat :=
  startup_budget w price + length (targets w) * run_budget w price + teardown_budget w price.

(** The whole script: [main], then one of the two handlers. *)
Definition budget (w : World) (price : Price) : nat :=
  main_budget w price + (price KLog `max` (price KError + price KExit)).

(** ** Weights *)

Lemma weight_app price evs1 evs2 :
  weight price (evs1 ++ evs2) = weight price evs1 + weight price evs2.
Proof. apply sum_list_with_app. Qed.

Lemma weight_snoc price evs ev :
  weight price (evs ++ [ev]) = weight price evs + price (kind_of ev).
Proof. rewrite weight_app. simpl. lia. Qed.

(** The weight under [only k] is the number of events of kind [k]. *)
Lemma weight_only k evs :
  weight (only k) evs = length (filter (λ ev, kind_of ev = k) evs).
Proof.
  induction evs as [|ev evs IH]; [done|]. rewrite filter_cons. simpl. unfold only at 1.
  destruct (decide (kind_of ev = k)); simpl; by rewrite IH.
Qed.

Lemma weight_each evs : weight each evs = length evs.
Proof. induction evs as [|ev evs IH]; [done|]. simpl. by rewrite IH. Qed.

(** ** The rules of the judgement *)

Section rules.
Context (price : Price).

Lemma returns_any {A} (r : Result A) : returns any r.
Proof. by destruct r. Qed.

Lemma costs_weaken {A} n n' (ok ok' : A → Prop) (m : Prog A) :
  Costs price n ok m → n ≤ n' → (∀ a, ok a → ok' a) → Costs price n' ok' m.
Proof.
  intros Hm Hn Hok s. destruct (Hm s) as [Hw Hr]. split; [lia|].
  destruct (m s).1; simpl in *; auto.
Qed.

Lemma costs_ret {A} (ok : A → Prop) a : ok a → Costs price 0 ok (mret a).
Proof. intros H s. split; [simpl; lia|done]. Qed.

Lemma costs_throw {A} (ok : A → Prop) e : Costs price 0 ok (throw e).
Proof. intros s. split; [simpl; lia|done]. Qed.

Lemma costs_liftR {A} (ok : A → Prop) r : returns ok r → Costs price 0 ok (liftR r).
Proof. intros H s. split; [simpl; lia|done]. Qed.

Lemma costs_await {A} (ok : A → Prop) (p : Promise A) :
  returns ok (outcome p) → Costs price 0 ok (await p).
Proof. apply costs_liftR. Qed.

Lemma costs_emit ev : Costs price (price (kind_of ev)) any (emit ev).
Proof. intros s. split; [|done]. simpl. by rewrite weight_snoc. Qed.

Lemma costs_bind {A B} n1 n2 (ok1 : A → Prop) (ok2 : B → Prop) (m : Prog A) (f : A → Prog B) :
  Costs price n1 ok1 m → (∀ a, ok1 a → Costs price n2 ok2 (f a)) →
  Costs price (n1 + n2) ok2 (m ≫= f).
Proof.
  intros Hm Hf s. rewrite run_bind. destruct (Hm s) as [Hw Hr].
  destruct (m s) as [[a|e] s']; simpl in *; [|split; [lia|done]].
  destruct (Hf a Hr s') as [Hw' Hr']. split; [lia|done].
Qed.

Lemma costs_try_catch {A} n1 n2 (ok : A → Prop) (m : Prog A) h :
  Costs price n1 ok m → (∀ e, Costs price n2 ok (h e)) →
  Costs price (n1 + n2) ok (try_catch m h).
Proof.
  intros Hm Hh s. rewrite run_try_catch. destruct (Hm s) as [Hw Hr].
  destruct (m s) as [[a|e] s']; simpl in *; [split; [lia|done]|].
  destruct (Hh e s') as [Hw' Hr']. split; [lia|done].
Qed.

Lemma costs_if {A} n1 n2 (ok : A → Prop) (b : bool) (m1 m2 : Prog A) :
  Costs price n1 ok m1 → Costs price n2 ok m2 →
  Costs price (n1 `max` n2) ok (if b then m1 else m2).
Proof. intros H1 H2. destruct b; eapply costs_weaken; eauto; lia. Qed.

Lemma costs_mapM {A B} n (ok : B → Prop) (f : A → Prog B) l :
  (∀ x, Costs price n ok (f x)) →
  Costs price (length l * n) (λ ys, length ys = length l) (mapM f l).
Proof.
  intros Hf. induction l as [|x l IH]; simpl; [by apply costs_ret|].
  eapply costs_bind; [apply Hf|]. intros b _.
  eapply costs_weaken; [eapply costs_bind; [apply IH|]|..].
  - intros ys Hys. apply (costs_ret (λ ys, length ys = S (length l))). simpl. by rewrite Hys.
  - lia.
  - done.
Qed.

Lemma costs_foldM {A B} n (f : B → A → Prog B) b l :
  (∀ b x, Costs price n any (f b x)) →
  Costs price (length l * n) any (foldM f b l).
Proof.
  intros Hf. revert b. induction l as [|x l IH]; intros b; simpl; [by apply costs_ret|].
  eapply costs_bind; [apply Hf|]. intros b' _. apply IH.
Qed.

(** [l.reduce(f, m)] over programs: each element adds at most [n]. *)
Lemma costs_foldl {A B} n k (ok : A → Prop) (f : Prog A → B → Prog A) m l :
  Costs price k ok m →
  (∀ k m x, Costs price k ok m → Costs price (k + n) ok (f m x)) →
  Costs price (k + length l * n) ok (foldl f m l).
Proof.
  intros Hm Hf. revert k m Hm. induction l as [|x l IH]; intros k m Hm; simpl.
  - by rewrite Nat.add_0_r.
  - eapply costs_weaken; [apply (IH (k + n)), Hf, Hm|lia|done].
Qed.

End rules.

(** The judgement read on one run. *)
Lemma costs_run {A} price n (ok : A → Prop) (m : Prog A) s :
  Costs price n ok m → weight price (st_trace (m s).2) ≤ weight price (st_trace s) + n.
Proof. intros H. apply H. Qed.

(** [m.then(f).catch(h)] when [f] cannot throw: a run goes through [f] or
    through [h], never through both. *)
Lemma costs_then_catch {A B} price n n1 n2 (ok : B → Prop) (m : Prog A) (f : A → Prog B) h :
  Costs price n any m → (∀ a, Costs price n1 ok (f a)) → (∀ a, Typed any TNever (f a)) →
  (∀ e, Costs price n2 ok (h e)) →
  Costs price (n + n1 `max` n2) ok (try_catch (m ≫= f) h).
Proof.
  intros Hm Hf Hnever Hh s. rewrite run_try_catch, run_bind. destruct (Hm s) as [Hw _].
  destruct (m s) as [[a|e] s']; simpl in *.
  - destruct (Hf a s') as [Hw' Hr']. specialize (Hnever a s').
    destruct (f a s') as [[b|e] s'']; simpl in *; [split; [lia|done]|done].
  - destruct (Hh e s') as [Hw' Hr']. split; [lia|done].
Qed.

(** A derivation ends by comparing what it added up with the budget. *)
Lemma costs_le {A} price n n' (ok : A → Prop) (m : Prog A) :
  Costs price n ok m → n ≤ n' → Costs price n' ok m.
Proof. intros Hm Hn. by apply (costs_weaken price n n' ok ok). Qed.

Create HintDb costs discriminated.

#[export] Hint Resolve costs_ret costs_throw costs_emit : costs.

(** One statement of a sequence whose value does not matter. *)
Ltac costs_seq :=
  eapply costs_bind;
    [eapply costs_weaken; [solve [eauto with costs]|reflexivity|by intros]|intros ? _].

(** ** The operations of the collaborators *)

Section derivations.
Context (w : World) (price : Price).
Implicit Types (d : Driver) (m : Mocha).

Lemma console_log_costs msg : Costs price (price KLog) any (console_log msg).
Proof. apply (costs_emit price (EvLog msg)). Qed.

Lemma console_error_costs v : Costs price (price KError) any (console_error v).
Proof. apply (costs_emit price (EvError v)). Qed.

Lemma readdir_costs path :
  Costs price (price KRead) (λ p, outcome p = readdir_result w path) (readdir w path).
Proof. intros s. split; [|done]. simpl. by rewrite weight_snoc. Qed.

Lemma listen_costs : Costs price (price KListen) any (listen w).
Proof. intros s. split; [|done]. simpl. by rewrite weight_snoc. Qed.

Lemma server_close_costs : Costs price (price KClose) any server_close.
Proof. intros s. split; [|done]. simpl. by rewrite weight_snoc. Qed.

Lemma getSeleniumDriver_costs b : Costs price (price KOpen) any (getSeleniumDriver w b).
Proof.
  intros s. unfold getSeleniumDriver. destruct (w_driver_error w b); simpl; [split; [lia|done]|].
  by rewrite weight_snoc.
Qed.

Lemma setScriptTimeout_costs d ms : Costs price (price KTimeout) any (setScriptTimeout d ms).
Proof. intros s. split; [|done]. simpl. by rewrite weight_snoc. Qed.

Lemma killWebDriver_costs d : Costs price (price KKill) any (killWebDriver w d).
Proof.
  intros s. unfold killWebDriver. destruct (w_kill_error w d); simpl; by rewrite weight_snoc.
Qed.

Lemma run_costs m : Costs price (price KRun) any (run w m).
Proof. intros s. split; [|done]. simpl. by rewrite weight_snoc. Qed.

Lemma require_file_costs m file : Costs price (price KRequire) any (require_file w m file).
Proof.
  intros s. unfold require_file. rewrite run_bind. simpl. unfold liftR.
  destruct (w_module w file); simpl; by rewrite weight_snoc.
Qed.

Lemma loadFiles_costs m :
  Costs price (length (mocha_files m) * price KRequire) any (loadFiles w m).
Proof. apply costs_foldM. intros. apply require_file_costs. Qed.

Hint Resolve console_log_costs console_error_costs readdir_costs listen_costs
  server_close_costs getSeleniumDriver_costs setScriptTimeout_costs killWebDriver_costs
  run_costs : costs.

(** ** The functions of the script *)

Lemma startServer_costs : Costs price (price KListen) any (startServer w).
Proof.
  eapply costs_le; [unfold startServer; costs_seq; by apply costs_ret|lia].
Qed.

Lemma openDriver_costs b : Costs price (price KOpen + price KTimeout) any (openDriver w b).
Proof.
  eapply costs_le; [unfold openDriver; do 2 costs_seq; by apply costs_ret|lia].
Qed.

Lemma provision_costs :
  Costs price (length (targets w) * (price KOpen + price KTimeout))
    (λ drivers, length drivers = length (targets w)) (provision w).
Proof. apply costs_mapM with any, openDriver_costs. Qed.

Lemma startup_costs :
  Costs price (startup_budget w price) (λ x, length x.2 = length (targets w)) (startup w).
Proof.
  eapply costs_le; [unfold startup|].
  - eapply costs_bind; [apply startServer_costs|]. intros server_p _.
    eapply costs_bind; [apply provision_costs|]. intros drivers Hd.
    eapply costs_bind; [apply costs_await, returns_any|]. intros server _.
    by apply costs_ret.
  - unfold startup_budget. lia.
Qed.

Lemma probe_costs element : Costs price (price KRead) any (probe w element).
Proof.
  eapply costs_le; [unfold probe; costs_seq; by apply costs_ret|lia].
Qed.

(** No more files are registered than names were found. *)
Lemma register_length names m :
  length (mocha_files (register names m)) ≤ length (mocha_files m) + length names.
Proof.
  rewrite register_files, length_app, length_fmap.
  pose proof (length_filter str_truthy names). unfold Array_filter. lia.
Qed.

Lemma buildMocha_costs : Costs price (discovery_budget w price) any (buildMocha w).
Proof.
  eapply costs_le; [unfold buildMocha|].
  - eapply costs_bind; [apply readdir_costs|]. intros listing Hl.
    eapply (costs_bind _ _ _ (λ elements, elements = units w)).
    { apply costs_await. unfold units. rewrite <- Hl. by destruct (outcome listing). }
    intros elements ->.
    eapply costs_bind; [apply costs_mapM with any, probe_costs|]. intros probes Hp.
    eapply (costs_bind _ _ _ (λ names, length names = length (units w))).
    { apply costs_await. destruct (outcome (Promise_all probes)) as [names|] eqn:E; [|done].
      apply Promise_all_fulfilled, Forall2_length in E. simpl. congruence. }
    intros names Hn.
    eapply costs_le; [apply loadFiles_costs|]. simpl.
    pose proof (register_length names new_Mocha) as H. simpl in H. rewrite Hn in H.
    apply Nat.mul_le_mono_r, H.
  - unfold discovery_budget. lia.
Qed.

Lemma runMocha_costs m : Costs price (price KRun) any (runMocha w m).
Proof.
  eapply costs_le; [unfold runMocha; costs_seq|].
  - apply costs_if; [by apply costs_ret|apply costs_throw].
  - lia.
Qed.

Lemma reducer_costs address k chain d :
  Costs price k any chain → Costs price (k + run_budget w price) any (reducer w address chain d).
Proof.
  intros Hchain. eapply costs_le; [unfold reducer|].
  - eapply costs_bind; [apply Hchain|]. intros _ _.
    eapply costs_bind; [apply buildMocha_costs|]. intros mocha _.
    eapply costs_bind; [apply runMocha_costs|intros; by apply costs_ret].
  - unfold run_budget. lia.
Qed.

Lemma runTests_costs address drivers :
  Costs price (length drivers * run_budget w price) any (runTests w address drivers).
Proof.
  apply (costs_foldl price (run_budget w price) 0); [by apply costs_ret|].
  intros. by apply reducer_costs.
Qed.

Lemma attempt_costs address drivers :
  Costs price (length drivers * run_budget w price) any (attempt w address drivers).
Proof.
  eapply costs_le; [unfold attempt|].
  - apply costs_try_catch; [|intros e; apply costs_liftR, returns_any].
    eapply costs_bind; [apply runTests_costs|intros; by apply costs_ret].
  - lia.
Qed.

Lemma teardown_costs drivers :
  Costs price (price KLog + length drivers * price KKill + (price KClose + price KLog)) any
    (teardown w drivers).
Proof.
  eapply costs_le; [unfold teardown|].
  - costs_seq.
    eapply costs_bind; [apply costs_mapM with any, killWebDriver_costs|]. intros kills _.
    eapply costs_bind; [apply costs_await, returns_any|]. intros _ _.
    costs_seq. apply console_log_costs.
  - lia.
Qed.

Lemma main_costs : Costs price (main_budget w price) any (main w).
Proof.
  eapply costs_le; [unfold main|].
  - eapply costs_bind; [apply startup_costs|]. intros [server drivers] Hd. simpl in Hd.
    eapply costs_bind; [eapply costs_le; [apply attempt_costs|rewrite Hd; reflexivity]|].
    intros err _.
    eapply costs_bind; [eapply costs_le; [apply teardown_costs|rewrite Hd; reflexivity]|].
    intros. by apply costs_ret.
  - unfold main_budget, teardown_budget. lia.
Qed.

Lemma process_exit_costs code : Costs price (price KExit) any (process_exit code).
Proof.
  eapply costs_le; [unfold process_exit; costs_seq; by apply costs_ret|simpl; lia].
Qed.

Lemma on_fulfilled_costs err :
  Costs price (price KLog `max` price KExit) any (on_fulfilled err).
Proof.
  unfold on_fulfilled. rewrite Nat.max_comm. apply costs_if; [apply process_exit_costs|].
  eapply costs_le; [costs_seq; by apply costs_ret|lia].
Qed.

Lemma on_rejected_costs e : Costs price (price KError + price KExit) any (on_rejected e).
Proof.
  unfold on_rejected.
  eapply costs_le; [eapply costs_bind; [apply costs_liftR, returns_any|]|].
  - intros stack _. costs_seq. apply process_exit_costs.
  - lia.
Qed.

Lemma toplevel_costs : Costs price (budget w price) any (toplevel w).
Proof.
  eapply costs_le; [unfold toplevel; apply costs_then_catch|].
  - apply main_costs.
  - apply on_fulfilled_costs.
  - intros a. eapply typed_weaken; [apply (on_fulfilled_typed TNever)|done|done].
  - apply on_rejected_costs.
  - unfold budget. lia.
Qed.

End derivations.

(** C32: a run of the whole script appends to the trace events worth at
    most [budget w price], whatever the price of each kind of event and
    whatever the collaborators do.  With [n] target browsers and [u] entries
    in [elements/] that is: one listen, [n] sessions opened, [n] timeouts
    set, [n * (1 + u)] directories read, [n * u] files required, [n] Mocha
    runs, [n] kills, one close, and at the end one line logged or one error
    printed and one exit. *)
Theorem toplevel_budget w price s :
  weight price (st_trace (toplevel w s).2) ≤ weight price (st_trace s) + budget w price.
Proof. apply (costs_run price _ any), toplevel_costs. Qed.

(** The script opens at most one browser session for each browser
    the machine lists, runs Mocha at most once per listed browser, and calls
    [process.exit] at most once. *)
Lemma toplevel_counts w :
  let evs := st_trace (toplevel w init_state).2 in
  let count k := length (filter (λ ev, kind_of ev = k) evs) in
  count KOpen ≤ length (w_browsers w) ∧ count KRun ≤ length (w_browsers w)
  ∧ count KKill ≤ length (w_browsers w) ∧ count KListen ≤ 1 ∧ count KExit ≤ 1.
Proof.
  intros evs count. unfold count, evs. rewrite <- !weight_only.
  assert (length (targets w) ≤ length (w_browsers w)) as Hn.
  { unfold targets, Array_filter. rewrite length_fmap. apply length_filter. }
  pose proof (λ k, costs_run (only k) _ any _ init_state (toplevel_costs w (only k))) as H.
  split_and!; (etrans; [apply H|]);
    unfold budget, main_budget, startup_budget, teardown_budget, run_budget,
      discovery_budget, only; simpl; lia.
Qed.

(** On the sample machine the budget of all events is 15, and the green
    run uses 13 of it: one of the two units has no suite file to require,
    and the run ends with a log line where a failing one ends with an error
    and an exit. *)
Example budget_world_green :
  budget world_green each = 15
  ∧ length (st_trace (toplevel world_green init_state).2) = 13.
Proof. evaluated. Qed.
