(* ===== verification/Schedule.v ===== *)
(** * Schedule: what does not depend on the order in which promises settle

    The script fans out twice with [Promise.all]: over the reads of the unit
    directories (line 25) and over the kills (line 82).  Which of several
    rejections such an aggregate reports depends on which promise settles
    first, that is on the latencies of the machine.  This file relates the
    runs of the script on two machines that differ only in their latencies:
    a relation [Sim E R] between programs (from related states they end in
    related states, with values related by [R] or reasons related by [E]),
    its rules, which are the [Proper] instances of the constructs of the
    monad, and the derivation that, when the kills reject with [Error]
    objects only, the two runs of the top-level chain end the process the
    same way, leave the same server and sessions and cause the same
    events, up to the text printed by [console.error].  Without that
    condition the way the process ends depends on the latencies too, as
    the example at the end shows. *)

From stdpp Require Import base tactics list strings numbers gmap.
From S2P Require Import Prelude Js Externals Effects Samples Browsers Server Discovery.
From S2P Require Import Sequencer Main Typing.

(** ** Relations *)

(** Two machines that differ at most in their latencies. *)
Record same_machine (w1 w2 : World) : Prop := {
  same_browsers : w_browsers w1 = w_browsers w2;
  same_port : w_port w1 = w_port w2;
  same_fs : w_fs w1 = w_fs w2;
  same_driver_error : ∀ b, w_driver_error w1 b = w_driver_error w2 b;
  same_module : ∀ f, w_module w1 f = w_module w2 f;
  same_failures : ∀ m, w_failures w1 m = w_failures w2 m;
  same_kill_error : ∀ d, w_kill_error w1 d = w_kill_error w2 d;
  same_installed : ∀ name, w_installed w1 name = w_installed w2 name;
}.

(** A machine whose kills reject with [Error] objects only. *)
Definition kill_errors (w : World) : Prop :=
  ∀ d e, w_kill_error w d = Some e → is_error e = true.

(** Two reasons that are both [Error] objects. *)
Definition both_errors : relation JsVal := λ e1 e2, is_error e1 = true ∧ is_error e2 = true.

(** Two reasons the [catch] blocks of the script cannot tell apart. *)
Definition reason_sim : relation JsVal := λ e1 e2, e1 = e2 ∨ both_errors e1 e2.

(** Two values [if (err)] cannot tell apart. *)
Definition value_sim : relation JsVal := λ v1 v2,
  v1 = v2 ∨ (has_type TText v1 ∧ has_type TText v2).

(** Two events that differ at most in the text printed. *)
Definition event_sim : relation Event := λ ev1 ev2,
  ev1 = ev2 ∨ ∃ v1 v2, ev1 = EvError v1 ∧ ev2 = EvError v2 ∧ value_sim v1 v2.

Record state_sim (s1 s2 : State) : Prop := {
  sim_server : st_server s1 = st_server s2;
  sim_sessions : st_sessions s1 = st_sessions s2;
  sim_next : st_next s1 = st_next s2;
  sim_trace : Forall2 event_sim (st_trace s1) (st_trace s2);
}.

Definition outcome_sim {A} (E : relation JsVal) (R : relation A) : relation (Result A) :=
  λ r1 r2,
  match r1, r2 with
  | Fulfilled a1, Fulfilled a2 => R a1 a2
  | Rejected e1, Rejected e2 => E e1 e2
  | _, _ => False
  end.

(** Promises that settle alike; when they are rejected, with errors. *)
Definition promise_sim {A} (R : relation A) : relation (Promise A) :=
  λ p1 p2, outcome_sim both_errors R (outcome p1) (outcome p2).

(** Programs that run alike. *)
Definition Sim {A} (E : relation JsVal) (R : relation A) : relation (Prog A) :=
  λ m1 m2, ∀ s1 s2, state_sim s1 s2 →
    outcome_sim E R (m1 s1).1 (m2 s2).1 ∧ state_sim (m1 s1).2 (m2 s2).2.

(** The two latency functions of the example at the end. *)
Definition kill_first (d : Driver) : Event → nat :=
  λ ev, if decide (ev = EvKill d false) then 0 else 1.

(** Two stable Chromes, neither of which can be killed; the kill of
    [first] is the first to be rejected. *)
Definition world_two_stuck (first : Driver) : World :=
  {| w_browsers := [chrome_stable; chrome_stable]; w_port := w_port world_green;
     w_fs := w_fs world_green; w_latency := kill_first first;
     w_driver_error := w_driver_error world_green; w_module := w_module world_green;
     w_failures := w_failures world_green;
     w_kill_error := λ d,
       Some (VError (if decide (d = 0) then "Error: kill 0" else "Error: kill 1"));
     w_installed := w_installed world_green |}.

(** Two stable Chromes, neither of which can be killed: the kill of the
    first is rejected with no reason, the kill of the second with an
    [Error]; the kill of [first] is the first to be rejected. *)
Definition world_odd_stuck (first : Driver) : World :=
  {| w_browsers := [chrome_stable; chrome_stable]; w_port := w_port world_green;
     w_fs := w_fs world_green; w_latency := kill_first first;
     w_driver_error := w_driver_error world_green; w_module := w_module world_green;
     w_failures := w_failures world_green;
     w_kill_error := λ d,
       Some (if decide (d = 0) then VUndefined else VError "Error: kill 1");
     w_installed := w_installed world_green |}.

(** ** The relations *)

#[export] Instance same_machine_equiv : Equivalence same_machine.
Proof.
  split.
  - by intros w.
  - by intros w1 w2 [].
  - intros w1 w2 w3 [Hb Hp Hf Hd Hm Hfl Hk Hi] [Hb' Hp' Hf' Hd' Hm' Hfl' Hk' Hi'].
    split; [congruence..| | | | |]; intros x;
      [rewrite Hd|rewrite Hm|rewrite Hfl|rewrite Hk|rewrite Hi]; done.
Qed.

#[export] Instance reason_sim_refl : Reflexive reason_sim.
Proof. by left. Qed.

#[export] Instance value_sim_refl : Reflexive value_sim.
Proof. by left. Qed.

#[export] Instance event_sim_refl : Reflexive event_sim.
Proof. by left. Qed.

#[export] Instance state_sim_refl : Reflexive state_sim.
Proof. intros s. by split. Qed.

#[export] Instance both_errors_sym : Symmetric both_errors.
Proof. by intros e1 e2 []. Qed.

#[export] Instance both_errors_trans : Transitive both_errors.
Proof. by intros e1 e2 e3 [] []. Qed.

Lemma both_errors_reason e1 e2 : both_errors e1 e2 → reason_sim e1 e2.
Proof. by right. Qed.

Lemma outcome_sim_impl {A} (E E' : relation JsVal) (R R' : relation A) r1 r2 :
  (∀ e1 e2, E e1 e2 → E' e1 e2) → (∀ a1 a2, R a1 a2 → R' a1 a2) →
  outcome_sim E R r1 r2 → outcome_sim E' R' r1 r2.
Proof. intros HE HR. destruct r1, r2; simpl; auto. Qed.

Lemma outcome_sim_eq {A} (r1 r2 : Result A) : outcome_sim eq eq r1 r2 ↔ r1 = r2.
Proof. destruct r1, r2; simpl; split; intros; by simplify_eq. Qed.

(** Truthiness and [.stack] respect the relations. *)
Lemma truthy_sim v1 v2 : value_sim v1 v2 → truthy v1 = truthy v2.
Proof.
  intros [->|[H1 H2]]; [done|]. destruct v1, v2; try done. simpl in *.
  apply Is_true_true in H1, H2. congruence.
Qed.

Lemma get_stack_sim e1 e2 :
  reason_sim e1 e2 → outcome_sim eq value_sim (get_stack e1) (get_stack e2).
Proof.
  intros [->|[H1 H2]]; [destruct e2; simpl; by try left|].
  destruct e1, e2; try done. simpl in *. right. simpl. by rewrite H1, H2.
Qed.

(** ** States *)

Lemma state_sim_add_event ev1 ev2 s1 s2 :
  event_sim ev1 ev2 → state_sim s1 s2 → state_sim (add_event ev1 s1) (add_event ev2 s2).
Proof.
  intros Hev [Hsrv Hses Hnext Htr]. split; simpl; try done.
  apply Forall2_app; [done|by constructor].
Qed.

Lemma state_sim_set_server v s1 s2 :
  state_sim s1 s2 → state_sim (set_server v s1) (set_server v s2).
Proof. by intros []. Qed.

Lemma state_sim_set_sessions f s1 s2 :
  state_sim s1 s2 → state_sim (set_sessions f s1) (set_sessions f s2).
Proof. intros [Hsrv Hses Hnext Htr]. split; simpl; try done. by rewrite Hses. Qed.

Lemma state_sim_set_next n s1 s2 :
  state_sim s1 s2 → state_sim (set_next n s1) (set_next n s2).
Proof. by intros []. Qed.

#[export] Hint Resolve state_sim_add_event state_sim_set_server state_sim_set_sessions
  state_sim_set_next : e2e.

(** ** The rules: the constructs of the monad respect [Sim] *)

Section rules.
Context {A B : Type} (E : relation JsVal).
Implicit Types (R : relation A) (Q : relation B).

Lemma sim_ret R : Proper (R ==> Sim E R) mret.
Proof. intros a1 a2 Ha s1 s2 Hs. by split. Qed.

Lemma sim_throw R e1 e2 : E e1 e2 → Sim E R (throw e1) (throw e2).
Proof. intros He s1 s2 Hs. by split. Qed.

Lemma sim_liftR R : Proper (outcome_sim E R ==> Sim E R) liftR.
Proof. intros r1 r2 Hr s1 s2 Hs. by split. Qed.

Lemma sim_bind R Q : Proper ((R ==> Sim E Q) ==> Sim E R ==> Sim E Q) mbind.
Proof.
  intros f1 f2 Hf m1 m2 Hm s1 s2 Hs. unfold mbind, Prog_bind.
  destruct (Hm s1 s2 Hs) as [Hr Hs']. destruct (m1 s1) as [[a1|e1] s1'], (m2 s2) as [[a2|e2] s2'];
    simpl in *; try done. by apply Hf.
Qed.

Lemma sim_try_catch (E' : relation JsVal) R :
  Proper (Sim E R ==> (E ==> Sim E' R) ==> Sim E' R) try_catch.
Proof.
  intros m1 m2 Hm h1 h2 Hh s1 s2 Hs. unfold try_catch.
  destruct (Hm s1 s2 Hs) as [Hr Hs']. destruct (m1 s1) as [[a1|e1] s1'], (m2 s2) as [[a2|e2] s2'];
    simpl in *; try done. by apply Hh.
Qed.

Lemma sim_weaken (E' : relation JsVal) R (R2 : relation A) m1 m2 :
  Sim E R m1 m2 → (∀ e1 e2, E e1 e2 → E' e1 e2) → (∀ a1 a2, R a1 a2 → R2 a1 a2) →
  Sim E' R2 m1 m2.
Proof.
  intros Hm HE HR s1 s2 Hs. destruct (Hm s1 s2 Hs) as [Hr Hs']. split; [|done].
  by eapply outcome_sim_impl.
Qed.

Lemma sim_if R (b1 b2 : bool) (m1 m1' m2 m2' : Prog A) :
  b1 = b2 → Sim E R m1 m2 → Sim E R m1' m2' →
  Sim E R (if b1 then m1 else m1') (if b2 then m2 else m2').
Proof. intros <-. by destruct b1. Qed.

End rules.

(** The form in which the rule of [bind] is applied. *)
Lemma sim_seq {A B} E (R : relation A) (R' : relation B) m1 m2 (f1 f2 : A → Prog B) :
  Sim E R m1 m2 → (∀ a1 a2, R a1 a2 → Sim E R' (f1 a1) (f2 a2)) →
  Sim E R' (m1 ≫= f1) (m2 ≫= f2).
Proof. intros Hm Hf. exact (sim_bind E R R' f1 f2 Hf m1 m2 Hm). Qed.

Lemma sim_mapM {A B} E (R : relation B) (f1 f2 : A → Prog B) l :
  (∀ x, Sim E R (f1 x) (f2 x)) → Sim E (Forall2 R) (mapM f1 l) (mapM f2 l).
Proof.
  intros Hf. induction l as [|x l IH]; simpl; [by apply sim_ret|].
  eapply sim_seq; [apply Hf|]. intros b1 b2 Hb.
  eapply sim_seq; [apply IH|]. intros bs1 bs2 Hbs. apply sim_ret. by constructor.
Qed.

Lemma sim_foldM {A B} E (f1 f2 : B → A → Prog B) b l :
  (∀ b x, Sim E eq (f1 b x) (f2 b x)) → Sim E eq (foldM f1 b l) (foldM f2 b l).
Proof.
  intros Hf. revert b. induction l as [|x l IH]; intros b; simpl; [by apply sim_ret|].
  eapply sim_seq; [apply Hf|]. intros b1 b2 <-. apply IH.
Qed.

Lemma sim_foldl {A B} E (R : relation A) (f1 f2 : Prog A → B → Prog A) m1 m2 l :
  Sim E R m1 m2 → (∀ m1 m2 x, Sim E R m1 m2 → Sim E R (f1 m1 x) (f2 m2 x)) →
  Sim E R (foldl f1 m1 l) (foldl f2 m2 l).
Proof. intros Hm Hf. revert m1 m2 Hm. induction l; simpl; auto. Qed.

Lemma sim_emit E ev1 ev2 : event_sim ev1 ev2 → Sim E eq (emit ev1) (emit ev2).
Proof. intros Hev s1 s2 Hs. split; [done|]. by apply state_sim_add_event. Qed.

(** ** Promises *)

Lemma sim_await {A} (R : relation A) p1 p2 :
  promise_sim R p1 p2 → Sim reason_sim R (await p1) (await p2).
Proof.
  intros Hp. apply sim_liftR. eapply outcome_sim_impl; [apply both_errors_reason| |done]; auto.
Qed.

Lemma promise_sim_then {A B} (R : relation A) (R' : relation B) (f1 f2 : A → B) p1 p2 :
  (R ==> R')%signature f1 f2 → promise_sim R p1 p2 →
  promise_sim R' (Promise_then f1 p1) (Promise_then f2 p2).
Proof.
  unfold promise_sim, Promise_then. simpl. intros Hf Hp.
  destruct (outcome p1), (outcome p2); simpl in *; auto.
Qed.

(** Promises related one by one are fulfilled together. *)
Lemma promise_sim_fulfilled {A} (R : relation A) ps1 ps2 :
  Forall2 (promise_sim R) ps1 ps2 →
  Forall (λ p, is_fulfilled (outcome p) = true) ps1
  ↔ Forall (λ p, is_fulfilled (outcome p) = true) ps2.
Proof.
  induction 1 as [|p1 p2 ps1 ps2 Hp _ IH]; [done|]. rewrite !Forall_cons, IH.
  unfold promise_sim in Hp. by destruct (outcome p1), (outcome p2).
Qed.

(** Every rejection among related promises is an error. *)
Lemma promise_sim_rejected {A} (R : relation A) ps1 ps2 p e :
  Forall2 (promise_sim R) ps1 ps2 →
  (p ∈ ps1 ∨ p ∈ ps2) → outcome p = Rejected e → is_error e = true.
Proof.
  induction 1 as [|p1 p2 ps1 ps2 Hp _ IH]; [by intros [?%elem_of_nil|?%elem_of_nil]|].
  unfold promise_sim in Hp. rewrite !elem_of_cons. intros [[->|?]|[->|?]] He; [|eauto| |eauto].
  - rewrite He in Hp. destruct (outcome p2); [done|by destruct Hp].
  - rewrite He in Hp. destruct (outcome p1); [done|by destruct Hp].
Qed.

Lemma promise_sim_values {A} (R : relation A) ps1 ps2 vs1 vs2 :
  Forall2 (promise_sim R) ps1 ps2 →
  Forall2 (λ p a, outcome p = Fulfilled a) ps1 vs1 →
  Forall2 (λ p a, outcome p = Fulfilled a) ps2 vs2 →
  Forall2 R vs1 vs2.
Proof.
  intros Hps. revert vs1 vs2. induction Hps as [|p1 p2 ps1 ps2 Hp _ IH]; intros vs1 vs2.
  - by intros ->%Forall2_nil_inv_l ->%Forall2_nil_inv_l.
  - intros (a1 & vs1' & H1 & ? & ->)%Forall2_cons_inv_l
           (a2 & vs2' & H2 & ? & ->)%Forall2_cons_inv_l.
    unfold promise_sim in Hp. rewrite H1, H2 in Hp. constructor; auto.
Qed.

Lemma promise_sim_all {A} (R : relation A) ps1 ps2 :
  Forall2 (promise_sim R) ps1 ps2 → promise_sim (Forall2 R) (Promise_all ps1) (Promise_all ps2).
Proof.
  intros Hps. unfold promise_sim.
  pose proof (Promise_all_is_fulfilled ps1) as H1.
  pose proof (Promise_all_is_fulfilled ps2) as H2.
  rewrite (promise_sim_fulfilled R ps1 ps2 Hps), <- H2 in H1. clear H2.
  destruct (outcome (Promise_all ps1)) as [vs1|e1] eqn:E1,
           (outcome (Promise_all ps2)) as [vs2|e2] eqn:E2; simpl in *.
  - apply Promise_all_fulfilled in E1, E2. by eapply promise_sim_values.
  - destruct H1 as [H1 _]. by specialize (H1 eq_refl).
  - destruct H1 as [_ H1]. by specialize (H1 eq_refl).
  - apply Promise_all_rejected in E1 as (p1 & Hin1 & Hp1 & _).
    apply Promise_all_rejected in E2 as (p2 & Hin2 & Hp2 & _).
    split; [by apply (promise_sim_rejected R ps1 ps2 p1 e1 Hps); [left|]
           |by apply (promise_sim_rejected R ps1 ps2 p2 e2 Hps); [right|]].
Qed.

(** One statement of a sequence that returns the same value on both
    sides. *)
Ltac sim_seq_eq := eapply (sim_seq _ eq); [solve [eauto with sim]|intros ? ? <-].

Create HintDb sim discriminated.

#[export] Hint Resolve sim_emit sim_await promise_sim_all promise_sim_then : sim.
#[export] Hint Extern 1 (event_sim _ _) => reflexivity : sim.

(** ** The operations on two machines *)

Section machines.
Context (w1 w2 : World) (Hw : same_machine w1 w2) (Hk : kill_errors w1).
Implicit Types (E : relation JsVal) (d : Driver) (m : Mocha).

Lemma readdir_result_same path : readdir_result w1 path = readdir_result w2 path.
Proof. unfold readdir_result. by rewrite (same_fs w1 w2 Hw). Qed.

Lemma readdir_result_error path e :
  readdir_result w2 path = Rejected e → is_error e = true.
Proof. unfold readdir_result. repeat case_match; by intros [= <-]. Qed.

Lemma readdir_sim E path : Sim E (promise_sim eq) (readdir w1 path) (readdir w2 path).
Proof.
  unfold readdir. sim_seq_eq. apply sim_ret. unfold promise_sim. simpl.
  rewrite readdir_result_same. destruct (readdir_result w2 path) as [|e] eqn:Hr; [done|].
  by split; apply (readdir_result_error path).
Qed.

Lemma listen_sim E : Sim E eq (listen w1) (listen w2).
Proof.
  intros s1 s2 Hs. unfold listen. rewrite (same_port w1 w2 Hw). split; [done|]. simpl.
  auto with e2e sim.
Qed.

Lemma server_close_sim E : Sim E eq server_close server_close.
Proof. intros s1 s2 Hs. split; [done|]. unfold server_close. simpl. auto with e2e sim. Qed.

Lemma getSeleniumDriver_sim b :
  Sim reason_sim eq (getSeleniumDriver w1 b) (getSeleniumDriver w2 b).
Proof.
  intros s1 s2 Hs. unfold getSeleniumDriver. rewrite (same_driver_error w1 w2 Hw).
  destruct (w_driver_error w2 b); simpl; [by split; [left|]|].
  rewrite (sim_next s1 s2 Hs). split; [done|]. auto with e2e sim.
Qed.

Lemma setScriptTimeout_sim E d ms : Sim E eq (setScriptTimeout d ms) (setScriptTimeout d ms).
Proof. intros s1 s2 Hs. split; [done|]. unfold setScriptTimeout. simpl. auto with e2e sim. Qed.

Lemma killWebDriver_sim E d : Sim E (promise_sim eq) (killWebDriver w1 d) (killWebDriver w2 d).
Proof.
  intros s1 s2 Hs. unfold killWebDriver. rewrite <- (same_kill_error w1 w2 Hw).
  destruct (w_kill_error w1 d) as [e|] eqn:He; simpl; (split; [|auto with e2e sim]).
  - unfold promise_sim. simpl. by split; apply (Hk d).
  - done.
Qed.

Lemma run_sim E m : Sim E eq (run w1 m) (run w2 m).
Proof. unfold run. rewrite (same_failures w1 w2 Hw). sim_seq_eq. by apply sim_ret. Qed.

Lemma require_file_sim m file :
  Sim reason_sim eq (require_file w1 m file) (require_file w2 m file).
Proof.
  unfold require_file. rewrite (same_module w1 w2 Hw). sim_seq_eq.
  eapply (sim_seq _ eq); [apply sim_liftR|intros ?? <-; by apply sim_ret].
  destruct (w_module w2 file); simpl; [done|by left].
Qed.

Lemma loadFiles_sim m : Sim reason_sim eq (loadFiles w1 m) (loadFiles w2 m).
Proof. apply sim_foldM. intros. apply require_file_sim. Qed.

Hint Resolve readdir_sim listen_sim server_close_sim getSeleniumDriver_sim
  setScriptTimeout_sim killWebDriver_sim run_sim loadFiles_sim : sim.

(** ** The functions of the script on two machines *)

Lemma targets_same : targets w1 = targets w2.
Proof. unfold targets. by rewrite (same_browsers w1 w2 Hw). Qed.

Lemma startServer_sim E : Sim E (promise_sim eq) (startServer w1) (startServer w2).
Proof. unfold startServer. sim_seq_eq. by apply sim_ret. Qed.

Lemma openDriver_sim b : Sim reason_sim eq (openDriver w1 b) (openDriver w2 b).
Proof. unfold openDriver. do 2 sim_seq_eq. by apply sim_ret. Qed.

Lemma provision_sim : Sim reason_sim eq (provision w1) (provision w2).
Proof.
  unfold provision. rewrite targets_same.
  eapply sim_weaken; [apply sim_mapM, openDriver_sim|done|]. by intros ?? ->%list_eq_Forall2.
Qed.

Lemma startup_sim : Sim reason_sim eq (startup w1) (startup w2).
Proof.
  unfold startup. eapply sim_seq; [apply startServer_sim|]. intros p1 p2 Hp.
  eapply sim_seq; [apply provision_sim|]. intros ds1 ds2 <-.
  eapply sim_seq; [by apply sim_await|]. intros ?? <-. by apply sim_ret.
Qed.

Lemma probe_sim E element : Sim E (promise_sim eq) (probe w1 element) (probe w2 element).
Proof.
  unfold probe. eapply sim_seq; [apply readdir_sim|]. intros p1 p2 Hp.
  apply sim_ret. eapply promise_sim_then; [|done]. by intros ?? <-.
Qed.

Lemma buildMocha_sim : Sim reason_sim eq (buildMocha w1) (buildMocha w2).
Proof.
  unfold buildMocha. eapply sim_seq; [apply readdir_sim|]. intros l1 l2 Hl.
  eapply sim_seq; [by apply sim_await|]. intros elements ? <-.
  eapply sim_seq; [apply sim_mapM, probe_sim|]. intros ps1 ps2 Hps.
  eapply sim_seq; [by apply sim_await, promise_sim_all|]. intros ns1 ns2 ->%list_eq_Forall2.
  apply loadFiles_sim.
Qed.

Lemma runMocha_sim m : Sim reason_sim eq (runMocha w1 m) (runMocha w2 m).
Proof.
  unfold runMocha. sim_seq_eq. apply sim_if; [done|by apply sim_ret|by apply sim_throw].
Qed.

Lemma reducer_sim address chain1 chain2 d :
  Sim reason_sim eq chain1 chain2 →
  Sim reason_sim eq (reducer w1 address chain1 d) (reducer w2 address chain2 d).
Proof.
  intros Hchain. unfold reducer. eapply sim_seq; [done|]. intros _ _ _.
  eapply sim_seq; [apply buildMocha_sim|]. intros m ? <-.
  eapply sim_seq; [apply runMocha_sim|]. intros. by apply sim_ret.
Qed.

Lemma runTests_sim address drivers :
  Sim reason_sim eq (runTests w1 address drivers) (runTests w2 address drivers).
Proof. apply sim_foldl; [by apply sim_ret|]. intros. by apply reducer_sim. Qed.

Lemma attempt_sim address drivers :
  Sim eq value_sim (attempt w1 address drivers) (attempt w2 address drivers).
Proof.
  unfold attempt. eapply (sim_try_catch reason_sim).
  - eapply sim_seq; [apply runTests_sim|]. intros. by apply sim_ret.
  - intros e1 e2 He. by apply sim_liftR, get_stack_sim.
Qed.

Lemma teardown_sim drivers : Sim reason_sim eq (teardown w1 drivers) (teardown w2 drivers).
Proof.
  unfold teardown, console_log. sim_seq_eq.
  eapply sim_seq; [apply sim_mapM, killWebDriver_sim|]. intros ks1 ks2 Hks.
  eapply sim_seq; [by apply sim_await, promise_sim_all|]. intros _ _ _.
  sim_seq_eq. by apply sim_emit.
Qed.

Lemma main_sim : Sim reason_sim value_sim (main w1) (main w2).
Proof.
  unfold main. eapply sim_seq; [apply startup_sim|]. intros [server drivers] ? <-.
  eapply sim_seq.
  { eapply sim_weaken; [apply attempt_sim|by left|done]. }
  intros err1 err2 Herr. eapply sim_seq; [apply teardown_sim|]. intros. by apply sim_ret.
Qed.

Lemma process_exit_sim E code : Sim E eq (process_exit code) (process_exit code).
Proof. unfold process_exit. sim_seq_eq. by apply sim_ret. Qed.

Lemma on_fulfilled_sim E v1 v2 :
  value_sim v1 v2 → Sim E eq (on_fulfilled v1) (on_fulfilled v2).
Proof.
  intros Hv. unfold on_fulfilled, console_log.
  apply sim_if; [by apply truthy_sim|apply process_exit_sim|].
  sim_seq_eq. by apply sim_ret.
Qed.

Lemma on_rejected_sim e1 e2 :
  reason_sim e1 e2 → Sim eq eq (on_rejected e1) (on_rejected e2).
Proof.
  intros He. unfold on_rejected, console_error.
  eapply sim_seq; [by apply sim_liftR, get_stack_sim|]. intros v1 v2 Hv.
  eapply sim_seq; [apply sim_emit; right; by exists v1, v2|]. intros. apply process_exit_sim.
Qed.

Lemma toplevel_sim : Sim eq eq (toplevel w1) (toplevel w2).
Proof.
  unfold toplevel. eapply (sim_try_catch reason_sim); [|intros ???; by apply on_rejected_sim].
  eapply sim_seq; [apply main_sim|]. intros. by apply on_fulfilled_sim.
Qed.

End machines.

(** C19: the way the script ends does not depend on the order in which
    concurrent operations settle, provided the kills reject with [Error]
    objects only.  On two machines that differ only in their latencies and
    on which a kill that is rejected is rejected with an [Error], the
    top-level chain ends the process the same way (the same exit code, or
    the same unhandled rejection), leaves the same server state, the same
    browser sessions and the same handle counter, and causes the same
    events one by one, except that the two error messages printed by
    [console.error] may differ.  (The rejections of the listings are
    [Error] objects on every machine.)  The condition on the kills cannot
    be dropped: see [end_depends_on_schedule]. *)
Theorem toplevel_schedule_independent w1 w2 s :
  same_machine w1 w2 → kill_errors w1 →
  (toplevel w1 s).1 = (toplevel w2 s).1 ∧ state_sim (toplevel w1 s).2 (toplevel w2 s).2.
Proof.
  intros Hw Hk. destruct (toplevel_sim w1 w2 Hw Hk s s) as [Hr Hs]; [done|].
  by apply outcome_sim_eq in Hr.
Qed.

(** ** The sample machines *)

Lemma world_two_stuck_same : same_machine (world_two_stuck 0) (world_two_stuck 1).
Proof. by split. Qed.

Lemma world_two_stuck_errors first : kill_errors (world_two_stuck first).
Proof. intros d e [= <-]. by destruct (decide (d = 0)). Qed.

Lemma toplevel_schedule_independent_witness :
  (toplevel (world_two_stuck 0) init_state).1 = (toplevel (world_two_stuck 1) init_state).1
  ∧ state_sim (toplevel (world_two_stuck 0) init_state).2
              (toplevel (world_two_stuck 1) init_state).2.
Proof.
  exact (toplevel_schedule_independent _ _ init_state world_two_stuck_same
           (world_two_stuck_errors 0)).
Defined.

(** What is printed does depend on the schedule: with two drivers that
    cannot be killed, the error reported is that of the kill that is
    rejected first. *)
Example printed_error_depends_on_schedule :
  EvError (VStr "Error: kill 0") ∈ st_trace (toplevel (world_two_stuck 0) init_state).2
  ∧ EvError (VStr "Error: kill 1") ∈ st_trace (toplevel (world_two_stuck 1) init_state).2
  ∧ (toplevel (world_two_stuck 0) init_state).1 = Fulfilled (Exit 1).
Proof.
  split_and!; [apply (bool_decide_unpack _); by vm_compute..|by vm_compute].
Qed.

(** When a kill may be rejected with a value that is not an [Error], the
    way the process ends depends on the schedule as well: the two machines
    differ only in their latencies; on the first the aggregate of the kills
    is rejected with [undefined], and the [catch] handler of the last lines
    throws on [err.stack]; on the second it is rejected with the [Error],
    and the process exits with code 1. *)
Example end_depends_on_schedule :
  same_machine (world_odd_stuck 0) (world_odd_stuck 1)
  ∧ (toplevel (world_odd_stuck 0) init_state).1 = Rejected (type_error "stack" "undefined")
  ∧ (toplevel (world_odd_stuck 1) init_state).1 = Fulfilled (Exit 1).
Proof. split_and!; [by split|by vm_compute..]. Qed.
