(* ===== verification/Served.v ===== *)
(** * Served: the tests run against a live server and a live browser

    The three collaborators meet in the Mocha runs: a run is useful only
    while the static server of [startServer] listens, on the port the
    suites were told (line 104), and while the browser session the suites
    were given (line 103) is alive.  This file states that of a trace as a
    check that replays it, and proves that every run of the whole script
    keeps it: the sequencer runs between the startup and the teardown of
    [main], with the address and the drivers [main] obtained. *)

From stdpp Require Import base tactics list strings numbers gmap.
From S2P Require Import Prelude Js Externals Effects Samples Browsers Server Discovery.
From S2P Require Import Sequencer Main.

(** ** Definitions *)

(** The suite holds the address of the server that listens on [port] and a
    driver whose session is in [live]. *)
Definition suite_served (port : N) (live : gset nat) (su : Suite) : bool :=
  bool_decide (ctx_address (suite_ctx su) = Some (address_of {| address_port := port |}))
  && from_option (λ d, bool_decide (d ∈ live)) false (ctx_driver (suite_ctx su)).

(** An event may happen when the server is in state [v] and the sessions
    of [live] are open: anything but a Mocha run may, and a Mocha run may
    when the server listens and every suite is served. *)
Definition run_served (v : ServerState) (live : gset nat) (ev : Event) : bool :=
  match ev, v with
  | EvRun m _, SrvListening port => forallb (suite_served port live) (mocha_suites m)
  | EvRun _ _, _ => false
  | _, _ => true
  end.

(** The trace replayed from a server state and a set of live sessions. *)
Fixpoint served_from (v : ServerState) (live : gset nat) (t : list Event) : bool :=
  match t with
  | [] => true
  | ev :: t' => run_served v live ev && served_from (server_after ev v) (live_after ev live) t'
  end.

(** The trace of a process. *)
Definition served (t : list Event) : bool := served_from SrvNotStarted ∅ t.

(** Events that are not Mocha runs. *)
Definition quiet (evs : list Event) : Prop := Forall (λ ev, is_run ev = false) evs.

(** An event of the sequencer for [drivers] and [address]: an event of a
    discovery, or the run of a Mocha that carries [address] and one of the
    drivers. *)
Definition is_test_of (drivers : list Driver) (address : string) (ev : Event) : Prop :=
  is_discovery ev = true ∨ ∃ d, d ∈ drivers ∧ is_run_of d address ev.

(** ** Replaying a trace *)

Lemma served_from_app v live t1 t2 :
  served_from v live (t1 ++ t2)
  = served_from v live t1
    && served_from (foldl (λ v ev, server_after ev v) v t1)
                   (foldl (λ live ev, live_after ev live) live t1) t2.
Proof.
  revert v live. induction t1 as [|ev t1 IH]; intros v live; simpl; [done|].
  by rewrite IH, andb_assoc.
Qed.

Lemma served_app t1 t2 :
  served (t1 ++ t2) = served t1 && served_from (server_of_trace t1) (live_of_trace t1) t2.
Proof. apply served_from_app. Qed.

Lemma served_from_quiet v live evs : quiet evs → served_from v live evs = true.
Proof.
  intros Hq. revert v live. induction Hq as [|ev evs Hev _ IH]; intros v live; [done|].
  simpl. rewrite IH, andb_true_r. by destruct ev.
Qed.

(** A trace that is served stays so when events other than runs follow. *)
Lemma served_quiet t evs : served t = true → quiet evs → served (t ++ evs) = true.
Proof. intros Ht Hq. by rewrite served_app, Ht, served_from_quiet. Qed.

(** The events of the sequencer are served while the server listens on the
    port of the address and the drivers are alive. *)
Lemma served_from_tests port live drivers evs :
  (∀ d, d ∈ drivers → d ∈ live) →
  Forall (is_test_of drivers (address_of {| address_port := port |})) evs →
  served_from (SrvListening port) live evs = true.
Proof.
  intros Hlive. induction 1 as [|ev evs Hev _ IH]; [done|].
  destruct Hev as [Hd|(d & Hd & Hrun)]; destruct ev; try done; simpl; rewrite ?IH; try done.
  rewrite andb_true_r. apply forallb_elem_of. intros su Hsu.
  simpl in Hrun. rewrite Forall_forall in Hrun. unfold suite_served.
  rewrite (Hrun su Hsu). cbn [ctx_address ctx_driver from_option].
  rewrite !bool_decide_eq_true_2; auto.
Qed.

(** ** The events of the blocks *)

Lemma quiet_app evs1 evs2 : quiet evs1 → quiet evs2 → quiet (evs1 ++ evs2).
Proof. intros. by apply Forall_app. Qed.

Lemma quiet_opens bs ds : quiet (mjoin (zip_with open_events bs ds)).
Proof.
  revert ds. induction bs as [|b bs IH]; intros [|d ds]; simpl; try by constructor.
  repeat constructor. apply IH.
Qed.

Lemma quiet_teardown w ds closed : quiet (teardown_events w ds closed).
Proof.
  pose proof (teardown_events_late w ds closed) as H. rewrite forallb_elem_of in H.
  apply Forall_forall. intros ev Hev%H. by destruct ev.
Qed.

Lemma quiet_finish r : quiet (finish r).2.
Proof.
  destruct r as [err|e]; simpl; [destruct (truthy err)|destruct (get_stack e)];
    by repeat constructor.
Qed.

Lemma run_one_tests w address d :
  Forall (is_test_of [d] address) (run_one w address d).2.
Proof.
  unfold run_one. pose proof (built_discovery w) as Hd. rewrite forallb_elem_of in Hd.
  assert (Forall (is_test_of [d] address) (built w).2) as Hb.
  { apply Forall_forall. intros ev Hev. left. by apply Hd. }
  destruct (built w).1 as [m|e]; [|done]. simpl. apply Forall_app. split; [done|].
  constructor; [|done]. right. exists d. split; [by apply list_elem_of_singleton|].
  apply inject_suites.
Qed.

Lemma is_test_of_mono ds ds' address ev :
  (∀ d, d ∈ ds → d ∈ ds') → is_test_of ds address ev → is_test_of ds' address ev.
Proof. intros Hsub [?|(d & ? & ?)]; [by left|right; eauto]. Qed.

Lemma run_all_tests w address drivers :
  Forall (is_test_of drivers address) (run_all w address drivers).2.
Proof.
  rewrite run_all_events. apply Forall_forall.
  intros ev (evs & Hev & (d & -> & Hd)%list_elem_of_fmap)%list_elem_of_join.
  pose proof (run_one_tests w address d) as H. rewrite Forall_forall in H.
  eapply is_test_of_mono; [|by apply H]. intros d' ->%list_elem_of_singleton.
  by eapply elem_of_prefix, reached_prefix.
Qed.

(** ** The state [main] tests in *)

(** After the startup the server listens and every driver is alive. *)
Lemma started_live w s d :
  d ∈ started_drivers w s → d ∈ dom (st_sessions (started w s)).
Proof.
  unfold started_drivers. intros [Hlo Hhi]%elem_of_seq. apply elem_of_dom.
  destruct (lookup_lt_is_Some_2 (targets w) (d - st_next s)) as [b Hb]; [lia|].
  pose proof (started_sessions w s _ b Hb) as H.
  replace (st_next s + (d - st_next s)) with d in H by lia. by exists (opened_session b).
Qed.

Lemma started_state_ok w s : drivers_ok w → state_ok s → state_ok (started w s).
Proof.
  intros Hok Hs. pose proof (frame_run (preserving state_ok) (startup w) s _ _
    (run_startup_ok w s Hok)) as H. by apply H.
Qed.

Lemma quiet_started w s :
  ∃ evs, st_trace (started w s) = st_trace s ++ evs ∧ quiet evs.
Proof.
  eexists. split; [apply started_trace|]. constructor; [done|apply quiet_opens].
Qed.

(** The state at the end of the [try] statement. *)
Lemma tested_served w s :
  drivers_ok w → state_ok s → served (st_trace s) = true →
  served (st_trace (tested w s)) = true.
Proof.
  intros Hok Hs Ht. unfold tested. rewrite add_events_trace, served_app.
  pose proof (started_state_ok w s Hok Hs) as [_ Hsrv Hlive].
  rewrite <- Hsrv, <- Hlive, started_server. apply andb_true_iff. split.
  - destruct (quiet_started w s) as (evs & -> & Hq). by apply served_quiet.
  - apply served_from_tests with (started_drivers w s); [apply started_live|].
    apply run_all_tests.
Qed.

(** ** The whole run *)

(** What [main] adds to the trace of the state it tested in, or to the
    trace it started from when the startup failed, is quiet. *)
Lemma main_served w s :
  state_ok s → served (st_trace s) = true → served (st_trace (main w s).2) = true.
Proof.
  intros Hs Ht.
  destruct (first_failure (λ b, w_driver_error w b = None) (targets w))
    as [Hok|(bs1 & b & bs2 & Htg & H1 & Hb)].
  - pose proof (tested_served w s Hok Hs Ht) as Htested.
    rewrite run_main_tested by done.
    destruct (err_after _); [destruct (outcome _)|]; cbn [snd]; [| |done].
    + rewrite torn_down_events. apply served_quiet, quiet_teardown. done.
    + rewrite killed_trace, add_event_trace, <- app_assoc.
      apply served_quiet; [done|]. pose proof (quiet_teardown w (started_drivers w s) false) as H.
      unfold teardown_events in H. by rewrite app_nil_r in H.
  - destruct (w_driver_error w b) as [e|] eqn:He; [|done].
    rewrite (run_main_startup_err w s bs1 b bs2 e) by done. cbn [snd].
    rewrite opened_trace. cbn [listening st_trace add_event set_server st_next].
    rewrite <- app_assoc. apply served_quiet; [done|].
    constructor; [done|apply quiet_opens].
Qed.

(** The tests always run against a live server and live browsers.
    In every run of the script, from a state whose trace has the property,
    a Mocha run happens only while the static server is listening, every
    top-level suite of that run holds the address of the port the server
    listens on, and the driver it holds is a session that has been opened
    and not killed. *)
Lemma toplevel_served w s :
  state_ok s → served (st_trace s) = true → served (st_trace (toplevel w s).2) = true.
Proof.
  intros Hs Ht. rewrite run_toplevel. cbn [snd]. rewrite add_events_trace.
  apply served_quiet; [by apply main_served|apply quiet_finish].
Qed.

(** ** The sample machines *)

Lemma toplevel_served_witness :
  served (st_trace (toplevel world_two_chromes init_state).2) = true.
Proof. exact (toplevel_served world_two_chromes init_state init_state_ok eq_refl). Defined.

(** A run while the server is closed, or with the address of another
    port, is not served. *)
Example served_rejects :
  served [EvListen 8080; EvServerClose; EvRun new_Mocha 0] = false
  ∧ served [EvListen 8080; EvGetDriver chrome_stable 0;
            EvRun (inject 0 "http://localhost:8081" (describe "unit-a" new_Mocha)) 0] = false
  ∧ served [EvListen 8080; EvGetDriver chrome_stable 0; EvKill 0 true;
            EvRun (inject 0 "http://localhost:8080" (describe "unit-a" new_Mocha)) 0] = false
  ∧ served [EvListen 8080; EvGetDriver chrome_stable 0;
            EvRun (inject 0 "http://localhost:8080" (describe "unit-a" new_Mocha)) 0] = true.
Proof. evaluated. Qed.

