(* ===== verification/Leaks.v ===== *)
(** * Leaks: what a run leaves open

    A Node process whose script does not call [process.exit] ends only when
    nothing keeps its event loop alive: here, when the server is closed.
    The browser processes are children of the machine and outlive the
    script unless they are killed.  This file determines, for every run of
    the top-level chain, whether the server is closed at the end and whether
    the sessions the run opened are gone, in terms of the world alone, and
    relates that to the exit code. *)

From stdpp Require Import base tactics list strings numbers gmap.
From S2P Require Import Prelude Js Externals Effects Samples Browsers Server Discovery.
From S2P Require Import Sequencer Main.

(** ** Definitions *)

(** A run that reaches the end of the teardown: every driver starts, the
    [try] statement completes (the tests pass, or [runTests] is rejected
    with something that has a [stack]), and every kill succeeds. *)
Definition clean (w : World) (s : State) : bool :=
  bool_decide (drivers_ok w)
  && is_fulfilled (err_after (verdict w (address w) (started_drivers w s)))
  && bool_decide (kills_ok w (started_drivers w s)).

(** ** Sessions after the startup and after the kills *)

(** Deleting the handles the startup opened gives back the sessions it
    started from. *)
Lemma delete_all_opened bs s :
  (∀ d, d ∈ dom (st_sessions s) → d < st_next s) →
  delete_all (seq (st_next s) (length bs)) (st_sessions (opened bs s)) = st_sessions s.
Proof.
  intros Hfresh. apply map_eq. intros d. rewrite lookup_delete_all.
  case_decide as Hd.
  - apply elem_of_seq in Hd. symmetry. apply not_elem_of_dom. intros ?%Hfresh. lia.
  - by apply opened_sessions_other.
Qed.

Lemma torn_down_started_sessions w s :
  state_ok s → kills_ok w (started_drivers w s) →
  st_sessions (torn_down w (started_drivers w s) (tested w s)) = st_sessions s.
Proof.
  intros Hs Hk. unfold torn_down. rewrite !add_event_sessions. cbn [st_sessions set_server].
  rewrite killed_sessions_ok by done. rewrite add_event_sessions. unfold tested.
  rewrite add_events_sessions. unfold started, started_drivers.
  apply (delete_all_opened (targets w) (listening w s)), Hs.
Qed.

(** ** The server at the end of [main] *)

Lemma main_startup_server w s :
  ¬ drivers_ok w → st_server (main w s).2 = SrvListening (w_port w).
Proof.
  intros Hno.
  destruct (first_failure (λ b, w_driver_error w b = None) (targets w))
    as [Hok|(bs1 & b & bs2 & Ht & H1 & Hb)]; [done|].
  destruct (w_driver_error w b) as [e|] eqn:He; [|done].
  rewrite (run_main_startup_err w s bs1 b bs2 e) by done. cbn [snd].
  by rewrite opened_server.
Qed.

Lemma main_server w s :
  st_server (main w s).2 = if clean w s then SrvClosed else SrvListening (w_port w).
Proof.
  unfold clean. destruct (decide (drivers_ok w)) as [Hok|Hno].
  - rewrite bool_decide_eq_true_2, andb_true_l, run_main_tested by done.
    destruct (err_after _) as [err|e]; cbn [is_fulfilled andb]; [|apply tested_server].
    destruct (decide (kills_ok w (started_drivers w s))) as [Hk|Hk].
    + by rewrite bool_decide_eq_true_2, kill_promises_ok.
    + rewrite bool_decide_eq_false_2 by done.
      destruct (outcome (Promise_all _)) eqn:E; cbn [snd].
      * exfalso. by eapply Hk, kill_promises_fulfilled.
      * by rewrite killed_server, add_event_server, tested_server.
  - rewrite bool_decide_eq_false_2 by done. by apply main_startup_server.
Qed.

(** A clean run leaves the sessions it found. *)
Lemma main_clean_sessions w s :
  state_ok s → clean w s = true → st_sessions (main w s).2 = st_sessions s.
Proof.
  intros Hs. unfold clean. rewrite !andb_true_iff, !bool_decide_eq_true. intros [[Hok Hv] Hk].
  rewrite run_main_tested by done. destruct (err_after _); [|done].
  rewrite kill_promises_ok by done. by apply torn_down_started_sessions.
Qed.

(** A green run is clean. *)
Lemma green_clean w s : green w s = true → clean w s = true.
Proof.
  unfold green, clean. intros [[-> Hv]%andb_true_iff ->]%andb_true_iff.
  by destruct (verdict _ _ _).
Qed.

(** A run in which every driver starts, [err] is empty after the [try]
    statement and every kill succeeds is clean. *)
Lemma drained_clean w s :
  drivers_ok w ∧ err_empty w s ∧ kills_ok w (started_drivers w s) → clean w s = true.
Proof.
  intros (Hd & (err & He & _) & Hk). unfold clean.
  by rewrite !bool_decide_eq_true_2, He.
Qed.

(** C20: what a run leaves open.  At the end of the script the server is
    closed exactly when the run is clean (every driver started, the [try]
    statement completed and every kill succeeded), and is still listening
    otherwise; after a clean run the session store is the one the run
    started with; and a run that ends with exit code 0 without calling
    [process.exit] is clean on every machine, so nothing keeps the process
    alive. *)
Theorem toplevel_leaks w s :
  state_ok s →
  st_server (toplevel w s).2 = (if clean w s then SrvClosed else SrvListening (w_port w))
  ∧ (clean w s = true → st_sessions (toplevel w s).2 = st_sessions s)
  ∧ ((toplevel w s).1 = Fulfilled Drained → clean w s = true).
Proof.
  intros Hs. split_and!; [| |by intros ?%toplevel_drained%drained_clean];
    rewrite run_toplevel; cbn [fst snd]; rewrite ?add_events_server, ?add_events_sessions.
  - apply main_server.
  - by apply main_clean_sessions.
Qed.

(** ** The sample machines *)

Lemma toplevel_leaks_witness :
  st_server (toplevel world_red init_state).2
  = (if clean world_red init_state then SrvClosed else SrvListening (w_port world_red))
  ∧ (clean world_red init_state = true →
     st_sessions (toplevel world_red init_state).2 = st_sessions init_state)
  ∧ ((toplevel world_red init_state).1 = Fulfilled Drained →
     clean world_red init_state = true).
Proof. exact (toplevel_leaks world_red init_state init_state_ok). Defined.

(** The run with failing tests leaves the server listening and the browser
    open; the green run leaves nothing. *)
Example leaks_samples :
  clean world_red init_state = false
  ∧ st_server (toplevel world_red init_state).2 = SrvListening 41735
  ∧ dom (st_sessions (toplevel world_red init_state).2) = {[0]}
  ∧ clean world_green init_state = true
  ∧ st_sessions (toplevel world_green init_state).2 = ∅.
Proof. split_and!; by vm_compute. Qed.
