(* ===== verification/Console.v ===== *)
(** * Console: what a run prints

    What the person or the CI job that starts the script gets back is the
    exit code and the text on the two streams of the console.  The script
    writes to them in four places: [console.log] in lines 80, 85 and 115
    (standard output) and [console.error] in line 118 (standard error); the
    runtime writes an uncaught exception of the imports to standard error.
    This file projects the trace of a run onto the console and gives the
    projection in closed form ([transcript]): which lines appear, in which
    order, for every machine.  The reporter of Mocha writes to the console
    too; its text belongs to Mocha and is not part of the model. *)

From stdpp Require Import base tactics list strings numbers gmap.
From S2P Require Import Prelude Js Externals Effects Samples Browsers Server Discovery.
From S2P Require Import Sequencer Main Script Leaks.

(** ** Definitions *)

(** An entry of the console: a line of [console.log], or the value given
    to [console.error]. *)
Inductive Output :=
  | Out (text : string)
  | Err (v : JsVal).

#[export] Instance Output_eq_dec : EqDecision Output.
Proof. solve_decision. Defined.

(** What an event shows on the console. *)
Definition output_of (ev : Event) : option Output :=
  match ev with
  | EvLog msg => Some (Out msg)
  | EvError v => Some (Err v)
  | _ => None
  end.

Definition printed (evs : list Event) : list Output := omap output_of evs.

(** The console of a run from [s] to [s']. *)
Definition console (s s' : State) : list Output :=
  printed (drop (length (st_trace s)) (st_trace s')).

(** The entries of standard error. *)
Definition stderr (out : list Output) : list JsVal :=
  omap (λ o, match o with Err v => Some v | Out _ => None end) out.

(** Lines 80-85: the teardown announces itself, and says [Done.] when the
    kills have succeeded. *)
Definition teardown_output (killed : bool) : list Output :=
  Out "Killing all browser instances..." :: (if killed then [Out "Done."] else []).

(** Lines 113-116: the [then] handler prints only after a run without
    [err]. *)
Definition announce (err : JsVal) : list Output :=
  if truthy err then [] else [Out "e2e tests done."].

(** Lines 117-119: the [catch] handler prints the stack of what it is
    given, when reading it does not throw. *)
Definition report (e : JsVal) : list Output :=
  match get_stack e with
  | Fulfilled stack => [Err stack]
  | Rejected _ => []
  end.

(** The console of a run of the script, as a function of the machine. *)
Definition transcript (w : World) (s : State) : list Output :=
  match first_missing w with
  | Some name => [Err (module_not_found name)]
  | None =>
      match startup_error w with
      | Some e => report e
      | None =>
          let drivers := started_drivers w s in
          match err_after (verdict w (address w) drivers) with
          | Rejected e => report e
          | Fulfilled err =>
              match outcome (Promise_all (kill_promise w <$> drivers)) with
              | Rejected e => teardown_output false ++ report e
              | Fulfilled _ => teardown_output true ++ announce err
              end
          end
      end
  end.

(** ** The projection *)

Lemma printed_app evs1 evs2 : printed (evs1 ++ evs2) = printed evs1 ++ printed evs2.
Proof. apply omap_app. Qed.

(** Nothing that happens before the teardown is printed, and no kill is. *)
Lemma printed_quiet evs :
  Forall (λ ev, before_teardown ev = true) evs → printed evs = [].
Proof.
  induction 1 as [|ev evs Hev _ IH]; [done|]. unfold printed. simpl.
  by destruct ev; simplify_eq/=.
Qed.

Lemma printed_kills w ds : printed (kill_events w ds) = [].
Proof. unfold kill_events. by induction ds. Qed.

Lemma console_refl s : console s s = [].
Proof. unfold console. by rewrite drop_all. Qed.

(** The console of a run that goes on is the console so far and what the
    rest prints. *)
Lemma console_add_events s s' evs :
  trace_ext s s' → console s (add_events evs s') = console s s' ++ printed evs.
Proof.
  intros Hs. unfold console. rewrite add_events_trace, drop_app_le, printed_app; [done|].
  by apply prefix_length.
Qed.

Lemma console_add_event s s' ev :
  trace_ext s s' → console s (add_event ev s') = console s s' ++ printed [ev].
Proof. apply (console_add_events s s' [ev]). Qed.

(** ** The console of the blocks *)

Lemma tested_trace_ext w s : trace_ext s (tested w s).
Proof.
  unfold tested, trace_ext. rewrite add_events_trace, started_trace, <- app_assoc.
  by apply prefix_app_r.
Qed.

Lemma console_tested w s : console s (tested w s) = [].
Proof. apply printed_quiet, tested_before_teardown. Qed.

Lemma console_startup_err w s bs : console s (opened bs (listening w s)) = [].
Proof.
  unfold console. rewrite opened_trace. cbn [listening st_trace add_event set_server].
  rewrite <- app_assoc, drop_app_length. apply printed_quiet. constructor; [done|].
  pose proof (opened_before_teardown bs (listening w s)) as H.
  by rewrite opened_trace, drop_app_length in H.
Qed.

Lemma console_killed w s ds :
  console s (killed w ds (add_event (EvLog "Killing all browser instances...") (tested w s)))
  = teardown_output false.
Proof.
  unfold console. rewrite killed_trace, add_event_trace, <- app_assoc.
  rewrite drop_app_le by apply prefix_length, tested_trace_ext.
  rewrite !printed_app, printed_kills. fold (console s (tested w s)).
  by rewrite console_tested.
Qed.

Lemma console_torn_down w s ds :
  console s (torn_down w ds (tested w s)) = teardown_output true.
Proof.
  pose proof (console_killed w s ds) as H. unfold console, torn_down in *.
  rewrite !add_event_trace. cbn [st_trace set_server].
  rewrite <- app_assoc, drop_app_le, printed_app, H; [done|].
  rewrite killed_trace, add_event_trace, !length_app.
  pose proof (prefix_length _ _ (tested_trace_ext w s)). lia.
Qed.

Lemma printed_finish r :
  printed (finish r).2 = match r with Fulfilled err => announce err | Rejected e => report e end.
Proof.
  destruct r as [err|e]; unfold finish, announce, report.
  - by destruct (truthy err).
  - by destruct (get_stack e).
Qed.

(** The console of the promise chain. *)
Lemma console_toplevel w s :
  console s (toplevel w s).2 =
  match startup_error w with
  | Some e => report e
  | None =>
      match err_after (verdict w (address w) (started_drivers w s)) with
      | Rejected e => report e
      | Fulfilled err =>
          match outcome (Promise_all (kill_promise w <$> started_drivers w s)) with
          | Rejected e => teardown_output false ++ report e
          | Fulfilled _ => teardown_output true ++ announce err
          end
      end
  end.
Proof.
  rewrite run_toplevel. cbn [snd].
  rewrite console_add_events, printed_finish by apply (frame (m:=main w)).
  destruct (startup_error w) as [e|] eqn:He.
  - apply startup_error_Some in He as (bs1 & b & bs2 & Ht & H1 & Hb).
    rewrite (run_main_startup_err w s bs1 b bs2 e) by done. cbn [fst snd].
    by rewrite console_startup_err.
  - apply startup_error_None in He. rewrite run_main_tested by done.
    destruct (err_after _) as [err|e]; cbn [fst snd]; [|by rewrite console_tested].
    destruct (outcome _); cbn [fst snd]; by rewrite ?console_torn_down, ?console_killed.
Qed.

(** ** What the transcript says *)

Lemma stderr_app out1 out2 : stderr (out1 ++ out2) = stderr out1 ++ stderr out2.
Proof. apply omap_app. Qed.

Lemma report_error e : is_error e = true → ∃ st, report e = [Err (VStr st)] ∧ st ≠ "".
Proof. intros (st & -> & ?)%is_error_inv. by exists st. Qed.

Lemma stderr_report e : is_error e = true → stderr (report e) ≠ [].
Proof. by intros (st & -> & ?)%report_error. Qed.

Lemma stderr_teardown killed err : stderr (teardown_output killed ++ announce err) = [].
Proof. unfold announce. by destruct killed, (truthy err). Qed.

(** Standard error stays empty exactly in the clean runs. *)
Lemma stderr_clean w s :
  world_ok w → stderr (console s (toplevel w s).2) = [] ↔ clean w s = true.
Proof.
  intros Hw. rewrite console_toplevel. unfold clean.
  destruct (startup_error w) as [e|] eqn:He.
  { apply startup_error_Some in He as (bs1 & b & bs2 & Ht & _ & Hb).
    rewrite bool_decide_eq_false_2.
    - split; [|done]. intros []%stderr_report. apply (ok_driver_error w Hw b e Hb).
    - unfold drivers_ok. rewrite Ht, Forall_app, Forall_cons. intros (_ & ? & _). congruence. }
  rewrite bool_decide_eq_true_2, andb_true_l by (by apply startup_error_None).
  destruct (err_after_verdict w (address w) (started_drivers w s) Hw)
    as [[_ ->]|[_ [(st & _ & ->)|[_ ->]]]]; cbn [is_fulfilled andb]; [| |done].
  all: destruct (kills_outcome w (started_drivers w s) Hw) as [[Hk ->]|(Hk & e & Hee & ->)];
    [by rewrite bool_decide_eq_true_2, stderr_teardown|].
  all: rewrite bool_decide_eq_false_2, stderr_app by done; split; [|done].
  all: by intros [_ []%stderr_report]%app_eq_nil.
Qed.

(** The clean runs that are not green are those in which the discovery
    fails. *)
Lemma clean_not_green w s :
  world_ok w →
  clean w s = true ∧ green w s = false
  ↔ drivers_ok w
    ∧ (∃ st, verdict w (address w) (started_drivers w s) = Rejected (VError st))
    ∧ kills_ok w (started_drivers w s).
Proof.
  intros Hw. unfold clean, green.
  rewrite !andb_true_iff, !andb_false_iff, !bool_decide_eq_true, !bool_decide_eq_false.
  destruct (verdict w (address w) (started_drivers w s)) as [[]|e] eqn:Hv.
  { split; [by intros [[[? _] ?] [[?|?]|?]]|by intros (_ & [st ?] & _)]. }
  apply (verdict_rejected _ _ _ _ Hw) in Hv as [->|(st & -> & _)%is_error_inv].
  - split; [by intros [[[_ ?] _] _]|by intros (_ & [st ?] & _)].
  - split; [intros [[[? _] ?] _]|intros (? & _ & ?)]; split_and!; eauto.
Qed.

(** [Done.] is only ever printed by the teardown. *)
Lemma done_not_reported e : Out "Done." ∉ report e.
Proof.
  unfold report. destruct (get_stack e); [by intros [?|?%elem_of_nil]%elem_of_cons|].
  apply not_elem_of_nil.
Qed.

Lemma done_not_announced err : Out "Done." ∉ announce err.
Proof.
  unfold announce. destruct (truthy err); [apply not_elem_of_nil|].
  by intros [?|?%elem_of_nil]%elem_of_cons.
Qed.

Lemma done_teardown killed out :
  Out "Done." ∉ out → Out "Done." ∈ teardown_output killed ++ out ↔ killed = true.
Proof.
  intros Hout. rewrite elem_of_app. unfold teardown_output. destruct killed.
  - split; [done|]. intros _. left. by do 2 constructor.
  - split; [|done]. by intros [[?|?%elem_of_nil]%elem_of_cons|?].
Qed.

(** [Done.] is printed exactly in the clean runs. *)
Lemma done_clean w s : Out "Done." ∈ console s (toplevel w s).2 ↔ clean w s = true.
Proof.
  rewrite console_toplevel. unfold clean.
  destruct (startup_error w) as [e|] eqn:He.
  { rewrite bool_decide_eq_false_2 by (rewrite <- startup_error_None; congruence).
    split; [by intros ?%done_not_reported|done]. }
  rewrite bool_decide_eq_true_2, andb_true_l by (by apply startup_error_None).
  destruct (err_after _) as [err|e]; [|split; [by intros ?%done_not_reported|done]].
  cbn [is_fulfilled andb]. destruct (outcome _) as [l|e] eqn:Ho.
  - rewrite done_teardown by apply done_not_announced.
    rewrite bool_decide_eq_true_2; [done|]. by eapply kill_promises_fulfilled.
  - rewrite done_teardown by apply done_not_reported.
    rewrite bool_decide_eq_false_2; [done|]. intros Hk. by rewrite kill_promises_ok in Ho.
Qed.

(** C8: the console of every run.  Whatever the machine, what a run of the
    script prints from its start to its end is [transcript], in order: the
    error of a missing library; or the stack of the first driver that
    cannot be started; or, after failing tests, the [TypeError] of the
    [catch] block and nothing about the teardown; or the announcement of
    the teardown, followed by the stack of a kill that failed, or by
    [Done.] and, when [err] is empty, the final message.  Nothing else of
    the script reaches the console: neither the tests nor the kills print. *)
Theorem script_console w s : console s (script w s).2 = transcript w s.
Proof.
  rewrite run_script. unfold transcript. destruct (first_missing w) as [name|]; cbn [snd].
  - by rewrite console_add_event, console_refl.
  - apply console_toplevel.
Qed.

(** C21: the failures that leave no message.  With collaborators that
    throw only [Error] objects, a run ends with exit code 1 and nothing on
    standard error exactly when the libraries are found, every driver
    starts, the discovery fails (the listing of a directory, or the
    loading of a suite file) and every kill succeeds: an error of the
    discovery is the one failure after which the process exits with code 1
    and has written nothing to standard error. *)
Theorem silent_failure w s :
  world_ok w →
  (script w s).1 = Fulfilled (Exit 1) ∧ stderr (console s (script w s).2) = []
  ↔ first_missing w = None ∧ drivers_ok w
    ∧ (∃ st, verdict w (address w) (started_drivers w s) = Rejected (VError st))
    ∧ kills_ok w (started_drivers w s).
Proof.
  intros Hw. rewrite <- clean_not_green, run_script by done.
  destruct (first_missing w) as [name|]; cbn [fst snd].
  - rewrite console_add_event, console_refl by done. split; [by intros [_ ?]|by intros [? _]].
  - rewrite stderr_clean, toplevel_end by done.
    destruct (green w s); (split; [intros [H1 H2]|intros (_ & H1 & H2)]); done.
Qed.

(** C27: [Done.] is true.  When the libraries are found, the script prints
    [Done.] exactly in the runs at whose end the server is closed, and then
    the sessions are those the run started with. *)
Theorem done_is_true w s :
  state_ok s → first_missing w = None →
  (Out "Done." ∈ console s (script w s).2 ↔ st_server (script w s).2 = SrvClosed)
  ∧ (Out "Done." ∈ console s (script w s).2 → st_sessions (script w s).2 = st_sessions s).
Proof.
  intros Hs Hm. rewrite run_script, Hm.
  assert (st_server (toplevel w s).2 = if clean w s then SrvClosed else SrvListening (w_port w))
    as Hsrv by (rewrite run_toplevel; apply main_server).
  assert (clean w s = true → st_sessions (toplevel w s).2 = st_sessions s) as Hses.
  { rewrite run_toplevel. cbn [snd]. rewrite add_events_sessions. by apply main_clean_sessions. }
  rewrite done_clean, Hsrv. split; [by destruct (clean w s)|done].
Qed.

(** ** The sample machines *)

Lemma silent_failure_witness :
  (script world_no_elements init_state).1 = Fulfilled (Exit 1)
  ∧ stderr (console init_state (script world_no_elements init_state).2) = [].
Proof.
  apply (silent_failure world_no_elements init_state world_no_elements_ok).
  split_and!; [done|by repeat constructor|by eexists; vm_compute|by repeat constructor].
Defined.

Lemma done_is_true_witness :
  (Out "Done." ∈ console init_state (script world_green init_state).2
   ↔ st_server (script world_green init_state).2 = SrvClosed)
  ∧ (Out "Done." ∈ console init_state (script world_green init_state).2
     → st_sessions (script world_green init_state).2 = st_sessions init_state).
Proof. apply (done_is_true world_green init_state); [apply init_state_ok|done]. Defined.

(** The consoles of the sample machines: a green run; failing tests, of
    which the console says nothing but the [TypeError]; a missing
    [elements/] directory, of which it says nothing at all; a browser that
    does not start. *)
Example transcript_samples :
  transcript world_green init_state
  = [Out "Killing all browser instances..."; Out "Done."; Out "e2e tests done."]
  ∧ transcript world_red init_state
    = [Err (VStr "TypeError: Cannot read property 'stack' of undefined")]
  ∧ transcript world_no_elements init_state
    = [Out "Killing all browser instances..."; Out "Done."]
  ∧ stderr (transcript world_no_driver init_state) ≠ []
  ∧ transcript world_no_mocha init_state = [Err (module_not_found "mocha")].
Proof. by vm_compute. Qed.
