(* ===== verification/Faults.v ===== *)
(** * Faults: operations that never complete

    The script waits without a time limit for four kinds of operation of
    its collaborators: the ['listening'] event of the server (line 17),
    the listings of [fs.readdir] (lines 23 and 26), the callback of
    [mocha.run] (line 91) and the promise of [killWebDriver] (line 82).
    [Faults] says which of them never complete on a machine; the world
    still says how the others end.  A promise that may stay pending is a
    [Fate], and [Fate_all] is [Promise.all] over such promises: it settles
    once every member has, or as soon as one is rejected.

    [discover] is [buildMocha] with listings that may never arrive.  Only
    a listing that would arrive can stay pending: a read that the machine
    lets fail, fails.  So a discovery either waits for ever, for the reads
    [unread] names, or ends as [Discovery.built] says. *)

From stdpp Require Import base tactics list strings numbers gmap.
From S2P Require Import Prelude Js Externals Effects Samples Discovery Main.

(** ** Definitions *)

(** What becomes of the promise of an asynchronous operation. *)
Inductive Fate (A : Type) :=
  | Settles (p : Promise A)
  | Never.
Arguments Settles {A} _.
Arguments Never {A}.

(** What follows [listen()] when the server does not start listening:
    nothing at all, or an ['error'] event, which nobody listens to. *)
Inductive ListenFault :=
  | ListenSilent
  | ListenError (e : JsVal).

(** The operations that misbehave. *)
Record Faults := mkFaults {
  listen_fault : option ListenFault;   (* the server does not start listening *)
  read_hangs : string → bool;          (* the listing of [fs.readdir(path)] never arrives *)
  run_hangs : Mocha → bool;            (* [mocha.run] never calls back *)
  kill_hangs : Driver → bool;          (* the promise of [killWebDriver] stays pending *)
}.

Definition no_faults : Faults :=
  {| listen_fault := None; read_hangs := λ _, false;
     run_hangs := λ _, false; kill_hangs := λ _, false |}.

(** The promises among [fs] that settle. *)
Definition settling {A} (fs : list (Fate A)) : list (Promise A) :=
  omap (λ f, match f with Settles p => Some p | Never => None end) fs.

Definition is_settles {A} (f : Fate A) : bool :=
  match f with Settles _ => true | Never => false end.

(** [Promise.all] of promises some of which may stay pending: it settles
    once every member has settled, or as soon as one is rejected. *)
Definition Fate_all {A} (fs : list (Fate A)) : Fate (list A) :=
  if forallb is_settles fs || negb (is_fulfilled (outcome (Promise_all (settling fs))))
  then Settles (Promise_all (settling fs))
  else Never.

(** How a promise has settled, whatever its value. *)
Definition settled {A} (r : Result A) : Result unit :=
  match r with Fulfilled _ => Fulfilled tt | Rejected e => Rejected e end.

(** The fates of the kills. *)
Definition kill_fates (h : Faults) (drivers : list Driver) (kills : list (Promise unit))
    : list (Fate unit) :=
  zip_with (λ d p, if kill_hangs h d then Never else Settles p) drivers kills.

(** A promise that settles when the read of [path] does stays pending: a
    listing that would arrive may never do so; a read that fails, fails. *)
Definition stays_pending {A} (h : Faults) (path : string) (p : Promise A) : bool :=
  read_hangs h path && is_fulfilled (outcome p).

Definition read_fate {A} (h : Faults) (path : string) (p : Promise A) : Fate A :=
  if stays_pending h path p then Never else Settles p.

(** The fates of the promises of [elements.map(async element => ...)]
    (lines 25-31). *)
Definition probe_fates (h : Faults) (elements : list string) (probes : list (Promise string))
    : list (Fate string) :=
  zip_with (λ element p, read_fate h (element_dir element) p) elements probes.

(** The probe of [element] stays pending. *)
Definition probe_pending (h : Faults) (promise : string → Promise string) (element : string)
    : bool :=
  stays_pending h (element_dir element) (promise element).

(** What a discovery comes to: a Mocha, or reads whose listings it waits
    for. *)
Inductive Found :=
  | Built (mocha : Mocha)
  | Unread (paths : list string).

(** [buildMocha()] (lines 21-40) with listings that may never arrive: the
    function stays suspended at line 23 when the listing of [elements]
    does not arrive, and at line 24 when the aggregate of the probes does
    not settle. *)
Definition discover (h : Faults) (w : World) : Prog Found :=
  let mocha := new_Mocha in
  listing ← readdir w "elements";
  match read_fate h "elements" listing with
  | Never => mret (Unread ["elements"])
  | Settles listing =>
      elements ← await listing;
      probes ← mapM (probe w) elements;
      match Fate_all (probe_fates h elements probes) with
      | Never => mret (Unread (Array_filter (read_hangs h) (element_dir <$> elements)))
      | Settles filtered =>
          filteredElements ← await filtered;
          let mocha := register filteredElements mocha in
          let mocha := set_timeout 60000 mocha in
          Built <$> loadFiles w mocha
      end
  end.

(** ** Specification *)

(** The reads a discovery waits for, when it waits for ever: the listing
    of [elements], or, when no unit directory fails to be read, the
    listings of the unit directories that do not arrive. *)
Definition unread (h : Faults) (w : World) : option (list string) :=
  match readdir_result w "elements" with
  | Rejected _ => None
  | Fulfilled elements =>
      if read_hangs h "elements" then Some ["elements"]
      else if forallb (λ element, is_fulfilled (readdir_result w (element_dir element))) elements
              && existsb (λ element, read_hangs h (element_dir element)) elements
      then Some (Array_filter (read_hangs h) (element_dir <$> elements))
      else None
  end.

(** The reads a discovery that waits for ever has issued. *)
Definition issued (h : Faults) (w : World) : list Event :=
  match readdir_result w "elements" with
  | Fulfilled elements =>
      if read_hangs h "elements" then [EvReaddir "elements"] else discovery_reads elements
  | Rejected _ => [EvReaddir "elements"]
  end.

(** Sample faults: the server fails without a sign, or with an error;
    every run hangs; every kill stays pending; the listing of [elements],
    or that of one unit directory, never arrives. *)
Definition faults_silent : Faults :=
  {| listen_fault := Some ListenSilent; read_hangs := λ _, false;
     run_hangs := λ _, false; kill_hangs := λ _, false |}.

Definition faults_bind_error : Faults :=
  {| listen_fault := Some (ListenError (VError "Error: listen EMFILE"));
     read_hangs := λ _, false; run_hangs := λ _, false; kill_hangs := λ _, false |}.

Definition faults_hung_run : Faults :=
  {| listen_fault := None; read_hangs := λ _, false;
     run_hangs := λ _, true; kill_hangs := λ _, false |}.

Definition faults_hung_kill : Faults :=
  {| listen_fault := None; read_hangs := λ _, false;
     run_hangs := λ _, false; kill_hangs := λ _, true |}.

Definition faults_hung_listing : Faults :=
  {| listen_fault := None; read_hangs := λ path, bool_decide (path = "elements");
     run_hangs := λ _, false; kill_hangs := λ _, false |}.

Definition faults_hung_unit : Faults :=
  {| listen_fault := None; read_hangs := λ path, bool_decide (path = "elements/unit-a/");
     run_hangs := λ _, false; kill_hangs := λ _, false |}.

(** ** [Promise.all] with members that stay pending *)

Lemma settling_cons {A} (f : Fate A) fs :
  settling (f :: fs) = match f with Settles p => p :: settling fs | Never => settling fs end.
Proof. by destruct f. Qed.

Lemma Fate_all_settles {A} (ps : list (Promise A)) :
  Fate_all (Settles <$> ps) = Settles (Promise_all ps).
Proof.
  unfold Fate_all. assert (settling (Settles <$> ps) = ps) as ->.
  { induction ps as [|p ps IH]; [done|]. by rewrite fmap_cons, settling_cons, IH. }
  assert (forallb is_settles (Settles <$> ps) = true) as -> by (by induction ps).
  done.
Qed.

(** How an aggregate settles, whatever its values, is decided by the
    rejections of its members. *)
Lemma Promise_all_settled {A} (ps qs : list (Promise A)) :
  rejections ps = rejections qs →
  settled (outcome (Promise_all ps)) = settled (outcome (Promise_all qs)).
Proof. unfold Promise_all. intros ->. by destruct (rejections qs). Qed.

Lemma Fate_all_inv {A} (fs : list (Fate A)) p :
  Fate_all fs = Settles p → p = Promise_all (settling fs).
Proof. unfold Fate_all. destruct (_ || _); by intros [= <-]. Qed.

(** A rejected aggregate is decided by the rejections of its members. *)
Lemma Promise_all_rejections {A} (ps qs : list (Promise A)) :
  rejections ps = rejections qs → rejections qs ≠ [] → Promise_all ps = Promise_all qs.
Proof. unfold Promise_all. intros ->. by destruct (rejections qs). Qed.

(** ** The kills *)

Section kill_fates.
Context (h : Faults) (w : World).
Implicit Types (ds : list Driver).

Lemma kill_fates_cons d ds :
  kill_fates h (d :: ds) (kill_promise w <$> d :: ds)
  = (if kill_hangs h d then Never else Settles (kill_promise w d))
      :: kill_fates h ds (kill_promise w <$> ds).
Proof. done. Qed.

(** When no kill stays pending the fates are the promises. *)
Lemma kill_fates_settle ds :
  forallb is_settles (kill_fates h ds (kill_promise w <$> ds)) = true →
  settling (kill_fates h ds (kill_promise w <$> ds)) = kill_promise w <$> ds.
Proof.
  induction ds as [|d ds IH]; [done|]. rewrite kill_fates_cons, settling_cons.
  destruct (kill_hangs h d); [done|]. simpl. intros ?. by rewrite IH.
Qed.

(** A kill that stays pending is not among the rejections. *)
Lemma kill_fates_rejections ds :
  (∀ d, kill_hangs h d = true → w_kill_error w d = None) →
  rejections (settling (kill_fates h ds (kill_promise w <$> ds)))
  = rejections (kill_promise w <$> ds).
Proof.
  intros Hk. induction ds as [|d ds IH]; [done|].
  rewrite kill_fates_cons, settling_cons, fmap_cons, (rejections_cons (kill_promise w d)).
  destruct (kill_hangs h d) eqn:Hd; [|by rewrite rejections_cons, IH].
  assert (outcome (kill_promise w d) = Fulfilled tt) as ->; [|done].
  unfold kill_promise. by rewrite (Hk d Hd).
Qed.

(** When the aggregate of the kills settles, it settles as it would with
    no kill pending. *)
Lemma Fate_all_kills ds p :
  (∀ d, kill_hangs h d = true → w_kill_error w d = None) →
  Fate_all (kill_fates h ds (kill_promise w <$> ds)) = Settles p →
  outcome p = outcome (Promise_all (kill_promise w <$> ds)).
Proof.
  intros Hk. unfold Fate_all.
  destruct (forallb is_settles _) eqn:Hall; cbn [orb].
  { intros [= <-]. by rewrite kill_fates_settle. }
  destruct (is_fulfilled _) eqn:Hf; cbn [negb]; [done|]. intros [= <-].
  unfold Promise_all in *. rewrite kill_fates_rejections in * by done.
  by destruct (rejections (kill_promise w <$> ds)).
Qed.

End kill_fates.

Lemma kill_fates_no_faults ds ps : forallb is_settles (kill_fates no_faults ds ps) = true.
Proof. revert ps. induction ds as [|d ds IH]; intros [|p ps]; simpl; auto. Qed.

(** ** The probes *)

Section probe_fates.
Context (h : Faults) (promise : string → Promise string).
Implicit Types (xs : list string).

Lemma probe_fates_cons x xs :
  probe_fates h (x :: xs) (promise <$> x :: xs)
  = (if probe_pending h promise x then Never else Settles (promise x)) :: probe_fates h xs (promise <$> xs).
Proof. done. Qed.

(** A probe that stays pending is not among the rejections. *)
Lemma probe_fates_rejections xs :
  rejections (settling (probe_fates h xs (promise <$> xs))) = rejections (promise <$> xs).
Proof.
  induction xs as [|x xs IH]; [done|].
  rewrite probe_fates_cons, settling_cons, fmap_cons, (rejections_cons (promise x)).
  destruct (probe_pending h promise x) eqn:Hx; [|by rewrite rejections_cons, IH].
  apply andb_true_iff in Hx as [_ Hx]. by destruct (outcome (promise x)).
Qed.

Lemma probe_fates_settle xs :
  forallb is_settles (probe_fates h xs (promise <$> xs)) = negb (existsb (probe_pending h promise) xs).
Proof.
  induction xs as [|x xs IH]; [done|]. rewrite probe_fates_cons. cbn [forallb existsb].
  rewrite IH. by destruct (probe_pending h promise x).
Qed.

Lemma probe_fates_settling xs :
  existsb (probe_pending h promise) xs = false → settling (probe_fates h xs (promise <$> xs)) = promise <$> xs.
Proof.
  induction xs as [|x xs IH]; [done|]. rewrite probe_fates_cons, settling_cons. cbn [existsb].
  intros [-> ?]%orb_false_iff. by rewrite fmap_cons, IH.
Qed.

(** The aggregate of the probes stays pending exactly when no probe is
    rejected and some listing does not arrive; otherwise it settles as the
    aggregate of the promises. *)
Lemma Fate_all_probes xs :
  Fate_all (probe_fates h xs (promise <$> xs))
  = if forallb (λ x, is_fulfilled (outcome (promise x))) xs
       && existsb (λ x, read_hangs h (element_dir x)) xs
    then Never else Settles (Promise_all (promise <$> xs)).
Proof.
  unfold Fate_all. rewrite probe_fates_settle.
  destruct (forallb _ xs) eqn:Hall; cbn [andb].
  - assert (existsb (probe_pending h promise) xs
            = existsb (λ x, read_hangs h (element_dir x)) xs) as ->.
    { induction xs as [|x xs IH]; [done|]. cbn [forallb existsb] in *.
      apply andb_true_iff in Hall as [Hx Hall]. unfold probe_pending at 1, stays_pending.
      by rewrite Hx, andb_true_r, IH. }
    assert (is_fulfilled (outcome (Promise_all (settling (probe_fates h xs (promise <$> xs)))))
            = true) as ->.
    { apply Promise_all_is_fulfilled, rejections_nil. rewrite probe_fates_rejections.
      apply rejections_nil, Forall_fmap, Forall_forall. intros x Hx.
      by apply (proj1 (forallb_elem_of _ _) Hall). }
    destruct (existsb _ xs) eqn:Hex; [done|]. cbn. rewrite probe_fates_settling; [done|].
    induction xs as [|x xs IH]; [done|]. cbn [forallb existsb] in *.
    apply andb_true_iff in Hall as [Hx Hall]. apply orb_false_iff in Hex as [Hh Hex].
    unfold probe_pending at 1, stays_pending. by rewrite Hh, IH.
  - assert (rejections (promise <$> xs) ≠ []) as Hr.
    { rewrite rejections_nil, Forall_fmap, Forall_forall. intros Hf.
      apply not_true_iff_false in Hall. destruct Hall. apply forallb_elem_of. intros x Hx.
      by apply Hf. }
    rewrite (Promise_all_rejections _ (promise <$> xs)) by (by rewrite ?probe_fates_rejections).
    assert (is_fulfilled (outcome (Promise_all (promise <$> xs))) = false) as ->.
    { apply not_true_iff_false. by rewrite Promise_all_is_fulfilled, <- rejections_nil. }
    by rewrite orb_true_r.
Qed.

End probe_fates.

(** ** The discovery *)

Lemma probe_fulfilled w element :
  is_fulfilled (outcome (probe_promise w element))
  = is_fulfilled (readdir_result w (element_dir element)).
Proof. unfold probe_promise. by rewrite Promise_then_is_fulfilled. Qed.

Lemma probes_fulfilled_reads w elements :
  forallb (λ element, is_fulfilled (outcome (probe_promise w element))) elements
  = forallb (λ element, is_fulfilled (readdir_result w (element_dir element))) elements.
Proof. induction elements as [|x xs IH]; [done|]. cbn [forallb]. by rewrite probe_fulfilled, IH. Qed.

(** [discover] implements [unread] and [built]: a discovery waits for ever
    for the reads [unread] names, having issued the reads [issued] lists, or
    it is the discovery without faults. *)
Lemma run_discover h w s :
  discover h w s =
  match unread h w with
  | Some paths => (Fulfilled (Unread paths), add_events (issued h w) s)
  | None =>
      (match (built w).1 with Fulfilled m => Fulfilled (Built m) | Rejected e => Rejected e end,
       add_events (built w).2 s)
  end.
Proof.
  unfold discover, unread, issued, built, read_fate, stays_pending.
  rewrite run_bind, run_readdir. cbn [outcome].
  destruct (readdir_result w "elements") as [elements|e]; cbn [is_fulfilled].
  2: { rewrite andb_false_r, run_bind, run_await. done. }
  rewrite andb_true_r. destruct (read_hangs h "elements"); [by rewrite run_ret|].
  rewrite run_bind, run_await. cbn [outcome]. rewrite run_bind, run_probes.
  rewrite add_event_add_events, add_events_app, Fate_all_probes.
  rewrite probes_fulfilled_reads.
  destruct (_ && _); [by rewrite run_ret|].
  rewrite run_bind, run_await. destruct (outcome (Promise_all _)) as [names|e]; [|done].
  rewrite run_fmap, run_loadFiles. cbn [fst snd]. rewrite add_events_app.
  by destruct (loaded w _ _).1.
Qed.

(** The reads a discovery waits for are reads whose listings do not
    arrive, and there is one at least. *)
Lemma unread_hangs h w paths :
  unread h w = Some paths → paths ≠ [] ∧ Forall (λ path, read_hangs h path = true) paths.
Proof.
  unfold unread. destruct (readdir_result w "elements") as [elements|e]; [|done].
  destruct (read_hangs h "elements") eqn:He; [intros [= <-]; by repeat constructor|].
  destruct (_ && _) eqn:E; [|done]. intros [= <-].
  apply andb_true_iff in E as [_ (x & Hx & Hh)%existsb_elem_of]. split.
  - intros Hnil. assert (element_dir x ∈ Array_filter (read_hangs h) (element_dir <$> elements))
      as Hin by (apply Array_filter_spec; split; [done|by apply list_elem_of_fmap_2]).
    rewrite Hnil in Hin. by apply elem_of_nil in Hin.
  - apply Forall_forall. by intros path [? _]%Array_filter_spec.
Qed.

(** A discovery in which no read is issued for a listing that does not
    arrive does not wait. *)
Lemma unread_none h w : (∀ path, read_hangs h path = false) → unread h w = None.
Proof.
  intros Hh. unfold unread. destruct (readdir_result w "elements") as [elements|e]; [|done].
  rewrite Hh. assert (existsb (λ element, read_hangs h (element_dir element)) elements = false)
    as -> by (induction elements; [done|]; cbn; by rewrite Hh).
  by rewrite andb_false_r.
Qed.

(** What a discovery that waits has issued is the beginning of what the
    discovery does. *)
Lemma issued_prefix h w paths : unread h w = Some paths → issued h w `prefix_of` (built w).2.
Proof.
  unfold unread, issued, built. destruct (readdir_result w "elements") as [elements|e]; [|done].
  rewrite <- probes_fulfilled_reads.
  destruct (read_hangs h "elements").
  { intros _. destruct (outcome (Promise_all _)); by eexists. }
  destruct (forallb _ elements) eqn:Hall; [|done]. intros _.
  assert (is_fulfilled (outcome (Promise_all (probe_promise w <$> elements))) = true) as Hf.
  { apply Promise_all_is_fulfilled, Forall_fmap, Forall_forall. intros x Hx.
    by apply (proj1 (forallb_elem_of _ _) Hall). }
  destruct (outcome (Promise_all _)); [by eexists|done].
Qed.

(** C26: faults of the reads can only keep a discovery waiting.  Whatever
    listings never arrive, a discovery either waits for ever, for at least
    one listing and only for listings that do not arrive, having done
    nothing but the beginning of what [buildMocha] does; or it ends as
    [buildMocha] does, with the same Mocha or the same error and the same
    effects. *)
Theorem discover_delays h w s :
  match (discover h w s).1 with
  | Fulfilled (Unread paths) =>
      paths ≠ [] ∧ Forall (λ path, read_hangs h path = true) paths
      ∧ ∃ evs, (discover h w s).2 = add_events evs s
               ∧ evs `prefix_of` (built w).2 ∧ (buildMocha w s).2 = add_events (built w).2 s
  | _ => discover h w s = (Built <$> buildMocha w) s
  end.
Proof.
  rewrite run_discover, run_fmap, run_buildMocha_built.
  destruct (unread h w) as [paths|] eqn:Hu; cbn [fst snd]; [|by destruct (built w).1].
  destruct (unread_hangs h w paths Hu). split_and!; [done..|].
  exists (issued h w). split_and!; [done|by eapply issued_prefix|done].
Qed.

(** The discovery of the sample machine with each fault of a read.  On
    the machine with a stray file the listing of [unit-a] is not waited
    for: the read of the stray entry fails and settles the aggregate. *)
Example discover_samples :
  unread no_faults world_green = None
  ∧ unread faults_hung_listing world_green = Some ["elements"]
  ∧ unread faults_hung_unit world_green = Some ["elements/unit-a/"]
  ∧ unread faults_hung_unit world_stray_file = None
  ∧ (discover faults_hung_unit world_green init_state).1 = Fulfilled (Unread ["elements/unit-a/"])
  ∧ st_trace (discover faults_hung_unit world_green init_state).2
    = EvReaddir <$> ["elements"; "elements/unit-a/"; "elements/unit-b/"].
Proof. evaluated. Qed.
