(* ===== verification/Lifecycle.v ===== *)
(** * Lifecycle: the script suspended at its awaits

    [Prog] runs a piece of script to its outcome; it cannot say that the
    script is waiting.  The script waits at four places: for the server and
    the drivers (line 58), for the chain of [runTests] (line 75, and inside
    it lines 100, 101 and 106), for the kills (line 81) and for the handlers
    of the last lines.  Four of the operations it waits for have no
    time limit in the script: the ['listening'] event of the server (the
    promise of [startServer] has no [reject] path and the server has no
    ['error'] listener), the listings of the directories that a discovery
    reads, the callback of [mocha.run] and the promise of [killWebDriver].

    This file cuts the script at its awaits.  A configuration is the stage
    the script is suspended in and the state; a step resumes the script and
    runs it, with the programs of the component files, to the next await.
    [Faults.Faults] says which of the four operations misbehave.  The
    theorems: a step function computes the relation and every run comes to
    rest within a bound; without faults the runs are those of
    [Script.script]; with faults a run that ends, ends as the script does.
    Where a run that does not end is waiting is the subject of
    [Hangs.v]. *)

From stdpp Require Import base tactics list strings numbers gmap relations.
From S2P Require Import Prelude Js Externals Effects Samples Browsers Server Discovery.
From S2P Require Import Sequencer Machine Main Script Faults.

(** ** Definitions *)

(** What [startServer()] has set in motion. *)
Inductive Launch :=
  | Launched (p : Promise Server)
  | Silent
  | Errored (e : JsVal).

(** The stage the script is suspended in. *)
Inductive Stage :=
  | Booting                                   (* nothing has run yet *)
  | Crashing (e : JsVal)                      (* an exception reached the top of the module *)
  | Loaded                                    (* lines 1-5 are done, [main()] is about to be called *)
  | AwaitStartup (server : Launch) (drivers : list Driver)          (* line 58 *)
  | Testing (address : string) (drivers : list Driver) (c : Config) (* line 75 *)
  | Reading (driver : Driver) (paths : list string)                 (* lines 23 and 24 *)
  | AwaitKills (err : JsVal) (kills : list (Fate unit))             (* line 81 *)
  | MainSettled (r : Result JsVal)            (* line 112: the promise of [main()] has settled *)
  | Ended (r : Result ProcessEnd).

Definition Life : Type := Stage * State.

(** Resuming the script: [m] runs to the next await, and its outcome
    decides the stage the script is suspended in next. *)
Definition resume {A} (m : Prog A) (k : Result A → Stage) (s : State) : Life :=
  (k (m s).1, (m s).2).

(** Lines 12-19 with a server that may not start: only a server that
    listens has an effect the script can see.  Whether the server fails,
    and how, is the oracle [listen_fault]: the promise has no [reject]
    path, so a server that does not listen leaves it pending, with or
    without an ['error'] event. *)
Definition launch (h : Faults) (w : World) : Prog Launch :=
  match listen_fault h with
  | None => Launched <$> startServer w
  | Some ListenSilent => mret Silent
  | Some (ListenError e) => mret (Errored e)
  end.

(** Lines 57-68 up to the [await]: the calls of the array literal. *)
Definition main_calls (h : Faults) (w : World) : Prog (Launch * list Driver) :=
  server ← launch h w;
  drivers ← provision w;
  mret (server, drivers).

(** Lines 73-83 after [runTests] has settled with [r]: the end of the
    [try] statement and the teardown up to its [await]. *)
Definition begin_teardown (w : World) (drivers : list Driver) (r : Result unit)
    : Prog (JsVal * list (Promise unit)) :=
  err ← liftR (err_after r);
  console_log "Killing all browser instances...";;
  kills ← mapM (killWebDriver w) drivers;
  mret (err, kills).

(** Lines 81-86 once the aggregate of the kills has settled as [p]. *)
Definition end_teardown (p : Promise (list unit)) (err : JsVal) : Prog JsVal :=
  await p;;
  server_close;;
  console_log "Done.";;
  mret err.

(** Lines 112-120 once [main()] has settled with [r]. *)
Definition handlers (r : Result JsVal) : Prog ProcessEnd :=
  try_catch (liftR r ≫= on_fulfilled) on_rejected.

(** The stage after each piece. *)
Definition after_imports (r : Result unit) : Stage :=
  match r with Fulfilled _ => Loaded | Rejected e => Crashing e end.

Definition after_calls (r : Result (Launch * list Driver)) : Stage :=
  match r with
  | Fulfilled (server, drivers) => AwaitStartup server drivers
  | Rejected e => MainSettled (Rejected e)
  end.

Definition after_startup (drivers : list Driver) (r : Result Server) : Stage :=
  match r with
  | Fulfilled server => Testing (address_of server) drivers (Idle drivers)
  | Rejected e => MainSettled (Rejected e)
  end.

Definition after_tests (h : Faults) (drivers : list Driver)
    (r : Result (JsVal * list (Promise unit))) : Stage :=
  match r with
  | Fulfilled (err, kills) => AwaitKills err (kill_fates h drivers kills)
  | Rejected e => MainSettled (Rejected e)
  end.

(** Lines 101-106 once the discovery for [driver] has come to [r]: the
    script waits for listings, calls [mocha.run], or leaves the chain. *)
Definition after_discovery (address : string) (drivers : list Driver) (driver : Driver)
    (pending : list Driver) (r : Result Found) : Stage :=
  match r with
  | Fulfilled (Built m) =>
      Testing address drivers (Busy driver (Running (inject driver address m)) pending)
  | Fulfilled (Unread paths) => Reading driver paths
  | Rejected e => Testing address drivers (Busy driver (Finished (Rejected e)) pending)
  end.

(** The sequencer is about to call [buildMocha]. *)
Definition discovering (c : Config) : bool :=
  match c with
  | Busy _ Discovering _ => true
  | _ => false
  end.

(** The sequencer is waiting for a run that never calls back. *)
Definition blocked (h : Faults) (c : Config) : bool :=
  match c with
  | Busy _ (Running m) _ => run_hangs h m
  | _ => false
  end.

(** One step of the script: from an await to the next. *)
Inductive life_step (h : Faults) (w : World) : relation Life :=
  | life_boot s :
      life_step h w (Booting, s) (resume (imports w) after_imports s)
  | life_crash e s :
      life_step h w (Crashing e, s) (resume (uncaught e) Ended s)
  | life_main s :
      life_step h w (Loaded, s) (resume (main_calls h w) after_calls s)
  | life_listening p drivers s :
      life_step h w (AwaitStartup (Launched p) drivers, s)
        (resume (await p) (after_startup drivers) s)
  | life_listen_error e drivers s :
      life_step h w (AwaitStartup (Errored e) drivers, s) (Crashing e, s)
  | life_test address drivers c evs c' s :
      seq_step w address c evs c' →
      discovering c = false →
      blocked h c = false →
      life_step h w (Testing address drivers c, s) (Testing address drivers c', add_events evs s)
  | life_discover address drivers d pending s :
      life_step h w (Testing address drivers (Busy d Discovering pending), s)
        (resume (discover h w) (after_discovery address drivers d pending) s)
  | life_tested address drivers r s :
      life_step h w (Testing address drivers (Settled r), s)
        (resume (begin_teardown w drivers r) (after_tests h drivers) s)
  | life_killed err kills p s :
      Fate_all kills = Settles p →
      life_step h w (AwaitKills err kills, s) (resume (end_teardown p err) MainSettled s)
  | life_handlers r s :
      life_step h w (MainSettled r, s) (resume (handlers r) Ended s).

(** The same step as a function. *)
Definition life_next (h : Faults) (w : World) (l : Life) : option Life :=
  match l.1 with
  | Booting => Some (resume (imports w) after_imports l.2)
  | Crashing e => Some (resume (uncaught e) Ended l.2)
  | Loaded => Some (resume (main_calls h w) after_calls l.2)
  | AwaitStartup (Launched p) drivers => Some (resume (await p) (after_startup drivers) l.2)
  | AwaitStartup (Errored e) drivers => Some (Crashing e, l.2)
  | AwaitStartup Silent _ => None
  | Testing address drivers (Settled r) =>
      Some (resume (begin_teardown w drivers r) (after_tests h drivers) l.2)
  | Testing address drivers (Busy d Discovering pending) =>
      Some (resume (discover h w) (after_discovery address drivers d pending) l.2)
  | Testing address drivers c =>
      if blocked h c then None
      else '(evs, c') ← seq_next w address c; Some (Testing address drivers c', add_events evs l.2)
  | AwaitKills err kills =>
      match Fate_all kills with
      | Settles p => Some (resume (end_teardown p err) MainSettled l.2)
      | Never => None
      end
  | MainSettled r => Some (resume (handlers r) Ended l.2)
  | Reading _ _ | Ended _ => None
  end.

(** The script run for at most [fuel] steps. *)
Fixpoint life_run (h : Faults) (w : World) (fuel : nat) (l : Life) : Life :=
  match fuel with
  | 0 => l
  | S fuel' =>
      match life_next h w l with
      | Some l' => life_run h w fuel' l'
      | None => l
      end
  end.

(** The process has ended. *)
Definition ended (stage : Stage) : bool :=
  match stage with Ended _ => true | _ => false end.

(** The operation a suspended script waits for without a limit. *)
Inductive Wait :=
  | WaitListening
  | WaitRead (driver : Driver) (paths : list string)
  | WaitRun (driver : Driver) (m : Mocha)
  | WaitKills.

Definition waits_for (h : Faults) (stage : Stage) : option Wait :=
  match stage with
  | AwaitStartup Silent _ => Some WaitListening
  | Reading d paths => Some (WaitRead d paths)
  | Testing _ _ (Busy d (Running m) _) => if run_hangs h m then Some (WaitRun d m) else None
  | AwaitKills _ kills => if is_settles (Fate_all kills) then None else Some WaitKills
  | _ => None
  end.

(** A bound on the number of steps left. *)
Definition life_size (w : World) (stage : Stage) : nat :=
  match stage with
  | Booting => 8 + 5 * length (targets w)
  | Loaded => 7 + 5 * length (targets w)
  | AwaitStartup _ drivers => 6 + 5 * length drivers
  | Testing _ _ c => 4 + size c
  | AwaitKills _ _ => 3
  | MainSettled _ => 2
  | Crashing _ => 1
  | Reading _ _ | Ended _ => 0
  end.

(** Fuel enough for a whole run. *)
Definition life_fuel (w : World) : nat := 8 + 5 * length (targets w).

(** What is left of the run for a driver in a phase, and of the chain in
    a configuration of the sequencer. *)
Definition rest_phase (w : World) (address : string) (d : Driver) (p : Phase) : Prog unit :=
  match p with
  | NotStarted | Discovering => step w address d
  | Running m => runMocha w m
  | Finished r => liftR r
  end.

Definition rest_tests (w : World) (address : string) (c : Config) : Prog unit :=
  match c with
  | Idle ds => runTests w address ds
  | Busy d p ds => rest_phase w address d p;; runTests w address ds
  | Settled r => liftR r
  end.

(** [main] from the [try] statement on, with [tests] in the place of the
    call of [runTests]. *)
Definition conclude (w : World) (drivers : list Driver) (tests : Prog unit) : Prog JsVal :=
  err ← try_catch (tests;; mret VUndefined) (λ e, liftR (get_stack e));
  teardown w drivers;;
  mret err.

(** What is left of [main] in a stage in which it has not settled. *)
Definition rest_main (w : World) (stage : Stage) : Prog JsVal :=
  match stage with
  | AwaitStartup (Launched p) drivers =>
      server ← await p; conclude w drivers (runTests w (address_of server) drivers)
  | Testing address drivers c => conclude w drivers (rest_tests w address c)
  | AwaitKills err kills => end_teardown (Promise_all (settling kills)) err
  | MainSettled r => liftR r
  | _ => main w
  end.

(** What is left of the script in a stage: the run of the script from
    there when what it waits for comes.  (A discovery that waits has
    issued reads that its stage does not record: [Reading] has no rest.) *)
Definition rest (w : World) (stage : Stage) : Prog ProcessEnd :=
  match stage with
  | Booting => script w
  | Crashing e | AwaitStartup (Errored e) _ => uncaught e
  | Ended r => liftR r
  | _ => λ s, handlers (rest_main w stage s).1 (rest_main w stage s).2
  end.

(** The script waits in a discovery. *)
Definition reading (stage : Stage) : bool :=
  match stage with Reading _ _ => true | _ => false end.

(** The faults that can only keep the script waiting: the server starts,
    and a kill that stays pending is not one that fails.  (A run that hangs
    is a fault of the tests, not of the machine, and needs no condition;
    a read stays pending only when its listing would arrive.) *)
Definition faults_ok (h : Faults) (w : World) : Prop :=
  listen_fault h = None ∧ ∀ d, kill_hangs h d = true → w_kill_error w d = None.

(** ** The discovery as a step *)

(** A discovery waits for ever, or it is the step of the sequencer. *)
Lemma resume_discover h w address ds d pending s :
  resume (discover h w) (after_discovery address ds d pending) s =
  match unread h w with
  | Some paths => (Reading d paths, add_events (issued h w) s)
  | None =>
      (Testing address ds
         (Busy d match (built w).1 with
                 | Fulfilled m => Running (inject d address m)
                 | Rejected e => Finished (Rejected e)
                 end pending),
       add_events (built w).2 s)
  end.
Proof.
  unfold resume. rewrite run_discover. destruct (unread h w); [done|]. by destruct (built w).1.
Qed.

Lemma discover_seq_step w address d pending :
  seq_step w address (Busy d Discovering pending) (built w).2
    (Busy d match (built w).1 with
            | Fulfilled m => Running (inject d address m)
            | Rejected e => Finished (Rejected e)
            end pending).
Proof. by apply seq_next_spec. Qed.

(** When no discovery waits, the steps of the sequencer are steps of the
    script, but for a run that never calls back. *)
Lemma life_seq_step h w address ds c evs c' s :
  unread h w = None → seq_step w address c evs c' → blocked h c = false →
  life_step h w (Testing address ds c, s) (Testing address ds c', add_events evs s).
Proof.
  intros Hu Hc Hb. destruct (discovering c) eqn:Hd; [|by apply life_test].
  destruct c as [|d [] pending|]; try done. apply seq_next_spec in Hc. simplify_eq/=.
  pose proof (life_discover h w address ds d pending s) as Hs.
  by rewrite resume_discover, Hu in Hs.
Qed.

(** ** The step function computes the step relation *)

Lemma life_next_spec h w l l' : life_step h w l l' ↔ life_next h w l = Some l'.
Proof.
  split.
  - destruct 1 as [| | | | |address ds c evs c' s Hc Hd Hb|address ds d pending s| |err kills p s Hp|];
      unfold life_next; cbn [fst snd]; rewrite ?Hp; try done.
    apply seq_next_spec in Hc. destruct c as [pending|d [] pending|r]; try done;
      rewrite ?Hb; by rewrite Hc.
  - destruct l as [[| | |[]|address ds c|d paths|err kills| |] s]; unfold life_next; cbn [fst snd];
      intros; simplify_eq; try by constructor.
    + destruct c as [pending|d ph pending|r]; [..|simplify_eq; constructor];
        [|destruct ph; [..|simplify_eq; constructor| |]];
        destruct (blocked h _) eqn:Hb; try done;
        destruct (seq_next w address _) as [[evs c']|] eqn:Hc; simplify_eq/=;
        by apply life_test; [apply seq_next_spec|..].
    + destruct (Fate_all kills) eqn:Hp; simplify_eq. by constructor.
Qed.

(** The script is sequential: a configuration has at most one next
    step. *)
Lemma life_step_deterministic h w : deterministic (life_step h w).
Proof. intros l l1 l2. rewrite !life_next_spec. congruence. Qed.

(** ** Every step brings the end nearer *)

Lemma provision_length w s drivers s' :
  provision w s = (Fulfilled drivers, s') → length drivers = length (targets w).
Proof. apply mapM_length. Qed.

Lemma main_calls_length h w s server drivers :
  (main_calls h w s).1 = Fulfilled (server, drivers) → length drivers = length (targets w).
Proof.
  unfold main_calls. rewrite run_bind. destruct (launch h w s) as [[l|e] s1]; [|done].
  rewrite run_bind. destruct (provision w s1) as [[ds|e] s2] eqn:E; [|done].
  intros [= _ <-]. by eapply provision_length.
Qed.

Lemma life_step_size h w l l' :
  life_step h w l l' → life_size w l'.1 < life_size w l.1.
Proof.
  destruct 1 as [s|e s|s|p ds s|e ds s|address ds c evs c' s Hc Hd Hb|address ds d pending s|address ds r s|err kills p s Hp|r s];
    unfold resume; cbn [fst snd].
  - destruct (imports w s).1; simpl; lia.
  - simpl. lia.
  - destruct (main_calls h w s).1 as [[server ds]|e] eqn:E; simpl; [|lia].
    apply main_calls_length in E. lia.
  - rewrite run_await. destruct (outcome p); simpl; lia.
  - simpl. lia.
  - apply seq_next_spec, seq_next_size in Hc. simpl. lia.
  - rewrite run_discover. destruct (unread h w); cbn; [lia|]. destruct (built w).1; cbn; lia.
  - destruct (begin_teardown w ds r s).1 as [[err kills]|e]; simpl; lia.
  - simpl. lia.
  - simpl. lia.
Qed.

(** ** Running to rest *)

Lemma life_run_reaches h w fuel l : rtc (life_step h w) l (life_run h w fuel l).
Proof.
  revert l. induction fuel as [|fuel IH]; intros l; simpl; [done|].
  destruct (life_next h w l) as [l'|] eqn:E; [|done].
  eapply rtc_l; [by apply life_next_spec|apply IH].
Qed.

Lemma life_run_rests h w fuel l :
  life_size w l.1 ≤ fuel → life_next h w (life_run h w fuel l) = None.
Proof.
  revert l. induction fuel as [|fuel IH]; intros l Hl; simpl.
  - destruct l as [[] s]; simpl in *; try lia; done.
  - destruct (life_next h w l) as [l'|] eqn:E; [|done].
    apply IH. apply life_next_spec, life_step_size in E. lia.
Qed.

(** A configuration without a next step is at rest: no step leads out of
    it. *)
Lemma life_next_nf h w l : life_next h w l = None ↔ nf (life_step h w) l.
Proof.
  split.
  - intros E [l' Hl%life_next_spec]. congruence.
  - intros Hnf. destruct (life_next h w l) as [l'|] eqn:E; [|done].
    destruct Hnf. exists l'. by apply life_next_spec.
Qed.

(** The configuration a run reaches is the one the step function
    computes, whenever that one is at rest. *)
Lemma life_rest_unique h w l l1 l2 :
  rtc (life_step h w) l l1 → nf (life_step h w) l1 →
  rtc (life_step h w) l l2 → nf (life_step h w) l2 → l1 = l2.
Proof.
  intros H1 Hn1 H2 Hn2.
  destruct (deterministic_confluent (life_step_deterministic h w) l l1 l2) as (l3 & H13 & H23);
    [done..|].
  apply rtc_nf in H13, H23; [congruence|done..].
Qed.

(** ** Progress *)

Lemma waits_for_testing h address ds c :
  is_Some (waits_for h (Testing address ds c)) ↔ blocked h c = true.
Proof.
  destruct c as [pending|d [] pending|r]; simpl; try (split; [by intros [? ?]|done]).
  destruct (run_hangs h mocha); split; try done; eauto; by intros [? ?].
Qed.

Lemma seq_next_is_Some w address c : (∀ r, c ≠ Settled r) → is_Some (seq_next w address c).
Proof.
  intros Hc. destruct (seq_next w address c) eqn:E; [done|].
  apply seq_next_none in E as [r ->]. by destruct (Hc r).
Qed.

(** A configuration is at rest exactly when the process has ended or the
    script waits for an operation that never completes. *)
Lemma life_next_none h w stage s :
  life_next h w (stage, s) = None ↔ ended stage = true ∨ is_Some (waits_for h stage).
Proof.
  destruct stage as [| | |[]|address ds c|d paths|err kills| |].
  all: try (unfold life_next; simpl; split; [done|by intros [?|[? ?]]]).
  all: try (unfold life_next; simpl; split; [intros _|done]; eauto).
  - rewrite waits_for_testing. unfold life_next. cbn [fst snd].
    destruct c as [pending|d ph pending|r]; [| |split; [done|by intros [?|?]]].
    + destruct (seq_next_is_Some w address (Idle pending)) as [[evs c'] ->]; [done|].
      simpl. split; [done|by intros [?|?]].
    + destruct (seq_next_is_Some w address (Busy d ph pending)) as [[evs c'] Hc]; [done|].
      destruct ph; rewrite ?Hc; try (split; [done|by intros [?|?]]).
      destruct (blocked h _); simpl; [split; eauto|split; [done|by intros [?|?]]].
  - unfold life_next. simpl. destruct (Fate_all kills); simpl; split; try done; eauto;
      by intros [?|[? ?]].
Qed.

(** ** What is left of the script *)

(** The handlers applied to the way a piece of [main] settles. *)
Lemma toplevel_handlers w s : toplevel w s = handlers (main w s).1 (main w s).2.
Proof.
  unfold toplevel, handlers. rewrite !run_try_catch, !run_bind, run_liftR.
  by destruct (main w s) as [[err|e] s'].
Qed.

Lemma handlers_finish r s : handlers r s = ((finish r).1, add_events (finish r).2 s).
Proof.
  unfold handlers. rewrite run_try_catch, run_bind, run_liftR. destruct r as [err|e]; cbn [finish].
  - unfold on_fulfilled, process_exit, console_log.
    destruct (truthy err); by rewrite run_bind, run_emit, run_ret.
  - unfold on_rejected, process_exit, console_error. rewrite run_bind, run_liftR.
    destruct (get_stack e) as [st|e']; cbn [fst snd]; [|by rewrite add_events_nil].
    rewrite run_bind, run_emit, run_bind, run_emit, run_ret.
    by rewrite !add_event_add_events, add_events_app.
Qed.

(** A step of the sequencer leaves what is left of the chain unchanged. *)
Lemma seq_step_rest w address c evs c' s :
  seq_step w address c evs c' →
  rest_tests w address c s = rest_tests w address c' (add_events evs s).
Proof.
  destruct 1 as [d ds|d p evs p' ds Hp|d ds|d e ds|]; cbn [rest_tests];
    rewrite ?add_events_nil; try done.
  - apply runTests_cons.
  - rewrite !run_bind. destruct Hp as [|m Hm|e He|m Hm|m Hm]; cbn [rest_phase];
      rewrite ?add_events_nil, ?run_liftR; try done.
    + unfold step. by rewrite run_bind, run_buildMocha_built, Hm, bind_ret_tt.
    + unfold step. by rewrite run_bind, run_buildMocha_built, He.
    + by rewrite run_runMocha, Hm.
    + rewrite run_runMocha. by rewrite bool_decide_eq_false_2.
Qed.

Lemma conclude_ext w ds (t1 t2 : Prog unit) s1 s2 :
  t1 s1 = t2 s2 → conclude w ds t1 s1 = conclude w ds t2 s2.
Proof. intros E. unfold conclude. by rewrite !run_bind, !run_try_catch, !run_bind, E. Qed.

Lemma run_conclude_settled w ds r s :
  conclude w ds (liftR r) s = (err ← liftR (err_after r); teardown w ds;; mret err) s.
Proof.
  unfold conclude. rewrite !run_bind, run_try_catch, run_bind, !run_liftR.
  by destruct r as [[]|e].
Qed.

(** ** Steps and what is left *)

Lemma run_begin_teardown w ds r s :
  begin_teardown w ds r s =
  match err_after r with
  | Fulfilled err =>
      (Fulfilled (err, kill_promise w <$> ds),
       killed w ds (add_event (EvLog "Killing all browser instances...") s))
  | Rejected e => (Rejected e, s)
  end.
Proof.
  unfold begin_teardown. rewrite run_bind, run_liftR. destruct (err_after r) as [err|e]; [|done].
  unfold console_log. by rewrite run_bind, run_emit, run_bind, run_kills.
Qed.

Lemma run_end_teardown w ds p err s :
  settled (outcome p) = settled (outcome (Promise_all (kill_promise w <$> ds))) →
  end_teardown p err (killed w ds (add_event (EvLog "Killing all browser instances...") s))
  = (teardown w ds;; mret err) s.
Proof.
  intros Hp. unfold end_teardown. rewrite !run_bind, run_await, run_teardown.
  destruct (outcome p), (outcome (Promise_all _)); by simplify_eq/=.
Qed.

Lemma waiting_not_reading h stage : waits_for h stage = None → reading stage = false.
Proof. by destruct stage. Qed.

(** A step leaves what is left of the script unchanged, unless it leads
    to a discovery that waits. *)
Lemma life_step_rest h w l l' :
  faults_ok h w → life_step h w l l' → reading l'.1 = false →
  rest w l.1 l.2 = rest w l'.1 l'.2.
Proof.
  intros [Hl Hk] Hstep Hw.
  destruct Hstep as [s|e s|s|p ds s|e ds s|address ds c evs c' s Hc Hd Hb
                    |address ds d pending s|address ds r s|err kills p s Hp|r s];
    unfold resume in *; cbn [fst snd] in *.
  - unfold rest at 1, script. rewrite run_bind, run_try_catch, run_bind.
    destruct (imports w s) as [[[]|e] s1]; cbn; [apply toplevel_handlers|done].
  - cbn. by destruct (uncaught e s).
  - unfold main_calls, launch. rewrite Hl. cbn [rest rest_main].
    unfold main, startup. rewrite !run_bind, run_fmap, run_startServer, !run_bind.
    destruct (provision w _) as [[ds|e] s2]; cbn; by rewrite ?run_bind, ?run_await.
  - cbn [rest rest_main]. rewrite run_bind, !run_await. by destruct (outcome p).
  - done.
  - cbn [rest rest_main]. by rewrite (conclude_ext w ds _ _ _ _ (seq_step_rest _ _ _ _ _ s Hc)).
  - rewrite run_discover in *. destruct (unread h w); [done|]. cbn [fst snd] in *.
    pose proof (seq_step_rest _ _ _ _ _ s (discover_seq_step w address d pending)) as Hc.
    destruct (built w).1; cbn [after_discovery rest rest_main];
      by rewrite (conclude_ext w ds _ _ _ _ Hc).
  - cbn [rest rest_main rest_tests]. rewrite run_conclude_settled, run_bind, run_liftR.
    rewrite run_begin_teardown in *. destruct (err_after r) as [err|e]; cbn in *; [|done].
    rewrite (run_end_teardown w ds); [done|].
    by apply Promise_all_settled, kill_fates_rejections.
  - cbn [rest rest_main]. rewrite <- (Fate_all_inv _ _ Hp). by destruct (end_teardown p err s).
  - cbn [rest rest_main]. rewrite !run_liftR. cbn [fst snd]. by destruct (handlers r s).
Qed.

(** ** Runs that end *)

(** A configuration from which the end is reached is not waiting. *)
Lemma reaches_end_not_waiting h w l r s' :
  rtc (life_step h w) l (Ended r, s') → waits_for h l.1 = None.
Proof.
  intros [->|(l1 & Hs%life_next_spec & _)]%rtc_inv; [done|].
  destruct l as [stage s]. cbn [fst]. destruct (waits_for h stage) eqn:E; [|done].
  assert (life_next h w (stage, s) = None) as Hn by (apply life_next_none; right; by rewrite E).
  congruence.
Qed.

(** A run that ends, ends with what was left of the script where it
    started. *)
Lemma life_end_rest h w l r s' :
  faults_ok h w → rtc (life_step h w) l (Ended r, s') → rest w l.1 l.2 = (r, s').
Proof.
  intros Hh Hr. remember (Ended r, s') as l' eqn:El.
  induction Hr as [l|l l1 l2 Hs Hr IH]; subst; [done|].
  rewrite (life_step_rest h w l l1), IH; try done.
  by eapply waiting_not_reading, reaches_end_not_waiting.
Qed.

(** ** Runs without faults *)

Lemma life_fuel_enough w (s : State) : life_size w (Booting, s).1 ≤ life_fuel w.
Proof. done. Qed.

Lemma no_faults_ok w : faults_ok no_faults w.
Proof. by split. Qed.

(** Without faults no step leads to a stage in which the script waits for
    ever. *)
Lemma no_faults_step w l l' : life_step no_faults w l l' → waits_for no_faults l'.1 = None.
Proof.
  destruct 1 as [s|e s|s|p ds s|e ds s|address ds c evs c' s Hc Hd Hb
                |address ds d pending s|address ds r s|err kills p s Hp|r s]; unfold resume; cbn [fst snd]; try done.
  - by destruct (imports w s).1.
  - unfold main_calls, launch. cbn [listen_fault no_faults].
    rewrite run_bind, run_fmap, run_startServer, run_bind.
    by destruct (provision w _) as [[ds|e] s2].
  - rewrite run_await. by destruct (outcome p).
  - by destruct c' as [|d []|].
  - rewrite run_discover, unread_none by done. by destruct (built w).1.
  - destruct (begin_teardown w ds r s).1 as [[err kills]|e]; [|done].
    cbn [after_tests waits_for]. unfold Fate_all. by rewrite kill_fates_no_faults.
Qed.

Lemma no_faults_reaches w s l :
  rtc (life_step no_faults w) (Booting, s) l → waits_for no_faults l.1 = None.
Proof. intros [<-|(l1 & _ & Hs)]%rtc_inv_r; [done|]. by eapply no_faults_step. Qed.

(** Without faults the script ends within the fuel, as [script] says. *)
Lemma life_run_no_faults w s :
  life_run no_faults w (life_fuel w) (Booting, s) = (Ended (script w s).1, (script w s).2).
Proof.
  pose proof (life_run_reaches no_faults w (life_fuel w) (Booting, s)) as Hr.
  pose proof (life_run_rests no_faults w (life_fuel w) (Booting, s) (life_fuel_enough w s)) as Hn.
  pose proof (no_faults_reaches w s _ Hr) as Hw.
  destruct (life_run _ _ _ _) as [stage s'].
  apply life_next_none in Hn as [He|[op Hop]]; [|cbn in *; congruence].
  destruct stage as [| | | | | | | |r]; try done.
  apply (life_end_rest _ _ _ _ _ (no_faults_ok w)) in Hr. cbn in Hr. by rewrite Hr.
Qed.

(** C14: the awaits of the script are the binds of [Prog].  Cut at its
    awaits and run step by step with every operation completing, the
    script ends with outcome [r] in state [s'] exactly when the program
    [script] has outcome [r] and leaves [s']. *)
Theorem life_refines_script w s r s' :
  rtc (life_step no_faults w) (Booting, s) (Ended r, s') ↔ script w s = (r, s').
Proof.
  split; [apply (life_end_rest no_faults w (Booting, s)), no_faults_ok|].
  intros E. pose proof (life_run_reaches no_faults w (life_fuel w) (Booting, s)) as Hr.
  by rewrite life_run_no_faults, E in Hr.
Qed.

(** C17: faults cannot change how a run ends.  When the server starts and
    the kills that stay pending are kills that would have succeeded, a run
    that ends, whatever hung on the way, ends with the outcome and in the
    state of the script run without faults. *)
Theorem life_sound h w s r s' :
  faults_ok h w → rtc (life_step h w) (Booting, s) (Ended r, s') → script w s = (r, s').
Proof. intros Hh. apply (life_end_rest h w (Booting, s) r s' Hh). Qed.

(** Every run from the start is a part of the run the step function
    computes. *)
Lemma life_comes_to_rest_run h w s l :
  rtc (life_step h w) (Booting, s) l →
  rtc (life_step h w) l (life_run h w (life_fuel w) (Booting, s)).
Proof.
  intros Hl. pose proof (life_run_reaches h w (life_fuel w) (Booting, s)) as Hr.
  pose proof (life_run_rests h w (life_fuel w) (Booting, s) (life_fuel_enough w s)) as Hn.
  destruct (deterministic_confluent (life_step_deterministic h w) _ _ _ Hr Hl)
    as (l3 & H3 & H3').
  apply rtc_nf in H3 as <-; [done|]. by apply life_next_nf.
Qed.

(** C28: every run comes to rest.  Whatever the faults, after at most
    [8 + 5 * length (targets w)] steps the script is at rest: no step leads
    on, and either the process has ended or the script waits for one of the
    four operations without a limit; and every run from the start is a
    part of that run. *)
Theorem life_comes_to_rest h w s l :
  l = life_run h w (life_fuel w) (Booting, s) →
  rtc (life_step h w) (Booting, s) l
  ∧ nf (life_step h w) l
  ∧ (ended l.1 = true ∨ is_Some (waits_for h l.1))
  ∧ ∀ l', rtc (life_step h w) (Booting, s) l' → rtc (life_step h w) l' l.
Proof.
  intros ->. pose proof (life_run_reaches h w (life_fuel w) (Booting, s)) as Hr.
  pose proof (life_run_rests h w (life_fuel w) (Booting, s) (life_fuel_enough w s)) as Hn.
  split_and!; [done|by apply life_next_nf| |apply life_comes_to_rest_run].
  destruct (life_run _ _ _ _) as [stage s']. by apply (life_next_none h w stage s').
Qed.

(** ** The sample machines *)

Lemma life_refines_script_witness :
  rtc (life_step no_faults world_red) (Booting, init_state)
    (Ended (Fulfilled (Exit 1)), (script world_red init_state).2)
  ↔ script world_red init_state = (Fulfilled (Exit 1), (script world_red init_state).2).
Proof. apply (life_refines_script world_red init_state). Defined.

(** The tests fail before any kill is issued: the run ends although every
    kill would stay pending. *)
Lemma life_sound_witness :
  script world_red init_state
  = (Fulfilled (Exit 1),
     (life_run faults_hung_kill world_red (life_fuel world_red) (Booting, init_state)).2).
Proof.
  apply (life_sound faults_hung_kill world_red init_state); [by split|].
  pose proof (life_run_reaches faults_hung_kill world_red (life_fuel world_red)
                (Booting, init_state)) as Hr.
  by replace (life_run faults_hung_kill world_red (life_fuel world_red) (Booting, init_state))
    with (Ended (Fulfilled (Exit 1)),
          (life_run faults_hung_kill world_red (life_fuel world_red) (Booting, init_state)).2)
    in Hr at 1 by (by vm_compute).
Defined.

Lemma life_comes_to_rest_witness :
  rtc (life_step faults_silent world_green) (Booting, init_state)
    (life_run faults_silent world_green (life_fuel world_green) (Booting, init_state))
  ∧ nf (life_step faults_silent world_green)
      (life_run faults_silent world_green (life_fuel world_green) (Booting, init_state))
  ∧ (ended (life_run faults_silent world_green (life_fuel world_green) (Booting, init_state)).1
     = true
     ∨ is_Some (waits_for faults_silent
         (life_run faults_silent world_green (life_fuel world_green) (Booting, init_state)).1))
  ∧ ∀ l', rtc (life_step faults_silent world_green) (Booting, init_state) l' →
      rtc (life_step faults_silent world_green) l'
        (life_run faults_silent world_green (life_fuel world_green) (Booting, init_state)).
Proof. by apply (life_comes_to_rest faults_silent world_green init_state). Defined.
