(* ===== verification/Hangs.v ===== *)
(** * Hangs: runs of the script that do not end

    [Lifecycle.v] cuts the script at its awaits and lets four operations
    never complete.  This file says where such a run is when it waits: the
    state at every await of [main] in closed form, as an invariant of the
    step relation; what is open while the script waits; and, for each of
    the four operations, the configuration in which the run comes to rest
    when that operation fails. *)

From stdpp Require Import base tactics list strings numbers gmap relations.
From S2P Require Import Prelude Js Externals Effects Samples Browsers Server Discovery.
From S2P Require Import Sequencer Machine Main Script Faults Lifecycle.

(** ** Definitions *)

(** What holds of the configurations of a run from [(Booting, s0)]: the
    state at each await of [main], in closed form. *)
Definition life_inv (h : Faults) (w : World) (s0 : State) (l : Life) : Prop :=
  match l.1 with
  | Booting | Loaded => l.2 = s0
  | AwaitStartup server drivers =>
      drivers_ok w ∧ drivers = started_drivers w s0 ∧
      match server with
      | Launched p =>
          listen_fault h = None ∧ outcome p = Fulfilled {| address_port := w_port w |}
          ∧ l.2 = started w s0
      | Silent => listen_fault h = Some ListenSilent ∧ l.2 = opened (targets w) s0
      | Errored e => listen_fault h = Some (ListenError e) ∧ l.2 = opened (targets w) s0
      end
  | Testing address drivers c =>
      drivers_ok w ∧ drivers = started_drivers w s0 ∧ address = Main.address w ∧
      ∃ evs, reaches w address (Idle drivers) evs c ∧ l.2 = add_events evs (started w s0)
  | Reading d paths =>
      drivers_ok w ∧ unread h w = Some paths ∧
      ∃ finished pending,
        started_drivers w s0 = finished ++ d :: pending
        ∧ l.2 = add_events (blocks w (address w) finished ++ issued h w) (started w s0)
  | AwaitKills err kills =>
      drivers_ok w
      ∧ err_after (verdict w (address w) (started_drivers w s0)) = Fulfilled err
      ∧ kills = kill_fates h (started_drivers w s0) (kill_promise w <$> started_drivers w s0)
      ∧ l.2 = killed w (started_drivers w s0)
                (add_event (EvLog "Killing all browser instances...") (tested w s0))
  | Crashing _ | MainSettled _ | Ended _ => True
  end.

(** The sessions of the target browsers, opened from [s0], are open in
    [s]. *)
Definition sessions_open (w : World) (s0 s : State) : Prop :=
  ∀ i b, targets w !! i = Some b → st_sessions s !! (st_next s0 + i) = Some (opened_session b).

(** What is known when the script waits for [op] in state [s], having
    started in [s0]. *)
Definition waiting (h : Faults) (w : World) (s0 s : State) (op : Wait) : Prop :=
  match op with
  | WaitListening =>
      listen_fault h = Some ListenSilent
      ∧ st_server s = st_server s0 ∧ sessions_open w s0 s
  | WaitRead d paths =>
      unread h w = Some paths
      ∧ st_server s = SrvListening (w_port w) ∧ sessions_open w s0 s
      ∧ d ∈ started_drivers w s0
      ∧ paths ≠ [] ∧ Forall (λ path, read_hangs h path = true) paths
  | WaitRun d m =>
      run_hangs h m = true
      ∧ st_server s = SrvListening (w_port w) ∧ sessions_open w s0 s
      ∧ d ∈ started_drivers w s0
      ∧ ∃ m0, (built w).1 = Fulfilled m0 ∧ m = inject d (address w) m0
  | WaitKills =>
      st_server s = SrvListening (w_port w)
      ∧ is_fulfilled (err_after (verdict w (address w) (started_drivers w s0))) = true
      ∧ ∃ d, d ∈ started_drivers w s0 ∧ kill_hangs h d = true
  end.

(** ** The state at each await *)

(** The drivers are all opened, or the first that cannot be stops the
    startup. *)
Lemma provision_cases w s :
  (drivers_ok w
   ∧ provision w s = (Fulfilled (seq (st_next s) (length (targets w))), opened (targets w) s))
  ∨ (¬ drivers_ok w ∧ ∃ e s', provision w s = (Rejected e, s')).
Proof.
  unfold provision.
  destruct (first_failure (λ b, w_driver_error w b = None) (targets w))
    as [Hok|(bs1 & b & bs2 & Ht & H1 & Hb)].
  - left. split; [done|]. by apply run_mapM_openDriver_ok.
  - right. destruct (w_driver_error w b) as [e|] eqn:He; [|done]. split.
    + unfold drivers_ok. rewrite Ht, Forall_app, Forall_cons. intros (_ & ? & _). congruence.
    + exists e, (opened bs1 s). rewrite Ht. by apply run_mapM_openDriver_err.
Qed.

Lemma run_main_calls h w s :
  drivers_ok w →
  main_calls h w s =
  (Fulfilled (match listen_fault h with
              | None => Launched {| settles_at := w_latency w (EvListen (w_port w));
                                    outcome := Fulfilled {| address_port := w_port w |} |}
              | Some ListenSilent => Silent
              | Some (ListenError e) => Errored e
              end, started_drivers w s),
   match listen_fault h with None => started w s | Some _ => opened (targets w) s end).
Proof.
  intros Hok. unfold main_calls, launch, provision.
  destruct (listen_fault h) as [[|e]|];
    rewrite run_bind, ?run_fmap, ?run_startServer, ?run_ret, run_bind;
    by rewrite run_mapM_openDriver_ok.
Qed.

Lemma main_calls_rejected h w s :
  ¬ drivers_ok w → ∃ e, (main_calls h w s).1 = Rejected e.
Proof.
  intros Hno. unfold main_calls. rewrite run_bind.
  assert (∃ l s1, launch h w s = (Fulfilled l, s1)) as (l & s1 & ->).
  { unfold launch. destruct (listen_fault h) as [[|e]|]; rewrite ?run_fmap, ?run_startServer; eauto. }
  rewrite run_bind. destruct (provision_cases w s1) as [[? _]|(_ & e & s' & ->)]; [done|eauto].
Qed.

Lemma life_inv_step h w s0 l l' :
  life_inv h w s0 l → life_step h w l l' → life_inv h w s0 l'.
Proof.
  intros Hinv Hstep.
  destruct Hstep as [s|e s|s|p ds s|e ds s|address ds c evs c' s Hc Hd Hb
                    |address ds d pending s|address ds r s|err kills p s Hp|r s];
    unfold life_inv, resume in *; cbn [fst snd] in *; try done.
  - rewrite run_imports. by destruct (first_missing w).
  - subst s. destruct (decide (drivers_ok w)) as [Hok|Hno].
    + rewrite run_main_calls by done. cbn. by destruct (listen_fault h) as [[|e]|].
    + destruct (main_calls_rejected h w s0 Hno) as [e ->]. done.
  - destruct Hinv as (Hok & -> & _ & Hp & ->). rewrite run_await, Hp. cbn.
    split_and!; [done..|]. exists []. by rewrite add_events_nil; split; [constructor|].
  - destruct Hinv as (Hok & -> & -> & evs0 & Hr & ->). split_and!; [done..|].
    exists (evs0 ++ evs). rewrite add_events_app. split; [by eapply reaches_step|done].
  - destruct Hinv as (Hok & -> & -> & evs0 & Hr & ->). rewrite run_discover.
    destruct (unread h w) as [paths|] eqn:Hu; cbn [fst snd after_discovery].
    + apply reaches_inv in Hr as (fin & Hds & _ & -> & _). split_and!; [done..|].
      exists fin, pending. by rewrite app_nil_r, add_events_app.
    + pose proof (reaches_step _ _ _ _ _ _ _ Hr (discover_seq_step w _ d pending)) as Hr'.
      destruct (built w).1; (split_and!; [done..|]); eexists; by rewrite add_events_app.
  - destruct Hinv as (Hok & -> & -> & evs0 & Hr%complete_run & ->).
    assert (r = verdict w (address w) (started_drivers w s0)) as ->
      by (by rewrite <- run_all_verdict, <- Hr).
    assert (add_events evs0 (started w s0) = tested w s0) as ->
      by (unfold tested; by rewrite <- Hr).
    rewrite run_begin_teardown. by destruct (err_after _) as [err|e] eqn:Herr.
Qed.

(** The configurations of a run all satisfy [life_inv]. *)
Lemma life_inv_reaches h w s0 l :
  rtc (life_step h w) (Booting, s0) l → life_inv h w s0 l.
Proof.
  revert l. apply rtc_ind_r; [done|]. intros l1 l2 _ Hs Hi. by eapply life_inv_step.
Qed.

(** ** Runs that wait for ever *)

Lemma waits_rest h w stage s op :
  waits_for h stage = Some op → nf (life_step h w) (stage, s) ∧ ended stage = false.
Proof.
  intros Hop. split.
  - apply life_next_nf, life_next_none. right. by rewrite Hop.
  - by destruct stage.
Qed.

Lemma sessions_open_opened w s : sessions_open w s (opened (targets w) s).
Proof. intros i b. apply opened_sessions_new. Qed.

Lemma sessions_open_started w s evs : sessions_open w s (add_events evs (started w s)).
Proof. intros i b. rewrite add_events_sessions. apply started_sessions. Qed.

(** Some kill stays pending when the aggregate of the kills does. *)
Lemma Fate_all_never h ds ps :
  length ps = length ds →
  is_settles (Fate_all (kill_fates h ds ps)) = false → ∃ d, d ∈ ds ∧ kill_hangs h d = true.
Proof.
  unfold Fate_all. destruct (forallb is_settles _) eqn:Hall; [done|]. intros Hlen _.
  apply not_true_iff_false in Hall. rewrite forallb_elem_of in Hall.
  destruct (decide (Exists (λ d, kill_hangs h d = true) ds)) as [(d & ? & ?)%Exists_exists|Hno];
    [eauto|].
  destruct Hall. intros f (i & Hi)%list_elem_of_lookup.
  apply lookup_zip_with_Some in Hi as (d & p & -> & Hd & _).
  destruct (kill_hangs h d) eqn:E; [|done]. destruct Hno. apply Exists_exists.
  exists d. split; [by eapply list_elem_of_lookup_2|done].
Qed.

Lemma life_inv_waiting h w s0 stage s op :
  life_inv h w s0 (stage, s) → waits_for h stage = Some op → waiting h w s0 s op.
Proof.
  unfold life_inv. cbn [fst snd].
  destruct stage as [| | |[]|address ds c|d paths|err kills| |]; try done.
  - intros (_ & _ & ? & ->) [= <-].
    split_and!; [done|apply opened_server|apply sessions_open_opened].
  - intros (Hok & -> & -> & evs & Hr & ->). cbn [waits_for].
    destruct c as [|d [| |m|] pending|]; try done.
    destruct (run_hangs h m) eqn:Hm'; [|done]. intros [= <-].
    apply reaches_inv in Hr as (fin & Hds & _ & _ & Hm). cbn [waiting].
    rewrite add_events_server, started_server.
    split_and!; [done..|apply sessions_open_started| |done].
    rewrite Hds. apply elem_of_app. right. left.
  - intros (Hok & Hu & fin & pending & Hds & ->) [= <-]. cbn [waiting].
    rewrite add_events_server, started_server. destruct (unread_hangs h w paths Hu).
    split_and!; [done|done|apply sessions_open_started| |done|done].
    rewrite Hds. apply elem_of_app. right. left.
  - intros (Hok & Herr & -> & ->). cbn [waits_for].
    destruct (is_settles _) eqn:Hs; [done|]. intros [= <-]. cbn [waiting].
    rewrite killed_server, add_event_server, tested_server, Herr.
    split_and!; [done..|]. apply Fate_all_never in Hs; [done|by rewrite length_fmap].
Qed.

(** C16: what is left open when the script waits.  When a run of the
    script, whatever the faults, has come to wait for an operation that
    never completes, it waits for ever and the process does not end.
    Waiting for the server, the server has failed without a sign, it has
    not started and the session of every target browser is open.  Waiting
    for the listing of a directory, the server listens, every session is
    open and the listings waited for are of reads that never complete.
    Waiting for a Mocha run, the server listens, every session is open,
    and the run is that of the Mocha the discovery built for one of the
    drivers.  Waiting for the kills, the tests are over, the server still
    listens and some kill stays pending. *)
Theorem life_waits h w s0 l op :
  rtc (life_step h w) (Booting, s0) l → waits_for h l.1 = Some op →
  (∀ l', rtc (life_step h w) l l' → l' = l) ∧ ended l.1 = false ∧ waiting h w s0 l.2 op.
Proof.
  intros Hr%life_inv_reaches Hop. destruct l as [stage s]. cbn [fst snd] in *.
  destruct (waits_rest h w stage s op Hop) as [Hnf He].
  split_and!; [|done|by eapply life_inv_waiting].
  intros l' Hl'. symmetry. by eapply rtc_nf.
Qed.

(** ** Where a run with faults comes to rest *)

(** A configuration at rest that a run reaches is the one the step
    function computes. *)
Lemma life_run_to h w fuel l l' :
  rtc (life_step h w) l l' → life_next h w l' = None → life_size w l.1 ≤ fuel →
  life_run h w fuel l = l'.
Proof.
  intros Hr Hn Hf. apply (life_rest_unique h w l);
    [apply life_run_reaches|by apply life_next_nf, life_run_rests|done|by apply life_next_nf].
Qed.

Lemma resume_imports w s :
  resume (imports w) after_imports s =
  (match first_missing w with
   | None => Loaded
   | Some name => Crashing (module_not_found name)
   end, s).
Proof. unfold resume. rewrite run_imports. by destruct (first_missing w). Qed.

(** The start of a run on a machine where the libraries are found and
    every driver starts: the script comes to wait for the startup. *)
Lemma life_startup h w s :
  first_missing w = None → drivers_ok w →
  rtc (life_step h w) (Booting, s) (resume (main_calls h w) after_calls s).
Proof.
  intros Hm Hok. eapply rtc_l; [apply life_boot|]. rewrite resume_imports, Hm.
  apply rtc_once, life_main.
Qed.

(** The same, up to the call of [runTests], when the server starts. *)
Lemma life_started h w s :
  listen_fault h = None → first_missing w = None → drivers_ok w →
  rtc (life_step h w) (Booting, s)
    (Testing (address w) (started_drivers w s) (Idle (started_drivers w s)), started w s).
Proof.
  intros Hl Hm Hok. etrans; [by apply life_startup|].
  unfold resume. rewrite run_main_calls, Hl by done. cbn [fst snd after_calls].
  eapply rtc_l; [apply life_listening|]. unfold resume. by rewrite run_await.
Qed.

(** The steps of the sequencer are steps of the script as long as no
    discovery waits and no run hangs. *)
Lemma life_tests h w address ds c evs c' s :
  unread h w = None → (∀ m, run_hangs h m = false) →
  reaches w address c evs c' →
  rtc (life_step h w) (Testing address ds c, s) (Testing address ds c', add_events evs s).
Proof.
  intros Hu Hh. induction 1 as [|evs c1 evs' c2 _ IH Hs]; [by rewrite add_events_nil|].
  eapply rtc_r; [done|]. rewrite <- add_events_app. apply life_seq_step; [done..|].
  destruct c1 as [|d [] ?|]; by simpl.
Qed.

(** The run for a driver whose Mocha calls back with no failure. *)
Lemma life_driver_passes h w address ds d pending m0 s :
  unread h w = None →
  (built w).1 = Fulfilled m0 →
  w_failures w (inject d address m0) = 0 →
  run_hangs h (inject d address m0) = false →
  rtc (life_step h w) (Testing address ds (Idle (d :: pending)), s)
    (Testing address ds (Idle pending), add_events (run_one w address d).2 s).
Proof.
  intros Hu Hb Hf Hh. unfold run_one. rewrite Hb. cbv zeta. cbn [snd]. rewrite Hf.
  eapply rtc_l; [by eapply life_seq_step; [|apply seq_start|]|].
  eapply rtc_l; [by eapply life_seq_step; [|apply seq_work, step_begin|]|].
  eapply rtc_l; [by eapply life_seq_step; [|apply seq_work, step_discovered|]|].
  eapply rtc_l; [by eapply life_seq_step; [|apply seq_work, step_passed|]|].
  eapply rtc_l; [by eapply life_seq_step; [|apply seq_continue|]|].
  rewrite !add_events_app, !app_nil_l, !app_nil_r. done.
Qed.

(** The run for a driver up to the call of [mocha.run]. *)
Lemma life_driver_runs h w address ds d pending m0 s :
  unread h w = None →
  (built w).1 = Fulfilled m0 →
  rtc (life_step h w) (Testing address ds (Idle (d :: pending)), s)
    (Testing address ds (Busy d (Running (inject d address m0)) pending),
     add_events (built w).2 s).
Proof.
  intros Hu Hb.
  eapply rtc_l; [by eapply life_seq_step; [|apply seq_start|]|].
  eapply rtc_l; [by eapply life_seq_step; [|apply seq_work, step_begin|]|].
  eapply rtc_l; [by eapply life_seq_step; [|apply seq_work, step_discovered|]|].
  rewrite !add_events_app, !app_nil_l. done.
Qed.

(** The drivers before the first whose run hangs are tested, and the
    script comes to the call of that run. *)
Lemma life_reaches_hang h w address ds finished d pending m0 s :
  unread h w = None →
  (built w).1 = Fulfilled m0 →
  Forall (λ d', w_failures w (inject d' address m0) = 0
                ∧ run_hangs h (inject d' address m0) = false) finished →
  rtc (life_step h w) (Testing address ds (Idle (finished ++ d :: pending)), s)
    (Testing address ds (Busy d (Running (inject d address m0)) pending),
     add_events (blocks w address finished ++ (built w).2) s).
Proof.
  intros Hu Hb Hfin. revert s. induction Hfin as [|d' fin [Hf Hh] _ IH]; intros s.
  - by apply life_driver_runs.
  - etrans; [by eapply life_driver_passes|]. etrans; [apply IH|].
    rewrite add_events_app. unfold blocks. cbn [fmap list_fmap mjoin list_join].
    by rewrite app_assoc.
Qed.

(** C23: a server that does not start.  On a machine where the libraries
    are found and every driver starts, a server that fails without a sign
    leaves the script waiting at line 58 for ever, and one that emits
    ['error'] ends the process with code 1 through the runtime, after the
    error is printed and before any handler of the script runs.  Either
    way the session of every target browser has been opened and none is
    killed. *)
Theorem listen_fault_run h w s f :
  listen_fault h = Some f → first_missing w = None → drivers_ok w →
  life_run h w (life_fuel w) (Booting, s)
  = match f with
    | ListenSilent => (AwaitStartup Silent (started_drivers w s), opened (targets w) s)
    | ListenError e =>
        (Ended (Fulfilled (Exit 1)), add_event (EvError e) (opened (targets w) s))
    end
  ∧ sessions_open w s (life_run h w (life_fuel w) (Booting, s)).2
  ∧ st_server (life_run h w (life_fuel w) (Booting, s)).2 = st_server s.
Proof.
  intros Hl Hm Hok. pose proof (life_startup h w s Hm Hok) as Hr. unfold resume in Hr.
  rewrite run_main_calls, Hl in Hr by done. cbn [fst snd after_calls] in Hr.
  assert (life_run h w (life_fuel w) (Booting, s)
          = match f with
            | ListenSilent => (AwaitStartup Silent (started_drivers w s), opened (targets w) s)
            | ListenError e =>
                (Ended (Fulfilled (Exit 1)), add_event (EvError e) (opened (targets w) s))
            end) as ->.
  { apply life_run_to; [|by destruct f|done]. destruct f as [|e]; [done|].
    etrans; [done|]. eapply rtc_l; [apply life_listen_error|]. apply rtc_once, life_crash. }
  destruct f; cbn [snd]; rewrite ?add_event_server, opened_server;
    (split_and!; [done| |done]); intros i b; rewrite ?add_event_sessions;
    apply sessions_open_opened.
Qed.

(** C24: a run that never calls back.  When the discovery works, the runs
    for the first drivers pass and the run for the next driver never calls
    back, the script waits at line 106 for ever: the drivers after it are
    never tested, nothing is torn down and the process has no exit code,
    while the server listens and every browser stays open. *)
Theorem run_hang h w s finished d pending m0 :
  listen_fault h = None → first_missing w = None → drivers_ok w → unread h w = None →
  started_drivers w s = finished ++ d :: pending →
  (built w).1 = Fulfilled m0 →
  Forall (λ d', w_failures w (inject d' (address w) m0) = 0
                ∧ run_hangs h (inject d' (address w) m0) = false) finished →
  run_hangs h (inject d (address w) m0) = true →
  let m := inject d (address w) m0 in
  let s' := add_events (blocks w (address w) finished ++ (built w).2) (started w s) in
  life_run h w (life_fuel w) (Booting, s)
  = (Testing (address w) (started_drivers w s) (Busy d (Running m) pending), s')
  ∧ waiting h w s s' (WaitRun d m).
Proof.
  intros Hl Hm Hok Hu Hds Hb Hfin Hd m s'.
  assert (rtc (life_step h w) (Booting, s)
            (Testing (address w) (started_drivers w s) (Busy d (Running m) pending), s'))
    as Hr by (etrans; [by apply life_started|]; rewrite Hds at 2; by apply life_reaches_hang).
  subst m. split; [apply life_run_to; [done| |done]|].
  - unfold life_next. cbn [fst snd blocked]. by rewrite Hd.
  - eapply life_inv_waiting; [by apply life_inv_reaches in Hr|].
    cbn [waits_for]. by rewrite Hd.
Qed.

(** The script comes to the first discovery. *)
Lemma life_discovers h w s d pending :
  listen_fault h = None → first_missing w = None → drivers_ok w →
  started_drivers w s = d :: pending →
  rtc (life_step h w) (Booting, s)
    (resume (discover h w) (after_discovery (address w) (started_drivers w s) d pending)
       (started w s)).
Proof.
  intros Hl Hm Hok Hds. etrans; [by apply life_started|]. rewrite Hds at 2.
  eapply rtc_l; [by eapply life_test; [apply seq_start|..]|].
  eapply rtc_l; [by eapply life_test; [apply seq_work, step_begin|..]|].
  rewrite !add_events_nil. apply rtc_once, life_discover.
Qed.

(** C25: a listing that never arrives.  On a machine where the server and
    a driver start, a discovery that waits for a listing keeps the script
    at line 23 or 24 for ever, in the discovery for the first driver: only
    directory reads have been issued, no suite file is loaded and no test
    runs for any driver, while the server listens and every browser stays
    open. *)
Theorem read_hang h w s d pending paths :
  listen_fault h = None → first_missing w = None → drivers_ok w →
  started_drivers w s = d :: pending →
  unread h w = Some paths →
  let s' := add_events (issued h w) (started w s) in
  life_run h w (life_fuel w) (Booting, s) = (Reading d paths, s')
  ∧ waiting h w s s' (WaitRead d paths)
  ∧ Forall (λ ev, ∃ path, ev = EvReaddir path) (issued h w).
Proof.
  intros Hl Hm Hok Hds Hu s'.
  pose proof (life_discovers h w s d pending Hl Hm Hok Hds) as Hr.
  rewrite resume_discover, Hu in Hr. split_and!.
  - by apply life_run_to.
  - by eapply life_inv_waiting; [apply life_inv_reaches in Hr|].
  - unfold issued, discovery_reads. destruct (readdir_result w "elements") as [elements|e];
      [destruct (read_hangs h "elements")|]; repeat constructor; eauto.
    apply Forall_fmap, Forall_forall. intros x _. by eexists.
Qed.

(** A kill that stays pending.  When the tests are over, no run has
    hung, and the aggregate of the kills does not settle (a kill stays
    pending and no other is rejected), the script waits at line 81 for
    ever: [server.close()] is never called, ["Done."] is never printed and
    the verdict of the tests never becomes an exit code. *)
Lemma kill_hang h w s err :
  listen_fault h = None → first_missing w = None → drivers_ok w → unread h w = None →
  (∀ m, run_hangs h m = false) →
  err_after (verdict w (address w) (started_drivers w s)) = Fulfilled err →
  is_settles (Fate_all (kill_fates h (started_drivers w s)
                          (kill_promise w <$> started_drivers w s))) = false →
  life_run h w (life_fuel w) (Booting, s)
  = (AwaitKills err (kill_fates h (started_drivers w s) (kill_promise w <$> started_drivers w s)),
     killed w (started_drivers w s)
       (add_event (EvLog "Killing all browser instances...") (tested w s))).
Proof.
  intros Hl Hm Hok Hu Hh Herr Hk. apply life_run_to; [| |done].
  - etrans; [by apply life_started|].
    etrans; [by apply life_tests, idle_run|]. fold (tested w s).
    apply rtc_once. eapply eq_rect; [apply life_tested|].
    unfold resume. by rewrite run_begin_teardown, run_all_verdict, Herr.
  - unfold life_next. cbn [fst snd]. by destruct (Fate_all _).
Qed.

(** ** Runs in which nothing the script waits for fails *)

(** A run ends, and as [script] says, when the server starts, no
    discovery waits for a listing, no kill stays pending and no run of a
    Mocha that a discovery built hangs. *)
Lemma life_run_ends h w s :
  listen_fault h = None → unread h w = None →
  (∀ d, kill_hangs h d = false) →
  (∀ d m0, (built w).1 = Fulfilled m0 → run_hangs h (inject d (address w) m0) = false) →
  life_run h w (life_fuel w) (Booting, s) = (Ended (script w s).1, (script w s).2).
Proof.
  intros Hl Hu Hk Hrun.
  assert (faults_ok h w) as Hok by (split; [done|]; intros d; by rewrite Hk).
  pose proof (life_run_reaches h w (life_fuel w) (Booting, s)) as Hr.
  pose proof (life_run_rests h w (life_fuel w) (Booting, s) (life_fuel_enough w s)) as Hn.
  destruct (life_run _ _ _ _) as [stage s'].
  apply life_next_none in Hn as [He|[op Hop]].
  - destruct stage; try done. apply (life_end_rest _ _ _ _ _ Hok) in Hr. cbn in Hr. by rewrite Hr.
  - apply life_inv_reaches in Hr. pose proof (life_inv_waiting _ _ _ _ _ _ Hr Hop) as Hw.
    destruct op as [|d paths|d m|]; cbn in Hw.
    + destruct Hw as [? _]. congruence.
    + destruct Hw as [? _]. congruence.
    + destruct Hw as (Hm & _ & _ & _ & m0 & Hb & ->). by rewrite Hrun in Hm.
    + destruct Hw as (_ & _ & d & _ & Hd). by rewrite Hk in Hd.
Qed.

(** ** The sample machines *)

Lemma life_waits_witness :
  (∀ l', rtc (life_step faults_hung_run world_green)
           (life_run faults_hung_run world_green (life_fuel world_green) (Booting, init_state)) l' →
         l' = life_run faults_hung_run world_green (life_fuel world_green) (Booting, init_state))
  ∧ ended (life_run faults_hung_run world_green (life_fuel world_green) (Booting, init_state)).1
    = false
  ∧ waiting faults_hung_run world_green init_state
      (life_run faults_hung_run world_green (life_fuel world_green) (Booting, init_state)).2
      (WaitRun 0 (inject 0 "http://localhost:41735" mocha_green)).
Proof.
  apply (life_waits faults_hung_run world_green init_state); [apply life_run_reaches|].
  by vm_compute.
Defined.

Lemma listen_fault_run_witness :
  life_run faults_silent world_green (life_fuel world_green) (Booting, init_state)
  = (AwaitStartup Silent (started_drivers world_green init_state),
     opened (targets world_green) init_state)
  ∧ sessions_open world_green init_state
      (life_run faults_silent world_green (life_fuel world_green) (Booting, init_state)).2
  ∧ st_server (life_run faults_silent world_green (life_fuel world_green) (Booting, init_state)).2
    = SrvNotStarted.
Proof.
  apply (listen_fault_run faults_silent world_green init_state ListenSilent);
    [done|by vm_compute|by repeat constructor].
Defined.

Lemma run_hang_witness :
  let m := inject 0 (address world_green) mocha_green in
  let s' := add_events (blocks world_green (address world_green) [] ++ (built world_green).2)
              (started world_green init_state) in
  life_run faults_hung_run world_green (life_fuel world_green) (Booting, init_state)
  = (Testing (address world_green) (started_drivers world_green init_state)
       (Busy 0 (Running m) []), s')
  ∧ waiting faults_hung_run world_green init_state s' (WaitRun 0 m).
Proof.
  apply (run_hang faults_hung_run world_green init_state [] 0 [] mocha_green);
    [done|by vm_compute|by repeat constructor|done|by vm_compute|by vm_compute|constructor
    |done].
Defined.

Lemma read_hang_witness :
  let s' := add_events (issued faults_hung_unit world_green) (started world_green init_state) in
  life_run faults_hung_unit world_green (life_fuel world_green) (Booting, init_state)
  = (Reading 0 ["elements/unit-a/"], s')
  ∧ waiting faults_hung_unit world_green init_state s' (WaitRead 0 ["elements/unit-a/"])
  ∧ Forall (λ ev, ∃ path, ev = EvReaddir path) (issued faults_hung_unit world_green).
Proof.
  apply (read_hang faults_hung_unit world_green init_state 0 []);
    [done|by vm_compute|by repeat constructor|by vm_compute|by vm_compute].
Defined.

Lemma kill_hang_witness :
  life_run faults_hung_kill world_green (life_fuel world_green) (Booting, init_state)
  = (AwaitKills VUndefined
       (kill_fates faults_hung_kill (started_drivers world_green init_state)
          (kill_promise world_green <$> started_drivers world_green init_state)),
     killed world_green (started_drivers world_green init_state)
       (add_event (EvLog "Killing all browser instances...") (tested world_green init_state))).
Proof.
  apply (kill_hang faults_hung_kill world_green init_state VUndefined);
    [done|by vm_compute|by repeat constructor|done|done|by vm_compute|by vm_compute].
Defined.

(** The green machine with each fault: where the script comes to rest,
    and what the script without faults would have reported. *)
Example life_samples :
  (life_run no_faults world_green (life_fuel world_green) (Booting, init_state)).1
  = Ended (Fulfilled Drained)
  ∧ (life_run faults_silent world_green (life_fuel world_green) (Booting, init_state)).1
    = AwaitStartup Silent [0]
  ∧ (life_run faults_bind_error world_green (life_fuel world_green) (Booting, init_state)).1
    = Ended (Fulfilled (Exit 1))
  ∧ waits_for faults_hung_run
      (life_run faults_hung_run world_green (life_fuel world_green) (Booting, init_state)).1
    = Some (WaitRun 0 (inject 0 "http://localhost:41735" mocha_green))
  ∧ waits_for faults_hung_kill
      (life_run faults_hung_kill world_green (life_fuel world_green) (Booting, init_state)).1
    = Some WaitKills
  ∧ (life_run faults_hung_listing world_green (life_fuel world_green) (Booting, init_state)).1
    = Reading 0 ["elements"]
  ∧ (life_run faults_hung_unit world_green (life_fuel world_green) (Booting, init_state)).1
    = Reading 0 ["elements/unit-a/"]
  ∧ (life_run faults_hung_unit world_stray_file (life_fuel world_green) (Booting, init_state)).1
    = Ended (Fulfilled (Exit 1))
  ∧ (life_run faults_hung_listing world_no_browser (life_fuel world_green) (Booting, init_state)).1
    = Ended (Fulfilled Drained)
  ∧ dom (st_sessions
           (life_run faults_bind_error world_green (life_fuel world_green) (Booting, init_state)).2)
    = {[0]}.
Proof. split_and!; by vm_compute. Qed.
