(* ===== verification/Safety.v ===== *)
(** * Safety: what holds at every point of every run

    The theorems of the component files speak of the state in which a
    piece of the script ends.  This file speaks of every configuration a
    run of the script passes through, with operations that never complete
    or without: the state invariant holds there, the Mocha runs so far
    have met a listening server and live browsers, and, when the faults
    can only delay, the script has done nothing but the beginning of what
    the script without faults does.

    The footprints come from the class [Effects.Frame].  A relation that
    every operation of the script outside the tests respects is a
    [Footprint]; one that the events of the tests respect as well is a
    [TestFootprint].  Every piece of [Lifecycle.v] has the footprints of
    the operations it calls, so every step does, and a property of states
    that is a footprint holds along every run. *)

From stdpp Require Import base tactics list strings numbers gmap relations.
From S2P Require Import Prelude Js Externals Effects Samples Browsers Server Discovery.
From S2P Require Import Sequencer Machine Main Script Served Faults Lifecycle Hangs.

(** ** Definitions *)

(** [R] is respected by the operations of the script outside the tests:
    the console, [process.exit], the server and the drivers. *)
Class Footprint (R : relation State) : Prop := {
  footprint_po :: PreOrder R;
  footprint_log :: ∀ msg, Frame R (emit (EvLog msg));
  footprint_error :: ∀ v, Frame R (emit (EvError v));
  footprint_exit :: ∀ code, Frame R (emit (EvExit code));
  footprint_listen :: ∀ w, Frame R (listen w);
  footprint_close :: Frame R server_close;
  footprint_driver :: ∀ w b, Frame R (getSeleniumDriver w b);
  footprint_timeout :: ∀ d ms, Frame R (setScriptTimeout d ms);
  footprint_kill :: ∀ w d, Frame R (killWebDriver w d);
}.

(** [R] is respected by the events of the tests as well: the directory
    reads, the loading of the suite files and the Mocha runs. *)
Class TestFootprint (R : relation State) : Prop := {
  footprint_readdir :: ∀ path, Frame R (emit (EvReaddir path));
  footprint_require :: ∀ file, Frame R (emit (EvRequire file));
  footprint_run :: ∀ m c, Frame R (emit (EvRun m c));
}.

(** Only events other than Mocha runs are appended. *)
Definition quiet_ext : relation State := λ s s',
  ∃ evs, st_trace s' = st_trace s ++ evs ∧ quiet evs.

(** The sequencer is at work: the script is inside [runTests]. *)
Definition testing (stage : Stage) : bool :=
  match stage with
  | Testing _ _ (Settled _) => false
  | Testing _ _ _ => true
  | _ => false
  end.

(** What holds of the state of every configuration of a run. *)
Definition safe (s : State) : Prop := state_ok s ∧ served (st_trace s) = true.

(** A configuration is a partial run of the script from [s] when what has
    happened in it is the beginning of what the script does from [s]. *)
Definition partial_run (w : World) (s : State) (l : Stage * State) : Prop :=
  st_trace l.2 `prefix_of` st_trace (script w s).2.

(** ** The three footprints *)

#[export] Instance trace_ext_footprint : Footprint trace_ext.
Proof. split; apply _. Qed.
#[export] Instance trace_ext_test_footprint : TestFootprint trace_ext.
Proof. split; apply _. Qed.

#[export] Instance state_ok_footprint : Footprint (preserving state_ok).
Proof. split; apply _. Qed.
#[export] Instance state_ok_test_footprint : TestFootprint (preserving state_ok).
Proof. split; apply _. Qed.

#[export] Instance quiet_ext_po : PreOrder quiet_ext.
Proof.
  split.
  - intros s. exists []. split; [by rewrite app_nil_r|constructor].
  - intros s1 s2 s3 (evs1 & E1 & H1) (evs2 & E2 & H2). exists (evs1 ++ evs2).
    split; [by rewrite E2, E1, app_assoc|by apply quiet_app].
Qed.

(** An operation that appends events that are not runs is quiet. *)
Lemma quiet_frame {A} (m : Prog A) :
  (∀ s, ∃ evs, st_trace (m s).2 = st_trace s ++ evs ∧ quiet evs) → Frame quiet_ext m.
Proof. intros H s. apply H. Qed.

#[export] Instance quiet_ext_footprint : Footprint quiet_ext.
Proof.
  split; [apply _|..]; intros; apply quiet_frame; intros s;
    try (by eexists [_]; split; [done|by repeat constructor]).
  - unfold getSeleniumDriver. destruct (w_driver_error w b).
    + exists []. split; [by rewrite app_nil_r|constructor].
    + by eexists [_]; split; [done|by repeat constructor].
  - unfold killWebDriver.
    destruct (w_kill_error w d); by eexists [_]; split; [done|by repeat constructor].
Qed.

(** ** The footprints of the pieces *)

Section frames.
Context (R : relation State) `{!PreOrder R}.

#[export] Instance frame_fate {A B} (f : Fate A) (m1 : Prog B) (m2 : Promise A → Prog B) :
  Frame R m1 → (∀ p, Frame R (m2 p)) →
  Frame R (match f with Settles p => m2 p | Never => m1 end).
Proof. by destruct f. Qed.

#[export] Instance frame_option {A B} (o : option A) (m1 : Prog B) (m2 : A → Prog B) :
  Frame R m1 → (∀ a, Frame R (m2 a)) →
  Frame R (match o with Some a => m2 a | None => m1 end).
Proof. by destruct o. Qed.

End frames.

Section footprint.
Context (R : relation State) `{!Footprint R}.

#[export] Instance startServer_footprint w : Frame R (startServer w).
Proof. by_parts startServer. Qed.

#[export] Instance provision_footprint w : Frame R (provision w).
Proof. by_parts provision and openDriver and targets. Qed.

#[export] Instance launch_footprint h w : Frame R (launch h w).
Proof. unfold launch. destruct (listen_fault h) as [[]|]; apply _. Qed.

#[export] Instance main_calls_footprint h w : Frame R (main_calls h w).
Proof. by_parts main_calls. Qed.

#[export] Instance uncaught_footprint e : Frame R (uncaught e).
Proof. by_parts uncaught. Qed.

#[export] Instance teardown_footprint w drivers : Frame R (teardown w drivers).
Proof. by_parts teardown. Qed.

#[export] Instance begin_teardown_footprint w drivers r : Frame R (begin_teardown w drivers r).
Proof. by_parts begin_teardown. Qed.

#[export] Instance end_teardown_footprint p err : Frame R (end_teardown p err).
Proof. by_parts end_teardown. Qed.

#[export] Instance handlers_footprint r : Frame R (handlers r).
Proof. by_parts handlers and on_fulfilled and on_rejected. Qed.

(** A step outside [runTests] has the footprint. *)
Lemma quiet_step h w l l' : life_step h w l l' → testing l.1 = false → R l.2 l'.2.
Proof.
  destruct 1 as [s|e s|s|p ds s|e ds s|address ds c evs c' s Hc Hd Hb
                |address ds d pending s|address ds r s|err kills p s Hp|r s];
    unfold resume; cbn [fst snd]; intros Ht; try done; try by apply (frame (R:=R)).
  destruct c as [| |r]; [done..|inversion Hc].
Qed.

Context `{!TestFootprint R}.

#[export] Instance discover_footprint h w : Frame R (discover h w).
Proof. by_parts discover. Qed.

#[export] Instance conclude_footprint w drivers tests :
  Frame R tests → Frame R (conclude w drivers tests).
Proof. intros. by_parts conclude. Qed.

#[export] Instance rest_tests_footprint w address c : Frame R (rest_tests w address c).
Proof. destruct c as [|d [] ?|]; cbn [rest_tests rest_phase]; apply _. Qed.

#[export] Instance main_footprint w : Frame R (main w).
Proof. by_parts main and startup and attempt. Qed.

#[export] Instance rest_main_footprint w stage : Frame R (rest_main w stage).
Proof. destruct stage as [| | |[]| | | | |]; cbn [rest_main]; apply _. Qed.

#[export] Instance script_footprint w : Frame R (script w).
Proof. by_parts script and toplevel and on_fulfilled. Qed.

(** A step of the sequencer has the footprint. *)
Lemma seq_step_footprint w address c evs c' s :
  seq_step w address c evs c' → R s (add_events evs s).
Proof.
  pose proof (frame (R:=R) (m:=buildMocha w) s) as Hb. rewrite run_buildMocha_built in Hb.
  destruct 1 as [d ds|d p evs p' ds Hp|d ds|d e ds|]; rewrite ?add_events_nil; try done.
  destruct Hp as [|m Hm|e He|m Hm|m Hm]; rewrite ?add_events_nil; try done.
  all: pose proof (frame (R:=R) (m:=runMocha w m) s) as H; rewrite run_runMocha in H.
  all: by rewrite ?Hm in H.
Qed.

(** Every step has the footprint. *)
Lemma life_step_footprint h w l l' : life_step h w l l' → R l.2 l'.2.
Proof.
  intros Hs. destruct (testing l.1) eqn:Ht; [|by eapply quiet_step].
  destruct Hs as [s|e s|s|p ds s|e ds s|address ds c evs c' s Hc Hd Hb
                 |address ds d pending s|address ds r s|err kills p s Hp|r s]; try done.
  - by eapply seq_step_footprint.
  - apply (frame (R:=R)).
Qed.

(** Every run has the footprint. *)
Lemma life_footprint h w l l' : rtc (life_step h w) l l' → R l.2 l'.2.
Proof. induction 1 as [|l1 l2 l3 Hs _ IH]; [done|]. etrans; [by eapply life_step_footprint|done]. Qed.

(** What is left of the script has the footprint. *)
Lemma rest_footprint w stage s : R s (rest w stage s).2.
Proof.
  assert (∀ stage', R s (handlers (rest_main w stage' s).1 (rest_main w stage' s).2).2) as H.
  { intros stage'. etrans; [apply (frame (m:=rest_main w stage'))|apply (frame (m:=handlers _))]. }
  destruct stage as [| | |[]| | | | |]; cbn [rest]; try apply H; apply (frame (R:=R)).
Qed.

End footprint.

(** ** The events of the sequencer *)

Lemma built_tests w ds address : Forall (is_test_of ds address) (built w).2.
Proof.
  pose proof (built_discovery w) as Hd. rewrite forallb_elem_of in Hd.
  apply Forall_forall. intros ev Hev. left. by apply Hd.
Qed.

Lemma blocks_tests w address ds : Forall (is_test_of ds address) (blocks w address ds).
Proof.
  apply Forall_forall.
  intros ev (evs & Hev & (d & -> & Hd)%list_elem_of_fmap)%list_elem_of_join.
  pose proof (run_one_tests w address d) as H. rewrite Forall_forall in H.
  eapply is_test_of_mono; [|by apply H]. by intros d' ->%list_elem_of_singleton.
Qed.

(** The events of the sequencer at work on [ds] are tests of [ds]. *)
Lemma reaches_tests w address ds evs c :
  reaches w address (Idle ds) evs c → Forall (is_test_of ds address) evs.
Proof.
  intros Hr. pose proof (reaches_inv _ _ _ _ _ Hr) as Hi.
  destruct c as [pending|d p pending|r]; cbn [seq_inv] in Hi.
  - destruct Hi as (fin & -> & _ & ->).
    eapply Forall_impl; [apply blocks_tests|]. intros ev. apply is_test_of_mono.
    intros d Hd. apply elem_of_app. by left.
  - destruct Hi as (fin & -> & _ & -> & _). apply Forall_app. split.
    + eapply Forall_impl; [apply blocks_tests|]. intros ev. apply is_test_of_mono.
      intros d' Hd. apply elem_of_app. by left.
    + assert (Forall (is_test_of (fin ++ d :: pending) address) (run_one w address d).2) as H1.
      { eapply Forall_impl; [apply run_one_tests|]. intros ev. apply is_test_of_mono.
        intros d' ->%list_elem_of_singleton. apply elem_of_app. right. left. }
      destruct p; cbn [phase_events]; [constructor|constructor|apply built_tests|done].
  - assert (evs = (run_all w address ds).2) as -> by (by rewrite <- Hi). apply run_all_tests.
Qed.

(** The reads of a discovery that waits are events of a discovery. *)
Lemma issued_tests h w ds address : Forall (is_test_of ds address) (issued h w).
Proof.
  unfold issued, discovery_reads. destruct (readdir_result w "elements") as [elements|e];
    [destruct (read_hangs h "elements")|]; repeat constructor; try by left.
  apply Forall_fmap, Forall_forall. intros x _. by left.
Qed.

(** ** The state while the tests run *)

(** Events of the tests of the started drivers, after the startup, leave
    the trace served. *)
Lemma served_tests w s evs :
  drivers_ok w → safe s →
  Forall (is_test_of (started_drivers w s) (address w)) evs →
  served (st_trace (add_events evs (started w s))) = true.
Proof.
  intros Hok [Hs Ht] Hevs. rewrite add_events_trace, served_app.
  pose proof (started_state_ok w s Hok Hs) as [_ Hsrv Hlive].
  rewrite <- Hsrv, <- Hlive, started_server. apply andb_true_iff. split.
  - destruct (quiet_started w s) as (evs' & -> & Hq). by apply served_quiet.
  - by apply served_from_tests with (started_drivers w s); [apply started_live|].
Qed.

(** A step of the sequencer leads to a stage of the tests. *)
Lemma test_step_stage h w l l' :
  life_step h w l l' → testing l.1 = true →
  (∃ address ds c, l'.1 = Testing address ds c) ∨ reading l'.1 = true.
Proof.
  destruct 1 as [s|e s|s|p ds s|e ds s|address ds c evs c' s Hc Hd Hb
                |address ds d pending s|address ds r s|err kills p s Hp|r s];
    cbn [fst testing]; intros Ht; try discriminate.
  - left. by exists address, ds, c'.
  - unfold resume. rewrite run_discover.
    destruct (unread h w); cbn [fst after_discovery reading]; [by right|].
    left. destruct (built w).1; cbn [after_discovery]; by eexists _, _, _.
Qed.

(** In a stage of the tests the trace is served. *)
Lemma testing_served h w s0 l :
  safe s0 → life_inv h w s0 l →
  (∃ address ds c, l.1 = Testing address ds c) ∨ reading l.1 = true →
  served (st_trace l.2) = true.
Proof.
  intros Hs0 Hi [(address & ds & c & Hl)|Hl]; destruct l as [stage s]; cbn [fst snd] in *;
    unfold life_inv in Hi; cbn [fst snd] in Hi.
  - subst stage. destruct Hi as (Hok & -> & -> & evs & Hr & ->).
    apply served_tests; [done..|]. by eapply reaches_tests.
  - destruct stage; try done. destruct Hi as (Hok & _ & fin & pending & Hds & ->).
    apply served_tests; [done..|]. apply Forall_app. split; [|apply issued_tests].
    eapply Forall_impl; [apply blocks_tests|]. intros ev. apply is_test_of_mono.
    intros d Hd. rewrite Hds. apply elem_of_app. by left.
Qed.

(** ** Every configuration of every run *)

(** C15: the state invariant and the safety of the tests hold at every
    point of every run, whatever never completes.  From a state that is
    consistent with its trace, in every configuration a run of the script
    reaches, the server and the sessions are those the trace describes and
    every Mocha run so far has happened while the static server was
    listening on the port the suites hold and the driver they hold was
    alive. *)
Theorem life_safe h w s0 l :
  safe s0 → rtc (life_step h w) (Booting, s0) l → safe l.2.
Proof.
  intros Hs0 Hr. split; [by apply (life_footprint (preserving state_ok) _ _ _ _ Hr), Hs0|].
  revert l Hr. apply (rtc_ind_r (λ l, served (st_trace l.2) = true)); [apply Hs0|].
  intros l1 l2 Hr Hs IH.
  assert (life_inv h w s0 l2) as Hi by (apply life_inv_reaches; by eapply rtc_r).
  destruct (testing l1.1) eqn:Ht.
  - by apply (testing_served h w s0 l2 Hs0 Hi), (test_step_stage h w l1).
  - destruct (quiet_step quiet_ext h w l1 l2 Hs Ht) as (evs & -> & Hq). by apply served_quiet.
Qed.

(** ** Faults that can only delay *)

(** In a configuration of a run in which the discovery does not wait,
    what is left of the script is what the script does. *)
Lemma life_reaches_rest h w s l :
  faults_ok h w → rtc (life_step h w) (Booting, s) l → reading l.1 = false →
  rest w l.1 l.2 = script w s.
Proof.
  intros Hh. revert l. apply (rtc_ind_r (λ l, reading l.1 = false → _)); [done|].
  intros l1 l2 _ Hs IH Hl2. rewrite <- (life_step_rest h w l1 l2) by done. apply IH.
  by destruct Hs.
Qed.

(** What is left of the script when a discovery starts begins with the
    events of the discovery. *)
Lemma rest_discovering w address ds d pending s :
  trace_ext (add_events (built w).2 s)
    (rest w (Testing address ds (Busy d Discovering pending)) s).2.
Proof.
  pose proof (seq_step_rest _ _ _ _ _ s (discover_seq_step w address d pending)) as Hc.
  pose proof (rest_footprint trace_ext w
    (Testing address ds (Busy d match (built w).1 with
                                | Fulfilled m => Running (inject d address m)
                                | Rejected e => Finished (Rejected e)
                                end pending)) (add_events (built w).2 s)) as H.
  cbn [rest rest_main] in *. by rewrite (conclude_ext w ds _ _ _ _ Hc).
Qed.

(** Only a discovery that waits leads to a stage in which the script
    waits for a listing. *)
Lemma step_reading h w l l' :
  life_step h w l l' → reading l'.1 = true →
  ∃ address ds d pending paths,
    l.1 = Testing address ds (Busy d Discovering pending)
    ∧ unread h w = Some paths ∧ l'.2 = add_events (issued h w) l.2.
Proof.
  destruct 1 as [s|e s|s|p ds s|e ds s|address ds c evs c' s Hc Hd Hb
                |address ds d pending s|address ds r s|err kills p s Hp|r s];
    unfold resume; cbn [fst snd]; try done.
  - by destruct (imports w s).1.
  - by destruct (main_calls h w s).1 as [[]|].
  - rewrite run_await. by destruct (outcome p).
  - rewrite run_discover. destruct (unread h w) as [paths|]; cbn [fst snd after_discovery].
    + intros _. by exists address, ds, d, pending, paths.
    + by destruct (built w).1.
  - by destruct (begin_teardown w ds r s).1 as [[]|].
Qed.

(** C18: faults that can only delay cannot add effects.  When the server
    starts and the kills that stay pending would have succeeded, what a run
    of the script has done in any configuration it reaches, whatever hung
    on the way, is the beginning of what the script does without faults:
    its trace is a prefix of the trace of [script]. *)
Theorem life_prefix h w s l :
  faults_ok h w → rtc (life_step h w) (Booting, s) l → partial_run w s l.
Proof.
  intros Hh Hr. unfold partial_run. destruct (reading l.1) eqn:Hl.
  - apply rtc_inv_r in Hr as [<-|(l1 & Hr & Hs)]; [done|].
    destruct (step_reading h w l1 l Hs Hl) as (address & ds & d & pending & paths & H1 & Hu & ->).
    rewrite <- (life_reaches_rest h w s l1 Hh Hr) by (by rewrite H1). rewrite H1.
    etrans; [|apply rest_discovering]. rewrite !add_events_trace.
    destruct (issued_prefix h w paths Hu) as [k ->]. exists k. by rewrite app_assoc.
  - rewrite <- (life_reaches_rest h w s l) by done. apply (rest_footprint trace_ext).
Qed.

(** ** The sample machines *)

Lemma life_safe_witness :
  safe (life_run faults_hung_kill world_two_chromes (life_fuel world_two_chromes)
          (Booting, init_state)).2.
Proof.
  apply (life_safe faults_hung_kill world_two_chromes init_state);
    [by split; [apply init_state_ok|]|apply life_run_reaches].
Defined.

Lemma life_prefix_witness :
  partial_run world_green init_state
    (life_run faults_hung_unit world_green (life_fuel world_green) (Booting, init_state)).
Proof.
  apply (life_prefix faults_hung_unit world_green init_state); [by split|apply life_run_reaches].
Defined.

(** A server that fails is not a fault that only delays: the browsers are
    opened without the server having started. *)
Example listen_fault_not_prefix :
  ¬ partial_run world_green init_state
      (life_run faults_silent world_green (life_fuel world_green) (Booting, init_state)).
Proof. intros [evs Hevs]. by vm_compute in Hevs. Qed.
