(* ===== verification/Waits.v ===== *)
(** * Waits: where a run stops, computed from the machine

    [Hangs.v] follows a run to the place where one given operation never
    completes.  This file answers the question for every machine and every
    combination of faults at once: [hangs h w s] is the operation the
    script started in [s] will wait for without end, or [None] when the
    process ends.  It is computed from the oracles alone, block by block as
    the script is written, without running the steps: the startup, then
    for each driver in turn the discovery and the run, then the kills.
    The theorem is that the run of the transition system comes to rest
    exactly there, so the process ends iff [hangs] finds nothing to wait
    for.  The proof needs no invariant: the operation a configuration will
    wait for ([stage_wait]) is the same before and after every step, and
    at rest it is the operation the script waits for. *)

From stdpp Require Import base tactics list strings numbers gmap relations.
From S2P Require Import Prelude Js Externals Effects Samples Browsers Server Discovery.
From S2P Require Import Sequencer Machine Main Script Faults Lifecycle Hangs.

(** ** Definitions *)

(** Line 81: the aggregate of the kills never settles. *)
Definition kills_wait (kills : list (Fate unit)) : option Wait :=
  if is_settles (Fate_all kills) then None else Some WaitKills.

(** Lines 73-83 once [runTests] has settled with [r]: the teardown is
    reached when the [catch] block does not throw, and waits for the
    kills. *)
Definition teardown_wait (h : Faults) (w : World) (drivers : list Driver) (r : Result unit)
    : option Wait :=
  match err_after r with
  | Fulfilled _ => kills_wait (kill_fates h drivers (kill_promise w <$> drivers))
  | Rejected _ => None
  end.

(** Line 106: the run of [m] for [d] never calls back; or it passes and
    the chain goes on to [next]; or it fails and the chain is left. *)
Definition run_wait (h : Faults) (w : World) (drivers : list Driver) (d : Driver) (m : Mocha)
    (next : option Wait) : option Wait :=
  if run_hangs h m then Some (WaitRun d m)
  else if bool_decide (w_failures w m = 0) then next
  else teardown_wait h w drivers (Rejected VUndefined).

(** Lines 100-106 for the driver [d] in phase [p], [next] being the wait
    of the drivers after it. *)
Definition phase_wait (h : Faults) (w : World) (address : string) (drivers : list Driver)
    (d : Driver) (p : Phase) (next : option Wait) : option Wait :=
  match p with
  | NotStarted | Discovering =>
      match unread h w with
      | Some paths => Some (WaitRead d paths)
      | None =>
          match (built w).1 with
          | Fulfilled m => run_wait h w drivers d (inject d address m) next
          | Rejected e => teardown_wait h w drivers (Rejected e)
          end
      end
  | Running m => run_wait h w drivers d m next
  | Finished (Fulfilled _) => next
  | Finished (Rejected e) => teardown_wait h w drivers (Rejected e)
  end.

(** Lines 96-110: the chain over the drivers still to be tested. *)
Fixpoint chain_wait (h : Faults) (w : World) (address : string) (drivers pending : list Driver)
    : option Wait :=
  match pending with
  | [] => teardown_wait h w drivers (Fulfilled tt)
  | d :: pending =>
      phase_wait h w address drivers d NotStarted (chain_wait h w address drivers pending)
  end.

Definition config_wait (h : Faults) (w : World) (address : string) (drivers : list Driver)
    (c : Config) : option Wait :=
  match c with
  | Idle pending => chain_wait h w address drivers pending
  | Busy d p pending => phase_wait h w address drivers d p (chain_wait h w address drivers pending)
  | Settled r => teardown_wait h w drivers r
  end.

(** Lines 57-87: [main] called in [s]. *)
Definition main_wait (h : Faults) (w : World) (s : State) : option Wait :=
  if bool_decide (drivers_ok w) then
    match listen_fault h with
    | None => chain_wait h w (address w) (started_drivers w s) (started_drivers w s)
    | Some ListenSilent => Some WaitListening
    | Some (ListenError _) => None
    end
  else None.

(** The operation a configuration will wait for. *)
Definition stage_wait (h : Faults) (w : World) (l : Life) : option Wait :=
  match l.1 with
  | Booting => match first_missing w with Some _ => None | None => main_wait h w l.2 end
  | Loaded => main_wait h w l.2
  | AwaitStartup (Launched p) drivers =>
      match outcome p with
      | Fulfilled server => chain_wait h w (address_of server) drivers drivers
      | Rejected _ => None
      end
  | AwaitStartup Silent _ => Some WaitListening
  | Testing address drivers c => config_wait h w address drivers c
  | Reading d paths => Some (WaitRead d paths)
  | AwaitKills _ kills => kills_wait kills
  | AwaitStartup (Errored _) _ | Crashing _ | MainSettled _ | Ended _ => None
  end.

(** The operation the script started in [s] will wait for. *)
Definition hangs (h : Faults) (w : World) (s : State) : option Wait :=
  stage_wait h w (Booting, s).

(** ** A step does not change what the script will wait for *)

Lemma config_wait_step h w address drivers c evs c' :
  seq_step w address c evs c' → discovering c = false → blocked h c = false →
  config_wait h w address drivers c' = config_wait h w address drivers c.
Proof.
  destruct 1 as [d ds|d p evs p' ds Hp|d ds|d e ds|]; try done.
  destruct Hp as [|m Hm|e He|m Hm|m Hm]; try done; cbn [blocked config_wait phase_wait];
    intros _ Hb; unfold run_wait; rewrite Hb.
  - by rewrite bool_decide_eq_true_2.
  - by rewrite bool_decide_eq_false_2.
Qed.

Lemma stage_wait_step h w l l' : life_step h w l l' → stage_wait h w l' = stage_wait h w l.
Proof.
  destruct 1 as [s|e s|s|p ds s|e ds s|address ds c evs c' s Hc Hd Hb
                |address ds d pending s|address ds r s|err kills p s Hp|r s];
    unfold stage_wait; cbn [fst snd]; try done.
  - rewrite resume_imports. by destruct (first_missing w).
  - unfold main_wait, resume. destruct (decide (drivers_ok w)) as [Hok|Hno].
    + rewrite bool_decide_eq_true_2, run_main_calls by done. cbn [fst snd after_calls].
      by destruct (listen_fault h) as [[|e]|].
    + rewrite bool_decide_eq_false_2 by done.
      destruct (main_calls_rejected h w s Hno) as [e ->]. done.
  - unfold resume. rewrite run_await. by destruct (outcome p).
  - by eapply config_wait_step.
  - rewrite resume_discover. cbn [config_wait phase_wait].
    destruct (unread h w); [done|]. by destruct (built w).1.
  - unfold resume. rewrite run_begin_teardown. cbn [config_wait]. unfold teardown_wait.
    by destruct (err_after r).
  - unfold kills_wait. by rewrite Hp.
Qed.

Lemma stage_wait_reaches h w l l' :
  rtc (life_step h w) l l' → stage_wait h w l' = stage_wait h w l.
Proof.
  induction 1 as [|l1 l2 l3 Hs _ IH]; [done|]. rewrite IH. by apply stage_wait_step.
Qed.

(** At rest, it is the operation the script waits for. *)
Lemma stage_wait_rest h w l : life_next h w l = None → stage_wait h w l = waits_for h l.1.
Proof.
  destruct l as [stage s]. intros [He|[op Hop]]%life_next_none.
  - by destruct stage.
  - unfold stage_wait. cbn [fst snd] in *.
    destruct stage as [| | |[]|address ds c|d paths|err kills| |]; try done.
    destruct c as [|d [] pending|]; try done. simpl in *. unfold run_wait.
    by destruct (run_hangs h mocha).
Qed.

(** A script at rest that waits for nothing has ended. *)
Lemma rest_ended h w l : life_next h w l = None → ended l.1 = true ↔ waits_for h l.1 = None.
Proof.
  destruct l as [stage s]. intros [He|[op Hop]]%life_next_none; cbn [fst] in *.
  - by destruct stage.
  - rewrite Hop. split; [|done]. by destruct stage as [| | |[]|? ? [|? [] ?|]| | | |].
Qed.

(** ** Machines on which nothing is waited for *)

Lemma kills_wait_none h drivers kills :
  (∀ d, kill_hangs h d = false) → kills_wait (kill_fates h drivers kills) = None.
Proof.
  intros Hk. unfold kills_wait, Fate_all.
  assert (forallb is_settles (kill_fates h drivers kills) = true) as ->; [|done].
  unfold kill_fates. revert kills. induction drivers as [|d ds IH]; intros [|p ps]; try done.
  simpl. by rewrite Hk, IH.
Qed.

Lemma teardown_wait_none h w drivers r :
  (∀ d, kill_hangs h d = false) → teardown_wait h w drivers r = None.
Proof. intros Hk. unfold teardown_wait. destruct (err_after r); [by apply kills_wait_none|done]. Qed.

Lemma chain_wait_none h w address drivers pending :
  unread h w = None → (∀ m, run_hangs h m = false) → (∀ d, kill_hangs h d = false) →
  chain_wait h w address drivers pending = None.
Proof.
  intros Hu Hr Hk. induction pending as [|d pending IH]; simpl; [by apply teardown_wait_none|].
  rewrite Hu. destruct (built w).1; [|by apply teardown_wait_none].
  unfold run_wait. rewrite Hr, IH. destruct (bool_decide _); [done|by apply teardown_wait_none].
Qed.

(** ** The theorems *)

(** C13: where the script stops.  Whatever the machine and whatever never
    completes on it, the run of the script comes to rest waiting for
    [hangs h w s], and the process ends exactly when [hangs] finds nothing
    to wait for: when a library is missing or a driver does not start; or
    the server emits ['error']; or the server listens and, for each driver
    in turn, the listings of the discovery arrive (or a read fails), the
    run calls back, and the chain goes on or is left; and in the end the
    [catch] block throws or the aggregate of the kills settles. *)
Theorem life_hangs h w s :
  waits_for h (life_run h w (life_fuel w) (Booting, s)).1 = hangs h w s
  ∧ (ended (life_run h w (life_fuel w) (Booting, s)).1 = true ↔ hangs h w s = None).
Proof.
  pose proof (life_run_rests h w (life_fuel w) (Booting, s) (life_fuel_enough w s)) as Hn.
  assert (waits_for h (life_run h w (life_fuel w) (Booting, s)).1 = hangs h w s) as <-.
  { rewrite <- (stage_wait_rest h w) by done. apply stage_wait_reaches, life_run_reaches. }
  split; [done|by apply (rest_ended h w)].
Qed.

(** A process that ends.  When the server does not fail without a
    sign, no discovery waits for a listing, every run calls back and every
    kill settles, the process ends, whatever else goes wrong. *)
Lemma life_ends h w s :
  listen_fault h ≠ Some ListenSilent → unread h w = None →
  (∀ m, run_hangs h m = false) → (∀ d, kill_hangs h d = false) →
  hangs h w s = None.
Proof.
  intros Hl Hu Hr Hk. unfold hangs, stage_wait, main_wait. cbn [fst snd].
  destruct (first_missing w); [done|]. destruct (bool_decide _); [|done].
  destruct (listen_fault h) as [[|e]|]; [done|done|by apply chain_wait_none].
Qed.

(** ** The sample machines *)

Lemma life_ends_witness : hangs faults_bind_error world_red init_state = None.
Proof. by apply life_ends. Defined.

(** Where the runs of the sample faults stop on the green machine, and two
    faults that are never met: a run that would hang is not reached when
    the discovery fails, and a listing that never arrives is hidden when
    no browser is a target. *)
Example hangs_samples :
  hangs no_faults world_green init_state = None
  ∧ hangs faults_silent world_green init_state = Some WaitListening
  ∧ hangs faults_hung_listing world_green init_state = Some (WaitRead 0 ["elements"])
  ∧ hangs faults_hung_unit world_green init_state = Some (WaitRead 0 ["elements/unit-a/"])
  ∧ is_Some (hangs faults_hung_run world_green init_state)
  ∧ hangs faults_hung_kill world_green init_state = Some WaitKills
  ∧ hangs faults_hung_run world_no_elements init_state = None
  ∧ hangs faults_hung_listing world_no_browser init_state = None
  ∧ hangs faults_hung_kill world_red init_state = None.
Proof. vm_compute. split_and!; eauto. Qed.
