(* ===== verification/Timing.v ===== *)
(** * Timing: the tests of a suite under Mocha's timeout

    Line 37 sets the timeout of the root suite to 60000 ms before the suite
    files are loaded, so every suite they declare inherits it.  To the
    script a Mocha run is a number of failures ([Effects.w_failures]) that
    arrives some time, or never ([Lifecycle.run_hangs]).  This file opens
    the run: a suite is a list of tests, a test takes a time or never calls
    back and passes or not, and Mocha runs them one after the other, giving
    each the timeout of its suite and counting a test as failed when it
    fails or runs out of time.  The runner is not code of the script: it is
    modelled from Mocha's documentation, as an assumption about the library
    ([run_test] and the functions built on it), and the theorems hold of
    the script on that assumption.  A plan of tests determines the failure
    count and whether the run calls back; the theorems say what the timeout
    of line 37 means for the script: every run calls back, within 60 s per
    test; a test that never calls back is a failure, not a hang; and tests
    that pass within 60 s each are never reported as failures. *)

From stdpp Require Import base tactics list strings numbers gmap relations.
From S2P Require Import Prelude Js Externals Effects Samples Browsers Server Discovery.
From S2P Require Import Sequencer Machine Main Script Faults Lifecycle Hangs.

(** ** Definitions *)

(** A test as the runner sees it: the time after which it calls back, in
    milliseconds, or [None] when it never does; and whether it passes when
    it calls back. *)
Record Test := mkTest {
  test_time : option N;
  test_passes : bool;
}.

(** The tests a suite declares.  They depend on the suite's context: the
    driver and the address the script injected. *)
Definition Plan : Type := Suite → list Test.

Inductive TestEnd :=
  | TestPassed
  | TestFailed
  | TestTimedOut.

Definition is_failure (e : TestEnd) : bool :=
  match e with TestPassed => false | _ => true end.

(** One test under a timeout of [ms] milliseconds, where [0] disables the
    timeout: how it ends and after how long, or [None] when it never
    ends. *)
Definition run_test (ms : N) (t : Test) : option (TestEnd * N) :=
  match test_time t with
  | Some d =>
      if bool_decide (ms ≠ 0 ∧ ms < d)%N then Some (TestTimedOut, ms)
      else Some (if test_passes t then TestPassed else TestFailed, d)
  | None => if bool_decide (ms = 0%N) then None else Some (TestTimedOut, ms)
  end.

(** The tests of a suite, one after the other: the number of failures and
    the time taken, or [None] when a test never ends. *)
Fixpoint run_tests (ms : N) (ts : list Test) : option (nat * N) :=
  match ts with
  | [] => Some (0, 0%N)
  | t :: ts' =>
      '(e, d) ← run_test ms t;
      '(n, d') ← run_tests ms ts';
      Some (if is_failure e then S n else n, (d + d')%N)
  end.

(** [mocha.run]: the top-level suites in order, each with its timeout. *)
Fixpoint run_suites (plan : Plan) (suites : list Suite) : option (nat * N) :=
  match suites with
  | [] => Some (0, 0%N)
  | su :: suites' =>
      '(n, d) ← run_tests (suite_timeout su) (plan su);
      '(n', d') ← run_suites plan suites';
      Some (n + n', (d + d')%N)
  end.

Definition mocha_run (plan : Plan) (m : Mocha) : option (nat * N) :=
  run_suites plan (mocha_suites m).

(** The tests of a Mocha, in the order they run. *)
Definition tests_of (plan : Plan) (m : Mocha) : list Test :=
  mjoin (plan <$> mocha_suites m).

(** The test passes, and within [ms] milliseconds. *)
Definition in_time (ms : N) (t : Test) : bool :=
  test_passes t && from_option (λ d, bool_decide (d ≤ ms)%N) false (test_time t).

(** The machine [w] with the tests of [plan]: the failure count of a run
    is the one Mocha computes. *)
Definition with_tests (plan : Plan) (w : World) : World :=
  {| w_browsers := w_browsers w; w_port := w_port w; w_fs := w_fs w;
     w_latency := w_latency w; w_driver_error := w_driver_error w; w_module := w_module w;
     w_failures := λ m, from_option fst 0 (mocha_run plan m);
     w_kill_error := w_kill_error w; w_installed := w_installed w |}.

(** The faults of the tests of [plan]: a run hangs when Mocha never calls
    back. *)
Definition faults_of (plan : Plan) : Faults :=
  {| listen_fault := None;
     read_hangs := λ _, false;
     run_hangs := λ m, bool_decide (mocha_run plan m = None);
     kill_hangs := λ _, false |}.

(** Sample plans: two slow tests that pass; a test that never calls
    back. *)
Definition plan_slow : Plan :=
  λ _, [ {| test_time := Some 50000%N; test_passes := true |};
         {| test_time := Some 50000%N; test_passes := true |} ].

Definition plan_stuck : Plan :=
  λ _, [ {| test_time := Some 10%N; test_passes := true |};
         {| test_time := None; test_passes := true |} ].

(** ** One test, one suite *)

Section timeout.
Context (ms : N) (Hms : ms ≠ 0%N).

Lemma run_test_ends t : ∃ e d, run_test ms t = Some (e, d) ∧ (d ≤ ms)%N.
Proof.
  unfold run_test. destruct (test_time t) as [d|].
  - case_bool_decide; eexists _, _; (split; [done|lia]).
  - rewrite bool_decide_eq_false_2 by done. eexists _, _. split; [done|lia].
Qed.

(** Under a timeout a test is a failure exactly when it is not in time. *)
Lemma run_test_failure t e d :
  run_test ms t = Some (e, d) → is_failure e = negb (in_time ms t).
Proof.
  unfold run_test, in_time. destruct (test_time t) as [d'|]; simpl.
  - case_bool_decide as H1; intros [= <- <-].
    + rewrite bool_decide_eq_false_2 by lia. by rewrite andb_false_r.
    + rewrite bool_decide_eq_true_2 by lia. by destruct (test_passes t).
  - rewrite bool_decide_eq_false_2 by done. intros [= <- <-]. by rewrite andb_false_r.
Qed.

Lemma run_tests_cons t ts e d n d' :
  run_test ms t = Some (e, d) → run_tests ms ts = Some (n, d') →
  run_tests ms (t :: ts) = Some (if is_failure e then S n else n, (d + d')%N).
Proof. intros He Hts. cbn [run_tests]. rewrite He. cbn. by rewrite Hts. Qed.

(** The tests of a suite all end: the failures are the tests that are not
    in time, and the time is at most the timeout per test. *)
Lemma run_tests_ends ts :
  ∃ d, run_tests ms ts = Some (length (filter (λ t, in_time ms t = false) ts), d)
       ∧ (d ≤ ms * N.of_nat (length ts))%N.
Proof.
  induction ts as [|t ts (d' & IH & Hd')]; [exists 0%N; split; [done|simpl; lia]|].
  destruct (run_test_ends t) as (e & d & He & Hd). exists (d + d')%N.
  rewrite (run_tests_cons t ts e d _ d' He IH), (run_test_failure t e d He), filter_cons.
  split; [|simpl length; lia].
  by destruct (in_time ms t).
Qed.

End timeout.

(** ** A run *)

Lemma tests_of_cons plan su suites files timeout :
  tests_of plan {| mocha_files := files; mocha_timeout := timeout; mocha_suites := su :: suites |}
  = plan su ++ tests_of plan
      {| mocha_files := files; mocha_timeout := timeout; mocha_suites := suites |}.
Proof. done. Qed.

(** When every suite has the timeout [ms], the run calls back: the
    failures are the tests not in time and the run takes at most [ms] per
    test. *)
Lemma run_suites_ends plan ms suites :
  ms ≠ 0%N → Forall (λ su, suite_timeout su = ms) suites →
  ∃ d, run_suites plan suites
       = Some (length (filter (λ t, in_time ms t = false) (mjoin (plan <$> suites))), d)
       ∧ (d ≤ ms * N.of_nat (length (mjoin (plan <$> suites))))%N.
Proof.
  intros Hms. induction 1 as [|su suites Hsu _ (d' & IH & Hd')].
  { exists 0%N. split; [done|simpl; lia]. }
  destruct (run_tests_ends ms Hms (plan su)) as (d & Hd & Hle). exists (d + d')%N.
  cbn [run_suites]. rewrite Hsu, Hd. cbn. rewrite IH. cbn [fmap list_fmap mjoin list_join].
  rewrite filter_app, !length_app, Nat2N.inj_add, N.mul_add_distr_l.
  split; [done|by apply N.add_le_mono].
Qed.

(** ** The runs of the script *)

(** The tests do not change what is discovered. *)
Lemma loaded_with_tests plan w m files :
  loaded (with_tests plan w) m files = loaded w m files.
Proof.
  revert m. induction files as [|file files IH]; intros m; [done|].
  cbn [loaded w_module with_tests]. destruct (w_module w file); [|done]. by rewrite IH.
Qed.

Lemma built_with_tests plan w : built (with_tests plan w) = built w.
Proof.
  unfold built. change (readdir_result (with_tests plan w)) with (readdir_result w).
  change (probe_promise (with_tests plan w)) with (probe_promise w).
  destruct (readdir_result w "elements"); [|done]. destruct (outcome _); [|done].
  by rewrite loaded_with_tests.
Qed.

(** Every suite the script runs has the timeout of line 37. *)
Lemma built_timeouts w m0 d a :
  (built w).1 = Fulfilled m0 →
  Forall (λ su, suite_timeout su = 60000%N) (mocha_suites (inject d a m0)).
Proof.
  intros Hb. pose proof (run_buildMocha_built w init_state) as Hrun. rewrite Hb in Hrun.
  apply buildMocha_suites in Hrun as [_ Hsu]. unfold inject. rewrite with_suites_suites.
  apply Forall_fmap. eapply Forall_impl; [done|]. by intros su [? _].
Qed.

Lemma built_run plan w m0 d a :
  (built w).1 = Fulfilled m0 →
  ∃ t, mocha_run plan (inject d a m0)
       = Some (length (filter (λ t, in_time 60000 t = false) (tests_of plan (inject d a m0))), t)
       ∧ (t ≤ 60000 * N.of_nat (length (tests_of plan (inject d a m0))))%N.
Proof. intros Hb. by apply run_suites_ends, (built_timeouts w). Qed.

(** C31: the timeout of line 37 bounds every run.  Whatever the tests do,
    the run of a Mocha the script built calls back, after at most 60 s per
    test, and reports as failures exactly the tests that fail, take longer
    than 60 s or never call back. *)
Theorem mocha_run_bounded plan w m0 d a :
  (built w).1 = Fulfilled m0 →
  ∃ t, mocha_run plan (inject d a m0)
       = Some (w_failures (with_tests plan w) (inject d a m0), t)
       ∧ (t ≤ 60000 * N.of_nat (length (tests_of plan (inject d a m0))))%N
       ∧ w_failures (with_tests plan w) (inject d a m0)
         = length (filter (λ t, in_time 60000 t = false) (tests_of plan (inject d a m0))).
Proof.
  intros Hb. destruct (built_run plan w m0 d a Hb) as (t & Hrun & Ht). exists t.
  cbn [w_failures with_tests]. by rewrite Hrun.
Qed.

(** With tests that Mocha runs under the timeout of line 37, a server that
    starts and kills that settle, the script ends, and as the program
    [script] says on the machine whose failure counts are those of the
    tests. *)
Lemma life_run_tests plan w s :
  life_run (faults_of plan) (with_tests plan w) (life_fuel (with_tests plan w)) (Booting, s)
  = (Ended (script (with_tests plan w) s).1, (script (with_tests plan w) s).2).
Proof.
  apply life_run_ends; [done|by apply unread_none|done|]. intros d m0 Hb. rewrite built_with_tests in Hb.
  destruct (built_run plan w m0 d (address (with_tests plan w)) Hb) as (t & Hrun & _).
  cbn [run_hangs faults_of]. rewrite Hrun. by apply bool_decide_eq_false_2.
Qed.

(** The run of a Mocha the script built reports no failure if and only if
    every test of every top-level suite passes within 60 s. *)
Lemma run_green plan w m0 d a :
  (built w).1 = Fulfilled m0 →
  w_failures (with_tests plan w) (inject d a m0) = 0
  ↔ Forall (λ t, in_time 60000 t = true) (tests_of plan (inject d a m0)).
Proof.
  intros Hb. destruct (built_run plan w m0 d a Hb) as (t & Hrun & _).
  cbn [w_failures with_tests]. rewrite Hrun. cbn [from_option fst].
  rewrite length_zero_iff_nil, filter_nil_Forall. apply Forall_iff. intros te.
  by rewrite not_false_iff_true.
Qed.

(** ** The exit code in terms of the tests *)

Lemma with_tests_ok plan w : world_ok w → world_ok (with_tests plan w).
Proof. intros [H1 H2 H3]. by split. Qed.

Lemma first_missing_with_tests plan w : first_missing (with_tests plan w) = first_missing w.
Proof. done. Qed.

(** The verdict of the sequencer is that of the tests of every driver. *)
Lemma verdict_with_tests plan w a ds m0 :
  (built w).1 = Fulfilled m0 →
  is_fulfilled (verdict (with_tests plan w) a ds)
  = forallb (λ d, forallb (in_time 60000) (tests_of plan (inject d a m0))) ds.
Proof.
  intros Hb. unfold verdict. rewrite built_with_tests, Hb. destruct ds as [|d0 ds]; [done|].
  set (l := d0 :: ds). clearbody l.
  assert (∀ d, bool_decide (w_failures (with_tests plan w) (inject d a m0) = 0)
               = forallb (in_time 60000) (tests_of plan (inject d a m0))) as Hd.
  { intros d. pose proof (run_green plan w m0 d a Hb) as Hg.
    rewrite Forall_forall, <- forallb_elem_of in Hg.
    destruct (forallb _ _); [by apply bool_decide_eq_true_2, Hg|].
    apply bool_decide_eq_false_2. by intros ?%Hg. }
  induction l as [|d l IH]; [done|]. cbn [forallb]. rewrite Hd.
  destruct (forallb (in_time 60000) _); [|done]. apply IH.
Qed.

(** C22: the exit code in terms of the tests.  Take a machine whose
    collaborators throw only [Error] objects, whose libraries are found
    and whose discovery works; let the server start, the listings arrive
    and the kills settle, and let Mocha run the tests as its documentation
    says.  Then the process ends, whatever the tests do, and with code 0
    exactly when every driver starts, every test of every suite passes
    within 60 s on every driver, and every kill succeeds; in every other
    case it ends with code 1. *)
Theorem tests_exit_code plan w s m0 :
  world_ok w → first_missing w = None → (built w).1 = Fulfilled m0 →
  ∃ p, (life_run (faults_of plan) (with_tests plan w) (life_fuel (with_tests plan w))
          (Booting, s)).1 = Ended (Fulfilled p)
    ∧ exit_code p
      = (if bool_decide (drivers_ok w)
            && forallb (λ d, forallb (in_time 60000) (tests_of plan (inject d (address w) m0)))
                 (started_drivers w s)
            && bool_decide (kills_ok w (started_drivers w s))
         then 0 else 1).
Proof.
  intros Hw Hm Hb. rewrite life_run_tests. cbn [fst].
  rewrite run_script, first_missing_with_tests, Hm, toplevel_end by by apply with_tests_ok.
  unfold green. rewrite (verdict_with_tests plan w _ _ m0 Hb). eexists. split; [done|].
  change (drivers_ok (with_tests plan w)) with (drivers_ok w).
  change (started_drivers (with_tests plan w) s) with (started_drivers w s).
  change (kills_ok (with_tests plan w)) with (kills_ok w).
  change (address (with_tests plan w)) with (address w).
  by destruct (_ && _ && _).
Qed.

(** ** The sample machines *)

Lemma mocha_run_bounded_witness :
  ∃ t, mocha_run plan_stuck (inject 0 "http://localhost:41735" mocha_green)
       = Some (w_failures (with_tests plan_stuck world_green)
                 (inject 0 "http://localhost:41735" mocha_green), t)
       ∧ (t ≤ 60000 * N.of_nat (length (tests_of plan_stuck
                                          (inject 0%nat "http://localhost:41735" mocha_green))))%N
       ∧ w_failures (with_tests plan_stuck world_green)
           (inject 0 "http://localhost:41735" mocha_green)
         = length (filter (λ t, in_time 60000 t = false)
                     (tests_of plan_stuck (inject 0 "http://localhost:41735" mocha_green))).
Proof. apply (mocha_run_bounded plan_stuck world_green mocha_green). by vm_compute. Defined.

Lemma tests_exit_code_witness :
  ∃ p, (life_run (faults_of plan_stuck) (with_tests plan_stuck world_green)
          (life_fuel (with_tests plan_stuck world_green)) (Booting, init_state)).1
       = Ended (Fulfilled p)
    ∧ exit_code p
      = (if bool_decide (drivers_ok world_green)
            && forallb (λ d, forallb (in_time 60000)
                               (tests_of plan_stuck (inject d (address world_green) mocha_green)))
                 (started_drivers world_green init_state)
            && bool_decide (kills_ok world_green (started_drivers world_green init_state))
         then 0 else 1).
Proof.
  apply (tests_exit_code plan_stuck world_green init_state mocha_green);
    [apply world_green_ok|by vm_compute|by vm_compute].
Defined.

(** Two tests of 50 s each pass in a run of 100 s: the timeout is per
    test, not for the run.  A test that never calls back is one failure
    after 60 s, and the script ends with exit code 1. *)
Example timing_samples :
  mocha_run plan_slow (inject 0 "http://localhost:41735" mocha_green) = Some (0, 100000%N)
  ∧ mocha_run plan_stuck (inject 0 "http://localhost:41735" mocha_green) = Some (1, 60010%N)
  ∧ (script (with_tests plan_slow world_green) init_state).1 = Fulfilled Drained
  ∧ (script (with_tests plan_stuck world_green) init_state).1 = Fulfilled (Exit 1)
  ∧ run_test 0 {| test_time := None; test_passes := true |} = None.
Proof. split_and!; by vm_compute. Qed.
