(* ===== verification/Static.v ===== *)
(** * Static: what the server serves

    Lines 14-16 build the request handler of the server: an express
    application with one middleware, [express.static('docs')].  The script
    never sends a request; the tests do, through the browser, to the
    address the script gave them.  The implementation of the middleware
    belongs to express and is not code of the script.  What the script
    relies on is stated here as an assumption, the class [Static], taken
    from the documentation of express: the middleware answers only [GET] and
    [HEAD], what it sends is the content of a file under its root, it
    depends on nothing outside the root, and a plain path to a file under
    the root is answered with that file.  The theorems about the
    application are proved for every middleware of the class; a reference
    middleware, [serve_static], shows that the class is inhabited and makes
    the definitions run.  Paths are lists of segments: the parsing of
    URLs, headers and bodies are not modelled. *)

From stdpp Require Import base tactics list strings numbers gmap relations.
From S2P Require Import Prelude Codec Js Externals Effects Samples Browsers Server Discovery.
From S2P Require Import Sequencer Machine Main Script Faults Lifecycle Hangs.

(** ** Definitions *)

Inductive Method := GET | HEAD | POST | PUT | DELETE | OPTIONS.

#[export] Instance Method_eq_dec : EqDecision Method.
Proof. solve_decision. Defined.

(** A request: the method and the segments of the path, so that
    [/a/b.html] is [["a"; "b.html"]] and a path that ends in a slash has
    the empty string as its last segment. *)
Record Request := mkRequest {
  req_method : Method;
  req_path : list string;
}.

Inductive Response :=
  | Sent (file : list string) (content : string)   (* 200, the content of [file] *)
  | Moved (location : list string)                 (* 301, to the path of a directory *)
  | NotFound.                                      (* 404, by the application itself *)

#[export] Instance Response_eq_dec : EqDecision Response.
Proof. solve_decision. Defined.

(** The files of the machine, by the segments of their path from the
    working directory of the script. *)
Definition Files : Type := gmap (list string) string.

(** A middleware answers, or passes the request on ([next()]). *)
Definition Middleware : Type := Files → Request → option Response.

(** An express application: its middleware, in the order of [use]. *)
Definition App : Type := list Middleware.

(** [express()]. *)
Definition express : App := [].

(** [app.use(mw)]. *)
Definition app_use (mw : Middleware) (app : App) : App := app ++ [mw].

(** The application as a request handler: the first middleware that
    answers; when none does, express answers 404. *)
Fixpoint handle (app : App) (files : Files) (req : Request) : Response :=
  match app with
  | [] => NotFound
  | mw :: app' =>
      match mw files req with
      | Some r => r
      | None => handle app' files req
      end
  end.

Definition reads (m : Method) : bool :=
  match m with GET | HEAD => true | _ => false end.

(** A segment that names a file or directory that is served: not empty
    and not starting with a dot (neither [..] nor a hidden file). *)
Definition plain (seg : string) : bool :=
  negb (String.prefix "." seg) && negb (bool_decide (seg = "")).

(** What the script relies on of [express.static]. *)
Class Static (static : list string → Middleware) : Prop := {
  static_reads root files req r :
    static root files req = Some r → reads (req_method req) = true;
  static_confined root files req file content :
    static root files req = Some (Sent file content) →
    root `prefix_of` file ∧ files !! file = Some content;
  static_moved root files req location :
    static root files req = Some (Moved location) → location = req_path req ++ [""];
  static_next root files req : static root files req ≠ Some NotFound;
  static_found root files req content :
    req_method req = GET → forallb plain (req_path req) = true →
    files !! (root ++ req_path req) = Some content →
    static root files req = Some (Sent (root ++ req_path req) content);
  static_local root files files' req :
    (∀ file, root `prefix_of` file → files !! file = files' !! file) →
    static root files req = static root files' req;
}.

(** Lines 14-15: [const app = express(); app.use(express.static('docs'))]. *)
Definition app (static : list string → Middleware) : App :=
  app_use (static ["docs"]) express.

(** What a client gets that sends [req] to [address] when the process is
    in state [s]: the answer of the application when [address] is that of
    the port the server listens on, and no answer otherwise. *)
Definition answers (static : list string → Middleware) (s : State) (files : Files)
    (address : string) (req : Request) : option Response :=
  match read (A:=Server) address, st_server s with
  | Some server, SrvListening port =>
      if decide (port = address_port server) then Some (handle (app static) files req) else None
  | _, _ => None
  end.

(** A directory: a proper prefix of the path of a file. *)
Definition is_dir (files : Files) (dir : list string) : bool :=
  bool_decide (map_Exists (λ file _, dir `prefix_of` file ∧ file ≠ dir) files).

(** A reference middleware: a plain path to a file is answered with the
    file, a path that ends in a slash with the [index.html] of the
    directory, the path of a directory with a redirection to the path with
    a slash; anything else is passed on. *)
Definition serve_static (root : list string) : Middleware := λ files req,
  let path := req_path req in
  let dir := take (length path - 1) path in
  if negb (reads (req_method req)) then None
  else if bool_decide (last path = Some "") then
    if forallb plain dir
    then Sent (root ++ dir ++ ["index.html"]) <$> files !! (root ++ dir ++ ["index.html"])
    else None
  else if forallb plain path then
    match files !! (root ++ path) with
    | Some content => Some (Sent (root ++ path) content)
    | None => if is_dir files (root ++ path) then Some (Moved (path ++ [""])) else None
    end
  else None.

(** Sample files: a page and a script under [docs], the script itself
    outside. *)
Definition files_demo : Files :=
  {[ ["docs"; "index.html"] := "<h1>dash-elements</h1>";
     ["docs"; "demo"; "index.html"] := "<dash-button></dash-button>";
     ["docs"; "bundle.js"] := "customElements.define()";
     ["run-e2e-tests.js"] := "const http = require('http');" ]}.

(** ** The application, for every middleware of the class *)

Section app.
Context (static : list string → Middleware) `{!Static static}.
Implicit Types (files : Files) (req : Request).

Lemma handle_app files req :
  handle (app static) files req = default NotFound (static ["docs"] files req).
Proof. unfold app, app_use, express. simpl. by destruct (static _ files req). Qed.

(** What the application can answer. *)
Lemma app_answer files req :
  match handle (app static) files req with
  | Sent file content =>
      reads (req_method req) = true ∧ ["docs"] `prefix_of` file ∧ files !! file = Some content
  | Moved location => reads (req_method req) = true ∧ location = req_path req ++ [""]
  | NotFound => True
  end.
Proof.
  rewrite handle_app. destruct (static ["docs"] files req) as [[file content|location|]|] eqn:E;
    simpl; [| |done..].
  - split; [by eapply static_reads|by eapply static_confined].
  - split; [by eapply static_reads|by eapply static_moved].
Qed.

(** The answer depends on the files under [docs] only. *)
Lemma app_local files files' req :
  (∀ file, ["docs"] `prefix_of` file → files !! file = files' !! file) →
  handle (app static) files req = handle (app static) files' req.
Proof. intros Hf. by rewrite !handle_app, (static_local ["docs"] files files' req Hf). Qed.

(** Everything but [GET] and [HEAD] is answered with 404. *)
Lemma app_reads files req :
  reads (req_method req) = false → handle (app static) files req = NotFound.
Proof.
  intros Hm. pose proof (app_answer files req) as H.
  destruct (handle _ files req); [destruct H; congruence..|done].
Qed.

(** ** The server while the tests run *)

Lemma read_world_address w : read (A:=Server) (address w) = Some {| address_port := w_port w |}.
Proof. unfold address. rewrite <- show_Server. apply read_show. Qed.

Lemma answers_listening w s files req :
  st_server s = SrvListening (w_port w) →
  answers static s files (address w) req = Some (handle (app static) files req).
Proof. intros Hs. unfold answers. rewrite read_world_address, Hs. cbn. by rewrite decide_True. Qed.

(** C30: the tests reach the server.  In every run of the script,
    whatever the faults, while the script is in the [try] statement a request
    sent to the address the suites were given is answered by the
    application, with the files of [docs]; and while it waits for the
    listing of a directory or for the kills the server still answers. *)
Theorem tests_are_answered h w s0 l files req :
  rtc (life_step h w) (Booting, s0) l →
  match l.1 with
  | Testing address _ _ =>
      answers static l.2 files address req = Some (handle (app static) files req)
  | Reading _ _ | AwaitKills _ _ =>
      answers static l.2 files (address w) req = Some (handle (app static) files req)
  | _ => True
  end.
Proof.
  intros Hl%life_inv_reaches. unfold life_inv in Hl.
  destruct l as [[] s]; cbn [fst snd] in *; try done.
  - destruct Hl as (_ & _ & -> & evs & _ & ->). apply answers_listening.
    by rewrite add_events_server, started_server.
  - destruct Hl as (_ & _ & fin & pending & _ & ->). apply answers_listening.
    by rewrite add_events_server, started_server.
  - destruct Hl as (_ & _ & _ & ->). apply answers_listening.
    by rewrite killed_server, add_event_server, tested_server.
Qed.

End app.

(** ** The reference middleware *)

Lemma is_dir_local root files files' path :
  (∀ file, root `prefix_of` file → files !! file = files' !! file) →
  is_dir files (root ++ path) = is_dir files' (root ++ path).
Proof.
  intros Hf. unfold is_dir. apply bool_decide_ext. unfold map_Exists.
  assert (∀ file, root ++ path `prefix_of` file → files !! file = files' !! file) as Hf'.
  { intros file Hp. apply Hf. etrans; [|done]. by apply prefix_app_r. }
  split; intros (file & content & Hl & Hp & Hne); exists file, content;
    (split; [|done]); [by rewrite <- Hf'|by rewrite Hf'].
Qed.

#[export] Instance serve_static_Static : Static serve_static.
Proof.
  split; unfold serve_static.
  - intros root files req r. by destruct (reads (req_method req)).
  - intros root files req file content. destruct (reads _); [|done]. cbn [negb].
    repeat case_match; intros; simplify_option_eq; split; try done; by apply prefix_app_r.
  - intros root files req location. destruct (reads _); [|done]. cbn [negb].
    repeat case_match; intros; by simplify_option_eq.
  - intros root files req. destruct (reads _); [|done]. cbn [negb].
    repeat case_match; intros ?; by simplify_option_eq.
  - intros root files req content Hm Hp Hf. rewrite Hm. cbn [reads negb].
    rewrite bool_decide_eq_false_2, Hp, Hf; [done|].
    intros Hl%last_Some_elem_of. rewrite forallb_elem_of in Hp. by apply Hp in Hl.
  - intros root files files' req Hf. destruct (reads _); [|done]. cbn [negb].
    rewrite !(Hf (root ++ _)) by by apply prefix_app_r.
    by rewrite (is_dir_local root files files' _ Hf).
Qed.

(** ** The sample machine *)

(** The script itself is not served, and it makes no difference to any
    answer whether it is on the disk. *)
Example app_ignores_script :
  handle (app serve_static) files_demo {| req_method := GET; req_path := ["run-e2e-tests.js"] |}
  = handle (app serve_static) (delete ["run-e2e-tests.js"] files_demo)
      {| req_method := GET; req_path := ["run-e2e-tests.js"] |}.
Proof.
  apply (app_local serve_static). intros file [k ->]. symmetry. by apply lookup_delete_ne.
Qed.

Lemma tests_are_answered_witness :
  answers serve_static
    (life_run faults_hung_run world_green (life_fuel world_green) (Booting, init_state)).2
    files_demo "http://localhost:41735" {| req_method := GET; req_path := ["bundle.js"] |}
  = Some (handle (app serve_static) files_demo {| req_method := GET; req_path := ["bundle.js"] |}).
Proof.
  exact (tests_are_answered serve_static faults_hung_run world_green init_state _ files_demo
           {| req_method := GET; req_path := ["bundle.js"] |}
           (life_run_reaches faults_hung_run world_green (life_fuel world_green)
              (Booting, init_state))).
Defined.

(** What the application answers on the sample files: a file, the index
    of a directory, a redirection to a directory; no file outside [docs],
    no path through [..], no hidden file, no method but [GET] and
    [HEAD]. *)
Example app_samples :
  handle (app serve_static) files_demo {| req_method := GET; req_path := ["bundle.js"] |}
  = Sent ["docs"; "bundle.js"] "customElements.define()"
  ∧ handle (app serve_static) files_demo {| req_method := GET; req_path := [""] |}
    = Sent ["docs"; "index.html"] "<h1>dash-elements</h1>"
  ∧ handle (app serve_static) files_demo {| req_method := GET; req_path := ["demo"] |}
    = Moved ["demo"; ""]
  ∧ handle (app serve_static) files_demo {| req_method := GET; req_path := [".."; "run-e2e-tests.js"] |}
    = NotFound
  ∧ handle (app serve_static) files_demo {| req_method := GET; req_path := ["run-e2e-tests.js"] |}
    = NotFound
  ∧ handle (app serve_static) files_demo {| req_method := DELETE; req_path := ["bundle.js"] |}
    = NotFound.
Proof. split_and!; by vm_compute. Qed.
