(* ===== verification/Cache.v ===== *)
(** * Cache: the suite files under the module cache of Node

    [mocha.loadFiles] loads a suite file with [require], and Node
    evaluates a module at its first [require] only: later calls return the
    cached exports and run nothing.  The suites of a file are declared by
    the [describe] calls that run while the file is evaluated, so a second
    Mocha instance that loads the same file gets no suite from it.  The
    specification has the discovery re-executed for every driver and not
    cached, and that is how [Effects.loadFiles] models it.  This file
    models the cache beside it: [buildMocha] and [runTests] are written out
    again over [loadFiles_cached], with the set of modules loaded so far
    passed from one discovery to the next, and the two are compared.  For
    the first driver nothing changes.  From the second driver on every
    Mocha instance is empty: its run has no test and reports no failure,
    whatever the suites would have found on that driver.

    The cache is an assumption about Node, like the other collaborators;
    a module that throws while it is evaluated is not cached. *)

From stdpp Require Import base tactics list strings numbers gmap.
From S2P Require Import Prelude Js Externals Effects Samples Discovery Sequencer Main Faults.

(** ** Definitions *)

(** The modules loaded so far, by the path given to [require]. *)
Definition Cache : Type := gset string.

(** One iteration of [loadFiles] under the cache: [require(file)]
    evaluates the file, and its [describe] calls add suites to the root
    suite, only when the file has not been loaded before. *)
Definition require_cached (w : World) (acc : Mocha * Cache) (file : string)
    : Prog (Mocha * Cache) :=
  emit (EvRequire file);;
  if decide (file ∈ acc.2) then mret acc
  else
    titles ← liftR (w_module w file);
    mret (describe_all titles acc.1, {[file]} ∪ acc.2).

(** [mocha.loadFiles(cb)] under the cache. *)
Definition loadFiles_cached (w : World) (cache : Cache) (m : Mocha) : Prog (Mocha * Cache) :=
  foldM (require_cached w) (m, cache) (mocha_files m).

(** [buildMocha()] (lines 21-40) under the cache. *)
Definition buildMocha_cached (w : World) (cache : Cache) : Prog (Mocha * Cache) :=
  let mocha := new_Mocha in
  listing ← readdir w "elements";
  elements ← await listing;
  probes ← mapM (probe w) elements;
  filteredElements ← await (Promise_all probes);
  let mocha := register filteredElements mocha in
  let mocha := set_timeout 60000 mocha in
  loadFiles_cached w cache mocha.

(** The body of the reducer after [await chain] (lines 101-106), the cache
    being the one the chain has left. *)
Definition step_cached (w : World) (address : string) (driver : Driver) (cache : Cache)
    : Prog Cache :=
  '(mocha, cache) ← buildMocha_cached w cache;
  let mocha := inject driver address mocha in
  runMocha w mocha;;
  mret cache.

(** The reducer of lines 99-107 under the cache. *)
Definition reducer_cached (w : World) (address : string)
    (chain : Prog Cache) (driver : Driver) : Prog Cache :=
  cache ← chain;
  '(mocha, cache) ← buildMocha_cached w cache;
  let mocha := inject driver address mocha in
  runMocha w mocha;;
  mret cache.

(** [runTests(address, drivers)] (lines 96-110) in a process whose cache is
    [cache]. *)
Definition runTests_cached (w : World) (address : string) (drivers : list Driver)
    (cache : Cache) : Prog Cache :=
  foldl (reducer_cached w address) (mret cache) drivers.

(** ** Specification *)

(** What [loadFiles_cached] does, as a function of the world: the Mocha,
    the cache and the events. *)
Fixpoint loaded_cached (w : World) (m : Mocha) (cache : Cache) (files : list string)
    : Result (Mocha * Cache) * list Event :=
  match files with
  | [] => (Fulfilled (m, cache), [])
  | file :: files' =>
      if decide (file ∈ cache) then
        let '(r, evs) := loaded_cached w m cache files' in (r, EvRequire file :: evs)
      else
        match w_module w file with
        | Fulfilled titles =>
            let '(r, evs) :=
              loaded_cached w (describe_all titles m) ({[file]} ∪ cache) files' in
            (r, EvRequire file :: evs)
        | Rejected e => (Rejected e, [EvRequire file])
        end
  end.

(** The cache a discovery that succeeds leaves behind, starting from an
    empty one: the registered files. *)
Definition cache_of (w : World) : Cache :=
  match (built w).1 with
  | Fulfilled m => list_to_set (mocha_files m)
  | Rejected _ => ∅
  end.

(** No directory lists a name twice. *)
Definition fs_ok (w : World) : Prop :=
  ∀ path entries, w_fs w !! path = Some (FsDir entries) → NoDup entries.

(** A Mocha without suites reports no failure. *)
Definition empty_passes (w : World) : Prop :=
  ∀ m, mocha_suites m = [] → w_failures w m = 0.

(** Two stable Chromes; the suites fail on the second driver only. *)
Definition world_second_fails : World :=
  {| w_browsers := [chrome_stable; chrome_stable]; w_port := w_port world_green;
     w_fs := w_fs world_green; w_latency := w_latency world_green;
     w_driver_error := w_driver_error world_green; w_module := w_module world_green;
     w_failures := λ m,
       if existsb (λ su, bool_decide (ctx_driver (suite_ctx su) = Some 1)) (mocha_suites m)
       then 1 else 0;
     w_kill_error := w_kill_error world_green;
     w_installed := w_installed world_green |}.

(** ** Loading *)

Lemma run_loadFiles_cached w m cache files s :
  foldM (require_cached w) (m, cache) files s =
  ((loaded_cached w m cache files).1, add_events (loaded_cached w m cache files).2 s).
Proof.
  revert m cache s. induction files as [|file files IH]; intros m cache s.
  - by rewrite run_foldM_nil, add_events_nil.
  - rewrite run_foldM_cons, run_bind. unfold require_cached at 1. rewrite run_bind, run_emit.
    cbn [snd fst loaded_cached]. destruct (decide (file ∈ cache)).
    + rewrite run_ret, IH, add_event_add_events, add_events_app.
      by destruct (loaded_cached w m cache files).
    + rewrite run_bind, run_liftR. destruct (w_module w file) as [titles|e]; [|done].
      rewrite run_ret, IH, add_event_add_events, add_events_app.
      by destruct (loaded_cached w (describe_all titles m) ({[file]} ∪ cache) files).
Qed.

(** Files that have not been loaded are evaluated, as without a cache. *)
Lemma loaded_cached_fresh w m cache files :
  NoDup files → (∀ file, file ∈ files → file ∉ cache) →
  loaded_cached w m cache files =
  (match (loaded w m files).1 with
   | Fulfilled m' => Fulfilled (m', list_to_set files ∪ cache)
   | Rejected e => Rejected e
   end, (loaded w m files).2).
Proof.
  intros Hnd. revert m cache. induction Hnd as [|file files Hfile _ IH]; intros m cache Hc.
  { simpl. by rewrite (left_id_L ∅ (∪)). }
  cbn [loaded_cached loaded]. rewrite decide_False by (apply Hc; left).
  destruct (w_module w file) as [titles|e]; [|done].
  rewrite IH.
  - destruct (loaded w (describe_all titles m) files) as [[m'|e] evs]; cbn [fst snd]; [|done].
    by rewrite list_to_set_cons, (assoc_L (∪) (list_to_set files)),
      (comm_L (∪) (list_to_set files) {[file]}).
  - intros f Hf [->%elem_of_singleton|Hin]%elem_of_union; [done|]. by apply (Hc f); [right|].
Qed.

(** Files that have been loaded are not evaluated again: the Mocha gets no
    suite. *)
Lemma loaded_cached_warm w m cache files :
  (∀ file, file ∈ files → file ∈ cache) →
  loaded_cached w m cache files = (Fulfilled (m, cache), EvRequire <$> files).
Proof.
  induction files as [|file files IH]; intros Hc; [done|].
  cbn [loaded_cached]. rewrite decide_True by (apply Hc; left).
  rewrite IH by (intros f Hf; apply Hc; by right). done.
Qed.

(** ** One discovery *)

Lemma run_buildMocha_cached w cache s :
  buildMocha_cached w cache s =
  match readdir_result w "elements" with
  | Rejected e => (Rejected e, add_events [EvReaddir "elements"] s)
  | Fulfilled elements =>
      match outcome (Promise_all (probe_promise w <$> elements)) with
      | Rejected e => (Rejected e, add_events (discovery_reads elements) s)
      | Fulfilled names =>
          let m := registered names in
          ((loaded_cached w m cache (mocha_files m)).1,
           add_events (discovery_reads elements ++ (loaded_cached w m cache (mocha_files m)).2) s)
      end
  end.
Proof.
  unfold buildMocha_cached. rewrite run_bind, run_readdir, run_bind, run_await. simpl.
  destruct (readdir_result w "elements") as [elements|e]; [|done].
  rewrite run_bind, run_probes, run_bind, run_await.
  rewrite add_event_add_events, add_events_app. simpl.
  destruct (outcome (Promise_all _)) as [names|e]; [|done].
  unfold loadFiles_cached. by rewrite run_loadFiles_cached, add_events_app.
Qed.

(** The registered files are distinct when the listing of [elements] is. *)
Lemma registered_NoDup w elements names :
  fs_ok w → readdir_result w "elements" = Fulfilled elements →
  outcome (Promise_all (probe_promise w <$> elements)) = Fulfilled names →
  NoDup (mocha_files (registered names)).
Proof.
  intros Hfs He%readdir_result_fulfilled Hp. rewrite registered_files.
  rewrite (probes_fulfilled w elements names) by by apply Promise_all_fulfilled.
  apply (NoDup_fmap_2 _), (sublist_NoDup _ elements); [by eapply Hfs|].
  apply Array_filter_sublist.
Qed.

(** From an empty cache a discovery is that of [buildMocha], and leaves
    the registered files in the cache. *)
Lemma run_buildMocha_first w s :
  fs_ok w →
  buildMocha_cached w ∅ s =
  (match (built w).1 with
   | Fulfilled m => Fulfilled (m, cache_of w)
   | Rejected e => Rejected e
   end, add_events (built w).2 s).
Proof.
  intros Hfs. rewrite run_buildMocha_cached. unfold cache_of, built.
  destruct (readdir_result w "elements") as [elements|e] eqn:He; [|done].
  destruct (outcome (Promise_all _)) as [names|e] eqn:Hp; [|done]. cbn zeta.
  rewrite loaded_cached_fresh; [|by eapply registered_NoDup|by intros f _ ?%not_elem_of_empty].
  cbn [fst snd]. destruct (loaded w _ _).1 as [m|e] eqn:Hl; [|done].
  destruct (loaded_fulfilled _ _ _ _ Hl) as (titles & _ & -> & _).
  by rewrite describe_all_files, (right_id_L ∅ (∪)).
Qed.

(** With the registered files in the cache a discovery succeeds when the
    first one did, and its Mocha has the registered files and no suite. *)
Lemma run_buildMocha_again w s m0 :
  (built w).1 = Fulfilled m0 →
  ∃ m evs, buildMocha_cached w (cache_of w) s = (Fulfilled (m, cache_of w), add_events evs s)
    ∧ mocha_suites m = [] ∧ Forall (λ ev, is_run ev = false) evs.
Proof.
  intros Hb. rewrite run_buildMocha_cached. unfold cache_of. rewrite Hb. unfold built in Hb.
  destruct (readdir_result w "elements") as [elements|e]; [|done].
  destruct (outcome (Promise_all _)) as [names|e]; [|done]. cbn [fst] in Hb. cbn zeta.
  destruct (loaded_fulfilled _ _ _ _ Hb) as (titles & _ & -> & _).
  rewrite describe_all_files, loaded_cached_warm by (intros f ?; by apply elem_of_list_to_set).
  eexists _, _. split_and!; [done|apply registered_suites|].
  apply Forall_app. split; [|by apply Forall_fmap, Forall_true].
  constructor; [done|]. by apply Forall_fmap, Forall_true.
Qed.

(** ** The chain *)

Lemma reducer_cached_step w address chain driver :
  reducer_cached w address chain driver = chain ≫= step_cached w address driver.
Proof. done. Qed.

Lemma foldl_reducer_cached w address chain drivers s :
  foldl (reducer_cached w address) chain drivers s =
  (chain ≫= runTests_cached w address drivers) s.
Proof.
  revert chain s. induction drivers as [|d ds IH]; intros chain s.
  - symmetry. apply bind_ret_r.
  - cbn [foldl]. rewrite IH, reducer_cached_step, bind_assoc. apply bind_ext.
    intros cache s'. unfold runTests_cached. cbn [foldl]. by rewrite IH.
Qed.

Lemma runTests_cached_cons w address driver drivers cache s :
  runTests_cached w address (driver :: drivers) cache s =
  (step_cached w address driver cache ≫= runTests_cached w address drivers) s.
Proof. unfold runTests_cached at 1. cbn [foldl]. by rewrite foldl_reducer_cached. Qed.

(** The step for the first driver is the step without a cache. *)
Lemma run_step_first w address driver s :
  fs_ok w →
  step_cached w address driver ∅ s =
  (match (run_one w address driver).1 with
   | Fulfilled _ => Fulfilled (cache_of w)
   | Rejected e => Rejected e
   end, add_events (run_one w address driver).2 s).
Proof.
  intros Hfs. unfold step_cached, run_one. rewrite run_bind, run_buildMocha_first by done.
  destruct (built w).1 as [m|e]; [|done].
  rewrite run_bind, run_runMocha, add_event_add_events, add_events_app.
  by case_bool_decide.
Qed.

(** A step for a later driver runs a Mocha without suites, and passes. *)
Lemma run_step_again w address driver s m0 :
  empty_passes w → (built w).1 = Fulfilled m0 →
  ∃ evs, step_cached w address driver (cache_of w) s = (Fulfilled (cache_of w), add_events evs s)
    ∧ Forall (λ ev, ∀ m n, ev = EvRun m n → mocha_suites m = [] ∧ n = 0) evs.
Proof.
  intros Hw Hb. unfold step_cached.
  destruct (run_buildMocha_again w s m0 Hb) as (m & evs & Hrun & Hm & Hevs).
  assert (mocha_suites (inject driver address m) = []) as Hi.
  { unfold inject. by rewrite with_suites_suites, Hm. }
  rewrite run_bind, Hrun, run_bind, run_runMocha, (Hw _ Hi). cbn.
  exists (evs ++ [EvRun (inject driver address m) 0]).
  rewrite add_event_add_events, add_events_app. split; [done|].
  apply Forall_app. split; [|by constructor; [intros ?? [= <- <-]|]].
  eapply Forall_impl; [done|]. by intros ev Hev ?? ->.
Qed.

Lemma run_chain_again w address drivers s m0 :
  empty_passes w → (built w).1 = Fulfilled m0 →
  ∃ evs, runTests_cached w address drivers (cache_of w) s
         = (Fulfilled (cache_of w), add_events evs s)
    ∧ Forall (λ ev, ∀ m n, ev = EvRun m n → mocha_suites m = [] ∧ n = 0) evs.
Proof.
  intros Hw Hb. revert s. induction drivers as [|d ds IH]; intros s.
  { exists []. by rewrite add_events_nil. }
  destruct (run_step_again w address d s m0 Hw Hb) as (evs1 & Hstep & H1).
  destruct (IH (add_events evs1 s)) as (evs2 & Hrest & H2).
  exists (evs1 ++ evs2). rewrite runTests_cached_cons, run_bind, Hstep, Hrest, add_events_app.
  split; [done|by apply Forall_app].
Qed.

(** ** The theorem *)

(** C12: under the module cache only the first driver is tested.  On a
    machine whose directories list no name twice and on which a Mocha
    without suites reports no failure, in a process that has loaded no
    suite file yet, [runTests] for the drivers [d :: ds] settles as
    [runTests] for [d] alone does under the model without a cache; it
    begins with the same events, and every Mocha run after them is the run
    of an instance without suites, which reports no failure: the suites
    are not run on any driver after the first. *)
Theorem cached_first_driver_only w address d ds s :
  fs_ok w → empty_passes w →
  ∃ evs,
    settled (runTests_cached w address (d :: ds) ∅ s).1 = (runTests w address [d] s).1
    ∧ (runTests_cached w address (d :: ds) ∅ s).2 = add_events evs (runTests w address [d] s).2
    ∧ Forall (λ ev, ∀ m n, ev = EvRun m n → mocha_suites m = [] ∧ n = 0) evs.
Proof.
  intros Hfs Hw. rewrite runTests_cached_cons, run_bind, run_step_first by done.
  rewrite runTests_cons, run_bind, run_step_spec, runTests_nil. unfold run_one.
  destruct (built w).1 as [m0|e] eqn:Hb; cbn [fst snd]; [|exists []; by rewrite add_events_nil].
  case_bool_decide; [|exists []; by rewrite add_events_nil].
  destruct (run_chain_again w address ds
              (add_events ((built w).2 ++ [EvRun (inject d address m0)
                                             (w_failures w (inject d address m0))]) s) m0 Hw Hb)
    as (evs & -> & Hevs).
  by exists evs.
Qed.

(** ** The sample machine *)

Lemma world_second_fails_fs_ok : fs_ok world_second_fails.
Proof.
  intros path entries. cbn [w_fs world_second_fails world_green]. unfold fs_two_units.
  rewrite !lookup_insert_Some, lookup_singleton_Some.
  intros [[_ [= <-]]|[_ [[_ [= <-]]|[_ [_ [= <-]]]]]]; apply (bool_decide_unpack _); by vm_compute.
Qed.

Lemma world_second_fails_empty_passes : empty_passes world_second_fails.
Proof. intros m Hm. cbn [w_failures world_second_fails]. by rewrite Hm. Qed.

Lemma cached_first_driver_only_witness :
  ∃ evs,
    settled (runTests_cached world_second_fails "http://localhost:41735" [0; 1] ∅ init_state).1
    = (runTests world_second_fails "http://localhost:41735" [0] init_state).1
    ∧ (runTests_cached world_second_fails "http://localhost:41735" [0; 1] ∅ init_state).2
      = add_events evs (runTests world_second_fails "http://localhost:41735" [0] init_state).2
    ∧ Forall (λ ev, ∀ m n, ev = EvRun m n → mocha_suites m = [] ∧ n = 0) evs.
Proof.
  exact (cached_first_driver_only world_second_fails "http://localhost:41735" 0 [1] init_state
           world_second_fails_fs_ok world_second_fails_empty_passes).
Defined.

(** The suites fail on the second driver.  Without the cache [runTests]
    is rejected; under the cache it is fulfilled, the second run being
    that of a Mocha with no suite. *)
Example cache_hides_second_driver :
  (runTests world_second_fails "http://localhost:41735" [0; 1] init_state).1
  = Rejected VUndefined
  ∧ settled (runTests_cached world_second_fails "http://localhost:41735" [0; 1] ∅ init_state).1
    = Fulfilled tt
  ∧ last (st_trace (runTests_cached world_second_fails "http://localhost:41735" [0; 1] ∅
                      init_state).2)
    = Some (EvRun {| mocha_files := ["./elements/unit-a/unit-a.e2etest"];
                     mocha_timeout := 60000; mocha_suites := [] |} 0).
Proof. split_and!; by vm_compute. Qed.
